(** * SPI-mode SD card driver (SDFileSystem.c, SDCard.h) and its storage
      RPC front end: a shallow embedding and the properties checked on it.

    Integers are [Z] with the C conversions written out.  The SPI bus is
    reached only through the three function pointers of [spisd_hal_t]; the
    device behind them is an arbitrary state machine.  The two [while] loops
    of [_read] and [_write] have no bound in the source, so they are run on
    fuel and report [Diverge] when it is used up; every other loop of the
    driver is a counted [for] loop and is run in full. *)

From Stdlib Require Import ZArith List Lia Bool.
Import ListNotations.
Open Scope Z_scope.

(** ** C integer conversions *)

Definition u8 (x : Z) : Z := x mod 256.
Definition u32 (x : Z) : Z := x mod 2 ^ 32.
(** conversion to [int] (two's complement, 32 bit) *)
Definition s32 (x : Z) : Z := (x + 2 ^ 31) mod 2 ^ 32 - 2 ^ 31.
(** conversion to [off_t] (two's complement, 64 bit) *)
Definition s64 (x : Z) : Z := (x + 2 ^ 63) mod 2 ^ 64 - 2 ^ 63.

(** ** SDCard.h *)

Definition R1_IDLE_STATE : Z := Z.shiftl 1 0.
Definition R1_ERASE_RESET : Z := Z.shiftl 1 1.
Definition R1_ILLEGAL_COMMAND : Z := Z.shiftl 1 2.
Definition R1_COM_CRC_ERROR : Z := Z.shiftl 1 3.
Definition R1_ERASE_SEQUENCE_ERROR : Z := Z.shiftl 1 4.
Definition R1_ADDRESS_ERROR : Z := Z.shiftl 1 5.
Definition R1_PARAMETER_ERROR : Z := Z.shiftl 1 6.

Definition SDCARD_FAIL : Z := 0.
Definition SDCARD_V1 : Z := 1.
Definition SDCARD_V2 : Z := 2.
Definition SDCARD_V2HC : Z := 3.

Definition SD_COMMAND_TIMEOUT : nat := 5000.
Definition BLOCK_SIZE : Z := 512.

(** [ext_bits]: one turn of the loop body.  [data[byte]] outside the 16-byte
    register and a shift by 32 or more have no defined result in C: [None]. *)
Definition ext_bits_body (data : list Z) (lsb i bits : Z) : option Z :=
  let position := u32 (lsb + i) in
  let byte := u32 (15 - Z.shiftr position 3) in
  let bit := Z.land position 7 in
  match nth_error data (Z.to_nat byte) with
  | None => None
  | Some d =>
      if 32 <=? i then None
      else
        let value := Z.land (Z.shiftr d bit) 1 in
        Some (Z.lor bits (u32 (Z.shiftl value i)))
  end.

(** [for (uint32_t i = 0; i < size; i++)], with [n] turns left. *)
Fixpoint ext_bits_loop (n : nat) (data : list Z) (lsb i bits : Z) : option Z :=
  match n with
  | O => Some bits
  | S n' =>
      match ext_bits_body data lsb i bits with
      | None => None
      | Some bits' => ext_bits_loop n' data lsb (i + 1) bits'
      end
  end.

Definition ext_bits (data : list Z) (msb lsb : Z) : option Z :=
  let size := u32 (1 + msb - lsb) in
  ext_bits_loop (Z.to_nat size) data lsb 0 0.

(** ** Reference reading of the CSD register: one 128-bit number, first
    transmitted byte most significant, and a bit range cut out of it by
    division. *)

Definition csd_value (data : list Z) : Z :=
  fold_left (fun acc b => acc * 256 + b) data 0.

Definition bit_slice (data : list Z) (msb lsb : Z) : Z :=
  (csd_value data / 2 ^ lsb) mod 2 ^ (msb - lsb + 1).

Definition is_byte (b : Z) : Prop := 0 <= b < 256.
Definition is_register (data : list Z) : Prop :=
  length data = 16%nat /\ Forall is_byte data.

(** ** SDStructs.h: the hardware abstraction layer

    [spisd_hal_t] holds three function pointers.  Here they act on the state
    [D] of whatever stands behind the bus. *)

Record spisd_hal_t (D : Type) : Type := mk_hal {
  _spi_transfer : D -> Z -> D * Z;
  _spi_cs : D -> Z -> D;
  _spi_wait : D -> Z -> D
}.
Arguments mk_hal {D} _ _ _.
Arguments _spi_transfer {D} _ _ _.
Arguments _spi_cs {D} _ _ _.
Arguments _spi_wait {D} _ _ _.

(** What happened on the bus, newest event first.  [EvCommand] and
    [EvResponse] are ghost events: they record the index and argument a
    command function was called with and the value it returned. *)
Inductive event : Type :=
| EvTransfer (tx rx : Z)
| EvCS (cs : Z)
| EvWait (ms : Z)
| EvCommand (cmd arg : Z)
| EvResponse (cmd r : Z).

Definition is_transfer (e : event) : bool :=
  match e with EvTransfer _ _ => true | _ => false end.

(** number of bytes exchanged on the bus *)
Definition transfers (t : list event) : nat := length (filter is_transfer t).

Fixpoint commands (t : list event) : list (Z * Z) :=
  match t with
  | [] => []
  | EvCommand c a :: t' => (c, a) :: commands t'
  | _ :: t' => commands t'
  end.

Fixpoint responses (t : list event) : list (Z * Z) :=
  match t with
  | [] => []
  | EvResponse c r :: t' => (c, r) :: responses t'
  | _ :: t' => responses t'
  end.

(** the events of [t'] that came after [t] *)
Definition new_events (t t' : list event) : list event :=
  firstn (length t' - length t) t'.

(** Status codes of the RPC interface (OS_Error.h). *)
Inductive OS_Error_t : Type :=
| OS_SUCCESS
| OS_ERROR_INVALID_STATE
| OS_ERROR_INVALID_PARAMETER
| OS_ERROR_OUT_OF_BOUNDS
| OS_ERROR_GENERIC.

(** What an RPC handler hands back: its return value, the final content of
    its out-parameter ([*written], [*read], [*erased]) and, as a ghost, the
    local byte counter ([bytesWritten], [bytesRead], [bytesErased]) at the
    moment of return. *)
Record rpc_result : Type := mk_rpc {
  status : OS_Error_t;
  out_bytes : Z;
  local_bytes : Z
}.

Inductive rpc_op : Type := OpRead | OpWrite | OpErase.

Section Driver.

Variable D : Type.

(** The state the code runs on: the device, the bus log, the file-scope
    variables of SDFileSystem.c, and the [ctx] of the component. *)
Record world : Type := mk_world {
  dev : D;
  trace : list event;
  _cdv : Z;
  _is_initialized : Z;
  _sectors : Z;
  spi_hal : option (spisd_hal_t D);   (* ctx.spi_sd_ctx.hal, [None] for NULL *)
  init_ok : bool;                     (* ctx.init_ok *)
  port_storage : list Z               (* the bytes of the dataport *)
}.

Definition set_dev (d : D) (w : world) : world :=
  mk_world d (trace w) (_cdv w) (_is_initialized w) (_sectors w)
           (spi_hal w) (init_ok w) (port_storage w).
Definition log (e : event) (w : world) : world :=
  mk_world (dev w) (e :: trace w) (_cdv w) (_is_initialized w) (_sectors w)
           (spi_hal w) (init_ok w) (port_storage w).
Definition set_cdv (v : Z) (w : world) : world :=
  mk_world (dev w) (trace w) v (_is_initialized w) (_sectors w)
           (spi_hal w) (init_ok w) (port_storage w).
Definition set_is_initialized (v : Z) (w : world) : world :=
  mk_world (dev w) (trace w) (_cdv w) v (_sectors w)
           (spi_hal w) (init_ok w) (port_storage w).
Definition set_sectors (v : Z) (w : world) : world :=
  mk_world (dev w) (trace w) (_cdv w) (_is_initialized w) v
           (spi_hal w) (init_ok w) (port_storage w).
Definition set_spi_hal (h : option (spisd_hal_t D)) (w : world) : world :=
  mk_world (dev w) (trace w) (_cdv w) (_is_initialized w) (_sectors w)
           h (init_ok w) (port_storage w).
Definition set_init_ok (b : bool) (w : world) : world :=
  mk_world (dev w) (trace w) (_cdv w) (_is_initialized w) (_sectors w)
           (spi_hal w) b (port_storage w).
Definition set_port_storage (p : list Z) (w : world) : world :=
  mk_world (dev w) (trace w) (_cdv w) (_is_initialized w) (_sectors w)
           (spi_hal w) (init_ok w) p.

(** A run ends with a value and a new state, or in behaviour C leaves
    undefined (a store outside an array, a call through a NULL table), or has
    not ended when the fuel of an unbounded loop is used up. *)
Inductive result (A : Type) : Type :=
| Ok (a : A) (w : world)
| Undefined
| Diverge.
Arguments Ok {A} _ _.
Arguments Undefined {A}.
Arguments Diverge {A}.

Definition M (A : Type) : Type := world -> result A.

Definition ret {A} (a : A) : M A := fun w => Ok a w.
Definition bind {A B} (m : M A) (f : A -> M B) : M B :=
  fun w => match m w with
           | Ok a w' => f a w'
           | Undefined => Undefined
           | Diverge => Diverge
           end.
Definition undefined {A} : M A := fun _ => Undefined.
Definition diverge {A} : M A := fun _ => Diverge.
Definition get {A} (f : world -> A) : M A := fun w => Ok (f w) w.
Definition modify (f : world -> world) : M unit := fun w => Ok tt (f w).
Definition lift_option {A} (o : option A) : M A :=
  match o with Some a => ret a | None => undefined end.

Notation "x <- c1 ;; c2" := (bind c1 (fun x => c2))
  (at level 61, c1 at next level, right associativity).
Notation "' pat <- c1 ;; c2" := (bind c1 (fun x => match x with pat => c2 end))
  (at level 61, pat pattern, c1 at next level, right associativity).
Notation "c1 ;; c2" := (bind c1 (fun _ => c2))
  (at level 61, right associativity).

(** *** Calls through [spi->hal] *)

Definition hal_cs (cs : Z) : M unit :=
  fun w => match spi_hal w with
           | None => Undefined
           | Some h => Ok tt (log (EvCS cs) (set_dev (_spi_cs h (dev w) cs) w))
           end.

Definition hal_wait (ms : Z) : M unit :=
  fun w => match spi_hal w with
           | None => Undefined
           | Some h => Ok tt (log (EvWait ms) (set_dev (_spi_wait h (dev w) ms) w))
           end.

(** [_spi_read_write]: argument and result are [uint8_t]. *)
Definition _spi_read_write (data : Z) : M Z :=
  fun w => match spi_hal w with
           | None => Undefined
           | Some h =>
               let '(d, rx) := _spi_transfer h (dev w) (u8 data) in
               Ok (u8 rx) (log (EvTransfer (u8 data) (u8 rx)) (set_dev d w))
           end.

(** *** Commands *)

(** The polling loop of [_cmd] with [n] turns left, and the lines after it. *)
Fixpoint _cmd_poll (n : nat) : M Z :=
  match n with
  | O => hal_cs 0 ;; _spi_read_write 0xFF ;; ret (-1)
  | S n' =>
      response <- _spi_read_write 0xFF ;;
      if Z.land response 0x80 =? 0
      then hal_cs 0 ;; _spi_read_write 0xFF ;; ret response
      else _cmd_poll n'
  end.

Definition _cmd (cmd arg : Z) : M Z :=
  modify (log (EvCommand cmd arg)) ;;
  hal_cs 1 ;;
  _spi_read_write (Z.lor 0x40 cmd) ;;
  _spi_read_write (Z.shiftr arg 24) ;;
  _spi_read_write (Z.shiftr arg 16) ;;
  _spi_read_write (Z.shiftr arg 8) ;;
  _spi_read_write (Z.shiftr arg 0) ;;
  _spi_read_write 0x95 ;;
  r <- _cmd_poll SD_COMMAND_TIMEOUT ;;
  modify (log (EvResponse cmd r)) ;;
  ret r.

Fixpoint _cmdx_poll (n : nat) : M Z :=
  match n with
  | O => hal_cs 0 ;; _spi_read_write 0xFF ;; ret (-1)
  | S n' =>
      response <- _spi_read_write 0xFF ;;
      if Z.land response 0x80 =? 0
      then ret response
      else _cmdx_poll n'
  end.

Definition _cmdx (cmd arg : Z) : M Z :=
  modify (log (EvCommand cmd arg)) ;;
  hal_cs 1 ;;
  _spi_read_write (Z.lor 0x40 cmd) ;;
  _spi_read_write (Z.shiftr arg 24) ;;
  _spi_read_write (Z.shiftr arg 16) ;;
  _spi_read_write (Z.shiftr arg 8) ;;
  _spi_read_write (Z.shiftr arg 0) ;;
  _spi_read_write 0x95 ;;
  r <- _cmdx_poll SD_COMMAND_TIMEOUT ;;
  modify (log (EvResponse cmd r)) ;;
  ret r.

Fixpoint _cmd58_poll (n : nat) : M Z :=
  match n with
  | O => hal_cs 0 ;; _spi_read_write 0xFF ;; ret (-1)
  | S n' =>
      response <- _spi_read_write 0xFF ;;
      if Z.land response 0x80 =? 0
      then
        b3 <- _spi_read_write 0xFF ;;
        let ocr := s32 (Z.shiftl b3 24) in
        b2 <- _spi_read_write 0xFF ;;
        let ocr := Z.lor ocr (Z.shiftl b2 16) in
        b1 <- _spi_read_write 0xFF ;;
        let ocr := Z.lor ocr (Z.shiftl b1 8) in
        b0 <- _spi_read_write 0xFF ;;
        let ocr := Z.lor ocr (Z.shiftl b0 0) in
        hal_cs 0 ;; _spi_read_write 0xFF ;; ret response
      else _cmd58_poll n'
  end.

Definition _cmd58 : M Z :=
  modify (log (EvCommand 58 0)) ;;
  hal_cs 1 ;;
  let arg := 0 in
  _spi_read_write (Z.lor 0x40 58) ;;
  _spi_read_write (Z.shiftr arg 24) ;;
  _spi_read_write (Z.shiftr arg 16) ;;
  _spi_read_write (Z.shiftr arg 8) ;;
  _spi_read_write (Z.shiftr arg 0) ;;
  _spi_read_write 0x95 ;;
  r <- _cmd58_poll SD_COMMAND_TIMEOUT ;;
  modify (log (EvResponse 58 r)) ;;
  ret r.

(** [response[i] = v] on [char response[5]]: [None] outside the array. *)
Definition store_response (response : list Z) (i v : Z) : option (list Z) :=
  if (0 <=? i) && (i <? 5)
  then Some (firstn (Z.to_nat i) response ++ v :: skipn (S (Z.to_nat i)) response)
  else None.

(** [for (int j = 1; j < 5; j++) response[i] = _spi_read_write(spi,0xFF);]
    with [k] turns left.  The index is the outer [i], as in the source. *)
Fixpoint _cmd8_trailing (k : nat) (i : Z) (response : list Z) : M (list Z) :=
  match k with
  | O => ret response
  | S k' =>
      b <- _spi_read_write 0xFF ;;
      response' <- lift_option (store_response response i b) ;;
      _cmd8_trailing k' i response'
  end.

(** The polling loop of [_cmd8] at index [i] with [n] turns left.
    [response[1..4]] start out indeterminate and are never read; [char] is
    unsigned on the target (ARM), so [response[0]] is returned as it is. *)
Fixpoint _cmd8_poll (n : nat) (i : Z) : M Z :=
  match n with
  | O => hal_cs 0 ;; _spi_read_write 0xFF ;; ret (-1)
  | S n' =>
      r0 <- _spi_read_write 0xFF ;;
      let response := [r0; 0; 0; 0; 0] in
      if Z.land (nth 0 response 0) 0x80 =? 0
      then
        response <- _cmd8_trailing 4 i response ;;
        hal_cs 0 ;; _spi_read_write 0xFF ;; ret (nth 0 response 0)
      else _cmd8_poll n' (i + 1)
  end.

Definition _cmd8 : M Z :=
  modify (log (EvCommand 8 0x1AA)) ;;
  hal_cs 1 ;;
  _spi_read_write (Z.lor 0x40 8) ;;
  _spi_read_write 0x00 ;;
  _spi_read_write 0x00 ;;
  _spi_read_write 0x01 ;;
  _spi_read_write 0xAA ;;
  _spi_read_write 0x87 ;;
  r <- _cmd8_poll (SD_COMMAND_TIMEOUT * 1000) 0 ;;
  modify (log (EvResponse 8 r)) ;;
  ret r.

(** *** Single block transfers *)

(** [while (_spi_read_write(spi,0xFF) != 0xFE);] *)
Fixpoint wait_start_token (fuel : nat) : M unit :=
  match fuel with
  | O => diverge
  | S fuel' =>
      b <- _spi_read_write 0xFF ;;
      if b =? 0xFE then ret tt else wait_start_token fuel'
  end.

(** [for (i = 0; i < length; i++) buffer[i] = _spi_read_write(spi,0xFF);]
    with [n] turns left; the bytes stored, in order. *)
Fixpoint read_bytes (n : nat) : M (list Z) :=
  match n with
  | O => ret []
  | S n' =>
      b <- _spi_read_write 0xFF ;;
      rest <- read_bytes n' ;;
      ret (b :: rest)
  end.

(** [_read] returns its status and the [length] bytes it stored at
    [buffer].  The driver calls it with [length] 16 and 512 only. *)
Definition _read (fuel : nat) (length : Z) : M (Z * list Z) :=
  hal_cs 1 ;;
  wait_start_token fuel ;;
  data <- read_bytes (Z.to_nat length) ;;
  _spi_read_write 0xFF ;;
  _spi_read_write 0xFF ;;
  hal_cs 0 ;;
  _spi_read_write 0xFF ;;
  ret (0, data).

(** [for (i = 0; i < length; i++) _spi_read_write(spi,buffer[i]);] *)
Fixpoint write_bytes (n : nat) (buffer : list Z) (i : nat) : M unit :=
  match n with
  | O => ret tt
  | S n' =>
      b <- lift_option (nth_error buffer i) ;;
      _spi_read_write b ;;
      write_bytes n' buffer (S i)
  end.

(** [while (_spi_read_write(spi,0xFF) == 0);] *)
Fixpoint wait_not_busy (fuel : nat) : M unit :=
  match fuel with
  | O => diverge
  | S fuel' =>
      b <- _spi_read_write 0xFF ;;
      if b =? 0 then wait_not_busy fuel' else ret tt
  end.

Definition _write (fuel : nat) (buffer : list Z) (length : Z) : M Z :=
  hal_cs 1 ;;
  _spi_read_write 0xFE ;;
  write_bytes (Z.to_nat length) buffer 0 ;;
  _spi_read_write 0xFF ;;
  _spi_read_write 0xFF ;;
  token <- _spi_read_write 0xFF ;;
  if negb (Z.land token 0x1F =? 0x05)
  then hal_cs 0 ;; _spi_read_write 0xFF ;; ret 1
  else
    wait_not_busy fuel ;;
    hal_cs 0 ;;
    _spi_read_write 0xFF ;;
    ret 0.

(** *** Capacity *)

Definition _sd_sectors (fuel : nat) : M Z :=
  r <- _cmdx 9 0 ;;
  if negb (r =? 0) then ret 0
  else
    '(rr, csd) <- _read fuel 16 ;;
    if negb (rr =? 0) then ret 0
    else
      csd_structure <- lift_option (ext_bits csd 127 126) ;;
      if csd_structure =? 0 then
        modify (set_cdv BLOCK_SIZE) ;;
        c_size <- lift_option (ext_bits csd 73 62) ;;
        c_size_mult <- lift_option (ext_bits csd 49 47) ;;
        read_bl_len <- lift_option (ext_bits csd 83 80) ;;
        let block_len := u32 (Z.shiftl 1 read_bl_len) in
        let mult := u32 (Z.shiftl 1 (u32 (c_size_mult + 2))) in
        let blocknr := u32 (u32 (c_size + 1) * mult) in
        let capacity := u32 (blocknr * block_len) in
        let blocks := capacity / BLOCK_SIZE in
        ret blocks
      else if csd_structure =? 1 then
        modify (set_cdv 1) ;;
        hc_c_size <- lift_option (ext_bits csd 69 48) ;;
        let blocks := s64 (s64 (hc_c_size + 1) * 1024) in
        ret blocks
      else ret 0.

Definition disk_block_size : Z := BLOCK_SIZE.

Definition disk_sectors : M Z := get _sectors.

Definition disk_capacity (fuel : nat) : M Z :=
  r <- _cmdx 9 0 ;;
  if negb (r =? 0) then ret 0
  else
    '(rr, csd) <- _read fuel 16 ;;
    if negb (rr =? 0) then ret 0
    else
      csd_structure <- lift_option (ext_bits csd 127 126) ;;
      if csd_structure =? 0 then
        c_size <- lift_option (ext_bits csd 73 62) ;;
        c_size_mult <- lift_option (ext_bits csd 49 47) ;;
        read_bl_len <- lift_option (ext_bits csd 83 80) ;;
        let block_len := u32 (Z.shiftl 1 read_bl_len) in
        let mult := u32 (Z.shiftl 1 (u32 (c_size_mult + 2))) in
        let blocknr := u32 (u32 (c_size + 1) * mult) in
        let capacity := u32 (blocknr * block_len) in
        ret capacity
      else if csd_structure =? 1 then
        sectors <- get _sectors ;;
        ret (s64 (sectors * BLOCK_SIZE))
      else ret 0.

(** *** Bring-up *)

(** [for (int i = 0; i < 16; i++) _spi_read_write(spi,0xFF);] *)
Fixpoint clock_card (n : nat) : M unit :=
  match n with
  | O => ret tt
  | S n' => _spi_read_write 0xFF ;; clock_card n'
  end.

Fixpoint initialise_card_v1_loop (n : nat) : M Z :=
  match n with
  | O => ret SDCARD_FAIL
  | S n' =>
      _cmd 55 0 ;;
      r <- _cmd 41 0 ;;
      if r =? 0 then modify (set_cdv BLOCK_SIZE) ;; ret SDCARD_V1
      else initialise_card_v1_loop n'
  end.

Definition initialise_card_v1 : M Z :=
  initialise_card_v1_loop SD_COMMAND_TIMEOUT.

Fixpoint initialise_card_v2_loop (n : nat) : M Z :=
  match n with
  | O => ret SDCARD_FAIL
  | S n' =>
      hal_wait 50 ;;
      _cmd58 ;;
      _cmd 55 0 ;;
      r <- _cmd 41 0x40000000 ;;
      if r =? 0 then _cmd58 ;; modify (set_cdv 1) ;; ret SDCARD_V2
      else initialise_card_v2_loop n'
  end.

Definition initialise_card_v2 : M Z :=
  initialise_card_v2_loop SD_COMMAND_TIMEOUT.

(** [memset(spi, 0, ...); spi->cfg = cfg; spi->hal = hal;] leaves the table
    pointer set to the caller's [hal]. *)
Definition initialise_card (hal : spisd_hal_t D) : M Z :=
  modify (set_spi_hal (Some hal)) ;;
  hal_cs 0 ;;
  clock_card 16 ;;
  _cmd 0 0 ;;
  _cmd 0 0 ;;
  _cmd 0 0 ;;
  _cmd 0 0 ;;
  _cmd 0 0 ;;
  r0 <- _cmd 0 0 ;;
  if negb (r0 =? R1_IDLE_STATE) then ret SDCARD_FAIL
  else
    r <- _cmd8 ;;
    if r =? R1_IDLE_STATE then initialise_card_v2
    else if r =? Z.lor R1_IDLE_STATE R1_ILLEGAL_COMMAND then initialise_card_v1
    else ret SDCARD_FAIL.

Definition disk_initialize (fuel : nat) (hal : spisd_hal_t D) : M Z :=
  r <- initialise_card hal ;;
  modify (set_is_initialized r) ;;
  if r =? 0 then ret 1
  else
    s <- _sd_sectors fuel ;;
    modify (set_sectors s) ;;
    r16 <- _cmd 16 BLOCK_SIZE ;;
    if negb (r16 =? 0) then ret 1
    else ret 0.

(** *** Block access *)

(** [for (uint32_t b = block_number; b < block_number + count; b++)] of
    [disk_write]; [limit] is [block_number + count], [buffer] the bytes from
    the current position of the pointer on.  The result of [_write] is
    dropped, as in the source. *)
Fixpoint disk_write_loop (n fuel : nat) (b limit : Z) (buffer : list Z) : M Z :=
  if b <? limit then
    match n with
    | O => diverge
    | S n' =>
        cdv <- get _cdv ;;
        r <- _cmd 24 (s32 (u32 (b * cdv))) ;;
        if negb (r =? 0) then ret 1
        else
          _write fuel buffer BLOCK_SIZE ;;
          disk_write_loop n' fuel (u32 (b + 1)) limit
                          (skipn (Z.to_nat BLOCK_SIZE) buffer)
    end
  else ret 0.

Definition disk_write (fuel : nat) (buffer : list Z) (block_number count : Z)
  : M Z :=
  init <- get _is_initialized ;;
  if init =? 0 then ret (-1)
  else disk_write_loop fuel fuel (u32 block_number)
                       (s64 (block_number + count)) buffer.

(** [dst] with [src] copied to offset [off] ([memcpy(dst + off, src, n)] with
    [src] holding the [n] bytes). *)
Definition splice (dst : list Z) (off : Z) (src : list Z) : list Z :=
  firstn (Z.to_nat off) dst ++ src ++ skipn (Z.to_nat off + length src) dst.

(** The loop of [disk_read]; [pos] is how far [buffer] was advanced.  The
    result of [_read] is dropped, as in the source. *)
Fixpoint disk_read_loop (n fuel : nat) (b limit : Z) (buffer : list Z)
         (pos : Z) : M (Z * list Z) :=
  if b <? limit then
    match n with
    | O => diverge
    | S n' =>
        cdv <- get _cdv ;;
        r <- _cmd 17 (s32 (u32 (b * cdv))) ;;
        if negb (r =? 0) then ret (1, buffer)
        else
          '(_, data) <- _read fuel BLOCK_SIZE ;;
          disk_read_loop n' fuel (u32 (b + 1)) limit
                         (splice buffer pos data) (pos + BLOCK_SIZE)
    end
  else ret (0, buffer).

(** [disk_read] returns its status and the content of [buffer] afterwards. *)
Definition disk_read (fuel : nat) (buffer : list Z) (block_number count : Z)
  : M (Z * list Z) :=
  init <- get _is_initialized ;;
  if init =? 0 then ret (-1, buffer)
  else disk_read_loop fuel fuel (u32 block_number)
                      (s64 (block_number + count)) buffer 0.

Definition disk_status : M Z :=
  init <- get _is_initialized ;;
  if negb (init =? 0) then ret 0 else ret 1.


(** ** The storage component (RPC handlers on top of the driver) *)

(** Data model of the target: [true] when [size_t] and [off_t] are both 64
    bits wide, [false] when [size_t] has 32 bits.  It matters only where an
    [off_t] is compared with a [size_t]. *)
Variable LP64 : bool.

Definition OS_Dataport_getSize : M Z :=
  get (fun w => Z.of_nat (length (port_storage w))).

Definition OS_Dataport_getBuf : M (list Z) := get port_storage.

(** [&&] evaluates left to right and stops at the first false operand, so
    [disk_capacity] runs only when the three comparisons before it hold. *)
Definition isValidMSDArea (fuel : nat) (offset size : Z) : M bool :=
  let end_ := s64 (offset + size) in
  if (offset >=? 0) && (size >=? 0) && (end_ >=? offset)
  then cap <- disk_capacity fuel ;; ret (end_ <=? cap)
  else ret false.

(** [begin_result] is what [bcm2837_spi_begin] returned (1, or -1 on
    failure).  The value of [disk_initialize] is not looked at. *)
Definition post_init (fuel : nat) (begin_result : Z) (hal : spisd_hal_t D)
  : M unit :=
  if begin_result =? 0 then ret tt
  else
    disk_initialize fuel hal ;;
    h <- get spi_hal ;;
    match h with
    | None => ret tt
    | Some _ => modify (set_init_ok true)
    end.

(** [size <= (disk_block_size() - (offset - sector * disk_block_size()))
      ? size : ...] *)
Definition nbr_of_bytes (offset sector size : Z) : Z :=
  let room := disk_block_size - (offset - sector * disk_block_size) in
  if size <=? room then size else room.

(** [while (size > disk_block_size())] of [storage_rpc_write]: [inl] when a
    block failed (with the counter at that moment), [inr] with the loop
    variables otherwise. *)
Fixpoint write_remaining (n fuel : nat) (size bytesWritten sector : Z)
         (buffer block : list Z)
  : M (Z + (Z * Z * Z * list Z * list Z)) :=
  if size >? disk_block_size then
    match n with
    | O => diverge
    | S n' =>
        let block := splice block 0 (firstn (Z.to_nat disk_block_size) buffer) in
        let sector := u32 (sector + 1) in
        r <- disk_write fuel block sector 1 ;;
        if negb (r =? 0) then ret (inl bytesWritten)
        else write_remaining n' fuel (size - disk_block_size)
                             (s32 (bytesWritten + disk_block_size)) sector
                             (skipn (Z.to_nat disk_block_size) buffer) block
    end
  else ret (inr (size, bytesWritten, sector, buffer, block)).

Definition storage_rpc_write (fuel : nat) (offset size : Z) : M rpc_result :=
  let written := 0 in
  ok <- get init_ok ;;
  if negb ok then ret (mk_rpc OS_ERROR_INVALID_STATE written 0)
  else
    dataport_size <- OS_Dataport_getSize ;;
    if size >? dataport_size
    then ret (mk_rpc OS_ERROR_INVALID_PARAMETER written 0)
    else
      valid <- isValidMSDArea fuel offset (s64 size) ;;
      if negb valid then ret (mk_rpc OS_ERROR_OUT_OF_BOUNDS written 0)
      else
        buffer <- OS_Dataport_getBuf ;;
        let bytesWritten := 0 in
        if size >? 0 then
          let block := repeat 0 (Z.to_nat disk_block_size) in
          let sector := u32 (Z.quot offset disk_block_size) in
          '(r, block) <- disk_read fuel block sector 1 ;;
          if negb (r =? 0) then ret (mk_rpc OS_ERROR_GENERIC written bytesWritten)
          else
            let nbr := nbr_of_bytes offset sector size in
            let block :=
              splice block (offset - sector * disk_block_size)
                     (firstn (Z.to_nat nbr) buffer) in
            r <- disk_write fuel block sector 1 ;;
            if negb (r =? 0) then ret (mk_rpc OS_ERROR_GENERIC written bytesWritten)
            else
              let bytesWritten := s32 (bytesWritten + nbr) in
              let size := size - nbr in
              let buffer := skipn (Z.to_nat nbr) buffer in
              st <- write_remaining fuel fuel size bytesWritten sector buffer block ;;
              match st with
              | inl bytesWritten => ret (mk_rpc OS_ERROR_GENERIC written bytesWritten)
              | inr (size, bytesWritten, sector, buffer, block) =>
                  if size >? 0 then
                    let sector := u32 (sector + 1) in
                    '(r, block) <- disk_read fuel block sector 1 ;;
                    if negb (r =? 0)
                    then ret (mk_rpc OS_ERROR_GENERIC written bytesWritten)
                    else
                      let block := splice block 0 (firstn (Z.to_nat size) buffer) in
                      r <- disk_write fuel block sector 1 ;;
                      if negb (r =? 0)
                      then ret (mk_rpc OS_ERROR_GENERIC written bytesWritten)
                      else
                        let bytesWritten := s32 (bytesWritten + size) in
                        ret (mk_rpc OS_SUCCESS bytesWritten bytesWritten)
                  else ret (mk_rpc OS_SUCCESS bytesWritten bytesWritten)
              end
        else ret (mk_rpc OS_SUCCESS bytesWritten bytesWritten).

(** [while (size > disk_block_size())] of [storage_rpc_read]. *)
Fixpoint read_remaining (n fuel : nat) (size bytesRead sector : Z)
         (block : list Z)
  : M (Z + (Z * Z * Z * list Z)) :=
  if size >? disk_block_size then
    match n with
    | O => diverge
    | S n' =>
        let sector := u32 (sector + 1) in
        '(r, block) <- disk_read fuel block sector 1 ;;
        if negb (r =? 0) then ret (inl bytesRead)
        else
          port <- OS_Dataport_getBuf ;;
          modify (set_port_storage
                    (splice port bytesRead
                            (firstn (Z.to_nat disk_block_size) block))) ;;
          read_remaining n' fuel (size - disk_block_size)
                         (s32 (bytesRead + disk_block_size)) sector block
    end
  else ret (inr (size, bytesRead, sector, block)).

Definition storage_rpc_read (fuel : nat) (offset size : Z) : M rpc_result :=
  let read := 0 in
  ok <- get init_ok ;;
  if negb ok then ret (mk_rpc OS_ERROR_INVALID_STATE read 0)
  else
    dataport_size <- OS_Dataport_getSize ;;
    if size >? dataport_size
    then ret (mk_rpc OS_ERROR_INVALID_PARAMETER read 0)
    else
      valid <- isValidMSDArea fuel offset (s64 size) ;;
      if negb valid then ret (mk_rpc OS_ERROR_OUT_OF_BOUNDS read 0)
      else
        let bytesRead := 0 in
        if size >? 0 then
          let block := repeat 0 (Z.to_nat disk_block_size) in
          let sector := u32 (Z.quot offset disk_block_size) in
          '(r, block) <- disk_read fuel block sector 1 ;;
          if negb (r =? 0) then ret (mk_rpc OS_ERROR_GENERIC read bytesRead)
          else
            let nbr := nbr_of_bytes offset sector size in
            port <- OS_Dataport_getBuf ;;
            modify (set_port_storage
                      (splice port 0
                              (firstn (Z.to_nat nbr)
                                 (skipn (Z.to_nat (offset - sector * disk_block_size))
                                        block)))) ;;
            let bytesRead := s32 (bytesRead + nbr) in
            let size := size - nbr in
            st <- read_remaining fuel fuel size bytesRead sector block ;;
            match st with
            | inl bytesRead => ret (mk_rpc OS_ERROR_GENERIC read bytesRead)
            | inr (size, bytesRead, sector, block) =>
                if size >? 0 then
                  let sector := u32 (sector + 1) in
                  '(r, block) <- disk_read fuel block sector 1 ;;
                  if negb (r =? 0)
                  then ret (mk_rpc OS_ERROR_GENERIC read bytesRead)
                  else
                    port <- OS_Dataport_getBuf ;;
                    modify (set_port_storage
                              (splice port bytesRead
                                      (firstn (Z.to_nat size) block))) ;;
                    let bytesRead := s32 (bytesRead + size) in
                    ret (mk_rpc OS_SUCCESS bytesRead bytesRead)
                else ret (mk_rpc OS_SUCCESS bytesRead bytesRead)
            end
        else ret (mk_rpc OS_SUCCESS bytesRead bytesRead).

(** [size > dataport_size] with [off_t size]: the usual arithmetic
    conversions compare as unsigned 64-bit values where [size_t] has 64 bits
    and as signed ones where it has 32. *)
Definition off_t_gt_size_t (a b : Z) : bool :=
  if LP64 then (a mod 2 ^ 64) >? b else a >? b.

(** [while (size > disk_block_size())] of [storage_rpc_erase]. *)
Fixpoint erase_remaining (n fuel : nat) (size bytesErased sector : Z)
         (block : list Z)
  : M (Z + (Z * Z * Z * list Z)) :=
  if size >? disk_block_size then
    match n with
    | O => diverge
    | S n' =>
        let block := splice block 0 (repeat 0xFF (Z.to_nat disk_block_size)) in
        let sector := u32 (sector + 1) in
        r <- disk_write fuel block sector 1 ;;
        if negb (r =? 0) then ret (inl bytesErased)
        else erase_remaining n' fuel (size - disk_block_size)
                             (bytesErased + disk_block_size) sector block
    end
  else ret (inr (size, bytesErased, sector, block)).

Definition storage_rpc_erase (fuel : nat) (offset size : Z) : M rpc_result :=
  let erased := 0 in
  ok <- get init_ok ;;
  if negb ok then ret (mk_rpc OS_ERROR_INVALID_STATE erased 0)
  else
    dataport_size <- OS_Dataport_getSize ;;
    if off_t_gt_size_t size dataport_size
    then ret (mk_rpc OS_ERROR_INVALID_PARAMETER erased 0)
    else
      valid <- isValidMSDArea fuel offset size ;;
      if negb valid then ret (mk_rpc OS_ERROR_OUT_OF_BOUNDS erased 0)
      else
        let bytesErased := 0 in
        if size >? 0 then
          let block := repeat 0 (Z.to_nat disk_block_size) in
          let sector := u32 (Z.quot offset disk_block_size) in
          '(r, block) <- disk_read fuel block sector 1 ;;
          if negb (r =? 0) then ret (mk_rpc OS_ERROR_GENERIC erased bytesErased)
          else
            let nbr := nbr_of_bytes offset sector size in
            let block :=
              splice block (offset - sector * disk_block_size)
                     (repeat 0xFF (Z.to_nat nbr)) in
            r <- disk_write fuel block sector 1 ;;
            if negb (r =? 0) then ret (mk_rpc OS_ERROR_GENERIC erased bytesErased)
            else
              let bytesErased := bytesErased + nbr in
              let size := size - nbr in
              st <- erase_remaining fuel fuel size bytesErased sector block ;;
              match st with
              | inl bytesErased => ret (mk_rpc OS_ERROR_GENERIC erased bytesErased)
              | inr (size, bytesErased, sector, block) =>
                  if size >? 0 then
                    let sector := u32 (sector + 1) in
                    '(r, block) <- disk_read fuel block sector 1 ;;
                    if negb (r =? 0)
                    then ret (mk_rpc OS_ERROR_GENERIC erased bytesErased)
                    else
                      let block := splice block 0 (repeat 0xFF (Z.to_nat size)) in
                      r <- disk_write fuel block sector 1 ;;
                      if negb (r =? 0)
                      then ret (mk_rpc OS_ERROR_GENERIC erased bytesErased)
                      else
                        let bytesErased := bytesErased + size in
                        ret (mk_rpc OS_SUCCESS bytesErased bytesErased)
                  else ret (mk_rpc OS_SUCCESS bytesErased bytesErased)
              end
        else ret (mk_rpc OS_SUCCESS bytesErased bytesErased).

(** The three byte-range handlers under one name. *)
Definition storage_rpc (op : rpc_op) (fuel : nat) (offset size : Z)
  : M rpc_result :=
  match op with
  | OpRead => storage_rpc_read fuel offset size
  | OpWrite => storage_rpc_write fuel offset size
  | OpErase => storage_rpc_erase fuel offset size
  end.

(** [*size] and [*flags] are written on success only: [None] when the
    handler left its out-parameter alone. *)
Definition storage_rpc_getSize (fuel : nat) : M (OS_Error_t * option Z) :=
  ok <- get init_ok ;;
  if negb ok then ret (OS_ERROR_INVALID_STATE, None)
  else c <- disk_capacity fuel ;; ret (OS_SUCCESS, Some c).

Definition storage_rpc_getState : M (OS_Error_t * option Z) :=
  ok <- get init_ok ;;
  if negb ok then ret (OS_ERROR_INVALID_STATE, None)
  else flags <- disk_status ;; ret (OS_SUCCESS, Some (u32 flags)).

End Driver.

Arguments mk_world {D} _ _ _ _ _ _ _ _.
Arguments dev {D} _.
Arguments trace {D} _.
Arguments _cdv {D} _.
Arguments _is_initialized {D} _.
Arguments _sectors {D} _.
Arguments spi_hal {D} _.
Arguments init_ok {D} _.
Arguments port_storage {D} _.
Arguments Ok {D A} _ _.
Arguments Undefined {D A}.
Arguments Diverge {D A}.
Arguments ret {D A} _ _.
Arguments bind {D A B} _ _ _.
Arguments get {D A} _ _.
Arguments modify {D} _ _.
Arguments lift_option {D A} _ _.
Arguments log {D} _ _.
Arguments set_dev {D} _ _.
Arguments set_cdv {D} _ _.
Arguments set_is_initialized {D} _ _.
Arguments set_sectors {D} _ _.
Arguments set_spi_hal {D} _ _.
Arguments set_init_ok {D} _ _.
Arguments set_port_storage {D} _ _.
Arguments hal_cs {D} _ _.
Arguments hal_wait {D} _ _.
Arguments _spi_read_write {D} _ _.
Arguments _cmd_poll {D} _ _.
Arguments _cmd {D} _ _ _.
Arguments _cmdx_poll {D} _ _.
Arguments _cmdx {D} _ _ _.
Arguments _cmd58_poll {D} _ _.
Arguments _cmd58 {D} _.
Arguments _cmd8_trailing {D} _ _ _ _.
Arguments _cmd8_poll {D} _ _ _.
Arguments _cmd8 {D} _.
Arguments wait_start_token {D} _ _.
Arguments read_bytes {D} _ _.
Arguments _read {D} _ _ _.
Arguments write_bytes {D} _ _ _ _.
Arguments wait_not_busy {D} _ _.
Arguments _write {D} _ _ _ _.
Arguments _sd_sectors {D} _ _.
Arguments disk_sectors {D} _.
Arguments disk_capacity {D} _ _.
Arguments clock_card {D} _ _.
Arguments initialise_card_v1_loop {D} _ _.
Arguments initialise_card_v1 {D} _.
Arguments initialise_card_v2_loop {D} _ _.
Arguments initialise_card_v2 {D} _.
Arguments initialise_card {D} _ _.
Arguments disk_initialize {D} _ _ _.
Arguments disk_write_loop {D} _ _ _ _ _ _.
Arguments disk_write {D} _ _ _ _ _.
Arguments disk_read_loop {D} _ _ _ _ _ _ _.
Arguments disk_read {D} _ _ _ _ _.
Arguments disk_status {D} _.
Arguments OS_Dataport_getSize {D} _.
Arguments OS_Dataport_getBuf {D} _.
Arguments isValidMSDArea {D} _ _ _ _.
Arguments post_init {D} _ _ _ _.
Arguments write_remaining {D} _ _ _ _ _ _ _ _.
Arguments read_remaining {D} _ _ _ _ _ _ _.
Arguments erase_remaining {D} _ _ _ _ _ _ _.
Arguments storage_rpc_write {D} _ _ _ _.
Arguments storage_rpc_read {D} _ _ _ _.
Arguments storage_rpc_erase {D} _ _ _ _ _.
Arguments storage_rpc {D} _ _ _ _ _ _.
Arguments storage_rpc_getSize {D} _ _.
Arguments storage_rpc_getState {D} _.

(** The value a run ended with, if it ended. *)
Definition value_of {D A} (r : result D A) : option A :=
  match r with Ok a _ => Some a | _ => None end.

(** The state a run ended in, if it ended. *)
Definition world_of {D A} (r : result D A) : option (world D) :=
  match r with Ok _ w => Some w | _ => None end.

(** ** What the specification says the decoder computes

    Sector count and capacity as stated, over unbounded integers and the
    reference bit slice. *)

Definition stated_sd_sectors (csd : list Z) : Z :=
  let structure := bit_slice csd 127 126 in
  if structure =? 0 then
    let cSize := bit_slice csd 73 62 in
    let cSizeMult := bit_slice csd 49 47 in
    let readBlockLen := bit_slice csd 83 80 in
    (Z.shiftl (cSize + 1) (cSizeMult + 2) * Z.shiftl 1 readBlockLen) / 512
  else if structure =? 1 then
    let hcCSize := bit_slice csd 69 48 in
    (hcCSize + 1) * 1024
  else 0.

(** What [_sd_sectors] returns for a captured register: as stated, with the
    version-0 byte capacity cut to 32 bits. *)
Definition decoded_sd_sectors (csd : list Z) : Z :=
  let structure := bit_slice csd 127 126 in
  if structure =? 0 then
    let cSize := bit_slice csd 73 62 in
    let cSizeMult := bit_slice csd 49 47 in
    let readBlockLen := bit_slice csd 83 80 in
    ((Z.shiftl (cSize + 1) (cSizeMult + 2) * Z.shiftl 1 readBlockLen) mod 2 ^ 32) / 512
  else if structure =? 1 then
    let hcCSize := bit_slice csd 69 48 in
    (hcCSize + 1) * 1024
  else 0.

(** Capacity in bytes as stated: decoded from the register at hand. *)
Definition stated_capacity (csd : list Z) : Z :=
  let structure := bit_slice csd 127 126 in
  if structure =? 0 then
    let cSize := bit_slice csd 73 62 in
    let cSizeMult := bit_slice csd 49 47 in
    let readBlockLen := bit_slice csd 83 80 in
    Z.shiftl (cSize + 1) (cSizeMult + 2) * Z.shiftl 1 readBlockLen
  else if structure =? 1 then
    let hcCSize := bit_slice csd 69 48 in
    (hcCSize + 1) * 1024 * BLOCK_SIZE
  else 0.

(** What [disk_capacity] returns for a captured register when the file-scope
    [_sectors] holds [sectors]. *)
Definition reported_capacity (csd : list Z) (sectors : Z) : Z :=
  let structure := bit_slice csd 127 126 in
  if structure =? 0 then
    let cSize := bit_slice csd 73 62 in
    let cSizeMult := bit_slice csd 49 47 in
    let readBlockLen := bit_slice csd 83 80 in
    (Z.shiftl (cSize + 1) (cSizeMult + 2) * Z.shiftl 1 readBlockLen) mod 2 ^ 32
  else if structure =? 1 then s64 (sectors * BLOCK_SIZE)
  else 0.

(** ** A scripted card

    The device is the list of bytes it will shift out, one per transfer; once
    the list is used up the data line stays at [idle].  Chip select and waits
    leave it alone. *)

Definition scripted_transfer (idle : Z) (s : list Z) (tx : Z) : list Z * Z :=
  match s with
  | [] => ([], idle)
  | b :: s' => (s', b)
  end.

Definition scripted_hal (idle : Z) : spisd_hal_t (list Z) :=
  mk_hal (scripted_transfer idle) (fun s _ => s) (fun s _ => s).

(** State at start-up: statics zeroed, [ctx.init_ok] false, no table. *)
Definition power_on (script port : list Z) : world (list Z) :=
  mk_world script [] 0 0 0 None false port.

(** The same with the table already in place, for running one driver
    function on its own. *)
Definition attached (idle : Z) (script : list Z) : world (list Z) :=
  mk_world script [] 0 0 0 (Some (scripted_hal idle)) false [].

(** What the card shifts out while a 6-byte command frame is sent. *)
Definition during_frame : list Z := repeat 0xFF 6.

(** Replies: one busy byte, then the answer, then what the function reads on. *)
Definition reply_cmd (r : Z) : list Z := during_frame ++ [0xFF; r; 0xFF].
Definition reply_cmdx (r : Z) : list Z := during_frame ++ [0xFF; r].
Definition reply_long (r : Z) (more : list Z) : list Z :=
  during_frame ++ [0xFF; r] ++ more ++ [0xFF].
Definition reply_read (data : list Z) : list Z :=
  [0xFF; 0xFE] ++ data ++ [0xFF; 0xFF; 0xFF].
Definition reply_write (length : nat) : list Z :=
  repeat 0xFF (1 + length + 2) ++ [0x05; 0x00; 0xFF; 0xFF].

Definition bring_up_v2 : list Z :=
  repeat 0xFF 16 ++
  reply_cmd 0x3F ++ reply_cmd 1 ++ reply_cmd 1 ++ reply_cmd 1 ++ reply_cmd 1 ++
  reply_cmd 1 ++
  reply_long 1 [0x00; 0x00; 0x01; 0xAA] ++
  reply_long 1 [0x00; 0xFF; 0x80; 0x00] ++ reply_cmd 1 ++ reply_cmd 0 ++
  reply_long 0 [0xC0; 0xFF; 0x80; 0x00].

Definition bring_up_v1 : list Z :=
  repeat 0xFF 16 ++
  reply_cmd 0x3F ++ reply_cmd 1 ++ reply_cmd 1 ++ reply_cmd 1 ++ reply_cmd 1 ++
  reply_cmd 1 ++
  reply_long 5 [0xFF; 0xFF; 0xFF; 0xFF] ++
  reply_cmd 1 ++ reply_cmd 1 ++
  reply_cmd 1 ++ reply_cmd 0.

(** High-capacity register with [C_SIZE] 0x1000, and one with 0x2000. *)
Definition csd_hc_1000 : list Z :=
  [0x40; 0; 0; 0; 0; 0; 0; 0; 0x10; 0; 0; 0; 0; 0; 0; 0].
Definition csd_hc_2000 : list Z :=
  [0x40; 0; 0; 0; 0; 0; 0; 0; 0x20; 0; 0; 0; 0; 0; 0; 0].

(** Standard-capacity register: [C_SIZE] 4095, [C_SIZE_MULT] 7,
    [READ_BL_LEN] 11 (4 GiB), and one with [READ_BL_LEN] 10 (2 GiB). *)
Definition csd_sc_4g : list Z :=
  [0; 0; 0; 0; 0; 0x0B; 0x03; 0xFF; 0xC0; 0x03; 0x80; 0; 0; 0; 0; 0].
Definition csd_sc_2g : list Z :=
  [0; 0; 0; 0; 0; 0x0A; 0x03; 0xFF; 0xC0; 0x03; 0x80; 0; 0; 0; 0; 0].

(** A register of mixed bytes for the bit-slice examples. *)
Definition csd_sample : list Z :=
  [0x40; 0x0E; 0x00; 0x32; 0x5B; 0x59; 0x00; 0x00;
   0x76; 0xB2; 0x7F; 0x80; 0x0A; 0x40; 0x40; 0x13].

(** Bring-up, register read and block length all accepted. *)
Definition card_good : list Z :=
  bring_up_v2 ++ reply_cmdx 0 ++ reply_read csd_hc_1000 ++ reply_cmd 0.

(** Bring-up and register read accepted, CMD16 answered "illegal command". *)
Definition card_rejecting_cmd16 : list Z :=
  bring_up_v2 ++ reply_cmdx 0 ++ reply_read csd_hc_1000 ++ reply_cmd 0x04.

(** A full single-block access: capacity query, then CMD17 with its block
    and CMD24 with its block. *)
Definition reply_capacity (csd : list Z) : list Z :=
  reply_cmdx 0 ++ reply_read csd.
Definition reply_block_read : list Z :=
  reply_cmd 0 ++ reply_read (repeat 0xA5 512).
Definition reply_block_write : list Z :=
  reply_cmd 0 ++ reply_write 512.

Definition dataport_4k : list Z := repeat 0x11 4096.

(** ** Vocabulary of the statements *)

(** [stays P m]: a run of [m] that ends keeps the relation [P] between the
    state before and the state after. *)
Definition stays {D} (P : world D -> world D -> Prop) {A} (m : M D A) : Prop :=
  forall w a w', m w = Ok a w' -> P w w'.

(** Events of the bus itself, as opposed to the ghost ones. *)
Definition bus_event (e : event) : bool :=
  match e with
  | EvTransfer _ _ | EvCS _ | EvWait _ => true
  | EvCommand _ _ | EvResponse _ _ => false
  end.

(** Everything but the device and the log is the same. *)
Definition same_statics {D} (w w' : world D) : Prop :=
  _cdv w' = _cdv w /\ _is_initialized w' = _is_initialized w /\
  _sectors w' = _sectors w /\ spi_hal w' = spi_hal w /\
  init_ok w' = init_ok w /\ port_storage w' = port_storage w.

(** [grows cs rs w w']: between [w] and [w'] the log gained events whose
    commands are [cs] and whose responses are [rs], newest first. *)
Definition grows {D} (cs rs : list (Z * Z)) (w w' : world D) : Prop :=
  exists xs, trace w' = xs ++ trace w /\ commands xs = cs /\ responses xs = rs.

(** [k] rounds of CMD55 then CMD41, both with argument zero, newest first. *)
Definition v1_rounds (k : nat) : list (Z * Z) :=
  concat (repeat [(41, 0); (55, 0)] k).

(** The bit of the CMD41 argument that announces high-capacity support. *)
Definition HCS : Z := 0x40000000.

(** The scripted card [s] with the table [scripted_hal idle] in place. *)
Definition on_script (idle : Z) (s : list Z) (w : world (list Z)) : Prop :=
  spi_hal w = Some (scripted_hal idle) /\ dev w = s.

(** A response list in which some single-block command, CMD17 or CMD24, was
    answered with a status other than 0. *)
Definition block_command (c : Z) : bool := (c =? 17) || (c =? 24).
Definition refused (rs : list (Z * Z)) : bool :=
  existsb (fun cr => block_command (fst cr) && negb (snd cr =? 0)) rs.

(** [calm w w']: the log grew between [w] and [w'] and no block command was
    refused on the way. *)
Definition calm {D} (w w' : world D) : Prop :=
  exists cs rs, grows cs rs w w' /\ refused rs = false.

(** The table pointer is the same. *)
Definition same_table {D} (w w' : world D) : Prop := spi_hal w' = spi_hal w.

Definition card_then_write_513 : list Z :=
  card_good ++ reply_capacity csd_hc_1000 ++
  reply_block_read ++ reply_block_write ++ reply_cmd 0x04.
Definition card_cmd16_then_write : list Z :=
  card_rejecting_cmd16 ++ reply_capacity csd_hc_1000 ++
  reply_block_read ++ reply_block_write.
Definition card_not_idle : list Z :=
  repeat 0xFF 16 ++
  reply_cmd 0 ++ reply_cmd 0 ++ reply_cmd 0 ++ reply_cmd 0 ++ reply_cmd 0 ++
  reply_cmd 0 ++ reply_cmdx 0x04.

(** The bus events of a log, the ghost events dropped. *)
Definition on_bus (t : list event) : list event := filter bus_event t.

(** Filler transfers (0xFF sent) that brought back the bytes [rxs]. *)
Definition fillers (rxs : list Z) : list event := map (EvTransfer 0xFF) rxs.

(** The six bytes of a command frame, in the order sent. *)
Definition frame_bytes (cmd arg : Z) : list Z :=
  [u8 (Z.lor 0x40 cmd); u8 (Z.shiftr arg 24); u8 (Z.shiftr arg 16);
   u8 (Z.shiftr arg 8); u8 (Z.shiftr arg 0); 0x95].

(** Transfers that sent [txs] and brought back [rxs], newest first. *)
Definition exchanged (txs rxs : list Z) : list event :=
  rev (map (fun p => EvTransfer (fst p) (snd p)) (combine txs rxs)).

Definition high_bit_set (b : Z) : Prop := Z.land b 0x80 <> 0.

(** [ran h es w w']: from [w] the events [es] (newest first) were added, the
    table is [h] afterwards and nothing but the device and the log changed. *)
Definition ran {D} (h : spisd_hal_t D) (es : list event) (w w' : world D) : Prop :=
  spi_hal w' = Some h /\ trace w' = es ++ trace w /\ same_statics w w'.

(** The bytes sent in a log, newest first. *)
Fixpoint sent (t : list event) : list Z :=
  match t with
  | [] => []
  | EvTransfer tx _ :: t' => tx :: sent t'
  | _ :: t' => sent t'
  end.

(** The moves of the select line in a log, newest first. *)
Fixpoint selects (t : list event) : list Z :=
  match t with
  | [] => []
  | EvCS cs :: t' => cs :: selects t'
  | _ :: t' => selects t'
  end.

(** [sees txs css idle s' w w']: between [w] and [w'] the bytes [txs] were
    sent and the select line was moved to the values [css] (both oldest
    first), and the script of the card is at [s'] in [w']. *)
Definition sees (txs css : list Z) (idle : Z) (s' : list Z)
           (w w' : world (list Z)) : Prop :=
  on_script idle s' w' /\ sent (trace w') = rev txs ++ sent (trace w) /\
  selects (trace w') = rev css ++ selects (trace w).

(** A driver already brought up as card type [kind] with divisor [cdv], in
    front of a scripted card. *)
Definition brought_up (idle kind cdv : Z) (script : list Z) : world (list Z) :=
  mk_world script [] cdv kind 0 (Some (scripted_hal idle)) false [].

(** The [k] block commands [c] for the blocks from [first] on, with the
    divisor [cdv], newest first. *)
Definition addressed (c cdv first : Z) (k : nat) : list (Z * Z) :=
  rev (map (fun i => (c, s32 (u32 ((first + Z.of_nat i) * cdv)))) (seq 0 k)).

(** What a block loop leaves in the log when it returns [r] after being asked
    for [count] blocks: all [count] commands answered 0 when [r] is 0, and
    when [r] is 1 some earlier commands answered 0 and a last one answered
    with something else. *)
Definition block_run {D} (c cdv first : Z) (count : nat) (r : Z)
           (w w' : world D) : Prop :=
  r = 0 /\ grows (addressed c cdv first count) (repeat (c, 0) count) w w' \/
  r = 1 /\ exists (k : nat) (x : Z),
             (k < count)%nat /\ x <> 0 /\
             grows (addressed c cdv first (S k)) ((c, x) :: repeat (c, 0) k) w w'.

(** [k] rounds of CMD58, CMD55 and CMD41 with the high-capacity bit, newest
    first. *)
Definition v2_rounds (k : nat) : list (Z * Z) :=
  concat (repeat [(41, HCS); (55, 0); (58, 0)] k).

(** Everything but the device, the log and the divisor is the same. *)
Definition same_but_cdv {D} (w w' : world D) : Prop :=
  _is_initialized w' = _is_initialized w /\ _sectors w' = _sectors w /\
  spi_hal w' = spi_hal w /\ init_ok w' = init_ok w /\
  port_storage w' = port_storage w.

(** The state after [_sd_sectors] has decoded the register [csd]: the
    divisor follows the structure version of the register. *)
Definition divisor_from {D} (csd : list Z) (w : world D) : world D :=
  let structure := bit_slice csd 127 126 in
  if structure =? 0 then set_cdv BLOCK_SIZE w
  else if structure =? 1 then set_cdv 1 w
  else w.

(** What the request handlers leave alone: the statics of the driver, the
    table pointer and the session flag. *)
Definition same_driver {D} (w w' : world D) : Prop :=
  _cdv w' = _cdv w /\ _is_initialized w' = _is_initialized w /\
  _sectors w' = _sectors w /\ spi_hal w' = spi_hal w /\ init_ok w' = init_ok w.

(** What a request for the sectors [lo] to [hi] may send: the capacity
    query, reads of those sectors and, when [writes] holds, writes of them. *)
Definition allowed (writes : bool) (cdv lo hi : Z) (ca : Z * Z) : Prop :=
  ca = (9, 0) \/
  (fst ca = 17 \/ fst ca = 24 /\ writes = true) /\
  exists s, lo <= s <= hi /\ snd ca = s32 (u32 (s * cdv)).

(** Between [w] and [w'] only allowed commands were issued, and the divisor
    was left alone. *)
Definition confined {D} (writes : bool) (lo hi : Z) (w w' : world D) : Prop :=
  _cdv w' = _cdv w /\
  exists cs rs, grows cs rs w w' /\ Forall (allowed writes (_cdv w) lo hi) cs.

(** The state of the loops over whole blocks, as the handlers keep it:
    [size] bytes are left, and when any are left they start right after
    sector [sector] and end where the request ends, at [stop]. *)
Definition loop_state (lo stop size sector : Z) : Prop :=
  0 <= size /\ lo - 1 <= sector /\
  (0 < size -> (sector + 1) * 512 + size = stop).

(** The dataport has kept its length and everything from byte [size] on. *)
Definition port_kept {D} (size : Z) (w w' : world D) : Prop :=
  length (port_storage w') = length (port_storage w) /\
  skipn (Z.to_nat size) (port_storage w') = skipn (Z.to_nat size) (port_storage w).

(** ** The SPI peripheral (bcm2837_spi.c)

    The words of the peripheral by address: what was last read or written
    there.  The register addresses and bit masks of [bcm2837_spi.h] are not
    part of the sources at hand, so the functions below take them as
    arguments. *)

Definition peri : Type := Z -> Z.

Definition bcm2837_byte_reverse_table : list Z :=
  [0x00; 0x80; 0x40; 0xc0; 0x20; 0xa0; 0x60; 0xe0;
   0x10; 0x90; 0x50; 0xd0; 0x30; 0xb0; 0x70; 0xf0;
   0x08; 0x88; 0x48; 0xc8; 0x28; 0xa8; 0x68; 0xe8;
   0x18; 0x98; 0x58; 0xd8; 0x38; 0xb8; 0x78; 0xf8;
   0x04; 0x84; 0x44; 0xc4; 0x24; 0xa4; 0x64; 0xe4;
   0x14; 0x94; 0x54; 0xd4; 0x34; 0xb4; 0x74; 0xf4;
   0x0c; 0x8c; 0x4c; 0xcc; 0x2c; 0xac; 0x6c; 0xec;
   0x1c; 0x9c; 0x5c; 0xdc; 0x3c; 0xbc; 0x7c; 0xfc;
   0x02; 0x82; 0x42; 0xc2; 0x22; 0xa2; 0x62; 0xe2;
   0x12; 0x92; 0x52; 0xd2; 0x32; 0xb2; 0x72; 0xf2;
   0x0a; 0x8a; 0x4a; 0xca; 0x2a; 0xaa; 0x6a; 0xea;
   0x1a; 0x9a; 0x5a; 0xda; 0x3a; 0xba; 0x7a; 0xfa;
   0x06; 0x86; 0x46; 0xc6; 0x26; 0xa6; 0x66; 0xe6;
   0x16; 0x96; 0x56; 0xd6; 0x36; 0xb6; 0x76; 0xf6;
   0x0e; 0x8e; 0x4e; 0xce; 0x2e; 0xae; 0x6e; 0xee;
   0x1e; 0x9e; 0x5e; 0xde; 0x3e; 0xbe; 0x7e; 0xfe;
   0x01; 0x81; 0x41; 0xc1; 0x21; 0xa1; 0x61; 0xe1;
   0x11; 0x91; 0x51; 0xd1; 0x31; 0xb1; 0x71; 0xf1;
   0x09; 0x89; 0x49; 0xc9; 0x29; 0xa9; 0x69; 0xe9;
   0x19; 0x99; 0x59; 0xd9; 0x39; 0xb9; 0x79; 0xf9;
   0x05; 0x85; 0x45; 0xc5; 0x25; 0xa5; 0x65; 0xe5;
   0x15; 0x95; 0x55; 0xd5; 0x35; 0xb5; 0x75; 0xf5;
   0x0d; 0x8d; 0x4d; 0xcd; 0x2d; 0xad; 0x6d; 0xed;
   0x1d; 0x9d; 0x5d; 0xdd; 0x3d; 0xbd; 0x7d; 0xfd;
   0x03; 0x83; 0x43; 0xc3; 0x23; 0xa3; 0x63; 0xe3;
   0x13; 0x93; 0x53; 0xd3; 0x33; 0xb3; 0x73; 0xf3;
   0x0b; 0x8b; 0x4b; 0xcb; 0x2b; 0xab; 0x6b; 0xeb;
   0x1b; 0x9b; 0x5b; 0xdb; 0x3b; 0xbb; 0x7b; 0xfb;
   0x07; 0x87; 0x47; 0xc7; 0x27; 0xa7; 0x67; 0xe7;
   0x17; 0x97; 0x57; 0xd7; 0x37; 0xb7; 0x77; 0xf7;
   0x0f; 0x8f; 0x4f; 0xcf; 0x2f; 0xaf; 0x6f; 0xef;
   0x1f; 0x9f; 0x5f; 0xdf; 0x3f; 0xbf; 0x7f; 0xff].

(** [bcm2837_correct_order]; [bit_order] is the file-scope
    [bcm2837_spi_bit_order] and [LSBFIRST] the header's
    [BCM2837_SPI_BIT_ORDER_LSBFIRST].  The argument is a [uint8_t], so the
    index is within the table. *)
Definition bcm2837_correct_order (LSBFIRST bit_order : Z) (b : Z) : Z :=
  if bit_order =? LSBFIRST
  then nth (Z.to_nat (u8 b)) bcm2837_byte_reverse_table 0
  else u8 b.

Definition bcm2837_peri_read (m : peri) (paddr : Z) : Z := m paddr.

Definition bcm2837_peri_write (m : peri) (paddr value : Z) : peri :=
  fun a => if a =? paddr then u32 value else m a.

Definition bcm2837_peri_set_bits (m : peri) (paddr value mask : Z) : peri :=
  let v := bcm2837_peri_read m paddr in
  let v := Z.lor (Z.land v (u32 (Z.lnot (u32 mask)))) (Z.land (u32 value) (u32 mask)) in
  bcm2837_peri_write m paddr v.

(** [cs_reg] is the address [bcm2837_spi0 + BCM2837_SPI0_CS / 4]; [shift]
    is a [uint8_t] and the two shifts are done on [int]. *)
Definition bcm2837_spi_setChipSelectPolarity (m : peri) (cs_reg : Z)
           (cs active : Z) : peri :=
  let shift := u8 (21 + u8 cs) in
  bcm2837_peri_set_bits m cs_reg
                        (s32 (Z.shiftl (u8 active) shift))
                        (s32 (Z.shiftl 1 shift)).

(** What [bcm2837_spi_begin] returns, from what [gpio_sys_init] returned. *)
Definition bcm2837_spi_begin (gpio_ret : Z) : Z :=
  if negb (gpio_ret =? 0) then -1 else 1.

(** The table, entry by entry: bit [i] of entry [b] is bit [7 - i] of [b],
    and the entry of the entry is [b]. *)
Definition reversed_entry (b : nat) : bool :=
  let e := nth b bcm2837_byte_reverse_table 0 in
  forallb (fun i => Bool.eqb (Z.testbit e (Z.of_nat i))
                             (Z.testbit (Z.of_nat b) (7 - Z.of_nat i)))
          (seq 0 8) &&
  (e <? 256) && (0 <=? e) &&
  (nth (Z.to_nat e) bcm2837_byte_reverse_table 0 =? Z.of_nat b).

(** [halted w w']: the log grew between [w] and [w'], its newest event is
    the answer to a block command that was refused, and no block command was
    refused before that one. *)
Definition halted {D} (w w' : world D) : Prop :=
  exists c x t,
    trace w' = EvResponse c x :: t ++ trace w /\
    block_command c = true /\ x <> 0 /\ refused (responses t) = false.

(** [plays es idle s' w w']: between [w] and [w'] exactly the events [es]
    (oldest first) were added to the log, and the script of the card is at
    [s'] in [w']. *)
Definition plays (es : list event) (idle : Z) (s' : list Z)
           (w w' : world (list Z)) : Prop :=
  on_script idle s' w' /\ trace w' = rev es ++ trace w.

(** Transfers that sent [txs] while the card shifted out [rxs], in the
    order they were made. *)
Definition sent_for (txs rxs : list Z) : list event :=
  map (fun p => EvTransfer (fst p) (snd p)) (combine txs rxs).

(** The bytes the card shifted out in a log, in the order of the log. *)
Fixpoint received (t : list event) : list Z :=
  match t with
  | [] => []
  | EvTransfer _ rx :: t' => rx :: received t'
  | _ :: t' => received t'
  end.

(** What follows the first call of command [c] in a log given oldest
    first. *)
Fixpoint after_command (c : Z) (t : list event) : list event :=
  match t with
  | [] => []
  | EvCommand c' _ :: t' => if c' =? c then t' else after_command c t'
  | _ :: t' => after_command c t'
  end.

(** What the card shifted out once the frame of the first command [c] of
    the log [t] (newest first) had been sent: the bytes of the polls and of
    everything after them, oldest first.  The six bytes that came back
    while the frame itself went out are left off. *)
Definition answer_bytes (c : Z) (t : list event) : list Z :=
  skipn 6 (received (after_command c (rev t))).

(** The first byte with the high bit clear among [bs], and the number of
    bytes before it. *)
Fixpoint first_status (bs : list Z) : option (nat * Z) :=
  match bs with
  | [] => None
  | b :: bs' =>
      if Z.land b 0x80 =? 0 then Some (0%nat, b)
      else match first_status bs' with
           | Some (n, r) => Some (S n, r)
           | None => None
           end
  end.

(** The card's answer to the first command [c] of a log, read off the bus:
    the status byte and the number of busy bytes that came before it. *)
Definition answer_to (c : Z) (t : list event) : option (nat * Z) :=
  first_status (answer_bytes c t).

(** A V1 card that answers the probe on the very first poll, and one that
    answers it after five busy bytes; both would accept the second CMD41. *)
Definition bring_up_v1_at_once : list Z :=
  repeat 0xFF 16 ++
  reply_cmd 0x3F ++ reply_cmd 1 ++ reply_cmd 1 ++ reply_cmd 1 ++ reply_cmd 1 ++
  reply_cmd 1 ++
  during_frame ++ [0x05; 0xFF; 0xFF; 0xFF; 0xFF; 0xFF] ++
  reply_cmd 1 ++ reply_cmd 1 ++
  reply_cmd 1 ++ reply_cmd 0.

Definition bring_up_v1_late : list Z :=
  repeat 0xFF 16 ++
  reply_cmd 0x3F ++ reply_cmd 1 ++ reply_cmd 1 ++ reply_cmd 1 ++ reply_cmd 1 ++
  reply_cmd 1 ++
  during_frame ++ repeat 0xFF 5 ++ [0x05; 0xFF; 0xFF; 0xFF; 0xFF; 0xFF] ++
  reply_cmd 1 ++ reply_cmd 1 ++
  reply_cmd 1 ++ reply_cmd 0.

(** A card that answers the probe with "illegal command" alone. *)
Definition bring_up_odd_probe : list Z :=
  repeat 0xFF 16 ++
  reply_cmd 0x3F ++ reply_cmd 1 ++ reply_cmd 1 ++ reply_cmd 1 ++ reply_cmd 1 ++
  reply_cmd 1 ++
  reply_long 4 [0xFF; 0xFF; 0xFF; 0xFF] ++
  reply_cmd 1 ++ reply_cmd 0.

(** * Properties *)

(** ** Running the monad *)

Section Monad_facts.

Context {D : Type}.

Lemma bind_Ok {A B} (m : M D A) (f : A -> M D B) (w w1 : world D) (a : A) :
  m w = Ok a w1 -> bind m f w = f a w1.
Proof. intros H. unfold bind. rewrite H. reflexivity. Qed.

Lemma bind_inv {A B} (m : M D A) (f : A -> M D B) (w w' : world D) (b : B) :
  bind m f w = Ok b w' ->
  exists a w1, m w = Ok a w1 /\ f a w1 = Ok b w'.
Proof.
  unfold bind. destruct (m w) as [a w1| |]; try discriminate.
  intros H. exists a, w1. split; [reflexivity | exact H].
Qed.

Lemma ret_inv {A} (a b : A) (w w' : world D) :
  ret a w = Ok b w' -> b = a /\ w' = w.
Proof. unfold ret. intros H. inversion H. split; reflexivity. Qed.

Lemma modify_inv (f : world D -> world D) (u : unit) (w w' : world D) :
  modify f w = Ok u w' -> w' = f w.
Proof. unfold modify. intros H. inversion H. reflexivity. Qed.

Lemma get_inv {A} (f : world D -> A) (a : A) (w w' : world D) :
  get f w = Ok a w' -> a = f w /\ w' = w.
Proof. unfold get. intros H. inversion H. split; reflexivity. Qed.

(** *** What a computation leaves alone *)

Variable P : world D -> world D -> Prop.
Hypothesis P_refl : forall w, P w w.
Hypothesis P_trans : forall w1 w2 w3, P w1 w2 -> P w2 w3 -> P w1 w3.

Lemma stays_ret {A} (a : A) : stays P (ret a).
Proof. intros w b w' H. apply ret_inv in H. destruct H as [_ ->]. apply P_refl. Qed.

Lemma stays_get {A} (f : world D -> A) : stays P (get f).
Proof. intros w b w' H. unfold get in H. inversion H; subst. apply P_refl. Qed.

Lemma stays_diverge {A} : stays P (@diverge D A).
Proof. intros w b w' H. discriminate. Qed.

Lemma stays_lift_option {A} (o : option A) : stays P (lift_option o).
Proof.
  intros w b w' H. destruct o; simpl in H; [|discriminate].
  apply ret_inv in H. destruct H as [_ ->]. apply P_refl.
Qed.

Lemma stays_bind {A B} (m : M D A) (f : A -> M D B) :
  stays P m -> (forall a, stays P (f a)) -> stays P (bind m f).
Proof.
  intros Hm Hf w b w' H. apply bind_inv in H. destruct H as (a & w1 & H1 & H2).
  eapply P_trans; [eapply Hm | eapply Hf]; eassumption.
Qed.

Lemma stays_modify (f : world D -> world D) :
  (forall w, P w (f w)) -> stays P (modify f).
Proof. intros Hf w b w' H. unfold modify in H. inversion H; subst. apply Hf. Qed.

End Monad_facts.

(** ** Functions that only talk to the bus *)

Create HintDb bus.

Section Bus_facts.

Context {D : Type}.
Variable P : world D -> world D -> Prop.
Hypothesis P_refl : forall w, P w w.
Hypothesis P_trans : forall w1 w2 w3, P w1 w2 -> P w2 w3 -> P w1 w3.
Hypothesis P_bus :
  forall w d e, bus_event e = true -> P w (log e (set_dev d w)).

Ltac stays_step :=
  first
    [ apply (stays_ret P P_refl)
    | apply (stays_get P P_refl)
    | apply (stays_diverge P)
    | apply (stays_lift_option P P_refl)
    | assumption
    | match goal with
      | |- stays _ (bind _ _) => apply (stays_bind P P_trans); [|intros ?]
      | |- stays _ (if ?b then _ else _) => destruct b
      | |- stays _ (match ?x with _ => _ end) => destruct x
      end ].

Lemma stays_hal_cs (cs : Z) : stays P (hal_cs cs).
Proof.
  intros w a w' H. unfold hal_cs in H. destruct (spi_hal w); [|discriminate].
  inversion H; subst. apply P_bus. reflexivity.
Qed.

Lemma stays_hal_wait (ms : Z) : stays P (hal_wait ms).
Proof.
  intros w a w' H. unfold hal_wait in H. destruct (spi_hal w); [|discriminate].
  inversion H; subst. apply P_bus. reflexivity.
Qed.

Lemma stays_spi_read_write (data : Z) : stays P (_spi_read_write data).
Proof.
  intros w a w' H. unfold _spi_read_write in H.
  destruct (spi_hal w) as [h|]; [|discriminate].
  destruct (_spi_transfer h (dev w) (u8 data)) as [d rx].
  inversion H; subst. apply P_bus. reflexivity.
Qed.

#[local] Hint Resolve stays_hal_cs stays_hal_wait stays_spi_read_write : bus.

Ltac stays_auto := repeat (first [ solve [auto with bus] | stays_step ]).

Lemma stays_cmd_poll (n : nat) : stays P (_cmd_poll n).
Proof. induction n; cbn [_cmd_poll]; stays_auto. Qed.

Lemma stays_cmdx_poll (n : nat) : stays P (_cmdx_poll n).
Proof. induction n; cbn [_cmdx_poll]; stays_auto. Qed.

Lemma stays_cmd58_poll (n : nat) : stays P (_cmd58_poll n).
Proof. induction n; cbn [_cmd58_poll]; stays_auto. Qed.

Lemma stays_cmd8_trailing (k : nat) (i : Z) (response : list Z) :
  stays P (_cmd8_trailing k i response).
Proof.
  revert response. induction k; intros response; cbn [_cmd8_trailing]; stays_auto.
Qed.

#[local] Hint Resolve stays_cmd8_trailing : bus.

Lemma stays_cmd8_poll (n : nat) (i : Z) : stays P (_cmd8_poll n i).
Proof. revert i. induction n; intros i; cbn [_cmd8_poll]; stays_auto. Qed.

Lemma stays_wait_start_token (fuel : nat) : stays P (wait_start_token fuel).
Proof. induction fuel; cbn [wait_start_token]; stays_auto. Qed.

Lemma stays_read_bytes (n : nat) : stays P (read_bytes n).
Proof. induction n; cbn [read_bytes]; stays_auto. Qed.

Lemma stays_write_bytes (n : nat) (buffer : list Z) (i : nat) :
  stays P (write_bytes n buffer i).
Proof. revert i. induction n; intros i; cbn [write_bytes]; stays_auto. Qed.

Lemma stays_wait_not_busy (fuel : nat) : stays P (wait_not_busy fuel).
Proof. induction fuel; cbn [wait_not_busy]; stays_auto. Qed.

Lemma stays_clock_card (n : nat) : stays P (clock_card n).
Proof. induction n; cbn [clock_card]; stays_auto. Qed.

#[local] Hint Resolve stays_wait_start_token stays_read_bytes stays_write_bytes
     stays_wait_not_busy : bus.

Lemma stays_read (fuel : nat) (length : Z) : stays P (_read fuel length).
Proof. unfold _read. stays_auto. Qed.

Lemma stays_write (fuel : nat) (buffer : list Z) (length : Z) :
  stays P (_write fuel buffer length).
Proof. unfold _write. stays_auto. Qed.

End Bus_facts.

(** ** The file-scope variables and the component state *)


Lemma same_statics_refl {D} (w : world D) : same_statics w w.
Proof. repeat split. Qed.

Lemma same_statics_trans {D} (w1 w2 w3 : world D) :
  same_statics w1 w2 -> same_statics w2 w3 -> same_statics w1 w3.
Proof.
  unfold same_statics. intros (A1 & A2 & A3 & A4 & A5 & A6) (B1 & B2 & B3 & B4 & B5 & B6).
  repeat split; congruence.
Qed.

Lemma same_statics_bus {D} (w : world D) (d : D) (e : event) :
  bus_event e = true -> same_statics w (log e (set_dev d w)).
Proof. intros _. repeat split. Qed.

Lemma same_statics_log {D} (w : world D) (e : event) : same_statics w (log e w).
Proof. repeat split. Qed.

Lemma same_statics_cmdx {D} (cmd arg : Z) :
  stays (@same_statics D) (_cmdx cmd arg).
Proof.
  unfold _cmdx.
  repeat first
    [ apply stays_ret; [apply same_statics_refl]
    | apply stays_modify; intros ?; apply same_statics_log
    | apply stays_hal_cs; apply same_statics_bus
    | apply stays_spi_read_write; apply same_statics_bus
    | apply stays_cmdx_poll;
        [apply same_statics_refl | apply same_statics_trans | apply same_statics_bus]
    | apply stays_bind; [apply same_statics_trans | | intros ?] ].
Qed.

Lemma same_statics_read {D} (fuel : nat) (length : Z) :
  stays (@same_statics D) (_read fuel length).
Proof.
  apply stays_read;
    [apply same_statics_refl | apply same_statics_trans | apply same_statics_bus].
Qed.

(** ** What a run adds to the log *)

Lemma commands_app (xs ys : list event) :
  commands (xs ++ ys) = commands xs ++ commands ys.
Proof.
  induction xs as [|e xs IH]; [reflexivity|].
  destruct e; simpl; rewrite IH; reflexivity.
Qed.

Lemma responses_app (xs ys : list event) :
  responses (xs ++ ys) = responses xs ++ responses ys.
Proof.
  induction xs as [|e xs IH]; [reflexivity|].
  destruct e; simpl; rewrite IH; reflexivity.
Qed.

Lemma new_events_app (xs t : list event) : new_events t (xs ++ t) = xs.
Proof.
  unfold new_events. rewrite length_app.
  replace (length xs + length t - length t)%nat with (length xs) by lia.
  rewrite firstn_app, Nat.sub_diag, firstn_all. simpl. apply app_nil_r.
Qed.


Lemma grows_refl {D} (w : world D) : grows [] [] w w.
Proof. exists []. repeat split. Qed.

Lemma grows_trans {D} (cs1 rs1 cs2 rs2 : list (Z * Z)) (w1 w2 w3 : world D) :
  grows cs1 rs1 w1 w2 -> grows cs2 rs2 w2 w3 ->
  grows (cs2 ++ cs1) (rs2 ++ rs1) w1 w3.
Proof.
  intros (xs & E1 & C1 & R1) (ys & E2 & C2 & R2).
  exists (ys ++ xs). rewrite E2, E1, app_assoc, commands_app, responses_app.
  subst. repeat split.
Qed.

Lemma quiet_trans {D} (w1 w2 w3 : world D) :
  grows [] [] w1 w2 -> grows [] [] w2 w3 -> grows [] [] w1 w3.
Proof. intros H1 H2. exact (grows_trans _ _ _ _ _ _ _ H1 H2). Qed.

Lemma quiet_bus {D} (w : world D) (d : D) (e : event) :
  bus_event e = true -> grows [] [] w (log e (set_dev d w)).
Proof.
  intros He. exists [e]. split; [reflexivity|].
  destruct e; try discriminate; split; reflexivity.
Qed.

Lemma grows_command {D} (w : world D) (c a : Z) :
  grows [(c, a)] [] w (log (EvCommand c a) w).
Proof. exists [EvCommand c a]. repeat split. Qed.

Lemma grows_response {D} (w : world D) (c r : Z) :
  grows [] [(c, r)] w (log (EvResponse c r) w).
Proof. exists [EvResponse c r]. repeat split. Qed.

Lemma grows_new_events {D} (cs rs : list (Z * Z)) (w w' : world D) :
  grows cs rs w w' ->
  commands (new_events (trace w) (trace w')) = cs /\
  responses (new_events (trace w) (trace w')) = rs.
Proof. intros (xs & E & C & R). rewrite E, new_events_app. split; assumption. Qed.

Lemma grows_modify_log {D} (e : event) (w w' : world D) (u : unit) :
  modify (log e) w = Ok u w' -> grows (commands [e]) (responses [e]) w w'.
Proof. unfold modify. intros H. inversion H; subst. exists [e]. repeat split. Qed.

Lemma quiet_modify {D} (f : world D -> world D) (w w' : world D) (u : unit) :
  (forall w0, trace (f w0) = trace w0) ->
  modify f w = Ok u w' -> grows [] [] w w'.
Proof.
  unfold modify. intros Hf H. inversion H; subst. exists []. rewrite Hf. repeat split.
Qed.

Section Command_log.

Context {D : Type}.

Let quiet : world D -> world D -> Prop := grows [] [].

Lemma quiet_spi_read_write (data : Z) : stays quiet (_spi_read_write data).
Proof. apply stays_spi_read_write. apply quiet_bus. Qed.

Lemma quiet_hal_cs (cs : Z) : stays quiet (hal_cs cs).
Proof. apply stays_hal_cs. apply quiet_bus. Qed.

Lemma quiet_hal_wait (ms : Z) : stays quiet (hal_wait ms).
Proof. apply stays_hal_wait. apply quiet_bus. Qed.

Lemma quiet_cmd_poll (n : nat) : stays quiet (_cmd_poll n).
Proof. apply stays_cmd_poll; [apply grows_refl | apply quiet_trans | apply quiet_bus]. Qed.

Lemma quiet_cmd58_poll (n : nat) : stays quiet (_cmd58_poll n).
Proof. apply stays_cmd58_poll; [apply grows_refl | apply quiet_trans | apply quiet_bus]. Qed.

Lemma quiet_cmd8_poll (n : nat) (i : Z) : stays quiet (_cmd8_poll n i).
Proof. apply stays_cmd8_poll; [apply grows_refl | apply quiet_trans | apply quiet_bus]. Qed.

Lemma quiet_clock_card (n : nat) : stays quiet (clock_card n).
Proof. apply stays_clock_card; [apply grows_refl | apply quiet_trans | apply quiet_bus]. Qed.

(** Take the first step off a run that ended. *)
Ltac peel H E :=
  let a := fresh "a" in
  let w := fresh "w" in
  apply bind_inv in H; destruct H as (a & w & E & H).

(** Turn the equation of one step into what it added to the log. *)
Ltac digest E :=
  first
    [ apply quiet_hal_cs in E
    | apply quiet_hal_wait in E
    | apply quiet_spi_read_write in E
    | apply quiet_cmd_poll in E
    | apply quiet_cmd58_poll in E
    | apply quiet_cmd8_poll in E
    | apply quiet_clock_card in E
    | apply grows_modify_log in E
    | apply quiet_modify in E; [|intros ?; reflexivity] ];
  unfold quiet in E.

Ltac chain :=
  repeat match goal with
         | G1 : grows _ _ ?x ?y, G2 : grows _ _ ?y ?z |- _ =>
             pose proof (grows_trans _ _ _ _ _ _ _ G1 G2); clear G1 G2
         end.

Ltac straight H :=
  repeat (let E := fresh "E" in peel H E; digest E);
  apply ret_inv in H; destruct H as [? ?]; subst; chain.

Lemma grows_cmd (cmd arg : Z) (w w' : world D) (r : Z) :
  _cmd cmd arg w = Ok r w' -> grows [(cmd, arg)] [(cmd, r)] w w'.
Proof. unfold _cmd. intros H. straight H. assumption. Qed.

Lemma grows_cmd58 (w w' : world D) (r : Z) :
  _cmd58 w = Ok r w' -> grows [(58, 0)] [(58, r)] w w'.
Proof. unfold _cmd58. intros H. straight H. assumption. Qed.

Lemma grows_cmd8 (w w' : world D) (r : Z) :
  _cmd8 w = Ok r w' -> grows [(8, 0x1AA)] [(8, r)] w w'.
Proof. unfold _cmd8. intros H. straight H. assumption. Qed.

Lemma quiet_cmdx_poll (n : nat) : stays quiet (_cmdx_poll n).
Proof. apply stays_cmdx_poll; [apply grows_refl | apply quiet_trans | apply quiet_bus]. Qed.

Lemma grows_cmdx (cmd arg : Z) (w w' : world D) (r : Z) :
  _cmdx cmd arg w = Ok r w' -> grows [(cmd, arg)] [(cmd, r)] w w'.
Proof.
  unfold _cmdx. intros H.
  repeat (let E := fresh "E" in
          peel H E; first [apply quiet_cmdx_poll in E; unfold quiet in E | digest E]).
  apply ret_inv in H; destruct H as [? ?]; subst; chain. assumption.
Qed.

Lemma quiet_read (fuel : nat) (length : Z) : stays quiet (_read fuel length).
Proof. apply stays_read; [apply grows_refl | apply quiet_trans | apply quiet_bus]. Qed.

Lemma quiet_write (fuel : nat) (buffer : list Z) (length : Z) :
  stays quiet (_write fuel buffer length).
Proof. apply stays_write; [apply grows_refl | apply quiet_trans | apply quiet_bus]. Qed.

End Command_log.

(** ** Bring-up *)

Section Bring_up.

Context {D : Type}.

Lemma SD_COMMAND_TIMEOUT_pos : (1 <= SD_COMMAND_TIMEOUT)%nat.
Proof. unfold SD_COMMAND_TIMEOUT. apply le_n_S, Nat.le_0_l. Qed.

Lemma v1_rounds_S (k : nat) :
  [(41, 0); (55, 0)] ++ v1_rounds k = v1_rounds k ++ [(41, 0); (55, 0)].
Proof.
  unfold v1_rounds. induction k as [|k IH]; [reflexivity|].
  cbn [repeat concat]. rewrite <- app_assoc, <- IH. reflexivity.
Qed.

Lemma v1_rounds_args (k : nat) (c a : Z) :
  In (c, a) (v1_rounds k) -> a = 0.
Proof.
  unfold v1_rounds. induction k as [|k IH]; cbn [repeat concat]; [intros []|].
  intros H. apply in_app_or in H. destruct H as [H|H]; [|auto].
  simpl in H. intuition congruence.
Qed.

(** The V1 loop issues whole rounds of CMD55, CMD41 with argument zero and
    nothing else; it succeeds only with the divisor set to the block size. *)
Lemma grows_v1_loop (n : nat) (w w' : world D) (r : Z) :
  initialise_card_v1_loop n w = Ok r w' ->
  exists k rs,
    (k <= n)%nat /\ grows (v1_rounds k) rs w w' /\
    (forall c x, In (c, x) rs -> c = 41 \/ c = 55) /\
    (r = SDCARD_FAIL /\ k = n \/
     r = SDCARD_V1 /\ _cdv w' = BLOCK_SIZE /\ (1 <= k)%nat).
Proof.
  revert w. induction n as [|n IH]; intros w H; cbn [initialise_card_v1_loop] in H.
  - apply ret_inv in H. destruct H as [-> ->].
    exists 0%nat, []. split; [lia|]. split; [apply grows_refl|].
    split; [intros c x []|]. left; split; reflexivity.
  - apply bind_inv in H. destruct H as (r55 & w1 & E55 & H).
    apply bind_inv in H. destruct H as (r41 & w2 & E41 & H).
    apply grows_cmd in E55. apply grows_cmd in E41.
    pose proof (grows_trans _ _ _ _ _ _ _ E55 E41) as G. cbn [app] in G.
    destruct (r41 =? 0) eqn:E0.
    + apply bind_inv in H. destruct H as (u & w3 & Em & H).
      apply ret_inv in H. destruct H as [-> ->].
      unfold modify in Em. inversion Em; subst; clear Em.
      exists 1%nat, [(41, r41); (55, r55)].
      split; [lia|]. split.
      * destruct G as (xs & Ex & Cx & Rx). exists xs. repeat split; assumption.
      * split; [|right; repeat split; lia].
        intros c x Hin. simpl in Hin. intuition congruence.
    + apply IH in H. destruct H as (k & rs & Hk & Gk & Hrs & Hr).
      exists (S k), (rs ++ [(41, r41); (55, r55)]).
      split; [lia|]. split.
      * pose proof (grows_trans _ _ _ _ _ _ _ G Gk) as G'.
        rewrite <- v1_rounds_S in G'. exact G'.
      * split.
        -- intros c x Hin. apply in_app_or in Hin. destruct Hin as [Hin|Hin]; [eauto|].
           simpl in Hin. intuition congruence.
        -- destruct Hr as [[Hr Hkn]|(Hr & Hc & Hk1)]; [left; split; [assumption|lia]|].
           right. repeat split; try assumption. lia.
Qed.

(** The V2 loop never logs a response to CMD8. *)
Lemma grows_v2_loop (n : nat) (w w' : world D) (r : Z) :
  initialise_card_v2_loop n w = Ok r w' ->
  exists cs rs, grows cs rs w w' /\ (forall c x, In (c, x) rs -> c <> 8).
Proof.
  revert w. induction n as [|n IH]; intros w H; cbn [initialise_card_v2_loop] in H.
  - apply ret_inv in H. destruct H as [-> ->].
    exists [], []. split; [apply grows_refl|]. intros c x [].
  - apply bind_inv in H. destruct H as (u & w0 & Ew & H).
    apply bind_inv in H. destruct H as (r58 & w1 & E58 & H).
    apply bind_inv in H. destruct H as (r55 & w2 & E55 & H).
    apply bind_inv in H. destruct H as (r41 & w3 & E41 & H).
    apply quiet_hal_wait in Ew. apply grows_cmd58 in E58.
    apply grows_cmd in E55. apply grows_cmd in E41.
    pose proof (grows_trans _ _ _ _ _ _ _
                  (grows_trans _ _ _ _ _ _ _
                     (grows_trans _ _ _ _ _ _ _ Ew E58) E55) E41) as G.
    cbn [app] in G.
    destruct (r41 =? 0).
    + apply bind_inv in H. destruct H as (r58' & w4 & E58' & H).
      apply bind_inv in H. destruct H as (u' & w5 & Em & H).
      apply ret_inv in H. destruct H as [-> ->].
      apply grows_cmd58 in E58'.
      apply quiet_modify in Em; [|intros ?; reflexivity].
      pose proof (grows_trans _ _ _ _ _ _ _
                    (grows_trans _ _ _ _ _ _ _ G E58') Em) as G'.
      cbn [app] in G'. eexists _, _. split; [exact G'|].
      intros c x Hin. simpl in Hin.
      intuition (try congruence); match goal with E : (_, _) = (c, x) |- _ => inversion E end; lia.
    + apply IH in H. destruct H as (cs & rs & Gk & Hrs).
      pose proof (grows_trans _ _ _ _ _ _ _ G Gk) as G'.
      eexists _, _. split; [exact G'|].
      intros c x Hin. apply in_app_or in Hin. destruct Hin as [Hin|Hin]; [eauto|].
      simpl in Hin.
      intuition (try congruence); match goal with E : (_, _) = (c, x) |- _ => inversion E end; lia.
Qed.

Lemma initialise_card_v1_eq :
  @initialise_card_v1 D = initialise_card_v1_loop SD_COMMAND_TIMEOUT.
Proof. reflexivity. Qed.

Lemma initialise_card_v2_eq :
  @initialise_card_v2 D = initialise_card_v2_loop SD_COMMAND_TIMEOUT.
Proof. reflexivity. Qed.

Lemma grows_v1 (w w' : world D) (r : Z) :
  initialise_card_v1 w = Ok r w' ->
  exists k rs,
    (1 <= k <= SD_COMMAND_TIMEOUT)%nat /\ grows (v1_rounds k) rs w w' /\
    (forall c x, In (c, x) rs -> c <> 8) /\
    (r = SDCARD_FAIL \/ r = SDCARD_V1 /\ _cdv w' = BLOCK_SIZE).
Proof.
  intros H. rewrite initialise_card_v1_eq in H.
  destruct (grows_v1_loop SD_COMMAND_TIMEOUT w w' r H) as (k & rs & Hk & G & Hrs & Hr).
  exists k, rs. pose proof SD_COMMAND_TIMEOUT_pos as Hpos.
  split; [|split; [exact G|split]].
  - destruct Hr as [[_ ->]|(_ & _ & Hk1)].
    + split; [exact Hpos | apply Nat.le_refl].
    + split; [exact Hk1 | exact Hk].
  - intros c x Hin. destruct (Hrs c x Hin) as [-> | ->]; discriminate.
  - destruct Hr as [[-> _]|(-> & Hc & _)]; [left|right; split]; auto.
Qed.

Lemma grows_v2 (w w' : world D) (r : Z) :
  initialise_card_v2 w = Ok r w' ->
  exists cs rs, grows cs rs w w' /\ (forall c x, In (c, x) rs -> c <> 8).
Proof.
  intros H. rewrite initialise_card_v2_eq in H.
  exact (grows_v2_loop SD_COMMAND_TIMEOUT w w' r H).
Qed.

Lemma grows_initialise_card (hal : spisd_hal_t D) (w w' : world D) (r : Z) :
  initialise_card hal w = Ok r w' ->
  exists r0 r1 r2 r3 r4 r5 cs rs,
    grows (cs ++ repeat (0, 0) 6)
          (rs ++ [(0, r5); (0, r4); (0, r3); (0, r2); (0, r1); (0, r0)]) w w' /\
    (cs = [] /\ rs = [] /\ r = SDCARD_FAIL \/
     exists r8 cs' rs',
       cs = cs' ++ [(8, 0x1AA)] /\ rs = rs' ++ [(8, r8)] /\
       (forall c x, In (c, x) rs' -> c <> 8) /\
       (r8 = Z.lor R1_IDLE_STATE R1_ILLEGAL_COMMAND ->
        exists k, (1 <= k <= SD_COMMAND_TIMEOUT)%nat /\ cs' = v1_rounds k /\
                  (r = SDCARD_FAIL \/ r = SDCARD_V1 /\ _cdv w' = BLOCK_SIZE))).
Proof.
  unfold initialise_card. intros H.
  apply bind_inv in H. destruct H as (u0 & wa & Ea & H).
  apply quiet_modify in Ea; [|intros ?; reflexivity].
  apply bind_inv in H. destruct H as (u1 & wb & Eb & H). apply quiet_hal_cs in Eb.
  apply bind_inv in H. destruct H as (u2 & wc & Ec & H). apply quiet_clock_card in Ec.
  apply bind_inv in H. destruct H as (r0 & w0 & E0 & H). apply grows_cmd in E0.
  apply bind_inv in H. destruct H as (r1 & w1 & E1 & H). apply grows_cmd in E1.
  apply bind_inv in H. destruct H as (r2 & w2 & E2 & H). apply grows_cmd in E2.
  apply bind_inv in H. destruct H as (r3 & w3 & E3 & H). apply grows_cmd in E3.
  apply bind_inv in H. destruct H as (r4 & w4 & E4 & H). apply grows_cmd in E4.
  apply bind_inv in H. destruct H as (r5 & w5 & E5 & H). apply grows_cmd in E5.
  assert (G : grows (repeat (0, 0) 6)
                    [(0, r5); (0, r4); (0, r3); (0, r2); (0, r1); (0, r0)] w w5).
  { repeat match goal with
           | G1 : grows _ _ ?x ?y, G2 : grows _ _ ?y ?z |- _ =>
               pose proof (grows_trans _ _ _ _ _ _ _ G1 G2); clear G1 G2
           end.
    assumption. }
  clear Ea Eb Ec E0 E1 E2 E3 E4 E5.
  exists r0, r1, r2, r3, r4, r5.
  destruct (negb (r5 =? R1_IDLE_STATE)).
  { apply ret_inv in H. destruct H as [-> ->].
    exists [], []. split; [exact G|]. left. repeat split. }
  apply bind_inv in H. destruct H as (r8 & w8 & E8 & H). apply grows_cmd8 in E8.
  pose proof (grows_trans _ _ _ _ _ _ _ G E8) as G8. clear G E8.
  destruct (r8 =? R1_IDLE_STATE) eqn:Hidle.
  { apply grows_v2 in H. destruct H as (cs & rs & Gv & Hrs).
    pose proof (grows_trans _ _ _ _ _ _ _ G8 Gv) as G'.
    exists (cs ++ [(8, 0x1AA)]), (rs ++ [(8, r8)]).
    rewrite <- !app_assoc. split; [exact G'|].
    right. exists r8, cs, rs. repeat split; try assumption.
    intros ->. discriminate Hidle. }
  destruct (r8 =? Z.lor R1_IDLE_STATE R1_ILLEGAL_COMMAND) eqn:Hv1.
  { apply grows_v1 in H. destruct H as (k & rs & Hk & Gv & Hrs & Hr).
    pose proof (grows_trans _ _ _ _ _ _ _ G8 Gv) as G'.
    exists (v1_rounds k ++ [(8, 0x1AA)]), (rs ++ [(8, r8)]).
    rewrite <- !app_assoc. split; [exact G'|].
    right. exists r8, (v1_rounds k), rs. repeat split; try assumption.
    intros _. exists k. repeat split; try apply Hk. exact Hr. }
  apply ret_inv in H. destruct H as [-> ->].
  exists [(8, 0x1AA)], [(8, r8)]. split; [exact G8|].
  right. exists r8, [], []. repeat split.
  - intros c x [].
  - intros ->. discriminate Hv1.
Qed.

End Bring_up.

(** ** The register decoder *)

Lemma testbit_byte_append (v b p : Z) :
  is_byte b -> 0 <= p ->
  Z.testbit (v * 256 + b) p = if p <? 8 then Z.testbit b p else Z.testbit v (p - 8).
Proof.
  intros Hb Hp. unfold is_byte in Hb.
  destruct (Z.ltb_spec p 8).
  - rewrite <- (Z.mod_pow2_bits_low (v * 256 + b) 8 p) by lia.
    replace ((v * 256 + b) mod 2 ^ 8) with b; [reflexivity|].
    change (2 ^ 8) with 256.
    rewrite Z.add_comm, Z.mod_add by lia. symmetry. apply Z.mod_small. lia.
  - replace p with ((p - 8) + 8) at 1 by lia.
    rewrite <- Z.div_pow2_bits by lia.
    change (2 ^ 8) with 256.
    replace ((v * 256 + b) / 256) with v; [reflexivity|].
    rewrite Z.add_comm, Z.div_add by lia. rewrite Z.div_small by lia. lia.
Qed.

Lemma csd_value_snoc (l : list Z) (b : Z) :
  csd_value (l ++ [b]) = csd_value l * 256 + b.
Proof. unfold csd_value. rewrite fold_left_app. reflexivity. Qed.

Lemma csd_value_testbit_gen (l : list Z) :
  Forall is_byte l ->
  forall p, 0 <= p < 8 * Z.of_nat (length l) ->
  Z.testbit (csd_value l) p =
  Z.testbit (nth (Z.to_nat (Z.of_nat (length l) - 1 - p / 8)) l 0) (p mod 8).
Proof.
  induction l as [|b l IH] using rev_ind; intros Hall p Hp.
  - simpl in Hp. lia.
  - apply Forall_app in Hall. destruct Hall as [Hl Hb].
    inversion Hb; subst. rewrite csd_value_snoc, testbit_byte_append by (auto; lia).
    rewrite length_app in *. simpl length in *.
    destruct (Z.ltb_spec p 8).
    + rewrite Z.div_small, Z.mod_small by lia.
      replace (Z.to_nat (Z.of_nat (length l + 1) - 1 - 0)) with (length l) by lia.
      rewrite nth_middle. reflexivity.
    + rewrite IH by (auto; lia).
      replace p with ((p - 8) + 1 * 8) at 3 4 by lia.
      rewrite Z.div_add, Z_mod_plus_full by lia.
      rewrite app_nth1.
      2:{ assert (0 <= (p - 8) / 8) by (apply Z.div_pos; lia). lia. }
      f_equal. f_equal. lia.
Qed.

Lemma register_nth_error (data : list Z) (k : Z) :
  is_register data -> 0 <= k < 16 ->
  exists d, nth_error data (Z.to_nat k) = Some d /\ d = nth (Z.to_nat k) data 0 /\ is_byte d.
Proof.
  intros [Hlen Hall] Hk.
  destruct (nth_error data (Z.to_nat k)) as [d|] eqn:E.
  - exists d. split; [reflexivity|]. split.
    + symmetry. apply nth_error_nth. exact E.
    + rewrite Forall_forall in Hall. apply Hall. eapply nth_error_In; eauto.
  - apply nth_error_None in E. lia.
Qed.

Lemma bit_value (d bit : Z) :
  0 <= bit -> Z.land (Z.shiftr d bit) 1 = Z.b2z (Z.testbit d bit).
Proof.
  intros Hb. change 1 with (Z.ones 1). rewrite Z.land_ones by lia.
  rewrite Z.shiftr_div_pow2 by lia. change (2 ^ 1) with 2.
  symmetry. apply Z.testbit_spec'. lia.
Qed.

Lemma slice_step (R i : Z) (c : bool) :
  0 <= i -> c = Z.testbit R i ->
  Z.lor (R mod 2 ^ i) (Z.shiftl (Z.b2z c) i) = R mod 2 ^ (i + 1).
Proof.
  intros Hi ->. apply Z.bits_inj'. intros k Hk.
  rewrite Z.lor_spec, Z.shiftl_spec by lia.
  destruct (Z.ltb_spec k i).
  - rewrite (Z.mod_pow2_bits_low R i k) by lia.
    rewrite (Z.mod_pow2_bits_low R (i + 1) k) by lia.
    rewrite (Z.testbit_neg_r _ (k - i)) by lia. apply orb_false_r.
  - rewrite (Z.mod_pow2_bits_high R i k) by lia. simpl.
    destruct (Z.eq_dec k i) as [->|Hne].
    + rewrite Z.sub_diag, Z.mod_pow2_bits_low by lia.
      destruct (Z.testbit R i); reflexivity.
    + rewrite Z.mod_pow2_bits_high by lia.
      destruct (Z.testbit R i); simpl.
      * change 1 with (2 ^ 0). rewrite Z.pow2_bits_eqb by lia.
        apply Z.eqb_neq. lia.
      * apply Z.testbit_0_l.
Qed.

Lemma ext_bits_loop_slice (data : list Z) (lsb : Z) :
  is_register data -> 0 <= lsb ->
  forall n i,
    0 <= i -> i + Z.of_nat n <= 32 -> lsb + i + Z.of_nat n <= 128 ->
    ext_bits_loop n data lsb i ((csd_value data / 2 ^ lsb) mod 2 ^ i) =
    Some ((csd_value data / 2 ^ lsb) mod 2 ^ (i + Z.of_nat n)).
Proof.
  intros Hreg Hlsb. induction n as [|n IH]; intros i Hi H32 H128.
  - simpl. rewrite Z.add_0_r. reflexivity.
  - cbn [ext_bits_loop]. unfold ext_bits_body.
    assert (Hpos : u32 (lsb + i) = lsb + i) by (unfold u32; apply Z.mod_small; lia).
    rewrite Hpos. rewrite Z.shiftr_div_pow2 by lia. change (2 ^ 3) with 8.
    assert (Hq : 0 <= (lsb + i) / 8 <= 15).
    { split; [apply Z.div_pos; lia|]. apply Z.lt_succ_r. apply Z.div_lt_upper_bound; lia. }
    assert (Hbyte : u32 (15 - (lsb + i) / 8) = 15 - (lsb + i) / 8)
      by (unfold u32; apply Z.mod_small; lia).
    rewrite Hbyte.
    destruct (register_nth_error data (15 - (lsb + i) / 8) Hreg) as (d & -> & Hd & Hbd); [lia|].
    destruct (Z.leb_spec 32 i); [lia|].
    change 7 with (Z.ones 3). rewrite Z.land_ones by lia. change (2 ^ 3) with 8.
    rewrite bit_value by (apply Z.mod_pos_bound; lia).
    assert (Hbit : Z.testbit d ((lsb + i) mod 8) = Z.testbit (csd_value data / 2 ^ lsb) i).
    { rewrite Z.div_pow2_bits by lia. replace (i + lsb) with (lsb + i) by lia.
      destruct Hreg as [Hlen Hall].
      rewrite (csd_value_testbit_gen data Hall) by lia.
      rewrite Hlen. rewrite Hd. reflexivity. }
    assert (Hsh : u32 (Z.shiftl (Z.b2z (Z.testbit d ((lsb + i) mod 8))) i) =
                  Z.shiftl (Z.b2z (Z.testbit d ((lsb + i) mod 8))) i).
    { unfold u32. apply Z.mod_small. rewrite Z.shiftl_mul_pow2 by lia.
      assert (0 < 2 ^ i) by (apply Z.pow_pos_nonneg; lia).
      assert (2 ^ i <= 2 ^ 31) by (apply Z.pow_le_mono_r; lia).
      destruct (Z.testbit d ((lsb + i) mod 8)); simpl Z.b2z; lia. }
    rewrite Hsh, (slice_step _ i _ Hi Hbit).
    rewrite IH by lia. f_equal. f_equal. f_equal. lia.
Qed.

Lemma ext_bits_spec (data : list Z) (msb lsb : Z) :
  is_register data -> 0 <= lsb -> lsb <= msb -> msb <= 127 -> 1 + msb - lsb <= 32 ->
  ext_bits data msb lsb = Some (bit_slice data msb lsb).
Proof.
  intros Hreg H0 Hle H127 Hw. unfold ext_bits, bit_slice.
  assert (Hs : u32 (1 + msb - lsb) = 1 + msb - lsb) by (unfold u32; apply Z.mod_small; lia).
  rewrite Hs.
  pose proof (ext_bits_loop_slice data lsb Hreg H0 (Z.to_nat (1 + msb - lsb)) 0) as H.
  rewrite Z2Nat.id in H by lia.
  change (2 ^ 0) with 1 in H. rewrite Z.mod_1_r in H.
  rewrite H by lia. f_equal. f_equal. f_equal. lia.
Qed.

Lemma register_bit (data : list Z) (p : Z) :
  is_register data -> 0 <= p < 128 ->
  Z.testbit (csd_value data) p =
  Z.testbit (nth (Z.to_nat (15 - Z.shiftr p 3)) data 0) (Z.land p 7).
Proof.
  intros [Hlen Hall] Hp.
  rewrite (csd_value_testbit_gen data Hall) by lia.
  rewrite Hlen, Z.shiftr_div_pow2 by lia.
  change 7 with (Z.ones 3). rewrite Z.land_ones by lia. reflexivity.
Qed.

(** C9. On a 16-byte register and a range [lsb..msb] inside it of at most
    32 bits, [ext_bits] returns the slice cut by division out of the
    register read as one 128-bit number; bit [k] of that slice is bit
    [(lsb+k) & 7] of byte [15 - ((lsb+k) >> 3)], so bit 0 is [lsb]. *)
Theorem ext_bits_bit_slice (data : list Z) (msb lsb : Z) :
  is_register data ->
  0 <= lsb -> lsb <= msb -> msb <= 127 -> 1 + msb - lsb <= 32 ->
  ext_bits data msb lsb = Some (bit_slice data msb lsb) /\
  forall k, 0 <= k ->
    Z.testbit (bit_slice data msb lsb) k =
    if k <=? msb - lsb
    then Z.testbit (nth (Z.to_nat (15 - Z.shiftr (lsb + k) 3)) data 0)
                   (Z.land (lsb + k) 7)
    else false.
Proof.
  intros Hreg H0 Hle H127 Hw. split; [apply ext_bits_spec; assumption|].
  intros k Hk. unfold bit_slice.
  destruct (Z.leb_spec k (msb - lsb)).
  - rewrite Z.mod_pow2_bits_low by lia.
    rewrite Z.div_pow2_bits by lia.
    rewrite <- register_bit by (auto; lia). f_equal. lia.
  - apply Z.mod_pow2_bits_high. lia.
Qed.

Lemma ext_bits_bit_slice_witness :
  is_register csd_sample /\
  ext_bits csd_sample 69 48 = Some (bit_slice csd_sample 69 48) /\
  bit_slice csd_sample 69 48 = 0x76B2.
Proof.
  assert (Hreg : is_register csd_sample).
  { split; [reflexivity|]. repeat constructor; unfold is_byte; lia. }
  split; [exact Hreg|]. split; [|reflexivity].
  apply (ext_bits_bit_slice csd_sample 69 48 Hreg); lia.
Defined.

(** ** The scripted card *)

Lemma scripted_read_write (idle tx b : Z) (s : list Z) (w : world (list Z)) :
  spi_hal w = Some (scripted_hal idle) -> dev w = b :: s ->
  _spi_read_write tx w =
  Ok (u8 b) (log (EvTransfer (u8 tx) (u8 b)) (set_dev s w)).
Proof. intros Hh Hd. unfold _spi_read_write. rewrite Hh, Hd. reflexivity. Qed.

Lemma scripted_read_write_idle (idle tx : Z) (w : world (list Z)) :
  spi_hal w = Some (scripted_hal idle) -> dev w = [] ->
  _spi_read_write tx w =
  Ok (u8 idle) (log (EvTransfer (u8 tx) (u8 idle)) (set_dev [] w)).
Proof. intros Hh Hd. unfold _spi_read_write. rewrite Hh, Hd. reflexivity. Qed.

Lemma scripted_read_write_total (idle tx : Z) (w : world (list Z)) :
  spi_hal w = Some (scripted_hal idle) ->
  exists b w', _spi_read_write tx w = Ok b w'.
Proof.
  intros Hh. unfold _spi_read_write. rewrite Hh.
  destruct (_spi_transfer (scripted_hal idle) (dev w) (u8 tx)). eauto.
Qed.

Lemma high_bit_clear (r : Z) : 0 <= r < 128 -> Z.land r 0x80 = 0.
Proof.
  intros Hr. apply Z.bits_inj'. intros k Hk.
  rewrite Z.land_spec, Z.bits_0. change 0x80 with (2 ^ 7).
  rewrite Z.pow2_bits_eqb by lia.
  destruct (Z.eqb_spec 7 k) as [<-|]; [|apply andb_false_r].
  rewrite andb_true_r. apply Z.bits_above_log2; [lia|].
  destruct (Z.eq_dec r 0) as [->|]; [reflexivity|].
  apply Z.log2_lt_pow2; lia.
Qed.

Lemma store_response_out_of_range (response : list Z) (i v : Z) :
  5 <= i -> store_response response i v = None.
Proof.
  intros Hi. unfold store_response.
  destruct (Z.ltb_spec i 5); [lia|]. rewrite andb_false_r. reflexivity.
Qed.

(** The polling loop of [_cmd8] on a card that holds the line high for [n]
    polls and then answers [r]: when the answer comes at index 5 or later the
    first store of a trailing byte is outside [response]. *)
Lemma cmd8_poll_out_of_range (idle r : Z) (rest : list Z) (n : nat) :
  0 <= r < 128 ->
  forall (budget : nat) (i : Z) (w : world (list Z)),
    spi_hal w = Some (scripted_hal idle) ->
    dev w = repeat 0xFF n ++ r :: rest ->
    (n < budget)%nat -> 0 <= i -> 5 <= i + Z.of_nat n ->
    _cmd8_poll budget i w = Undefined.
Proof.
  intros Hr. induction n as [|n IH]; intros budget i w Hh Hd Hb Hi H5;
    (destruct budget as [|budget]; [lia|]); cbn [_cmd8_poll repeat app] in *.
  - unfold bind at 1. rewrite (scripted_read_write idle _ r rest w Hh Hd).
    assert (Hu : u8 r = r) by (unfold u8; apply Z.mod_small; lia).
    rewrite Hu. cbn [nth]. rewrite (high_bit_clear r Hr). cbn [Z.eqb].
    cbn [_cmd8_trailing]. unfold bind.
    destruct (scripted_read_write_total idle 0xFF
                (log (EvTransfer (u8 0xFF) r) (set_dev rest w)) Hh) as (b & w1 & ->).
    rewrite store_response_out_of_range by lia. reflexivity.
  - unfold bind at 1.
    rewrite (scripted_read_write idle _ 0xFF (repeat 0xFF n ++ r :: rest) w Hh Hd).
    cbn [nth]. change (Z.land (u8 0xFF) 0x80 =? 0) with false. cbv iota.
    apply IH; try assumption; try reflexivity; lia.
Qed.

(** C10. In [_cmd8] the trailing bytes are stored at [response[i]] with [i]
    the index of the polling loop.  On a card that keeps the line high for
    [n] polls, 5 or more and within the budget, and then answers with the
    high bit clear, that store is outside the 5-byte buffer: the run of
    [_cmd8] ends in undefined behaviour. *)
Theorem cmd8_store_out_of_range (n : nat) (r : Z) (rest : list Z) :
  (5 <= n)%nat -> (n < SD_COMMAND_TIMEOUT * 1000)%nat -> 0 <= r < 128 ->
  _cmd8 (attached 0xFF (during_frame ++ repeat 0xFF n ++ r :: rest)) = Undefined /\
  forall b, store_response [r; 0; 0; 0; 0] (Z.of_nat n) b = None.
Proof.
  intros H5 Hb Hr. split; [|intros b; apply store_response_out_of_range; lia].
  unfold _cmd8. remember (SD_COMMAND_TIMEOUT * 1000)%nat as budget eqn:Eb.
  clear Eb. unfold bind at 1. cbn [modify].
  unfold bind at 1. unfold hal_cs at 1. cbn [attached spi_hal log].
  repeat (unfold bind at 1; unfold _spi_read_write at 1;
          cbn [spi_hal log set_dev dev trace attached during_frame repeat app
               scripted_hal _spi_transfer scripted_transfer _cdv _is_initialized
               _sectors init_ok port_storage _spi_cs]).
  unfold bind at 1.
  erewrite cmd8_poll_out_of_range with (idle := 0xFF) (r := r) (rest := rest) (n := n);
    try reflexivity; try assumption; lia.
Qed.

Lemma cmd8_store_out_of_range_witness :
  _cmd8 (attached 0xFF (during_frame ++ repeat 0xFF 5 ++ [0x01; 0x00; 0x00; 0x01; 0xAA]))
  = Undefined /\
  forall b, store_response [0x01; 0; 0; 0; 0] 5 b = None.
Proof.
  apply (cmd8_store_out_of_range 5 0x01 [0x00; 0x00; 0x01; 0xAA]).
  - apply Nat.le_refl.
  - apply Nat.lt_le_trans with (1 * 1000)%nat.
    + repeat constructor.
    + apply Nat.mul_le_mono_r. exact SD_COMMAND_TIMEOUT_pos.
  - lia.
Defined.

(** C3 (the code at the failing input). A card that answers CMD8 on the very
    first poll with 0x01 followed by 00 00 01 AA: each trailing byte is
    stored at [response[0]], and [_cmd8] returns the last of them, 0xAA,
    not the leading status byte.  One poll later the leading byte comes
    back untouched. *)
Theorem cmd8_answer_on_first_poll :
  value_of (_cmd8 (attached 0xFF (during_frame ++ [0x01; 0x00; 0x00; 0x01; 0xAA])))
  = Some 0xAA /\
  value_of (_cmd8 (attached 0xFF (during_frame ++ [0xFF; 0x01; 0x00; 0x00; 0x01; 0xAA])))
  = Some 0x01.
Proof. split; vm_compute; reflexivity. Qed.

(** *** Running on a script *)

Lemma on_script_attached (idle : Z) (s : list Z) : on_script idle s (attached idle s).
Proof. split; reflexivity. Qed.

Lemma hal_cs_scripted (idle cs : Z) (s : list Z) (w : world (list Z)) :
  on_script idle s w ->
  exists w', hal_cs cs w = Ok tt w' /\ on_script idle s w'.
Proof.
  intros [Hh Hd]. unfold hal_cs. rewrite Hh. eexists. split; [reflexivity|].
  split; [exact Hh | exact Hd].
Qed.

Lemma read_write_scripted (idle tx b : Z) (s : list Z) (w : world (list Z)) :
  on_script idle (b :: s) w ->
  exists w', _spi_read_write tx w = Ok (u8 b) w' /\ on_script idle s w'.
Proof.
  intros [Hh Hd]. rewrite (scripted_read_write idle tx b s w Hh Hd).
  eexists. split; [reflexivity|]. split; [exact Hh | reflexivity].
Qed.

Lemma read_write_idle (idle tx : Z) (w : world (list Z)) :
  on_script idle [] w ->
  exists w', _spi_read_write tx w = Ok (u8 idle) w' /\ on_script idle [] w'.
Proof.
  intros [Hh Hd]. rewrite (scripted_read_write_idle idle tx w Hh Hd).
  eexists. split; [reflexivity|]. split; [exact Hh | reflexivity].
Qed.

Lemma write_bytes_scripted (idle x : Z) (buffer s : list Z) (n : nat) :
  forall (i : nat) (w : world (list Z)),
    (i + n <= length buffer)%nat ->
    on_script idle (repeat x n ++ s) w ->
    exists w', write_bytes n buffer i w = Ok tt w' /\ on_script idle s w'.
Proof.
  induction n as [|n IH]; intros i w Hlen Hw; cbn [write_bytes repeat app] in *.
  - exists w. split; [reflexivity | exact Hw].
  - destruct (nth_error buffer i) as [b|] eqn:Eb.
    2:{ apply nth_error_None in Eb. lia. }
    unfold bind at 1. cbn [lift_option ret].
    destruct (read_write_scripted idle b x _ w Hw) as (w1 & E1 & Hw1).
    rewrite (bind_Ok _ _ _ _ _ E1). apply IH; [lia | exact Hw1].
Qed.

(** With the line stuck away from 0xFE the wait for the start token uses up
    any fuel. *)
Lemma wait_start_token_stuck (idle : Z) (fuel : nat) (w : world (list Z)) :
  u8 idle <> 0xFE -> on_script idle [] w -> wait_start_token fuel w = Diverge.
Proof.
  intros Hne. revert w. induction fuel as [|fuel IH]; intros w Hw;
    cbn [wait_start_token]; [reflexivity|].
  destruct (read_write_idle idle 0xFF w Hw) as (w1 & E1 & Hw1).
  rewrite (bind_Ok _ _ _ _ _ E1).
  destruct (Z.eqb_spec (u8 idle) 0xFE); [contradiction|]. apply IH. exact Hw1.
Qed.

(** With the line stuck at zero the wait for the end of the busy phase uses
    up any fuel. *)
Lemma wait_not_busy_stuck (fuel : nat) (w : world (list Z)) :
  on_script 0 [] w -> wait_not_busy fuel w = Diverge.
Proof.
  revert w. induction fuel as [|fuel IH]; intros w Hw;
    cbn [wait_not_busy]; [reflexivity|].
  destruct (read_write_idle 0 0xFF w Hw) as (w1 & E1 & Hw1).
  rewrite (bind_Ok _ _ _ _ _ E1). change (u8 0 =? 0) with true. cbv iota.
  apply IH. exact Hw1.
Qed.

(** C7 (the code at the failing inputs). With no card on the bus (line high)
    [_read] never sees the start token, and with a card that accepts a block
    and then holds the line low [_write] never sees the end of the busy
    phase: whatever the fuel, neither call returns. *)
Theorem block_polls_unbounded (fuel : nat) :
  _read fuel 16 (attached 0xFF []) = Diverge /\
  _write fuel (repeat 0 512) 512 (attached 0 (repeat 0xFF 515 ++ [0x05])) = Diverge.
Proof.
  split.
  - unfold _read.
    destruct (hal_cs_scripted 0xFF 1 [] _ (on_script_attached 0xFF [])) as (w1 & E1 & Hw1).
    rewrite (bind_Ok _ _ _ _ _ E1). unfold bind at 1.
    rewrite (wait_start_token_stuck 0xFF fuel w1); [reflexivity | discriminate | exact Hw1].
  - unfold _write.
    destruct (hal_cs_scripted 0 1 _ _ (on_script_attached 0 (repeat 0xFF 515 ++ [0x05])))
      as (w1 & E1 & Hw1).
    rewrite (bind_Ok _ _ _ _ _ E1).
    change (repeat 0xFF 515 ++ [0x05])
      with (0xFF :: repeat 0xFF 512 ++ [0xFF; 0xFF; 0x05]) in Hw1.
    destruct (read_write_scripted 0 0xFE _ _ w1 Hw1) as (w2 & E2 & Hw2).
    rewrite (bind_Ok _ _ _ _ _ E2).
    destruct (write_bytes_scripted 0 0xFF (repeat 0 512) [0xFF; 0xFF; 0x05] 512 0 w2)
      as (w3 & E3 & Hw3); [rewrite repeat_length; lia | exact Hw2 |].
    change (Z.to_nat 512) with 512%nat.
    rewrite (bind_Ok _ _ _ _ _ E3).
    destruct (read_write_scripted 0 0xFF _ _ w3 Hw3) as (w4 & E4 & Hw4).
    rewrite (bind_Ok _ _ _ _ _ E4).
    destruct (read_write_scripted 0 0xFF _ _ w4 Hw4) as (w5 & E5 & Hw5).
    rewrite (bind_Ok _ _ _ _ _ E5).
    destruct (read_write_scripted 0 0xFF _ _ w5 Hw5) as (w6 & E6 & Hw6).
    rewrite (bind_Ok _ _ _ _ _ E6).
    change (negb (Z.land (u8 0x05) 0x1F =? 0x05)) with false. cbv iota.
    unfold bind at 1. rewrite (wait_not_busy_stuck fuel w6 Hw6). reflexivity.
Qed.

(** ** Capacity *)

Section Capacity.

Context {D : Type}.

Lemma u8_is_byte (x : Z) : is_byte (u8 x).
Proof. unfold is_byte, u8. apply Z.mod_pos_bound. lia. Qed.

Lemma spi_read_write_is_byte (tx b : Z) (w w' : world D) :
  _spi_read_write tx w = Ok b w' -> is_byte b.
Proof.
  unfold _spi_read_write. destruct (spi_hal w) as [h|]; [|discriminate].
  destruct (_spi_transfer h (dev w) (u8 tx)) as [d rx].
  intros H. inversion H; subst. apply u8_is_byte.
Qed.

Lemma read_bytes_shape (n : nat) (w w' : world D) (data : list Z) :
  read_bytes n w = Ok data w' -> length data = n /\ Forall is_byte data.
Proof.
  revert w w' data. induction n as [|n IH]; intros w w' data H; cbn [read_bytes] in H.
  - apply ret_inv in H. destruct H as [-> _]. split; [reflexivity | constructor].
  - apply bind_inv in H. destruct H as (b & w1 & E1 & H).
    apply bind_inv in H. destruct H as (rest & w2 & E2 & H).
    apply ret_inv in H. destruct H as [-> _].
    apply IH in E2. destruct E2 as [Hl Hf].
    split; [simpl; congruence|]. constructor; [|exact Hf].
    eapply spi_read_write_is_byte; eassumption.
Qed.

(** [_read] has a single [return], of 0, and stores [length] bytes. *)
Lemma read_shape (fuel : nat) (len r : Z) (data : list Z) (w w' : world D) :
  _read fuel len w = Ok (r, data) w' ->
  r = 0 /\ length data = Z.to_nat len /\ Forall is_byte data.
Proof.
  unfold _read. intros H.
  apply bind_inv in H. destruct H as (? & ? & _ & H).
  apply bind_inv in H. destruct H as (? & ? & _ & H).
  apply bind_inv in H. destruct H as (bytes & ? & E & H).
  apply bind_inv in H. destruct H as (? & ? & _ & H).
  apply bind_inv in H. destruct H as (? & ? & _ & H).
  apply bind_inv in H. destruct H as (? & ? & _ & H).
  apply bind_inv in H. destruct H as (? & ? & _ & H).
  apply ret_inv in H. destruct H as [H _]. inversion H; subst.
  apply read_bytes_shape in E. tauto.
Qed.

Lemma read_16_register (fuel : nat) (r : Z) (csd : list Z) (w w' : world D) :
  _read fuel 16 w = Ok (r, csd) w' -> r = 0 /\ is_register csd.
Proof. intros H. apply read_shape in H. unfold is_register. tauto. Qed.

Lemma bit_slice_range (data : list Z) (msb lsb : Z) :
  lsb <= msb -> 0 <= bit_slice data msb lsb < 2 ^ (msb - lsb + 1).
Proof.
  intros H. unfold bit_slice. apply Z.mod_pos_bound. apply Z.pow_pos_nonneg; lia.
Qed.

Lemma s64_small (x : Z) : - 2 ^ 63 <= x < 2 ^ 63 -> s64 x = x.
Proof. intros H. unfold s64. rewrite Z.mod_small; lia. Qed.

Lemma u32_small (x : Z) : 0 <= x < 2 ^ 32 -> u32 x = x.
Proof. intros H. unfold u32. apply Z.mod_small. exact H. Qed.

Lemma pow2_bounds (n m : Z) : 0 <= n <= m -> 1 <= 2 ^ n <= 2 ^ m.
Proof.
  intros H. split.
  - change 1 with (2 ^ 0). apply Z.pow_le_mono_r; lia.
  - apply Z.pow_le_mono_r; lia.
Qed.

(** The arithmetic of the version-0 branch, on fields within their widths. *)
Lemma capacity_v0 (c_size c_size_mult read_bl_len : Z) :
  0 <= c_size < 2 ^ 12 -> 0 <= c_size_mult < 2 ^ 3 -> 0 <= read_bl_len < 2 ^ 4 ->
  u32 (u32 (u32 (c_size + 1) * u32 (Z.shiftl 1 (u32 (c_size_mult + 2)))) *
       u32 (Z.shiftl 1 read_bl_len)) =
  (Z.shiftl (c_size + 1) (c_size_mult + 2) * Z.shiftl 1 read_bl_len) mod 2 ^ 32.
Proof.
  intros Hc Hm Hr.
  rewrite (u32_small (c_size_mult + 2)) by lia.
  rewrite !Z.shiftl_mul_pow2 by lia. rewrite !Z.mul_1_l.
  pose proof (pow2_bounds (c_size_mult + 2) 9 ltac:(lia)) as Hp1.
  pose proof (pow2_bounds read_bl_len 15 ltac:(lia)) as Hp2.
  rewrite (u32_small (c_size + 1)) by lia.
  rewrite (u32_small (2 ^ (c_size_mult + 2))) by lia.
  rewrite (u32_small (2 ^ read_bl_len)) by lia.
  rewrite (u32_small ((c_size + 1) * 2 ^ (c_size_mult + 2))); [reflexivity|].
  change (2 ^ 12) with 4096 in Hc. change (2 ^ 9) with 512 in Hp1.
  change (2 ^ 32) with 4294967296. nia.
Qed.

Lemma sectors_v1 (hc_c_size : Z) :
  0 <= hc_c_size < 2 ^ 22 ->
  s64 (s64 (hc_c_size + 1) * 1024) = (hc_c_size + 1) * 1024.
Proof.
  intros H. change (2 ^ 22) with 4194304 in H.
  rewrite (s64_small (hc_c_size + 1)) by lia. apply s64_small. lia.
Qed.

(** The four fields the decoder reads, through the reference slice. *)
Lemma csd_fields (csd : list Z) :
  is_register csd ->
  ext_bits csd 127 126 = Some (bit_slice csd 127 126) /\
  ext_bits csd 73 62 = Some (bit_slice csd 73 62) /\
  ext_bits csd 49 47 = Some (bit_slice csd 49 47) /\
  ext_bits csd 83 80 = Some (bit_slice csd 83 80) /\
  ext_bits csd 69 48 = Some (bit_slice csd 69 48).
Proof. intros H. repeat split; apply ext_bits_spec; (exact H || lia). Qed.

Lemma sd_sectors_after_capture (fuel : nat) (w w1 w2 : world D)
      (rr : Z) (csd : list Z) :
  _cmdx 9 0 w = Ok 0 w1 -> _read fuel 16 w1 = Ok (rr, csd) w2 ->
  exists w3, _sd_sectors fuel w = Ok (decoded_sd_sectors csd) w3.
Proof.
  intros E1 E2. unfold _sd_sectors.
  rewrite (bind_Ok _ _ _ _ _ E1). cbn [Z.eqb negb].
  rewrite (bind_Ok _ _ _ _ _ E2).
  destruct (read_16_register _ _ _ _ _ E2) as [-> Hreg]. cbn [Z.eqb negb].
  destruct (csd_fields csd Hreg) as (F0 & F1 & F2 & F3 & F4).
  rewrite F0, F1, F2, F3, F4. cbn [lift_option].
  unfold decoded_sd_sectors, bind, ret, modify.
  pose proof (bit_slice_range csd 73 62 ltac:(lia)) as B1.
  pose proof (bit_slice_range csd 49 47 ltac:(lia)) as B2.
  pose proof (bit_slice_range csd 83 80 ltac:(lia)) as B3.
  pose proof (bit_slice_range csd 69 48 ltac:(lia)) as B4.
  destruct (bit_slice csd 127 126 =? 0).
  - eexists. rewrite capacity_v0 by assumption. reflexivity.
  - destruct (bit_slice csd 127 126 =? 1).
    + eexists. rewrite sectors_v1 by assumption. reflexivity.
    + eexists. reflexivity.
Qed.

Lemma disk_capacity_after_capture (fuel : nat) (w w1 w2 : world D)
      (rr : Z) (csd : list Z) :
  _cmdx 9 0 w = Ok 0 w1 -> _read fuel 16 w1 = Ok (rr, csd) w2 ->
  disk_capacity fuel w = Ok (reported_capacity csd (_sectors w)) w2.
Proof.
  intros E1 E2. unfold disk_capacity.
  rewrite (bind_Ok _ _ _ _ _ E1). cbn [Z.eqb negb].
  rewrite (bind_Ok _ _ _ _ _ E2).
  destruct (read_16_register _ _ _ _ _ E2) as [-> Hreg]. cbn [Z.eqb negb].
  destruct (csd_fields csd Hreg) as (F0 & F1 & F2 & F3 & F4).
  rewrite F0, F1, F2, F3. cbn [lift_option].
  unfold reported_capacity, bind, ret, get.
  pose proof (bit_slice_range csd 73 62 ltac:(lia)) as B1.
  pose proof (bit_slice_range csd 49 47 ltac:(lia)) as B2.
  pose proof (bit_slice_range csd 83 80 ltac:(lia)) as B3.
  apply same_statics_cmdx in E1. apply same_statics_read in E2.
  destruct E1 as (_ & _ & S1 & _). destruct E2 as (_ & _ & S2 & _).
  destruct (bit_slice csd 127 126 =? 0).
  - rewrite capacity_v0 by assumption. reflexivity.
  - destruct (bit_slice csd 127 126 =? 1); [|reflexivity].
    rewrite S2, S1. reflexivity.
Qed.

End Capacity.

(** Evaluate a run on a closed state and keep the outcome as an equation. *)
Ltac run m w E :=
  let r := eval vm_compute in (m w) in
  assert (E : m w = r) by (vm_compute; reflexivity).

(** C8 (as stated, refuted). A standard-capacity register with [C_SIZE]
    4095, [C_SIZE_MULT] 7 and [READ_BL_LEN] 11 stands for 2^32 bytes, that
    is 8388608 sectors; [_sd_sectors] returns 0, because the byte capacity
    is held in a [uint32_t]. *)
Lemma sd_sectors_wraps_at_4g :
  exists w1 w2,
    _cmdx 9 0 (attached 0xFF (reply_capacity csd_sc_4g)) = Ok 0 w1 /\
    _read 4 16 w1 = Ok (0, csd_sc_4g) w2 /\
    bit_slice csd_sc_4g 127 126 = 0 /\
    stated_sd_sectors csd_sc_4g = 8388608 /\
    value_of (_sd_sectors 4 (attached 0xFF (reply_capacity csd_sc_4g))) = Some 0.
Proof.
  run (@_cmdx (list Z) 9 0) (attached 0xFF (reply_capacity csd_sc_4g)) E1.
  match type of E1 with _ = Ok _ ?w1 => run (@_read (list Z) 4 16) w1 E2 end.
  eexists _, _. split; [exact E1|]. split; [exact E2|].
  repeat split; vm_compute; reflexivity.
Qed.

(** C8 (amended). Once CMD9 is accepted and the 16 register bytes are read,
    [_sd_sectors] returns: for structure 0,
    ((cSize+1) << (cSizeMult+2)) * (1 << readBlockLen) cut to 32 bits and
    then divided by 512; for structure 1, (hcCSize+1) * 1024; otherwise 0.
    The fields are bits [73:62], [49:47], [83:80], [69:48] of the register.
    Where the version-0 product is below 2^32 this is the stated value. *)
Theorem sd_sectors_decoded {D} (fuel : nat) (w w1 w2 : world D)
        (rr : Z) (csd : list Z) :
  _cmdx 9 0 w = Ok 0 w1 -> _read fuel 16 w1 = Ok (rr, csd) w2 ->
  is_register csd /\
  value_of (_sd_sectors fuel w) = Some (decoded_sd_sectors csd) /\
  (Z.shiftl (bit_slice csd 73 62 + 1) (bit_slice csd 49 47 + 2) *
   Z.shiftl 1 (bit_slice csd 83 80) < 2 ^ 32 ->
   decoded_sd_sectors csd = stated_sd_sectors csd).
Proof.
  intros E1 E2. split; [exact (proj2 (read_16_register _ _ _ _ _ E2))|]. split.
  - destruct (sd_sectors_after_capture fuel w w1 w2 rr csd E1 E2) as (w3 & ->).
    reflexivity.
  - intros Hfit. unfold decoded_sd_sectors, stated_sd_sectors.
    destruct (bit_slice csd 127 126 =? 0); [|reflexivity].
    rewrite Z.mod_small; [reflexivity|]. split; [|exact Hfit].
    pose proof (bit_slice_range csd 73 62 ltac:(lia)).
    pose proof (bit_slice_range csd 49 47 ltac:(lia)).
    pose proof (bit_slice_range csd 83 80 ltac:(lia)).
    rewrite !Z.shiftl_mul_pow2 by lia.
    apply Z.mul_nonneg_nonneg; [apply Z.mul_nonneg_nonneg|]; try lia;
      try (apply Z.pow_nonneg; lia).
Qed.

Lemma sd_sectors_decoded_witness :
  exists w1 w2,
    _cmdx 9 0 (attached 0xFF (reply_capacity csd_sc_2g)) = Ok 0 w1 /\
    _read 4 16 w1 = Ok (0, csd_sc_2g) w2 /\
    is_register csd_sc_2g /\
    value_of (_sd_sectors 4 (attached 0xFF (reply_capacity csd_sc_2g)))
    = Some (decoded_sd_sectors csd_sc_2g) /\
    decoded_sd_sectors csd_sc_2g = 4194304.
Proof.
  run (@_cmdx (list Z) 9 0) (attached 0xFF (reply_capacity csd_sc_2g)) E1.
  match type of E1 with _ = Ok _ ?w1 => run (@_read (list Z) 4 16) w1 E2 end.
  eexists _, _. split; [exact E1|]. split; [exact E2|].
  destruct (sd_sectors_decoded 4 _ _ _ _ _ E1 E2) as (Hreg & Hv & _).
  split; [exact Hreg|]. split; [exact Hv | reflexivity].
Defined.

(** A finished call of [disk_capacity] put one command on the bus: CMD9. *)
Lemma disk_capacity_issues_cmd9 {D} (fuel : nat) (w w1 : world D) (r : Z) :
  _cmdx 9 0 w = Ok r w1 ->
  forall v w', disk_capacity fuel w = Ok v w' -> grows [(9, 0)] [(9, r)] w w'.
Proof.
  intros E1 v w' H. pose proof H as H0. unfold disk_capacity in H.
  rewrite (bind_Ok _ _ _ _ _ E1) in H.
  pose proof (grows_cmdx _ _ _ _ _ E1) as G1.
  destruct (Z.eqb_spec r 0) as [->|Hr]; cbn [negb] in H.
  - apply bind_inv in H. destruct H as ([rr csd] & w2 & E2 & _).
    rewrite (disk_capacity_after_capture fuel w w1 w2 rr csd E1 E2) in H0.
    inversion H0; subst.
    apply quiet_read in E2.
    exact (grows_trans _ _ _ _ _ _ _ G1 E2).
  - apply ret_inv in H. destruct H as [_ ->]. exact G1.
Qed.

(** C5 (as stated, refuted). The driver is initialised on a high-capacity
    card with [C_SIZE] 0x1000; later the register read by [disk_capacity]
    itself shows [C_SIZE] 0x2000.  The call returns the capacity of the first
    card, the file-scope [_sectors] times 512, not the one decoded from the
    register it has just read. *)
Lemma disk_capacity_keeps_first_card :
  exists w w1 w2,
    post_init 4 1 (scripted_hal 0xFF)
              (power_on (card_good ++ reply_capacity csd_hc_2000) []) = Ok tt w /\
    _cmdx 9 0 w = Ok 0 w1 /\
    _read 4 16 w1 = Ok (0, csd_hc_2000) w2 /\
    stated_capacity csd_hc_2000 = (0x2000 + 1) * 1024 * 512 /\
    disk_capacity 4 w = Ok ((0x1000 + 1) * 1024 * 512) w2.
Proof.
  run (@post_init (list Z) 4 1 (scripted_hal 0xFF))
      (power_on (card_good ++ reply_capacity csd_hc_2000) []) E0.
  match type of E0 with _ = Ok _ ?w => run (@_cmdx (list Z) 9 0) w E1 end.
  match type of E1 with _ = Ok _ ?w1 => run (@_read (list Z) 4 16) w1 E2 end.
  eexists _, _, _. split; [exact E0|]. split; [exact E1|]. split; [exact E2|].
  split; vm_compute; reflexivity.
Qed.

(** C5 (amended). Every call of [disk_capacity] issues CMD9 and nothing
    else.  If the card does not answer it with 0 the call returns 0.
    Otherwise, once the 16 register bytes are read, it returns: for a
    version-0 register the capacity decoded from it, cut to 32 bits; for a
    version-1 register the file-scope [_sectors], as left by
    [disk_initialize], times the block size; for any other structure 0. *)
Theorem disk_capacity_reported {D} (fuel : nat) (w w1 : world D) (r : Z) :
  _cmdx 9 0 w = Ok r w1 ->
  (r <> 0 -> disk_capacity fuel w = Ok 0 w1) /\
  (r = 0 -> forall rr csd w2,
      _read fuel 16 w1 = Ok (rr, csd) w2 ->
      disk_capacity fuel w = Ok (reported_capacity csd (_sectors w)) w2) /\
  (forall v w', disk_capacity fuel w = Ok v w' -> grows [(9, 0)] [(9, r)] w w').
Proof.
  intros E1. split; [|split].
  - intros Hr. unfold disk_capacity. rewrite (bind_Ok _ _ _ _ _ E1).
    destruct (Z.eqb_spec r 0); [contradiction|]. reflexivity.
  - intros -> rr csd w2 E2. exact (disk_capacity_after_capture fuel w w1 w2 rr csd E1 E2).
  - intros v w' H. exact (disk_capacity_issues_cmd9 fuel w w1 r E1 v w' H).
Qed.

Lemma disk_capacity_reported_witness :
  exists w w1 w2,
    post_init 4 1 (scripted_hal 0xFF)
              (power_on (card_good ++ reply_capacity csd_hc_2000) []) = Ok tt w /\
    _cmdx 9 0 w = Ok 0 w1 /\
    _read 4 16 w1 = Ok (0, csd_hc_2000) w2 /\
    disk_capacity 4 w = Ok (reported_capacity csd_hc_2000 (_sectors w)) w2 /\
    _sectors w = (0x1000 + 1) * 1024.
Proof.
  run (@post_init (list Z) 4 1 (scripted_hal 0xFF))
      (power_on (card_good ++ reply_capacity csd_hc_2000) []) E0.
  match type of E0 with _ = Ok _ ?w => run (@_cmdx (list Z) 9 0) w E1 end.
  match type of E1 with _ = Ok _ ?w1 => run (@_read (list Z) 4 16) w1 E2 end.
  eexists _, _, _. split; [exact E0|]. split; [exact E1|]. split; [exact E2|].
  split; [|reflexivity].
  exact (proj1 (proj2 (disk_capacity_reported 4 _ _ 0 E1)) eq_refl _ _ _ E2).
Defined.

(** ** The RPC handlers *)

(** Take a finished run of a handler apart, one step at a time, down to the
    [return] it ended with. *)
Ltac unravel H :=
  repeat first
    [ progress cbv beta in H
    | match type of H with
      | ret _ _ = Ok _ _ =>
          apply ret_inv in H; destruct H as [? ?]; subst
      | bind _ _ _ = Ok _ _ =>
          let a := fresh "a" in
          let w := fresh "w" in
          let E := fresh "E" in
          apply bind_inv in H; destruct H as (a & w & E & H)
      | (if ?b then _ else _) _ = Ok _ _ => destruct b eqn:?
      | (match ?x with _ => _ end) _ = Ok _ _ => destruct x
      end ].

Section Handlers.

Context {D : Type}.
Variable LP64 : bool.

Lemma write_reports_nothing_on_failure (fuel : nat) (offset size : Z)
      (w w' : world D) (res : rpc_result) :
  storage_rpc_write fuel offset size w = Ok res w' ->
  status res <> OS_SUCCESS -> out_bytes res = 0.
Proof.
  unfold storage_rpc_write. intros H Hs. unravel H;
    solve [reflexivity | exfalso; apply Hs; reflexivity].
Qed.

Lemma read_reports_nothing_on_failure (fuel : nat) (offset size : Z)
      (w w' : world D) (res : rpc_result) :
  storage_rpc_read fuel offset size w = Ok res w' ->
  status res <> OS_SUCCESS -> out_bytes res = 0.
Proof.
  unfold storage_rpc_read. intros H Hs. unravel H;
    solve [reflexivity | exfalso; apply Hs; reflexivity].
Qed.

Lemma erase_reports_nothing_on_failure (fuel : nat) (offset size : Z)
      (w w' : world D) (res : rpc_result) :
  storage_rpc_erase LP64 fuel offset size w = Ok res w' ->
  status res <> OS_SUCCESS -> out_bytes res = 0.
Proof.
  unfold storage_rpc_erase. intros H Hs. unravel H;
    solve [reflexivity | exfalso; apply Hs; reflexivity].
Qed.

End Handlers.

Section Bounds.

Context {D : Type}.
Variable LP64 : bool.

Lemma disk_capacity_log (fuel : nat) (w w' : world D) (v : Z) :
  disk_capacity fuel w = Ok v w' -> exists r, grows [(9, 0)] [(9, r)] w w'.
Proof.
  intros H. pose proof H as H0. unfold disk_capacity in H0.
  apply bind_inv in H0. destruct H0 as (r & w1 & E1 & _).
  exists r. exact (disk_capacity_issues_cmd9 fuel w w1 r E1 v w' H).
Qed.






End Bounds.


(** ** What initialisation leaves alone *)

Section Driver_facts.

Context {D : Type}.
Variable P : world D -> world D -> Prop.
Hypothesis P_refl : forall w, P w w.
Hypothesis P_trans : forall w1 w2 w3, P w1 w2 -> P w2 w3 -> P w1 w3.
Hypothesis P_bus :
  forall w d e, bus_event e = true -> P w (log e (set_dev d w)).
Hypothesis P_log : forall w e, P w (log e w).
Hypothesis P_cdv : forall w v, P w (set_cdv v w).
Hypothesis P_is_initialized : forall w v, P w (set_is_initialized v w).
Hypothesis P_sectors : forall w v, P w (set_sectors v w).

(** One step through a command function, chosen by the shape of the goal. *)
Ltac command_step :=
  match goal with
  | |- stays _ (_cmd_poll _) => apply (stays_cmd_poll P P_refl P_trans P_bus)
  | |- stays _ (_cmdx_poll _) => apply (stays_cmdx_poll P P_refl P_trans P_bus)
  | |- stays _ (_cmd58_poll _) => apply (stays_cmd58_poll P P_refl P_trans P_bus)
  | |- stays _ (_cmd8_poll _ _) => apply (stays_cmd8_poll P P_refl P_trans P_bus)
  | |- stays _ (bind _ _) => apply (stays_bind P P_trans); [|intros ?]
  | |- stays _ (modify (log _)) => apply stays_modify; intros ?; apply P_log
  | |- stays _ (hal_cs _) => apply (stays_hal_cs P P_bus)
  | |- stays _ (_spi_read_write _) => apply (stays_spi_read_write P P_bus)
  | |- stays _ (ret _) => apply (stays_ret P P_refl)
  end.

Lemma stays_cmd (cmd arg : Z) : stays P (_cmd cmd arg).
Proof. unfold _cmd. repeat command_step. Qed.

Lemma stays_cmdx (cmd arg : Z) : stays P (_cmdx cmd arg).
Proof. unfold _cmdx. repeat command_step. Qed.

Lemma stays_cmd58 : stays P (@_cmd58 D).
Proof. unfold _cmd58. repeat command_step. Qed.

Lemma stays_cmd8 : stays P (@_cmd8 D).
Proof. unfold _cmd8. repeat command_step. Qed.

(** One step through driver code, chosen by the shape of the goal. *)
Ltac driver_step :=
  match goal with
  | H : stays _ ?m |- stays _ ?m => exact H
  | |- stays _ (if ?b then _ else _) => destruct b
  | |- stays _ (match ?x with _ => _ end) => destruct x
  | |- stays _ (ret _) => apply (stays_ret P P_refl)
  | |- stays _ (get _) => apply (stays_get P P_refl)
  | |- stays _ (lift_option _) => apply (stays_lift_option P P_refl)
  | |- stays _ (modify (log _)) => apply stays_modify; intros ?; apply P_log
  | |- stays _ (modify (set_cdv _)) => apply stays_modify; intros ?; apply P_cdv
  | |- stays _ (modify (set_is_initialized _)) =>
      apply stays_modify; intros ?; apply P_is_initialized
  | |- stays _ (modify (set_sectors _)) =>
      apply stays_modify; intros ?; apply P_sectors
  | |- stays _ (hal_cs _) => apply (stays_hal_cs P P_bus)
  | |- stays _ (hal_wait _) => apply (stays_hal_wait P P_bus)
  | |- stays _ (clock_card _) => apply (stays_clock_card P P_refl P_trans P_bus)
  | |- stays _ (_read _ _) => apply (stays_read P P_refl P_trans P_bus)
  | |- stays _ (_write _ _ _) => apply (stays_write P P_refl P_trans P_bus)
  | |- stays _ (_cmd _ _) => apply stays_cmd
  | |- stays _ (_cmdx _ _) => apply stays_cmdx
  | |- stays _ _cmd58 => apply stays_cmd58
  | |- stays _ _cmd8 => apply stays_cmd8
  | |- stays _ (bind _ _) => apply (stays_bind P P_trans); [|intros ?]
  end.

Lemma stays_v1_loop (n : nat) : stays P (initialise_card_v1_loop n).
Proof. induction n; cbn [initialise_card_v1_loop]; repeat driver_step. Qed.

Lemma stays_v2_loop (n : nat) : stays P (initialise_card_v2_loop n).
Proof. induction n; cbn [initialise_card_v2_loop]; repeat driver_step. Qed.

Lemma stays_initialise_card_v1 : stays P (@initialise_card_v1 D).
Proof. rewrite initialise_card_v1_eq. apply stays_v1_loop. Qed.

Lemma stays_initialise_card_v2 : stays P (@initialise_card_v2 D).
Proof. rewrite initialise_card_v2_eq. apply stays_v2_loop. Qed.

Lemma stays_sd_sectors (fuel : nat) : stays P (_sd_sectors fuel).
Proof. unfold _sd_sectors. repeat driver_step. Qed.

Lemma stays_disk_capacity (fuel : nat) : stays P (disk_capacity fuel).
Proof. unfold disk_capacity. repeat driver_step. Qed.

(** [initialise_card] from the point where the table pointer is stored. *)
Lemma initialise_card_after_table (hal : spisd_hal_t D) (w w' : world D) (r : Z) :
  initialise_card hal w = Ok r w' -> P (set_spi_hal (Some hal) w) w'.
Proof.
  unfold initialise_card. intros H.
  apply bind_inv in H. destruct H as (u & w0 & E0 & H).
  unfold modify in E0. inversion E0; subst; clear E0.
  revert H.
  match goal with
  | |- ?m _ = Ok _ _ -> _ =>
      assert (S : stays P m); [ | exact (S _ _ _) ]
  end.
  pose proof stays_initialise_card_v1. pose proof stays_initialise_card_v2.
  repeat driver_step.
Qed.

Lemma disk_initialize_after_table (fuel : nat) (hal : spisd_hal_t D)
      (w w' : world D) (r : Z) :
  disk_initialize fuel hal w = Ok r w' -> P (set_spi_hal (Some hal) w) w'.
Proof.
  unfold disk_initialize. intros H.
  apply bind_inv in H. destruct H as (r1 & w1 & H1 & H).
  apply initialise_card_after_table in H1.
  apply (P_trans _ _ _ H1). revert H.
  match goal with
  | |- ?m _ = Ok _ _ -> _ =>
      assert (S : stays P m); [ | exact (S _ _ _) ]
  end.
  pose proof (stays_sd_sectors fuel).
  repeat driver_step.
Qed.

End Driver_facts.

(** ** Session state after [post_init] *)

Lemma same_table_refl {D} (w : world D) : same_table w w.
Proof. reflexivity. Qed.

Lemma same_table_trans {D} (w1 w2 w3 : world D) :
  same_table w1 w2 -> same_table w2 w3 -> same_table w1 w3.
Proof. unfold same_table. congruence. Qed.

(** Whatever [disk_initialize] returns, it leaves the table pointer set. *)
Lemma disk_initialize_sets_table {D} (fuel : nat) (hal : spisd_hal_t D)
      (w w' : world D) (r : Z) :
  disk_initialize fuel hal w = Ok r w' -> spi_hal w' = Some hal.
Proof.
  intros H.
  apply (disk_initialize_after_table same_table same_table_refl same_table_trans)
    in H; try (intros; reflexivity).
  exact H.
Qed.

(** So the NULL test of [post_init] never fires: a [post_init] that comes
    back with the bus set up has marked the session initialised, whether the
    card was brought up or not. *)
Lemma post_init_marks_ok {D} (fuel : nat) (begin_result : Z)
      (hal : spisd_hal_t D) (w w' : world D) :
  begin_result <> 0 ->
  post_init fuel begin_result hal w = Ok tt w' -> init_ok w' = true.
Proof.
  intros Hb H. unfold post_init in H.
  destruct (Z.eqb_spec begin_result 0); [contradiction|].
  apply bind_inv in H. destruct H as (r & w1 & E & H).
  apply disk_initialize_sets_table in E.
  apply bind_inv in H. destruct H as (h & w2 & Eg & H).
  unfold get in Eg. inversion Eg; subst. rewrite E in H.
  unfold modify in H. inversion H; subst. reflexivity.
Qed.

(** C1 (the code at the failing inputs). (a) Bring-up, register read and all,
    but CMD16 answered "illegal command": [disk_initialize] returns 1, yet
    [post_init] sets [ctx.init_ok]; a following one-byte write is carried out
    over the bus and returns success, and the state query reports ready.
    (b) A card that never reaches idle state: bring-up fails, [post_init]
    sets [ctx.init_ok] all the same, and a following read sends CMD9 before
    it is turned down, with out-of-bounds rather than not-initialised. *)
Theorem failed_initialisation_goes_unnoticed :
  (exists w1 w w',
      disk_initialize 4 (scripted_hal 0xFF)
                      (power_on card_cmd16_then_write dataport_4k) = Ok 1 w1 /\
      post_init 4 1 (scripted_hal 0xFF)
                (power_on card_cmd16_then_write dataport_4k) = Ok tt w /\
      init_ok w = true /\
      storage_rpc false OpWrite 4 0 1 w = Ok (mk_rpc OS_SUCCESS 1 1) w' /\
      transfers (trace w') = (transfers (trace w) + 1083)%nat /\
      storage_rpc_getState w = Ok (OS_SUCCESS, Some 0) w) /\
  (exists w1 w w',
      disk_initialize 4 (scripted_hal 0xFF)
                      (power_on card_not_idle dataport_4k) = Ok 1 w1 /\
      _is_initialized w1 = SDCARD_FAIL /\
      post_init 4 1 (scripted_hal 0xFF)
                (power_on card_not_idle dataport_4k) = Ok tt w /\
      init_ok w = true /\
      storage_rpc false OpRead 4 0 1 w = Ok (mk_rpc OS_ERROR_OUT_OF_BOUNDS 0 0) w' /\
      transfers (trace w') = (transfers (trace w) + 8)%nat).
Proof.
  split.
  - run (@disk_initialize (list Z) 4 (scripted_hal 0xFF))
        (power_on card_cmd16_then_write dataport_4k) E1.
    run (@post_init (list Z) 4 1 (scripted_hal 0xFF))
        (power_on card_cmd16_then_write dataport_4k) E2.
    match type of E2 with
    | _ = Ok _ ?w => run (@storage_rpc (list Z) false OpWrite 4 0 1) w E3
    end.
    eexists _, _, _. split; [exact E1|]. split; [exact E2|].
    split; [reflexivity|]. split; [exact E3|].
    split; vm_compute; reflexivity.
  - run (@disk_initialize (list Z) 4 (scripted_hal 0xFF))
        (power_on card_not_idle dataport_4k) E1.
    run (@post_init (list Z) 4 1 (scripted_hal 0xFF))
        (power_on card_not_idle dataport_4k) E2.
    match type of E2 with
    | _ = Ok _ ?w => run (@storage_rpc (list Z) false OpRead 4 0 1) w E3
    end.
    eexists _, _, _. split; [exact E1|]. split; [reflexivity|].
    split; [exact E2|]. split; [reflexivity|]. split; [exact E3|].
    vm_compute. reflexivity.
Qed.


(** Comparisons between closed numbers. *)
Ltac closed_numbers :=
  repeat match goal with |- _ /\ _ => split end;
  vm_compute; first [ reflexivity | discriminate ].


(** ** Block failures inside a request *)

Lemma refused_app (xs ys : list (Z * Z)) :
  refused (xs ++ ys) = refused xs || refused ys.
Proof. unfold refused. apply existsb_app. Qed.

Lemma calm_refl {D} (w : world D) : calm w w.
Proof. exists [], []. split; [apply grows_refl | reflexivity]. Qed.

Lemma calm_trans {D} (w1 w2 w3 : world D) : calm w1 w2 -> calm w2 w3 -> calm w1 w3.
Proof.
  intros (cs1 & rs1 & G1 & R1) (cs2 & rs2 & G2 & R2).
  exists (cs2 ++ cs1), (rs2 ++ rs1). split; [exact (grows_trans _ _ _ _ _ _ _ G1 G2)|].
  rewrite refused_app, R1, R2. reflexivity.
Qed.

Lemma calm_quiet {D} (w w' : world D) : grows [] [] w w' -> calm w w'.
Proof. intros G. exists [], []. split; [exact G | reflexivity]. Qed.

Lemma calm_get {D A} (f : world D -> A) (a : A) (w w' : world D) :
  get f w = Ok a w' -> calm w w'.
Proof. unfold get. intros H. inversion H; subst. apply calm_refl. Qed.

Lemma calm_set_port {D} (p : list Z) (u : unit) (w w' : world D) :
  modify (set_port_storage p) w = Ok u w' -> calm w w'.
Proof.
  intros H. apply calm_quiet. eapply quiet_modify; [|exact H]. intros ?; reflexivity.
Qed.

Section Block_failures.

Context {D : Type}.
Variable LP64 : bool.

Lemma calm_area (fuel : nat) (offset size : Z) (b : bool) (w w' : world D) :
  isValidMSDArea fuel offset size w = Ok b w' -> calm w w'.
Proof.
  unfold isValidMSDArea. intros H.
  destruct ((offset >=? 0) && (size >=? 0) && (s64 (offset + size) >=? offset)).
  - apply bind_inv in H. destruct H as (cap & w1 & E & H).
    apply ret_inv in H. destruct H as [_ ->].
    apply disk_capacity_log in E. destruct E as (r & G).
    exists [(9, 0)], [(9, r)]. split; [exact G | reflexivity].
  - apply ret_inv in H. destruct H as [_ ->]. apply calm_refl.
Qed.

(** A [disk_read] that returned 0 had every CMD17 accepted. *)
Lemma calm_disk_read_loop (n fuel : nat) (limit : Z) :
  forall (b : Z) (buffer : list Z) (pos r : Z) (buffer' : list Z) (w w' : world D),
    disk_read_loop n fuel b limit buffer pos w = Ok (r, buffer') w' ->
    r = 0 -> calm w w'.
Proof.
  induction n as [|n IH]; intros b buffer pos r buffer' w w' H Hr;
    cbn [disk_read_loop] in H; destruct (b <? limit).
  - discriminate.
  - apply ret_inv in H. destruct H as [_ ->]. apply calm_refl.
  - apply bind_inv in H. destruct H as (cdv & w0 & Eg & H). apply calm_get in Eg.
    apply bind_inv in H. destruct H as (r17 & w1 & E17 & H).
    apply grows_cmd in E17.
    destruct (Z.eqb_spec r17 0) as [->|]; cbn [negb] in H.
    + apply bind_inv in H. destruct H as ([rr data] & w2 & Er & H).
      apply quiet_read in Er. apply IH in H; [|exact Hr].
      apply (calm_trans _ _ _ Eg). refine (calm_trans _ _ _ _ H).
      refine (calm_trans _ w1 _ _ (calm_quiet _ _ Er)).
      eexists _, _. split; [exact E17 | reflexivity].
    + apply ret_inv in H. destruct H as [H _]. inversion H; subst. discriminate.
  - apply ret_inv in H. destruct H as [_ ->]. apply calm_refl.
Qed.

Lemma calm_disk_read (fuel : nat) (buffer : list Z) (block_number count r : Z)
      (buffer' : list Z) (w w' : world D) :
  disk_read fuel buffer block_number count w = Ok (r, buffer') w' ->
  negb (r =? 0) = false -> calm w w'.
Proof.
  unfold disk_read. intros H Hr.
  apply negb_false_iff, Z.eqb_eq in Hr.
  apply bind_inv in H. destruct H as (init & w0 & Eg & H). apply calm_get in Eg.
  apply (calm_trans _ _ _ Eg).
  destruct (init =? 0).
  - apply ret_inv in H. destruct H as [H _]. inversion H; subst. discriminate.
  - eapply calm_disk_read_loop; eassumption.
Qed.

(** A [disk_write] that returned 0 had every CMD24 accepted. *)
Lemma calm_disk_write_loop (n fuel : nat) (limit : Z) :
  forall (b : Z) (buffer : list Z) (r : Z) (w w' : world D),
    disk_write_loop n fuel b limit buffer w = Ok r w' -> r = 0 -> calm w w'.
Proof.
  induction n as [|n IH]; intros b buffer r w w' H Hr;
    cbn [disk_write_loop] in H; destruct (b <? limit).
  - discriminate.
  - apply ret_inv in H. destruct H as [_ ->]. apply calm_refl.
  - apply bind_inv in H. destruct H as (cdv & w0 & Eg & H). apply calm_get in Eg.
    apply bind_inv in H. destruct H as (r24 & w1 & E24 & H).
    apply grows_cmd in E24.
    destruct (Z.eqb_spec r24 0) as [->|]; cbn [negb] in H.
    + apply bind_inv in H. destruct H as (rw & w2 & Ew & H).
      apply quiet_write in Ew. apply IH in H; [|exact Hr].
      apply (calm_trans _ _ _ Eg). refine (calm_trans _ _ _ _ H).
      refine (calm_trans _ w1 _ _ (calm_quiet _ _ Ew)).
      eexists _, _. split; [exact E24 | reflexivity].
    + apply ret_inv in H. destruct H as [H _]. subst. discriminate.
  - apply ret_inv in H. destruct H as [_ ->]. apply calm_refl.
Qed.

Lemma calm_disk_write (fuel : nat) (buffer : list Z) (block_number count r : Z)
      (w w' : world D) :
  disk_write fuel buffer block_number count w = Ok r w' ->
  negb (r =? 0) = false -> calm w w'.
Proof.
  unfold disk_write. intros H Hr.
  apply negb_false_iff, Z.eqb_eq in Hr.
  apply bind_inv in H. destruct H as (init & w0 & Eg & H). apply calm_get in Eg.
  apply (calm_trans _ _ _ Eg).
  destruct (init =? 0).
  - apply ret_inv in H. destruct H as [H _]. subst. discriminate.
  - eapply calm_disk_write_loop; eassumption.
Qed.

(** Turn the steps of a finished run into [calm] facts and join them. *)
Ltac calm_facts :=
  repeat match goal with
         | E : get _ _ = Ok _ _ |- _ => apply calm_get in E
         | E : OS_Dataport_getSize _ = Ok _ _ |- _ => apply calm_get in E
         | E : OS_Dataport_getBuf _ = Ok _ _ |- _ => apply calm_get in E
         | E : isValidMSDArea _ _ _ _ = Ok _ _ |- _ => apply calm_area in E
         | E : modify (set_port_storage _) _ = Ok _ _ |- _ => apply calm_set_port in E
         | E : disk_read _ _ _ _ _ = Ok (?r, _) _, Hr : negb (?r =? 0) = false |- _ =>
             apply (fun E' => calm_disk_read _ _ _ _ _ _ _ _ E' Hr) in E
         | E : disk_write _ _ _ _ _ = Ok ?r _, Hr : negb (?r =? 0) = false |- _ =>
             apply (fun E' => calm_disk_write _ _ _ _ _ _ _ E' Hr) in E
         end;
  repeat match goal with
         | G1 : calm ?x ?y, G2 : calm ?y ?z |- _ =>
             pose proof (calm_trans _ _ _ G1 G2); clear G1 G2
         end.

Lemma calm_write_remaining (n fuel : nat) :
  forall (size bytesWritten sector : Z) (buffer block : list Z)
         (st : Z * Z * Z * list Z * list Z) (w w' : world D),
    write_remaining n fuel size bytesWritten sector buffer block w = Ok (inr st) w' ->
    calm w w'.
Proof.
  induction n as [|n IH]; intros size bytesWritten sector buffer block st w w' H;
    cbn [write_remaining] in H; destruct (size >? disk_block_size).
  - discriminate.
  - apply ret_inv in H. destruct H as [_ ->]. apply calm_refl.
  - apply bind_inv in H. destruct H as (r & w1 & E & H).
    destruct (negb (r =? 0)) eqn:Hr.
    + apply ret_inv in H. destruct H as [H _]. discriminate.
    + apply IH in H. calm_facts. assumption.
  - apply ret_inv in H. destruct H as [_ ->]. apply calm_refl.
Qed.

Lemma calm_read_remaining (n fuel : nat) :
  forall (size bytesRead sector : Z) (block : list Z)
         (st : Z * Z * Z * list Z) (w w' : world D),
    read_remaining n fuel size bytesRead sector block w = Ok (inr st) w' ->
    calm w w'.
Proof.
  induction n as [|n IH]; intros size bytesRead sector block st w w' H;
    cbn [read_remaining] in H; destruct (size >? disk_block_size).
  - discriminate.
  - apply ret_inv in H. destruct H as [_ ->]. apply calm_refl.
  - apply bind_inv in H. destruct H as ([r block'] & w1 & E & H).
    destruct (negb (r =? 0)) eqn:Hr.
    + apply ret_inv in H. destruct H as [H _]. discriminate.
    + apply bind_inv in H. destruct H as (port & w2 & Eg & H).
      apply bind_inv in H. destruct H as (u & w3 & Em & H).
      apply IH in H. calm_facts. assumption.
  - apply ret_inv in H. destruct H as [_ ->]. apply calm_refl.
Qed.

Lemma calm_erase_remaining (n fuel : nat) :
  forall (size bytesErased sector : Z) (block : list Z)
         (st : Z * Z * Z * list Z) (w w' : world D),
    erase_remaining n fuel size bytesErased sector block w = Ok (inr st) w' ->
    calm w w'.
Proof.
  induction n as [|n IH]; intros size bytesErased sector block st w w' H;
    cbn [erase_remaining] in H; destruct (size >? disk_block_size).
  - discriminate.
  - apply ret_inv in H. destruct H as [_ ->]. apply calm_refl.
  - apply bind_inv in H. destruct H as (r & w1 & E & H).
    destruct (negb (r =? 0)) eqn:Hr.
    + apply ret_inv in H. destruct H as [H _]. discriminate.
    + apply IH in H. calm_facts. assumption.
  - apply ret_inv in H. destruct H as [_ ->]. apply calm_refl.
Qed.

Ltac calm_loops :=
  repeat match goal with
         | E : write_remaining _ _ _ _ _ _ _ _ = Ok (inr _) _ |- _ =>
             apply calm_write_remaining in E
         | E : read_remaining _ _ _ _ _ _ _ = Ok (inr _) _ |- _ =>
             apply calm_read_remaining in E
         | E : erase_remaining _ _ _ _ _ _ _ = Ok (inr _) _ |- _ =>
             apply calm_erase_remaining in E
         end.

Ltac settle Hs :=
  first [ exfalso; apply Hs; reflexivity
        | calm_loops; calm_facts;
          first [ assumption | apply calm_refl ] ].

(** A handler that ends with anything but the generic error saw no block
    command refused. *)
Lemma write_calm_unless_generic (fuel : nat) (offset size : Z)
      (w w' : world D) (res : rpc_result) :
  storage_rpc_write fuel offset size w = Ok res w' ->
  status res <> OS_ERROR_GENERIC -> calm w w'.
Proof. unfold storage_rpc_write. intros H Hs. unravel H; settle Hs. Qed.

Lemma read_calm_unless_generic (fuel : nat) (offset size : Z)
      (w w' : world D) (res : rpc_result) :
  storage_rpc_read fuel offset size w = Ok res w' ->
  status res <> OS_ERROR_GENERIC -> calm w w'.
Proof. unfold storage_rpc_read. intros H Hs. unravel H; settle Hs. Qed.

Lemma erase_calm_unless_generic (fuel : nat) (offset size : Z)
      (w w' : world D) (res : rpc_result) :
  storage_rpc_erase LP64 fuel offset size w = Ok res w' ->
  status res <> OS_ERROR_GENERIC -> calm w w'.
Proof. unfold storage_rpc_erase. intros H Hs. unravel H; settle Hs. Qed.

End Block_failures.

Section Byte_counts.

Context {D : Type}.
Variable LP64 : bool.

Lemma write_reports_count_on_success (fuel : nat) (offset size : Z)
      (w w' : world D) (res : rpc_result) :
  storage_rpc_write fuel offset size w = Ok res w' ->
  status res = OS_SUCCESS -> out_bytes res = local_bytes res.
Proof.
  unfold storage_rpc_write. intros H Hs. unravel H;
    solve [reflexivity | discriminate Hs].
Qed.

Lemma read_reports_count_on_success (fuel : nat) (offset size : Z)
      (w w' : world D) (res : rpc_result) :
  storage_rpc_read fuel offset size w = Ok res w' ->
  status res = OS_SUCCESS -> out_bytes res = local_bytes res.
Proof.
  unfold storage_rpc_read. intros H Hs. unravel H;
    solve [reflexivity | discriminate Hs].
Qed.

Lemma erase_reports_count_on_success (fuel : nat) (offset size : Z)
      (w w' : world D) (res : rpc_result) :
  storage_rpc_erase LP64 fuel offset size w = Ok res w' ->
  status res = OS_SUCCESS -> out_bytes res = local_bytes res.
Proof.
  unfold storage_rpc_erase. intros H Hs. unravel H;
    solve [reflexivity | discriminate Hs].
Qed.

End Byte_counts.

(** *** Where a refused block command leaves the request *)

Lemma calm_halted {D} (w1 w2 w3 : world D) :
  calm w1 w2 -> halted w2 w3 -> halted w1 w3.
Proof.
  intros (cs & rs & (xs & Ex & Cx & Rx) & Hrs) (c & x & t & Et & Hc & Hx & Ht).
  exists c, x, (t ++ xs). split.
  - rewrite Et, Ex, app_assoc. reflexivity.
  - split; [exact Hc|]. split; [exact Hx|].
    rewrite responses_app, refused_app, Ht, Rx, Hrs. reflexivity.
Qed.

(** [_cmd] logs the value it returns as the last thing it does. *)
Lemma cmd_log_shape {D} (cmd arg r : Z) (w w' : world D) :
  _cmd cmd arg w = Ok r w' ->
  exists w1, grows [(cmd, arg)] [] w w1 /\ w' = log (EvResponse cmd r) w1.
Proof.
  unfold _cmd. intros H.
  apply bind_inv in H. destruct H as (u0 & wa & Ea & H). apply grows_modify_log in Ea.
  apply bind_inv in H. destruct H as (u1 & wb & Eb & H). apply quiet_hal_cs in Eb.
  apply bind_inv in H. destruct H as (x0 & w0 & E0 & H). apply quiet_spi_read_write in E0.
  apply bind_inv in H. destruct H as (x1 & w1 & E1 & H). apply quiet_spi_read_write in E1.
  apply bind_inv in H. destruct H as (x2 & w2 & E2 & H). apply quiet_spi_read_write in E2.
  apply bind_inv in H. destruct H as (x3 & w3 & E3 & H). apply quiet_spi_read_write in E3.
  apply bind_inv in H. destruct H as (x4 & w4 & E4 & H). apply quiet_spi_read_write in E4.
  apply bind_inv in H. destruct H as (x5 & w5 & E5 & H). apply quiet_spi_read_write in E5.
  apply bind_inv in H. destruct H as (r' & w6 & E6 & H). apply quiet_cmd_poll in E6.
  apply bind_inv in H. destruct H as (u7 & w7 & E7 & H).
  apply ret_inv in H. destruct H as [-> ->].
  apply modify_inv in E7. exists w6. split; [|exact E7].
  repeat match goal with
         | G1 : grows _ _ ?x ?y, G2 : grows _ _ ?y ?z |- _ =>
             pose proof (grows_trans _ _ _ _ _ _ _ G1 G2); clear G1 G2
         end.
  assumption.
Qed.

Lemma cmd_refused_halts {D} (c a x : Z) (w w' : world D) :
  _cmd c a w = Ok x w' -> block_command c = true -> x <> 0 -> halted w w'.
Proof.
  intros H Hc Hx. apply cmd_log_shape in H.
  destruct H as (w1 & (xs & Ex & _ & Rx) & ->).
  exists c, x, xs. cbn [trace log]. rewrite Ex, Rx.
  repeat split; assumption.
Qed.

Section Halts.

Context {D : Type}.
Variable LP64 : bool.

(** A block loop that returns anything but 0 has just had its command
    refused. *)
Lemma disk_read_loop_halts (n fuel : nat) (limit : Z) :
  forall (b : Z) (buffer : list Z) (pos r : Z) (buffer' : list Z) (w w' : world D),
    disk_read_loop n fuel b limit buffer pos w = Ok (r, buffer') w' ->
    r <> 0 -> halted w w'.
Proof.
  induction n as [|n IH]; intros b buffer pos r buffer' w w' H Hr;
    cbn [disk_read_loop] in H; destruct (b <? limit).
  - discriminate.
  - apply ret_inv in H. destruct H as [H _]. inversion H; subst. contradiction.
  - apply bind_inv in H. destruct H as (cdv & w0 & Eg & H). apply get_inv in Eg.
    destruct Eg as [_ ->].
    apply bind_inv in H. destruct H as (r17 & w1 & E17 & H).
    destruct (Z.eqb_spec r17 0) as [->|Hne]; cbn [negb] in H.
    + apply bind_inv in H. destruct H as ([rr data] & w2 & Er & H).
      apply quiet_read in Er. apply IH in H; [|exact Hr].
      refine (calm_halted _ _ _ _ H).
      refine (calm_trans _ w1 _ _ (calm_quiet _ _ Er)).
      apply grows_cmd in E17. eexists _, _. split; [exact E17 | reflexivity].
    + apply ret_inv in H. destruct H as [_ ->].
      exact (cmd_refused_halts _ _ _ _ _ E17 eq_refl Hne).
  - apply ret_inv in H. destruct H as [H _]. inversion H; subst. contradiction.
Qed.

Lemma disk_write_loop_halts (n fuel : nat) (limit : Z) :
  forall (b : Z) (buffer : list Z) (r : Z) (w w' : world D),
    disk_write_loop n fuel b limit buffer w = Ok r w' -> r <> 0 -> halted w w'.
Proof.
  induction n as [|n IH]; intros b buffer r w w' H Hr;
    cbn [disk_write_loop] in H; destruct (b <? limit).
  - discriminate.
  - apply ret_inv in H. destruct H as [H _]. subst. contradiction.
  - apply bind_inv in H. destruct H as (cdv & w0 & Eg & H). apply get_inv in Eg.
    destruct Eg as [_ ->].
    apply bind_inv in H. destruct H as (r24 & w1 & E24 & H).
    destruct (Z.eqb_spec r24 0) as [->|Hne]; cbn [negb] in H.
    + apply bind_inv in H. destruct H as (rw & w2 & Ew & H).
      apply quiet_write in Ew. apply IH in H; [|exact Hr].
      refine (calm_halted _ _ _ _ H).
      refine (calm_trans _ w1 _ _ (calm_quiet _ _ Ew)).
      apply grows_cmd in E24. eexists _, _. split; [exact E24 | reflexivity].
    + apply ret_inv in H. destruct H as [_ ->].
      exact (cmd_refused_halts _ _ _ _ _ E24 eq_refl Hne).
  - apply ret_inv in H. destruct H as [H _]. subst. contradiction.
Qed.

(** A failed block access touched nothing (driver not initialised) or ends
    with the refused command. *)
Lemma disk_read_failed (fuel : nat) (buffer : list Z) (block_number count r : Z)
      (buffer' : list Z) (w w' : world D) :
  disk_read fuel buffer block_number count w = Ok (r, buffer') w' ->
  negb (r =? 0) = true -> calm w w' \/ halted w w'.
Proof.
  unfold disk_read. intros H Hr.
  apply negb_true_iff, Z.eqb_neq in Hr.
  apply bind_inv in H. destruct H as (init & w0 & Eg & H). apply get_inv in Eg.
  destruct Eg as [_ ->].
  destruct (init =? 0).
  - apply ret_inv in H. destruct H as [_ ->]. left. apply calm_refl.
  - right. eapply disk_read_loop_halts; eassumption.
Qed.

Lemma disk_write_failed (fuel : nat) (buffer : list Z) (block_number count r : Z)
      (w w' : world D) :
  disk_write fuel buffer block_number count w = Ok r w' ->
  negb (r =? 0) = true -> calm w w' \/ halted w w'.
Proof.
  unfold disk_write. intros H Hr.
  apply negb_true_iff, Z.eqb_neq in Hr.
  apply bind_inv in H. destruct H as (init & w0 & Eg & H). apply get_inv in Eg.
  destruct Eg as [_ ->].
  destruct (init =? 0).
  - apply ret_inv in H. destruct H as [_ ->]. left. apply calm_refl.
  - right. eapply disk_write_loop_halts; eassumption.
Qed.

Lemma calm_or_halted (w1 w2 w3 : world D) :
  calm w1 w2 -> calm w2 w3 \/ halted w2 w3 -> calm w1 w3 \/ halted w1 w3.
Proof.
  intros C [C'|H'].
  - left. exact (calm_trans _ _ _ C C').
  - right. exact (calm_halted _ _ _ C H').
Qed.

(** Turn the steps of a finished run into facts about the log and join
    them, oldest step first. *)
Ltac log_facts :=
  repeat match goal with
         | E : get _ _ = Ok _ _ |- _ => apply calm_get in E
         | E : OS_Dataport_getSize _ = Ok _ _ |- _ => apply calm_get in E
         | E : OS_Dataport_getBuf _ = Ok _ _ |- _ => apply calm_get in E
         | E : isValidMSDArea _ _ _ _ = Ok _ _ |- _ => apply calm_area in E
         | E : modify (set_port_storage _) _ = Ok _ _ |- _ => apply calm_set_port in E
         | E : disk_read _ _ _ _ _ = Ok (?r, _) _, Hr : negb (?r =? 0) = false |- _ =>
             apply (fun E' => calm_disk_read _ _ _ _ _ _ _ _ E' Hr) in E
         | E : disk_write _ _ _ _ _ = Ok ?r _, Hr : negb (?r =? 0) = false |- _ =>
             apply (fun E' => calm_disk_write _ _ _ _ _ _ _ E' Hr) in E
         | E : disk_read _ _ _ _ _ = Ok (?r, _) _, Hr : negb (?r =? 0) = true |- _ =>
             apply (fun E' => disk_read_failed _ _ _ _ _ _ _ _ E' Hr) in E
         | E : disk_write _ _ _ _ _ = Ok ?r _, Hr : negb (?r =? 0) = true |- _ =>
             apply (fun E' => disk_write_failed _ _ _ _ _ _ _ E' Hr) in E
         | E : write_remaining _ _ _ _ _ _ _ _ = Ok (inr _) _ |- _ =>
             apply calm_write_remaining in E
         | E : read_remaining _ _ _ _ _ _ _ = Ok (inr _) _ |- _ =>
             apply calm_read_remaining in E
         | E : erase_remaining _ _ _ _ _ _ _ = Ok (inr _) _ |- _ =>
             apply calm_erase_remaining in E
         end;
  repeat match goal with
         | G1 : calm ?x ?y, G2 : calm ?y ?z |- _ =>
             pose proof (calm_trans _ _ _ G1 G2); clear G1 G2
         end;
  repeat match goal with
         | G1 : calm ?x ?y, G2 : calm ?y ?z \/ halted ?y ?z |- _ =>
             pose proof (calm_or_halted _ _ _ G1 G2); clear G1 G2
         end.

Ltac log_settled :=
  log_facts;
  first [ assumption
        | left; assumption
        | left; apply calm_refl ].

Lemma write_remaining_failed (n fuel : nat) :
  forall (size bytesWritten sector : Z) (buffer block : list Z) (k : Z)
         (w w' : world D),
    write_remaining n fuel size bytesWritten sector buffer block w = Ok (inl k) w' ->
    calm w w' \/ halted w w'.
Proof.
  induction n as [|n IH]; intros size bytesWritten sector buffer block k w w' H;
    cbn [write_remaining] in H; destruct (size >? disk_block_size).
  - discriminate.
  - apply ret_inv in H. destruct H as [H _]. discriminate.
  - apply bind_inv in H. destruct H as (r & w1 & E & H).
    destruct (negb (r =? 0)) eqn:Hr.
    + apply ret_inv in H. destruct H as [_ ->]. log_settled.
    + apply IH in H. log_settled.
  - apply ret_inv in H. destruct H as [H _]. discriminate.
Qed.

Lemma read_remaining_failed (n fuel : nat) :
  forall (size bytesRead sector : Z) (block : list Z) (k : Z) (w w' : world D),
    read_remaining n fuel size bytesRead sector block w = Ok (inl k) w' ->
    calm w w' \/ halted w w'.
Proof.
  induction n as [|n IH]; intros size bytesRead sector block k w w' H;
    cbn [read_remaining] in H; destruct (size >? disk_block_size).
  - discriminate.
  - apply ret_inv in H. destruct H as [H _]. discriminate.
  - apply bind_inv in H. destruct H as ([r block'] & w1 & E & H).
    destruct (negb (r =? 0)) eqn:Hr.
    + apply ret_inv in H. destruct H as [_ ->]. log_settled.
    + apply bind_inv in H. destruct H as (port & w2 & Eg & H).
      apply bind_inv in H. destruct H as (u & w3 & Em & H).
      apply IH in H. log_settled.
  - apply ret_inv in H. destruct H as [H _]. discriminate.
Qed.

Lemma erase_remaining_failed (n fuel : nat) :
  forall (size bytesErased sector : Z) (block : list Z) (k : Z) (w w' : world D),
    erase_remaining n fuel size bytesErased sector block w = Ok (inl k) w' ->
    calm w w' \/ halted w w'.
Proof.
  induction n as [|n IH]; intros size bytesErased sector block k w w' H;
    cbn [erase_remaining] in H; destruct (size >? disk_block_size).
  - discriminate.
  - apply ret_inv in H. destruct H as [H _]. discriminate.
  - apply bind_inv in H. destruct H as (r & w1 & E & H).
    destruct (negb (r =? 0)) eqn:Hr.
    + apply ret_inv in H. destruct H as [_ ->]. log_settled.
    + apply IH in H. log_settled.
  - apply ret_inv in H. destruct H as [H _]. discriminate.
Qed.

Ltac request_settled :=
  repeat match goal with
         | E : write_remaining _ _ _ _ _ _ _ _ = Ok (inl _) _ |- _ =>
             apply write_remaining_failed in E
         | E : read_remaining _ _ _ _ _ _ _ = Ok (inl _) _ |- _ =>
             apply read_remaining_failed in E
         | E : erase_remaining _ _ _ _ _ _ _ = Ok (inl _) _ |- _ =>
             apply erase_remaining_failed in E
         end;
  log_settled.

(** Every request that returns either saw no block command refused, or
    ends with the one that was. *)
Lemma write_calm_or_halted (fuel : nat) (offset size : Z)
      (w w' : world D) (res : rpc_result) :
  storage_rpc_write fuel offset size w = Ok res w' -> calm w w' \/ halted w w'.
Proof. unfold storage_rpc_write. intros H. unravel H; request_settled. Qed.

Lemma read_calm_or_halted (fuel : nat) (offset size : Z)
      (w w' : world D) (res : rpc_result) :
  storage_rpc_read fuel offset size w = Ok res w' -> calm w w' \/ halted w w'.
Proof. unfold storage_rpc_read. intros H. unravel H; request_settled. Qed.

Lemma erase_calm_or_halted (fuel : nat) (offset size : Z)
      (w w' : world D) (res : rpc_result) :
  storage_rpc_erase LP64 fuel offset size w = Ok res w' -> calm w w' \/ halted w w'.
Proof. unfold storage_rpc_erase. intros H. unravel H; request_settled. Qed.

End Halts.

Lemma refusal_comes_last {D} (w w' : world D) :
  calm w w' \/ halted w w' ->
  refused (responses (new_events (trace w) (trace w'))) = true ->
  exists c x t,
    new_events (trace w) (trace w') = EvResponse c x :: t /\
    block_command c = true /\ x <> 0 /\ refused (responses t) = false.
Proof.
  intros [(cs & rs & G & Hrs)|(c & x & t & Et & Hc & Hx & Ht)] Href.
  - apply grows_new_events in G. destruct G as [_ Gr].
    rewrite Gr, Hrs in Href. discriminate.
  - exists c, x, t. split; [|repeat split; assumption].
    rewrite Et. exact (new_events_app (EvResponse c x :: t) (trace w)).
Qed.

(** C2 (as stated, refuted). A 513-byte write at offset 0: block 0 is read,
    merged and written back, 512 bytes done; then CMD17 for block 1 is
    answered "illegal command".  The handler returns the generic error and
    its out-parameter holds 0, not 512; only the local counter holds 512. *)
Lemma partial_write_reports_zero :
  exists w w',
    post_init 4 1 (scripted_hal 0xFF)
              (power_on card_then_write_513 dataport_4k) = Ok tt w /\
    storage_rpc false OpWrite 4 0 513 w = Ok (mk_rpc OS_ERROR_GENERIC 0 512) w' /\
    responses (new_events (trace w) (trace w')) = [(17, 4); (24, 0); (17, 0); (9, 0)].
Proof.
  run (@post_init (list Z) 4 1 (scripted_hal 0xFF))
      (power_on card_then_write_513 dataport_4k) E0.
  match type of E0 with
  | _ = Ok _ ?w => run (@storage_rpc (list Z) false OpWrite 4 0 513) w E1
  end.
  eexists _, _. split; [exact E0|]. split; [exact E1|].
  vm_compute. reflexivity.
Qed.

(** C2 (amended). A read, write or erase request during which the card
    refuses a block command (CMD17 or CMD24 answered with a status other
    than 0) returns the generic error, and a request that returns anything
    but success leaves 0 in its bytes-transferred out-parameter, whatever
    the number of bytes already transferred; that number is reported on
    success only.  Completed blocks are not rolled back: the answer of the
    refused command is the newest event of the request's log, so after the
    refusal the request sends no command and moves no byte, and the refused
    command is the only one refused. *)
Theorem block_failure_reported {D} (LP64 : bool) (op : rpc_op) (fuel : nat)
        (offset size : Z) (w w' : world D) (res : rpc_result) :
  storage_rpc LP64 op fuel offset size w = Ok res w' ->
  (refused (responses (new_events (trace w) (trace w'))) = true ->
   status res = OS_ERROR_GENERIC) /\
  (status res <> OS_SUCCESS -> out_bytes res = 0) /\
  (status res = OS_SUCCESS -> out_bytes res = local_bytes res) /\
  (refused (responses (new_events (trace w) (trace w'))) = true ->
   exists c x t,
     new_events (trace w) (trace w') = EvResponse c x :: t /\
     block_command c = true /\ x <> 0 /\ refused (responses t) = false).
Proof.
  intros H. split; [|split; [|split]].
  - intros Href.
    assert (Hdec : status res = OS_ERROR_GENERIC \/ status res <> OS_ERROR_GENERIC)
      by (destruct (status res); (left; reflexivity) || (right; discriminate)).
    destruct Hdec as [Hg|Hg]; [exact Hg|]. exfalso.
    assert (Hcalm : calm w w').
    { destruct op; cbn [storage_rpc] in H.
      - exact (read_calm_unless_generic _ _ _ _ _ _ H Hg).
      - exact (write_calm_unless_generic _ _ _ _ _ _ H Hg).
      - exact (erase_calm_unless_generic LP64 _ _ _ _ _ _ H Hg). }
    destruct Hcalm as (cs & rs & G & Hrs).
    apply grows_new_events in G. destruct G as [_ Gr].
    rewrite Gr, Hrs in Href. discriminate.
  - destruct op; cbn [storage_rpc] in H.
    + exact (read_reports_nothing_on_failure _ _ _ _ _ _ H).
    + exact (write_reports_nothing_on_failure _ _ _ _ _ _ H).
    + exact (erase_reports_nothing_on_failure LP64 _ _ _ _ _ _ H).
  - destruct op; cbn [storage_rpc] in H.
    + exact (read_reports_count_on_success _ _ _ _ _ _ H).
    + exact (write_reports_count_on_success _ _ _ _ _ _ H).
    + exact (erase_reports_count_on_success LP64 _ _ _ _ _ _ H).
  - apply refusal_comes_last.
    destruct op; cbn [storage_rpc] in H.
    + exact (read_calm_or_halted _ _ _ _ _ _ H).
    + exact (write_calm_or_halted _ _ _ _ _ _ H).
    + exact (erase_calm_or_halted LP64 _ _ _ _ _ _ H).
Qed.

Lemma block_failure_reported_witness :
  exists w w' res,
    post_init 4 1 (scripted_hal 0xFF)
              (power_on card_then_write_513 dataport_4k) = Ok tt w /\
    storage_rpc false OpWrite 4 0 513 w = Ok res w' /\
    refused (responses (new_events (trace w) (trace w'))) = true /\
    status res = OS_ERROR_GENERIC /\ out_bytes res = 0 /\ local_bytes res = 512 /\
    exists t,
      new_events (trace w) (trace w') = EvResponse 17 4 :: t /\
      commands t = [(17, 1); (24, 0); (17, 0); (9, 0)] /\
      responses t = [(24, 0); (17, 0); (9, 0)].
Proof.
  run (@post_init (list Z) 4 1 (scripted_hal 0xFF))
      (power_on card_then_write_513 dataport_4k) E0.
  match type of E0 with
  | _ = Ok _ ?w => run (@storage_rpc (list Z) false OpWrite 4 0 513) w E1
  end.
  eexists _, _, _. split; [exact E0|]. split; [exact E1|].
  match type of E1 with
  | storage_rpc _ _ _ _ _ ?w = Ok ?res ?w' =>
      assert (Href : refused (responses (new_events (trace w) (trace w'))) = true)
        by (vm_compute; reflexivity);
      pose proof (block_failure_reported false OpWrite 4 0 513 w w' res E1)
        as (Hgen & Hzero & _ & Hlast)
  end.
  split; [exact Href|]. split; [exact (Hgen Href)|].
  split; [apply Hzero; discriminate|]. split; [reflexivity|].
  destruct (Hlast Href) as (c & x & t & Et & _).
  exists t. vm_compute in Et. inversion Et; subst c x t.
  split; [vm_compute; reflexivity|]. split; vm_compute; reflexivity.
Defined.

(** ** The protocol engine, byte by byte *)

Section Engine.

Context {D : Type}.
Variable h : spisd_hal_t D.

Lemma ran_nil (w : world D) : spi_hal w = Some h -> ran h [] w w.
Proof. intros H. repeat split. exact H. Qed.

Lemma ran_app (es1 es2 : list event) (w1 w2 w3 : world D) :
  ran h es1 w1 w2 -> ran h es2 w2 w3 -> ran h (es2 ++ es1) w1 w3.
Proof.
  intros (H1 & T1 & S1) (H2 & T2 & S2). split; [exact H2|]. split.
  - rewrite T2, T1, app_assoc. reflexivity.
  - exact (same_statics_trans _ _ _ S1 S2).
Qed.

Lemma hal_cs_ran (cs : Z) (w : world D) :
  spi_hal w = Some h -> exists w', hal_cs cs w = Ok tt w' /\ ran h [EvCS cs] w w'.
Proof.
  intros H. unfold hal_cs. rewrite H. eexists. split; [reflexivity|].
  split; [exact H|]. split; [reflexivity | apply same_statics_bus; reflexivity].
Qed.

Lemma hal_wait_ran (ms : Z) (w : world D) :
  spi_hal w = Some h -> exists w', hal_wait ms w = Ok tt w' /\ ran h [EvWait ms] w w'.
Proof.
  intros H. unfold hal_wait. rewrite H. eexists. split; [reflexivity|].
  split; [exact H|]. split; [reflexivity | apply same_statics_bus; reflexivity].
Qed.

Lemma read_write_ran (tx : Z) (w : world D) :
  spi_hal w = Some h ->
  exists rx w', _spi_read_write tx w = Ok rx w' /\ is_byte rx /\
                ran h [EvTransfer (u8 tx) rx] w w'.
Proof.
  intros H. unfold _spi_read_write. rewrite H.
  destruct (_spi_transfer h (dev w) (u8 tx)) as [d rx].
  eexists _, _. split; [reflexivity|]. split; [apply u8_is_byte|].
  split; [exact H|]. split; [reflexivity | apply same_statics_bus; reflexivity].
Qed.

Lemma log_ran (e : event) (w : world D) :
  spi_hal w = Some h -> ran h [e] w (log e w).
Proof. intros H. split; [exact H|]. split; [reflexivity | apply same_statics_log]. Qed.

Lemma byte_high_bit_clear (r : Z) : is_byte r -> Z.land r 0x80 = 0 -> 0 <= r < 128.
Proof.
  unfold is_byte. intros Hr Hl. split; [lia|].
  assert (Hb : Z.testbit r 7 = false).
  { assert (Hx : Z.testbit (Z.land r 0x80) 7 = false) by (rewrite Hl; apply Z.bits_0).
    rewrite Z.land_spec in Hx. change 0x80 with (2 ^ 7) in Hx.
    rewrite Z.pow2_bits_true in Hx by lia. rewrite andb_true_r in Hx. exact Hx. }
  apply Z.testbit_false in Hb; [|lia]. change (2 ^ 7) with 128 in Hb.
  assert (0 <= r / 128) by (apply Z.div_pos; lia).
  assert (r / 128 < 2) by (apply Z.div_lt_upper_bound; lia).
  assert (Hq : r / 128 = 0).
  { destruct (Z.eq_dec (r / 128) 0) as [|Hne]; [assumption|].
    assert (r / 128 = 1) as Hone by lia. rewrite Hone in Hb. discriminate. }
  apply Z.div_small_iff in Hq; lia.
Qed.

(** What the polling loop of [_cmd] does in [n] turns: fillers until a byte
    with the high bit clear, then select released and one more filler. *)
Lemma cmd_poll_shape (n : nat) (w : world D) :
  spi_hal w = Some h ->
  exists r w' polls xf,
    _cmd_poll n w = Ok r w' /\
    ran h (EvTransfer 0xFF xf :: EvCS 0 :: fillers polls) w w' /\
    (length polls <= n)%nat /\
    (r = -1 /\ length polls = n /\ Forall high_bit_set polls \/
     exists rest, polls = r :: rest /\ 0 <= r < 128 /\ Forall high_bit_set rest).
Proof.
  revert w. induction n as [|n IH]; intros w H; cbn [_cmd_poll].
  - destruct (hal_cs_ran 0 w H) as (w1 & E1 & R1).
    destruct (read_write_ran 0xFF w1 (proj1 R1)) as (xf & w2 & E2 & _ & R2).
    exists (-1), w2, [], xf. rewrite (bind_Ok _ _ _ _ _ E1), (bind_Ok _ _ _ _ _ E2).
    split; [reflexivity|]. split; [exact (ran_app _ _ _ _ _ R1 R2)|].
    split; [apply Nat.le_refl|]. left. repeat split. constructor.
  - destruct (read_write_ran 0xFF w H) as (b & w1 & E1 & Hb & R1).
    rewrite (bind_Ok _ _ _ _ _ E1).
    destruct (Z.eqb_spec (Z.land b 0x80) 0) as [Hz|Hnz].
    + destruct (hal_cs_ran 0 w1 (proj1 R1)) as (w2 & E2 & R2).
      destruct (read_write_ran 0xFF w2 (proj1 R2)) as (xf & w3 & E3 & _ & R3).
      exists b, w3, [b], xf.
      rewrite (bind_Ok _ _ _ _ _ E2), (bind_Ok _ _ _ _ _ E3).
      split; [reflexivity|]. split.
      * exact (ran_app _ _ _ _ _ R1 (ran_app _ _ _ _ _ R2 R3)).
      * split; [simpl; lia|]. right. exists []. split; [reflexivity|].
        split; [exact (byte_high_bit_clear b Hb Hz) | constructor].
    + destruct (IH w1 (proj1 R1)) as (r & w2 & polls & xf & E2 & R2 & Hlen & Hcase).
      exists r, w2, (polls ++ [b]), xf. split; [exact E2|]. split.
      * pose proof (ran_app _ _ _ _ _ R1 R2) as R.
        unfold fillers in *. rewrite map_app. cbn [map app].
        replace (EvTransfer 255 xf :: EvCS 0 :: map (EvTransfer 255) polls ++
                 [EvTransfer 255 b])
          with ((EvTransfer 255 xf :: EvCS 0 :: map (EvTransfer 255) polls) ++
                [EvTransfer (u8 255) b]) by reflexivity.
        exact R.
      * split; [rewrite length_app; simpl; lia|].
        destruct Hcase as [(Hr & Hl & Hall)|(rest & Hp & Hr & Hall)].
        -- left. split; [exact Hr|]. split; [rewrite length_app; simpl; lia|].
           apply Forall_app. split; [exact Hall | repeat constructor; exact Hnz].
        -- right. exists (rest ++ [b]). subst polls. split; [reflexivity|].
           split; [exact Hr|]. apply Forall_app. split; [exact Hall|].
           repeat constructor; exact Hnz.
Qed.

(** Select asserted and the six frame bytes sent; [k] is what follows. *)
Lemma frame_ran (b0 b1 b2 b3 b4 b5 : Z) (w : world D) :
  spi_hal w = Some h ->
  exists rxs w1,
    length rxs = 6%nat /\
    ran h (exchanged [u8 b0; u8 b1; u8 b2; u8 b3; u8 b4; u8 b5] rxs ++ [EvCS 1]) w w1 /\
    forall (B : Type) (k : M D B),
      bind (hal_cs 1) (fun _ =>
      bind (_spi_read_write b0) (fun _ =>
      bind (_spi_read_write b1) (fun _ =>
      bind (_spi_read_write b2) (fun _ =>
      bind (_spi_read_write b3) (fun _ =>
      bind (_spi_read_write b4) (fun _ =>
      bind (_spi_read_write b5) (fun _ => k))))))) w = k w1.
Proof.
  intros H.
  destruct (hal_cs_ran 1 w H) as (wa & Ea & Ra).
  destruct (read_write_ran b0 wa (proj1 Ra)) as (x0 & w0 & E0 & _ & R0).
  destruct (read_write_ran b1 w0 (proj1 R0)) as (x1 & w1 & E1 & _ & R1).
  destruct (read_write_ran b2 w1 (proj1 R1)) as (x2 & w2 & E2 & _ & R2).
  destruct (read_write_ran b3 w2 (proj1 R2)) as (x3 & w3 & E3 & _ & R3).
  destruct (read_write_ran b4 w3 (proj1 R3)) as (x4 & w4 & E4 & _ & R4).
  destruct (read_write_ran b5 w4 (proj1 R4)) as (x5 & w5 & E5 & _ & R5).
  exists [x0; x1; x2; x3; x4; x5], w5. split; [reflexivity|]. split.
  - exact (ran_app _ _ _ _ _ Ra (ran_app _ _ _ _ _ R0 (ran_app _ _ _ _ _ R1
             (ran_app _ _ _ _ _ R2 (ran_app _ _ _ _ _ R3
                (ran_app _ _ _ _ _ R4 R5)))))).
  - intros B k.
    rewrite (bind_Ok _ _ _ _ _ Ea), (bind_Ok _ _ _ _ _ E0), (bind_Ok _ _ _ _ _ E1),
      (bind_Ok _ _ _ _ _ E2), (bind_Ok _ _ _ _ _ E3), (bind_Ok _ _ _ _ _ E4),
      (bind_Ok _ _ _ _ _ E5). reflexivity.
Qed.

(** X1. [_cmd] with the table in place always returns.  It asserts select,
    sends 0x40|cmd, the argument high byte first and 0x95, then polls with
    0xFF at least once and at most [SD_COMMAND_TIMEOUT] times, stopping at
    the first byte with the high bit clear; on either way out it releases
    select and sends one more 0xFF.  It returns that byte, below 128, or -1
    when all [SD_COMMAND_TIMEOUT] polls had the high bit set; the file-scope
    variables are not touched. *)
Theorem cmd_exchange (cmd arg : Z) (w : world D) :
  spi_hal w = Some h ->
  exists r w' frame_rx polls xf,
    _cmd cmd arg w = Ok r w' /\
    length frame_rx = 6%nat /\
    trace w' =
      EvResponse cmd r :: EvTransfer 0xFF xf :: EvCS 0 :: fillers polls ++
      exchanged (frame_bytes cmd arg) frame_rx ++
      EvCS 1 :: EvCommand cmd arg :: trace w /\
    (1 <= length polls <= SD_COMMAND_TIMEOUT)%nat /\
    (r = -1 /\ length polls = SD_COMMAND_TIMEOUT /\ Forall high_bit_set polls \/
     exists rest, polls = r :: rest /\ 0 <= r < 128 /\ Forall high_bit_set rest) /\
    same_statics w w'.
Proof.
  intros H. unfold _cmd. unfold bind at 1. cbn [modify].
  destruct (frame_ran (Z.lor 0x40 cmd) (Z.shiftr arg 24) (Z.shiftr arg 16)
                      (Z.shiftr arg 8) (Z.shiftr arg 0) 0x95
                      (log (EvCommand cmd arg) w) H)
    as (frame_rx & w1 & Hlen & R1 & Hk).
  rewrite Hk.
  destruct (cmd_poll_shape SD_COMMAND_TIMEOUT w1 (proj1 R1))
    as (r & w2 & polls & xf & E2 & R2 & Hn & Hcase).
  rewrite (bind_Ok _ _ _ _ _ E2). unfold bind, modify, ret.
  exists r, (log (EvResponse cmd r) w2), frame_rx, polls, xf.
  split; [reflexivity|]. split; [exact Hlen|].
  destruct R1 as (_ & T1 & S1). destruct R2 as (_ & T2 & S2).
  split.
  - cbn [trace log]. rewrite T2, T1. cbn [trace log app].
    rewrite <- !app_assoc. reflexivity.
  - split.
    + split; [|exact Hn].
      destruct Hcase as [(_ & -> & _)|(rest & -> & _)];
        [exact SD_COMMAND_TIMEOUT_pos | simpl; lia].
    + split; [exact Hcase|].
      apply (same_statics_trans _ (log (EvCommand cmd arg) w));
        [apply same_statics_log|].
      apply (same_statics_trans _ w1 _ S1).
      apply (same_statics_trans _ w2 _ S2). apply same_statics_log.
Qed.

End Engine.

Lemma cmd_exchange_witness :
  exists r w' frame_rx polls xf,
    _cmd 17 0x12345678 (attached 0xFF (reply_cmd 0x05)) = Ok r w' /\
    r = 0x05 /\ polls = [0x05; 0xFF] /\ length frame_rx = 6%nat /\
    trace w' =
      EvResponse 17 r :: EvTransfer 0xFF xf :: EvCS 0 :: fillers polls ++
      exchanged [0x51; 0x12; 0x34; 0x56; 0x78; 0x95] frame_rx ++
      [EvCS 1; EvCommand 17 0x12345678].
Proof.
  destruct (cmd_exchange (scripted_hal 0xFF) 17 0x12345678
                         (attached 0xFF (reply_cmd 0x05)) eq_refl)
    as (r & w' & frame_rx & polls & xf & E & Hlen & T & Hn & Hcase & S).
  exists r, w', frame_rx, polls, xf. split; [exact E|].
  assert (Hr : r = 0x05 /\ polls = [0x05; 0xFF]).
  { vm_compute in E. inversion E; subst r w'. split; [reflexivity|].
    vm_compute in T.
    destruct frame_rx as [|f0 [|f1 [|f2 [|f3 [|f4 [|f5 [|]]]]]]]; try discriminate Hlen.
    destruct polls as [|p0 [|p1 [|p2 polls]]]; cbn in T; inversion T; subst;
      reflexivity. }
  destruct Hr as [Hr Hp]. split; [exact Hr|]. split; [exact Hp|].
  split; [exact Hlen | exact T].
Defined.


Section Engine_no_deselect.

Context {D : Type}.
Variable h : spisd_hal_t D.

(** The polling loop of [_cmdx]: as that of [_cmd], but an answer leaves the
    select line alone. *)
Lemma cmdx_poll_shape (n : nat) (w : world D) :
  spi_hal w = Some h ->
  exists r w' polls,
    _cmdx_poll n w = Ok r w' /\ (length polls <= n)%nat /\
    (r = -1 /\ length polls = n /\ Forall high_bit_set polls /\
     (exists xf, ran h (EvTransfer 0xFF xf :: EvCS 0 :: fillers polls) w w') \/
     exists rest, polls = r :: rest /\ 0 <= r < 128 /\ Forall high_bit_set rest /\
                  ran h (fillers polls) w w').
Proof.
  revert w. induction n as [|n IH]; intros w H; cbn [_cmdx_poll].
  - destruct (hal_cs_ran h 0 w H) as (w1 & E1 & R1).
    destruct (read_write_ran h 0xFF w1 (proj1 R1)) as (xf & w2 & E2 & _ & R2).
    exists (-1), w2, []. rewrite (bind_Ok _ _ _ _ _ E1), (bind_Ok _ _ _ _ _ E2).
    split; [reflexivity|]. split; [apply Nat.le_refl|]. left.
    repeat split; [constructor|]. exists xf. exact (ran_app h _ _ _ _ _ R1 R2).
  - destruct (read_write_ran h 0xFF w H) as (b & w1 & E1 & Hb & R1).
    rewrite (bind_Ok _ _ _ _ _ E1).
    destruct (Z.eqb_spec (Z.land b 0x80) 0) as [Hz|Hnz].
    + exists b, w1, [b]. split; [reflexivity|]. split; [simpl; lia|]. right.
      exists []. split; [reflexivity|].
      split; [exact (byte_high_bit_clear b Hb Hz)|]. split; [constructor | exact R1].
    + destruct (IH w1 (proj1 R1)) as (r & w2 & polls & E2 & Hlen & Hcase).
      exists r, w2, (polls ++ [b]). split; [exact E2|].
      split; [rewrite length_app; simpl; lia|].
      assert (Hfill : forall pre, pre ++ fillers (polls ++ [b]) =
                                  (pre ++ fillers polls) ++ [EvTransfer (u8 0xFF) b]).
      { intros pre. unfold fillers. rewrite map_app, app_assoc. reflexivity. }
      destruct Hcase as [(Hr & Hl & Hall & xf & R2)|(rest & Hp & Hr & Hall & R2)].
      * left. split; [exact Hr|]. split; [rewrite length_app; simpl; lia|].
        split; [apply Forall_app; split; [exact Hall | repeat constructor; exact Hnz]|].
        exists xf. pose proof (ran_app h _ _ _ _ _ R1 R2) as R.
        change (EvTransfer 0xFF xf :: EvCS 0 :: fillers (polls ++ [b]))
          with ([EvTransfer 0xFF xf; EvCS 0] ++ fillers (polls ++ [b])).
        rewrite (Hfill [EvTransfer 0xFF xf; EvCS 0]). exact R.
      * right. exists (rest ++ [b]). subst polls. split; [reflexivity|].
        split; [exact Hr|].
        split; [apply Forall_app; split; [exact Hall | repeat constructor; exact Hnz]|].
        pose proof (ran_app h _ _ _ _ _ R1 R2) as R.
        change (fillers ((r :: rest) ++ [b])) with ([] ++ fillers ((r :: rest) ++ [b])).
        rewrite (Hfill []). exact R.
Qed.

(** X2. [_cmdx] frames and polls like [_cmd].  When the card answers, with
    whatever status, it returns at once and the select line stays asserted:
    the log ends with the answering poll.  Only on a timeout does it release
    select and send the closing filler. *)
Theorem cmdx_exchange (cmd arg : Z) (w : world D) :
  spi_hal w = Some h ->
  exists r w' frame_rx polls,
    _cmdx cmd arg w = Ok r w' /\
    length frame_rx = 6%nat /\
    (1 <= length polls <= SD_COMMAND_TIMEOUT)%nat /\
    same_statics w w' /\
    ((exists rest,
        polls = r :: rest /\ 0 <= r < 128 /\ Forall high_bit_set rest /\
        trace w' =
          EvResponse cmd r :: fillers polls ++
          exchanged (frame_bytes cmd arg) frame_rx ++
          EvCS 1 :: EvCommand cmd arg :: trace w) \/
     (r = -1 /\ length polls = SD_COMMAND_TIMEOUT /\ Forall high_bit_set polls /\
      exists xf,
        trace w' =
          EvResponse cmd r :: EvTransfer 0xFF xf :: EvCS 0 :: fillers polls ++
          exchanged (frame_bytes cmd arg) frame_rx ++
          EvCS 1 :: EvCommand cmd arg :: trace w)).
Proof.
  intros H. unfold _cmdx. unfold bind at 1. cbn [modify].
  destruct (frame_ran h (Z.lor 0x40 cmd) (Z.shiftr arg 24) (Z.shiftr arg 16)
                      (Z.shiftr arg 8) (Z.shiftr arg 0) 0x95
                      (log (EvCommand cmd arg) w) H)
    as (frame_rx & w1 & Hlen & R1 & Hk).
  rewrite Hk.
  destruct (cmdx_poll_shape SD_COMMAND_TIMEOUT w1 (proj1 R1))
    as (r & w2 & polls & E2 & Hn & Hcase).
  rewrite (bind_Ok _ _ _ _ _ E2). unfold bind, modify, ret.
  exists r, (log (EvResponse cmd r) w2), frame_rx, polls.
  split; [reflexivity|]. split; [exact Hlen|].
  destruct R1 as (_ & T1 & S1).
  assert (Hstat : forall es, ran h es w1 w2 ->
                             same_statics w (log (EvResponse cmd r) w2)).
  { intros es (_ & _ & S2).
    apply (same_statics_trans _ (log (EvCommand cmd arg) w));
      [apply same_statics_log|].
    apply (same_statics_trans _ w1 _ S1).
    apply (same_statics_trans _ w2 _ S2). apply same_statics_log. }
  destruct Hcase as [(Hr & Hl & Hall & xf & R2)|(rest & Hp & Hr & Hall & R2)].
  - split; [rewrite Hl; split; [exact SD_COMMAND_TIMEOUT_pos | apply Nat.le_refl]|].
    split; [exact (Hstat _ R2)|]. right.
    split; [exact Hr|]. split; [exact Hl|]. split; [exact Hall|]. exists xf.
    destruct R2 as (_ & T2 & _). cbn [trace log]. rewrite T2, T1.
    cbn [trace log app]. rewrite <- !app_assoc. reflexivity.
  - split; [split; [subst polls; simpl; lia | exact Hn]|].
    split; [exact (Hstat _ R2)|]. left. exists rest.
    split; [exact Hp|]. split; [exact Hr|]. split; [exact Hall|].
    destruct R2 as (_ & T2 & _). cbn [trace log]. rewrite T2, T1.
    cbn [trace log app]. rewrite <- !app_assoc. reflexivity.
Qed.

End Engine_no_deselect.

Lemma cmdx_exchange_witness :
  exists r w' frame_rx polls,
    _cmdx 9 0 (attached 0xFF (reply_cmdx 0x04)) = Ok r w' /\
    r = 0x04 /\ length frame_rx = 6%nat /\
    trace w' =
      EvResponse 9 r :: fillers polls ++
      exchanged (frame_bytes 9 0) frame_rx ++ [EvCS 1; EvCommand 9 0].
Proof.
  destruct (cmdx_exchange (scripted_hal 0xFF) 9 0
                          (attached 0xFF (reply_cmdx 0x04)) eq_refl)
    as (r & w' & frame_rx & polls & E & Hlen & Hn & S & Hcase).
  exists r, w', frame_rx, polls. split; [exact E|].
  assert (Hr : r = 0x04) by (vm_compute in E; inversion E; reflexivity).
  split; [exact Hr|]. split; [exact Hlen|].
  destruct Hcase as [(rest & _ & _ & _ & T)|(Hm & _)]; [exact T|].
  rewrite Hr in Hm. discriminate Hm.
Defined.

(** ** The probe within its buffer *)

(** One transfer, or one move of the select line, on a scripted card. *)
Ltac script_step Hw :=
  match goal with
  | |- context [bind (_spi_read_write ?tx) _ ?w] =>
      let w1 := fresh "w" in
      let E := fresh "E" in
      let Hw1 := fresh "Hw" in
      destruct (read_write_scripted _ tx _ _ w Hw) as (w1 & E & Hw1);
      rewrite (bind_Ok _ _ _ _ _ E); clear E; clear Hw; rename Hw1 into Hw
  | |- context [bind (hal_cs ?cs) _ ?w] =>
      let w1 := fresh "w" in
      let E := fresh "E" in
      let Hw1 := fresh "Hw" in
      destruct (hal_cs_scripted _ cs _ w Hw) as (w1 & E & Hw1);
      rewrite (bind_Ok _ _ _ _ _ E); clear E; clear Hw; rename Hw1 into Hw
  end.

Lemma u8_byte (b : Z) : is_byte b -> u8 b = b.
Proof. unfold is_byte, u8. intros H. apply Z.mod_small. exact H. Qed.

Lemma cmd8_budget_large : (5 <= SD_COMMAND_TIMEOUT * 1000)%nat.
Proof.
  apply Nat.le_trans with (1 * 1000)%nat.
  - repeat constructor.
  - apply Nat.mul_le_mono_r. exact SD_COMMAND_TIMEOUT_pos.
Qed.

Lemma store_response_in_range (response : list Z) (i v : Z) :
  0 <= i < 5 -> length response = 5%nat ->
  exists response',
    store_response response i v = Some response' /\
    length response' = 5%nat /\
    nth 0 response' 0 = if i =? 0 then v else nth 0 response 0.
Proof.
  intros Hi Hlen.
  destruct response as [|a0 [|a1 [|a2 [|a3 [|a4 [|]]]]]]; try discriminate Hlen.
  assert (Hcases : i = 0 \/ i = 1 \/ i = 2 \/ i = 3 \/ i = 4) by lia.
  destruct Hcases as [->|[->|[->|[->| ->]]]];
    (eexists; split; [reflexivity | split; reflexivity]).
Qed.

Lemma last_cons_default (a d : Z) (l : list Z) : last (a :: l) d = last l a.
Proof.
  revert a d. induction l as [|b l IH]; intros a d; [reflexivity|].
  change (last (a :: b :: l) d) with (last (b :: l) d).
  rewrite (IH b d), (IH b a). reflexivity.
Qed.

(** The trailing bytes [ts], all stored at the same index [i] inside the
    buffer: [response[0]] ends up as the last of them when [i] is 0 and is
    left alone otherwise. *)
Lemma cmd8_trailing_scripted (idle i : Z) (s : list Z) (ts : list Z) :
  0 <= i < 5 ->
  forall (response : list Z) (w : world (list Z)),
    on_script idle (ts ++ s) w -> length response = 5%nat ->
    exists response' w',
      _cmd8_trailing (length ts) i response w = Ok response' w' /\
      on_script idle s w' /\
      nth 0 response' 0 =
      if i =? 0 then last (map u8 ts) (nth 0 response 0) else nth 0 response 0.
Proof.
  intros Hi. induction ts as [|t ts IH]; intros response w Hw Hlen;
    cbn [length _cmd8_trailing app] in *.
  - exists response, w. split; [reflexivity|]. split; [exact Hw|].
    destruct (i =? 0); reflexivity.
  - destruct (read_write_scripted idle 0xFF t (ts ++ s) w Hw) as (w1 & E1 & Hw1).
    rewrite (bind_Ok _ _ _ _ _ E1).
    destruct (store_response_in_range response i (u8 t) Hi Hlen)
      as (response1 & Es & Hlen1 & Hn1).
    rewrite Es. unfold bind at 1. cbn [lift_option ret].
    destruct (IH response1 w1 Hw1 Hlen1) as (response' & w' & E & Hw' & Hn).
    exists response', w'. split; [exact E|]. split; [exact Hw'|].
    rewrite Hn, Hn1. cbn [map]. rewrite last_cons_default.
    destruct (i =? 0); reflexivity.
Qed.

(** The polling loop of [_cmd8] when the answer [r] comes at an index of at
    most 4: the four trailing bytes all land in [response[i]]. *)
Lemma cmd8_poll_within_buffer (idle r t1 t2 t3 t4 f : Z) (rest : list Z) (n : nat) :
  0 <= r < 128 ->
  forall (budget : nat) (i : Z) (w : world (list Z)),
    on_script idle (repeat 0xFF n ++ r :: t1 :: t2 :: t3 :: t4 :: f :: rest) w ->
    (n < budget)%nat -> 0 <= i -> i + Z.of_nat n <= 4 ->
    exists w',
      _cmd8_poll budget i w = Ok (if i + Z.of_nat n =? 0 then u8 t4 else r) w' /\
      on_script idle rest w'.
Proof.
  intros Hr. induction n as [|n IH]; intros budget i w Hw Hb Hi H4;
    (destruct budget as [|budget]; [lia|]); cbn [_cmd8_poll repeat app] in *.
  - script_step Hw. rewrite (u8_byte r) by (unfold is_byte; lia).
    cbn [nth]. rewrite (high_bit_clear r Hr). cbn [Z.eqb].
    destruct (cmd8_trailing_scripted idle i (f :: rest) [t1; t2; t3; t4] ltac:(lia)
                [r; 0; 0; 0; 0] w0 Hw eq_refl) as (response' & w1 & E & Hw1 & Hn).
    cbn [length] in E. rewrite (bind_Ok _ _ _ _ _ E).
    script_step Hw1. script_step Hw1. unfold ret.
    eexists. split; [|exact Hw1]. f_equal. rewrite Hn. cbn [map last nth].
    rewrite Z.add_0_r. reflexivity.
  - script_step Hw. cbn [nth].
    change (Z.land (u8 0xFF) 0x80 =? 0) with false. cbv iota.
    destruct (IH budget (i + 1) w0 Hw ltac:(lia) ltac:(lia) ltac:(lia)) as (w' & E & Hw').
    exists w'. split; [|exact Hw'].
    rewrite E. f_equal.
    destruct (Z.eqb_spec (i + 1 + Z.of_nat n) 0); [lia|].
    destruct (Z.eqb_spec (i + Z.of_nat (S n)) 0); [lia|]. reflexivity.
Qed.

(** X3. On a card that answers CMD8 after [n] busy polls, [n] at most 4,
    with status [r] and four more bytes, [_cmd8] reads the four bytes and
    one closing filler and returns [r] when [n] is 1 to 4; when the answer
    is there on the very first poll it returns the last of the four trailing
    bytes instead. *)
Theorem cmd8_within_buffer (n : nat) (r t1 t2 t3 t4 f : Z) (rest : list Z) :
  (n <= 4)%nat -> 0 <= r < 128 -> is_byte t4 ->
  exists w',
    _cmd8 (attached 0xFF (during_frame ++ repeat 0xFF n ++
                          r :: t1 :: t2 :: t3 :: t4 :: f :: rest))
    = Ok (if (n =? 0)%nat then t4 else r) w' /\
    dev w' = rest.
Proof.
  intros Hn Hr Ht.
  pose proof cmd8_budget_large as Hlarge.
  unfold _cmd8. remember (SD_COMMAND_TIMEOUT * 1000)%nat as budget eqn:Eb. clear Eb.
  unfold bind at 1. cbn [modify].
  assert (Hw : on_script 0xFF (during_frame ++ repeat 0xFF n ++
                               r :: t1 :: t2 :: t3 :: t4 :: f :: rest)
                         (log (EvCommand 8 0x1AA)
                              (attached 0xFF (during_frame ++ repeat 0xFF n ++
                                    r :: t1 :: t2 :: t3 :: t4 :: f :: rest))))
    by (split; reflexivity).
  unfold during_frame in Hw. cbn [repeat app] in Hw.
  script_step Hw. do 6 script_step Hw.
  destruct (cmd8_poll_within_buffer 0xFF r t1 t2 t3 t4 f rest n Hr budget 0 w5 Hw
              ltac:(lia) ltac:(lia) ltac:(lia)) as (w' & E & Hw').
  rewrite (bind_Ok _ _ _ _ _ E). unfold bind, modify, ret.
  eexists. split.
  - rewrite (u8_byte t4 Ht). destruct n; reflexivity.
  - exact (proj2 Hw').
Qed.

Lemma cmd8_within_buffer_witness :
  exists w',
    _cmd8 (attached 0xFF (during_frame ++ repeat 0xFF 3 ++
                          [0x01; 0x00; 0x00; 0x01; 0xAA; 0xFF; 0x42]))
    = Ok 0x01 w' /\ dev w' = [0x42].
Proof.
  apply (cmd8_within_buffer 3 0x01 0x00 0x00 0x01 0xAA 0xFF [0x42]).
  - repeat constructor.
  - lia.
  - unfold is_byte. lia.
Defined.

(** ** The card's answer to the probe, read off the bus *)

Lemma received_app (xs ys : list event) :
  received (xs ++ ys) = received xs ++ received ys.
Proof.
  induction xs as [|e xs IH]; [reflexivity|].
  destruct e; simpl; rewrite IH; reflexivity.
Qed.

Lemma received_fillers (rxs : list Z) : received (fillers rxs) = rxs.
Proof. induction rxs as [|b rxs IH]; [reflexivity|]. simpl. rewrite IH. reflexivity. Qed.

Lemma command_logged (c a : Z) (xs : list event) :
  In (EvCommand c a) xs -> In (c, a) (commands xs).
Proof.
  induction xs as [|e xs IH]; [intros []|].
  intros [->|Hin].
  - left. reflexivity.
  - destruct e; simpl; auto.
Qed.

Lemma after_command_skip (c : Z) (pre t : list event) :
  (forall a, ~ In (EvCommand c a) pre) ->
  after_command c (pre ++ t) = after_command c t.
Proof.
  induction pre as [|e pre IH]; intros Hpre; [reflexivity|].
  assert (Hrest : forall a, ~ In (EvCommand c a) pre)
    by (intros a Ha; apply (Hpre a); right; exact Ha).
  destruct e as [tx rx|cs|ms|c' a'|c' x']; cbn [app after_command];
    try (apply IH; exact Hrest).
  destruct (Z.eqb_spec c' c) as [->|_]; [|apply IH; exact Hrest].
  exfalso. apply (Hpre a'). left. reflexivity.
Qed.

Lemma after_command_none (c : Z) (t : list event) :
  (forall a, ~ In (EvCommand c a) t) -> after_command c t = [].
Proof.
  intros H. rewrite <- (app_nil_r t). rewrite after_command_skip by exact H.
  reflexivity.
Qed.

Lemma first_status_busy (busy : list Z) (b : Z) (more : list Z) :
  Forall high_bit_set busy -> Z.land b 0x80 = 0 ->
  first_status (busy ++ b :: more) = Some (length busy, b).
Proof.
  intros Hbusy Hb. induction Hbusy as [|x busy Hx _ IH]; cbn [app first_status length].
  - rewrite Hb. reflexivity.
  - destruct (Z.eqb_spec (Z.land x 0x80) 0) as [Hz|_]; [contradiction|].
    rewrite IH. reflexivity.
Qed.

Section Probe_on_bus.

Context {D : Type}.

Lemma read_write_added (tx rx : Z) (w w' : world D) :
  _spi_read_write tx w = Ok rx w' -> trace w' = EvTransfer (u8 tx) rx :: trace w.
Proof.
  unfold _spi_read_write. destruct (spi_hal w) as [h|]; [|discriminate].
  destruct (_spi_transfer h (dev w) (u8 tx)) as [d x].
  intros H. inversion H; subst. reflexivity.
Qed.

Lemma hal_cs_added (cs : Z) (u : unit) (w w' : world D) :
  hal_cs cs w = Ok u w' -> trace w' = EvCS cs :: trace w.
Proof.
  unfold hal_cs. destruct (spi_hal w) as [h|]; [|discriminate].
  intros H. inversion H; subst. reflexivity.
Qed.

(** The stores of the trailing bytes: a run that ends had its index inside
    the buffer, and an index other than 0 leaves [response[0]] alone. *)
Lemma cmd8_trailing_added (k : nat) (i : Z) :
  forall (response response' : list Z) (w w' : world D),
    _cmd8_trailing k i response w = Ok response' w' ->
    length response = 5%nat -> 0 <= i ->
    (k = 0%nat \/ i <= 4) /\
    length response' = 5%nat /\
    (i <> 0 -> nth 0 response' 0 = nth 0 response 0) /\
    exists ts, length ts = k /\ trace w' = rev (fillers ts) ++ trace w.
Proof.
  induction k as [|k IH]; intros response response' w w' H Hlen Hi;
    cbn [_cmd8_trailing] in H.
  - apply ret_inv in H. destruct H as [-> ->].
    split; [left; reflexivity|]. split; [exact Hlen|]. split; [reflexivity|].
    exists []. split; reflexivity.
  - apply bind_inv in H. destruct H as (b & w1 & E1 & H).
    apply read_write_added in E1.
    apply bind_inv in H. destruct H as (response1 & w2 & E2 & H).
    assert (Hin : i <= 4).
    { destruct (Z_le_gt_dec i 4) as [Hle|Hgt]; [exact Hle|]. exfalso.
      rewrite (store_response_out_of_range response i b) in E2 by lia.
      discriminate E2. }
    destruct (store_response_in_range response i b ltac:(lia) Hlen)
      as (stored & Es & Hlen1 & Hn1).
    rewrite Es in E2. apply ret_inv in E2. destruct E2 as [<- <-].
    destruct (IH _ _ _ _ H Hlen1 Hi) as (_ & Hlen' & Hn' & ts & Hts & T).
    split; [right; exact Hin|]. split; [exact Hlen'|]. split.
    + intros Hne. rewrite (Hn' Hne), Hn1.
      destruct (Z.eqb_spec i 0); [contradiction | reflexivity].
    + exists (b :: ts). split; [simpl; rewrite Hts; reflexivity|].
      rewrite T, E1. cbn [fillers map rev]. rewrite <- app_assoc. reflexivity.
Qed.

(** The polling loop of [_cmd8] against what came back on the bus: when the
    first byte with the high bit clear is the one of poll [m], within the
    budget, the index [i + m] was inside the buffer, and unless it was 0 that
    byte is the value returned. *)
Lemma cmd8_poll_answer (n : nat) :
  forall (i : Z) (w w' : world D) (r : Z),
    0 <= i -> _cmd8_poll n i w = Ok r w' ->
    exists es,
      trace w' = rev es ++ trace w /\
      forall (more : list Z) (m : nat) (b : Z),
        first_status (received es ++ more) = Some (m, b) -> (m < n)%nat ->
        i + Z.of_nat m <= 4 /\ (i + Z.of_nat m <> 0 -> r = b).
Proof.
  induction n as [|n IH]; intros i w w' r Hi H; cbn [_cmd8_poll] in H.
  - apply bind_inv in H. destruct H as (u & w1 & E1 & H). apply hal_cs_added in E1.
    apply bind_inv in H. destruct H as (xf & w2 & E2 & H). apply read_write_added in E2.
    apply ret_inv in H. destruct H as [-> ->].
    exists [EvCS 0; EvTransfer (u8 0xFF) xf]. split.
    + rewrite E2, E1. reflexivity.
    + intros more m b _ Hm. lia.
  - apply bind_inv in H. destruct H as (r0 & w1 & E1 & H).
    apply read_write_added in E1. cbn [nth] in H.
    destruct (Z.eqb_spec (Z.land r0 0x80) 0) as [Hz|Hnz].
    + apply bind_inv in H. destruct H as (response & w2 & Et & H).
      apply bind_inv in H. destruct H as (u & w3 & E3 & H). apply hal_cs_added in E3.
      apply bind_inv in H. destruct H as (xf & w4 & E4 & H). apply read_write_added in E4.
      apply ret_inv in H. destruct H as [-> ->].
      destruct (cmd8_trailing_added 4 i _ _ _ _ Et eq_refl Hi)
        as (Hin & _ & Hn & ts & _ & T).
      exists (EvTransfer (u8 0xFF) r0 :: fillers ts ++ [EvCS 0; EvTransfer (u8 0xFF) xf]).
      split.
      * rewrite E4, E3, T, E1. cbn [rev]. rewrite rev_app_distr.
        cbn [rev app]. rewrite <- !app_assoc. reflexivity.
      * intros more m b Hfs _. cbn [received app first_status] in Hfs.
        rewrite Hz in Hfs. cbn [Z.eqb] in Hfs. inversion Hfs; subst m b.
        rewrite Z.add_0_r. split.
        -- destruct Hin as [Hk|Hin]; [discriminate Hk | exact Hin].
        -- intros Hne. rewrite (Hn Hne). reflexivity.
    + destruct (IH (i + 1) w1 w' r ltac:(lia) H) as (es & T & Hes).
      exists (EvTransfer (u8 0xFF) r0 :: es). split.
      * rewrite T, E1. cbn [rev]. rewrite <- app_assoc. reflexivity.
      * intros more m b Hfs Hm. cbn [received app first_status] in Hfs.
        destruct (Z.eqb_spec (Z.land r0 0x80) 0) as [Hz|_]; [contradiction|].
        destruct (first_status (received es ++ more)) as [[m' b']|] eqn:Efs;
          [|discriminate Hfs].
        inversion Hfs; subst m b.
        destruct (Hes more m' b' Efs ltac:(lia)) as [H4 Hr].
        split; [lia|]. intros _. apply Hr. lia.
Qed.

(** [_cmd8] against the bus: take any log, oldest event first, in which
    the events of this call follow events without a CMD8.  If the first
    byte with the high bit clear that came back after the frame came after
    one to four busy bytes, it is the value [_cmd8] returned. *)
Lemma cmd8_answer (w w' : world D) (r : Z) :
  _cmd8 w = Ok r w' ->
  exists es,
    trace w' = rev es ++ trace w /\
    forall (pre more : list event) (m : nat) (b : Z),
      (forall a, ~ In (EvCommand 8 a) pre) ->
      first_status (skipn 6 (received (after_command 8 (pre ++ es ++ more))))
      = Some (m, b) ->
      (1 <= m <= 4)%nat -> r = b.
Proof.
  unfold _cmd8. intros H.
  apply bind_inv in H. destruct H as (u0 & wa & Ea & H). apply modify_inv in Ea.
  apply bind_inv in H. destruct H as (u1 & wb & Eb & H). apply hal_cs_added in Eb.
  apply bind_inv in H. destruct H as (x0 & w0 & E0 & H). apply read_write_added in E0.
  apply bind_inv in H. destruct H as (x1 & w1 & E1 & H). apply read_write_added in E1.
  apply bind_inv in H. destruct H as (x2 & w2 & E2 & H). apply read_write_added in E2.
  apply bind_inv in H. destruct H as (x3 & w3 & E3 & H). apply read_write_added in E3.
  apply bind_inv in H. destruct H as (x4 & w4 & E4 & H). apply read_write_added in E4.
  apply bind_inv in H. destruct H as (x5 & w5 & E5 & H). apply read_write_added in E5.
  apply bind_inv in H. destruct H as (r' & w6 & E6 & H).
  apply bind_inv in H. destruct H as (u7 & w7 & E7 & H). apply modify_inv in E7.
  apply ret_inv in H. destruct H as [<- <-].
  pose proof cmd8_budget_large as Hlarge.
  remember (SD_COMMAND_TIMEOUT * 1000)%nat as budget eqn:Eb'. clear Eb'.
  destruct (cmd8_poll_answer budget 0 w5 w6 r ltac:(lia) E6) as (es & T & Hes).
  exists (EvCommand 8 0x1AA :: EvCS 1 ::
          EvTransfer (u8 (Z.lor 0x40 8)) x0 :: EvTransfer (u8 0x00) x1 ::
          EvTransfer (u8 0x00) x2 :: EvTransfer (u8 0x01) x3 ::
          EvTransfer (u8 0xAA) x4 :: EvTransfer (u8 0x87) x5 ::
          es ++ [EvResponse 8 r]).
  split.
  - rewrite E7. cbn [trace log]. rewrite T, E5, E4, E3, E2, E1, E0, Eb, Ea.
    cbn [trace log rev]. rewrite rev_app_distr. cbn [rev app].
    rewrite <- !app_assoc. reflexivity.
  - intros pre more m b Hpre Hfs Hm.
    rewrite after_command_skip in Hfs by exact Hpre.
    cbn [app after_command Z.eqb Pos.eqb received skipn] in Hfs.
    rewrite <- app_assoc, received_app in Hfs.
    destruct (Hes _ m b Hfs ltac:(lia)) as [_ Hr]. apply Hr. lia.
Qed.

End Probe_on_bus.

(** ** Block loops of the driver *)

Lemma addressed_S (c cdv first : Z) (k : nat) :
  addressed c cdv first (S k) =
  addressed c cdv (first + 1) k ++ [(c, s32 (u32 (first * cdv)))].
Proof.
  unfold addressed. cbn [seq map rev]. rewrite <- seq_shift, map_map.
  rewrite Nat2Z.inj_0, Z.add_0_r. f_equal. f_equal.
  apply map_ext. intros i. rewrite Nat2Z.inj_succ.
  replace (first + Z.succ (Z.of_nat i)) with (first + 1 + Z.of_nat i) by lia.
  reflexivity.
Qed.

Lemma repeat_snoc {A} (a : A) (k : nat) : repeat a k ++ [a] = a :: repeat a k.
Proof. induction k as [|k IH]; [reflexivity|]. cbn [repeat app]. rewrite IH. reflexivity. Qed.

Lemma block_run_step {D} (c cdv first : Z) (count : nat) (r : Z)
      (w w1 w2 w' : world D) :
  grows [(c, s32 (u32 (first * cdv)))] [(c, 0)] w w1 ->
  grows [] [] w1 w2 ->
  block_run c cdv (first + 1) count r w2 w' ->
  block_run c cdv first (S count) r w w'.
Proof.
  intros G1 G2 [(Hr & G)|(Hr & k & x & Hk & Hx & G)].
  - left. split; [exact Hr|].
    pose proof (grows_trans _ _ _ _ _ _ _ (grows_trans _ _ _ _ _ _ _ G1 G2) G) as G'.
    cbn [app] in G'. rewrite addressed_S.
    change (repeat (c, 0) (S count)) with ((c, 0) :: repeat (c, 0) count).
    rewrite <- repeat_snoc. exact G'.
  - right. split; [exact Hr|]. exists (S k), x.
    split; [lia|]. split; [exact Hx|].
    pose proof (grows_trans _ _ _ _ _ _ _ (grows_trans _ _ _ _ _ _ _ G1 G2) G) as G'.
    cbn [app] in G'. rewrite (addressed_S c cdv first (S k)).
    change (repeat (c, 0) (S k)) with ((c, 0) :: repeat (c, 0) k).
    rewrite <- repeat_snoc. exact G'.
Qed.

Lemma block_run_refused {D} (c cdv first : Z) (count : nat) (x : Z)
      (w w' : world D) :
  x <> 0 -> grows [(c, s32 (u32 (first * cdv)))] [(c, x)] w w' ->
  block_run c cdv first (S count) 1 w w'.
Proof.
  intros Hx G. right. split; [reflexivity|]. exists 0%nat, x.
  split; [lia|]. split; [exact Hx|].
  unfold addressed. cbn [seq map rev app repeat].
  change (Z.of_nat 0) with 0. rewrite Z.add_0_r. exact G.
Qed.

Section Block_loops.

Context {D : Type}.

Lemma same_statics_cmd (cmd arg : Z) : stays (@same_statics D) (_cmd cmd arg).
Proof.
  apply stays_cmd.
  - exact same_statics_refl.
  - exact same_statics_trans.
  - exact same_statics_bus.
  - exact same_statics_log.
Qed.

Lemma same_statics_write (fuel : nat) (buffer : list Z) (length : Z) :
  stays (@same_statics D) (_write fuel buffer length).
Proof.
  apply stays_write.
  - exact same_statics_refl.
  - exact same_statics_trans.
  - exact same_statics_bus.
Qed.

Lemma disk_write_loop_run (n fuel : nat) (limit : Z) :
  forall (b : Z) (buffer : list Z) (w w' : world D) (r : Z),
    0 <= b -> limit < 2 ^ 32 ->
    disk_write_loop n fuel b limit buffer w = Ok r w' ->
    same_statics w w' /\ block_run 24 (_cdv w) b (Z.to_nat (limit - b)) r w w'.
Proof.
  induction n as [|n IH]; intros b buffer w w' r Hb Hl H;
    cbn [disk_write_loop] in H;
    destruct (Z.ltb_spec b limit) as [Hlt|Hge].
  - discriminate H.
  - apply ret_inv in H. destruct H as [-> ->].
    split; [apply same_statics_refl|]. left. split; [reflexivity|].
    replace (Z.to_nat (limit - b)) with 0%nat by lia. apply grows_refl.
  - apply bind_inv in H. destruct H as (cdv & w0 & Eg & H).
    unfold get in Eg. inversion Eg; subst cdv w0. clear Eg.
    apply bind_inv in H. destruct H as (x & w1 & Ec & H).
    pose proof (same_statics_cmd _ _ _ _ _ Ec) as S1.
    apply grows_cmd in Ec.
    replace (Z.to_nat (limit - b)) with (S (Z.to_nat (limit - (b + 1)))) by lia.
    destruct (Z.eqb_spec x 0) as [->|Hx]; cbn [negb] in H.
    + apply bind_inv in H. destruct H as (x2 & w2 & Ew & H).
      pose proof (same_statics_write _ _ _ _ _ _ Ew) as S2.
      apply quiet_write in Ew.
      assert (Hu : u32 (b + 1) = b + 1) by (apply u32_small; lia).
      rewrite Hu in H.
      destruct (IH (b + 1) _ w2 w' r ltac:(lia) Hl H) as (S3 & R).
      split.
      * exact (same_statics_trans _ _ _ (same_statics_trans _ _ _ S1 S2) S3).
      * destruct S1 as (C1 & _). destruct S2 as (C2 & _).
        rewrite C2, C1 in R.
        exact (block_run_step 24 (_cdv w) b _ r w w1 w2 w' Ec Ew R).
    + apply ret_inv in H. destruct H as [-> ->].
      split; [exact S1|]. exact (block_run_refused 24 (_cdv w) b _ x w w1 Hx Ec).
  - apply ret_inv in H. destruct H as [-> ->].
    split; [apply same_statics_refl|]. left. split; [reflexivity|].
    replace (Z.to_nat (limit - b)) with 0%nat by lia. apply grows_refl.
Qed.

Lemma disk_read_loop_run (n fuel : nat) (limit : Z) :
  forall (b : Z) (buffer : list Z) (pos : Z) (w w' : world D) (r : Z)
         (buffer' : list Z),
    0 <= b -> limit < 2 ^ 32 ->
    disk_read_loop n fuel b limit buffer pos w = Ok (r, buffer') w' ->
    same_statics w w' /\ block_run 17 (_cdv w) b (Z.to_nat (limit - b)) r w w'.
Proof.
  induction n as [|n IH]; intros b buffer pos w w' r buffer' Hb Hl H;
    cbn [disk_read_loop] in H;
    destruct (Z.ltb_spec b limit) as [Hlt|Hge].
  - discriminate H.
  - apply ret_inv in H. destruct H as [E ->]. inversion E; subst.
    split; [apply same_statics_refl|]. left. split; [reflexivity|].
    replace (Z.to_nat (limit - b)) with 0%nat by lia. apply grows_refl.
  - apply bind_inv in H. destruct H as (cdv & w0 & Eg & H).
    unfold get in Eg. inversion Eg; subst cdv w0. clear Eg.
    apply bind_inv in H. destruct H as (x & w1 & Ec & H).
    pose proof (same_statics_cmd _ _ _ _ _ Ec) as S1.
    apply grows_cmd in Ec.
    replace (Z.to_nat (limit - b)) with (S (Z.to_nat (limit - (b + 1)))) by lia.
    destruct (Z.eqb_spec x 0) as [->|Hx]; cbn [negb] in H.
    + apply bind_inv in H. destruct H as ([x2 data] & w2 & Ew & H).
      pose proof (same_statics_read _ _ _ _ _ Ew) as S2.
      apply quiet_read in Ew.
      assert (Hu : u32 (b + 1) = b + 1) by (apply u32_small; lia).
      rewrite Hu in H.
      destruct (IH (b + 1) _ _ w2 w' r buffer' ltac:(lia) Hl H) as (S3 & R).
      split.
      * exact (same_statics_trans _ _ _ (same_statics_trans _ _ _ S1 S2) S3).
      * destruct S1 as (C1 & _). destruct S2 as (C2 & _).
        rewrite C2, C1 in R.
        exact (block_run_step 17 (_cdv w) b _ r w w1 w2 w' Ec Ew R).
    + apply ret_inv in H. destruct H as [E ->]. inversion E; subst.
      split; [exact S1|]. exact (block_run_refused 17 (_cdv w) b _ x w w1 Hx Ec).
  - apply ret_inv in H. destruct H as [E ->]. inversion E; subst.
    split; [apply same_statics_refl|]. left. split; [reflexivity|].
    replace (Z.to_nat (limit - b)) with 0%nat by lia. apply grows_refl.
Qed.

(** X7. Block writes.  Before initialisation [disk_write] returns -1 and
    leaves everything as it was.  After it, for a block range below 2^32,
    the only commands it issues are CMD24, one per block in ascending order,
    each with the argument block number times [_cdv] (as a 32-bit value);
    it returns 1 at the first CMD24 the card answers with a non-zero status
    and 0 when all [count] were answered 0.  What [_write] returns for the
    data phase has no part in the result. *)
Theorem disk_write_commands (fuel : nat) (buffer : list Z)
        (block_number count r : Z) (w w' : world D) :
  0 <= block_number -> 0 <= count -> block_number + count < 2 ^ 32 ->
  disk_write fuel buffer block_number count w = Ok r w' ->
  (_is_initialized w = 0 -> r = -1 /\ w' = w) /\
  (_is_initialized w <> 0 ->
   same_statics w w' /\
   block_run 24 (_cdv w) block_number (Z.to_nat count) r w w').
Proof.
  intros Hb Hc Hs H. unfold disk_write in H.
  apply bind_inv in H. destruct H as (i & w0 & Eg & H).
  unfold get in Eg. inversion Eg; subst i w0. clear Eg.
  assert (Hu : u32 block_number = block_number) by (apply u32_small; lia).
  assert (Hl : s64 (block_number + count) = block_number + count).
  { apply s64_small. split; [lia|].
    apply Z.lt_trans with (2 ^ 32); [exact Hs | reflexivity]. }
  rewrite Hu, Hl in H.
  destruct (Z.eqb_spec (_is_initialized w) 0) as [Hi|Hi]; split; intros Hi';
    try contradiction.
  - apply ret_inv in H. exact H.
  - apply disk_write_loop_run in H; [|exact Hb|exact Hs].
    replace (block_number + count - block_number) with count in H by lia.
    exact H.
Qed.

(** X8. Block reads: the same with CMD17. *)
Theorem disk_read_commands (fuel : nat) (buffer : list Z)
        (block_number count r : Z) (buffer' : list Z) (w w' : world D) :
  0 <= block_number -> 0 <= count -> block_number + count < 2 ^ 32 ->
  disk_read fuel buffer block_number count w = Ok (r, buffer') w' ->
  (_is_initialized w = 0 -> r = -1 /\ buffer' = buffer /\ w' = w) /\
  (_is_initialized w <> 0 ->
   same_statics w w' /\
   block_run 17 (_cdv w) block_number (Z.to_nat count) r w w').
Proof.
  intros Hb Hc Hs H. unfold disk_read in H.
  apply bind_inv in H. destruct H as (i & w0 & Eg & H).
  unfold get in Eg. inversion Eg; subst i w0. clear Eg.
  assert (Hu : u32 block_number = block_number) by (apply u32_small; lia).
  assert (Hl : s64 (block_number + count) = block_number + count).
  { apply s64_small. split; [lia|].
    apply Z.lt_trans with (2 ^ 32); [exact Hs | reflexivity]. }
  rewrite Hu, Hl in H.
  destruct (Z.eqb_spec (_is_initialized w) 0) as [Hi|Hi]; split; intros Hi';
    try contradiction.
  - apply ret_inv in H. destruct H as [E ->]. inversion E; subst. auto.
  - apply disk_read_loop_run in H; [|exact Hb|exact Hs].
    replace (block_number + count - block_number) with count in H by lia.
    exact H.
Qed.

Lemma u32_range (x : Z) : 0 <= u32 x < 2 ^ 32.
Proof. unfold u32. apply Z.mod_pos_bound. reflexivity. Qed.

Lemma disk_write_loop_wraps (n fuel : nat) (limit : Z) :
  2 ^ 32 <= limit ->
  forall (b : Z) (buffer : list Z) (w w' : world D),
    b < 2 ^ 32 -> disk_write_loop n fuel b limit buffer w <> Ok 0 w'.
Proof.
  intros Hl. induction n as [|n IH]; intros b buffer w w' Hb H;
    cbn [disk_write_loop] in H;
    (destruct (Z.ltb_spec b limit) as [Hlt|Hge]; [|lia]).
  - discriminate H.
  - apply bind_inv in H. destruct H as (cdv & w0 & _ & H).
    apply bind_inv in H. destruct H as (x & w1 & _ & H).
    destruct (negb (x =? 0)).
    + apply ret_inv in H. destruct H as [H _]. discriminate H.
    + apply bind_inv in H. destruct H as (x2 & w2 & _ & H).
      exact (IH _ _ _ _ (proj2 (u32_range (b + 1))) H).
Qed.

Lemma disk_read_loop_wraps (n fuel : nat) (limit : Z) :
  2 ^ 32 <= limit ->
  forall (b : Z) (buffer : list Z) (pos : Z) (w w' : world D) (buffer' : list Z),
    b < 2 ^ 32 -> disk_read_loop n fuel b limit buffer pos w <> Ok (0, buffer') w'.
Proof.
  intros Hl. induction n as [|n IH]; intros b buffer pos w w' buffer' Hb H;
    cbn [disk_read_loop] in H;
    (destruct (Z.ltb_spec b limit) as [Hlt|Hge]; [|lia]).
  - discriminate H.
  - apply bind_inv in H. destruct H as (cdv & w0 & _ & H).
    apply bind_inv in H. destruct H as (x & w1 & _ & H).
    destruct (negb (x =? 0)).
    + apply ret_inv in H. destruct H as [H _]. discriminate H.
    + apply bind_inv in H. destruct H as ([x2 data] & w2 & _ & H).
      exact (IH _ _ _ _ _ _ (proj2 (u32_range (b + 1))) H).
Qed.

(** X9. The loop counter of [disk_read] and [disk_write] has 32 bits and
    the bound 64: when [block_number + count] is 2^32 or more the counter
    wraps before it reaches the bound, so neither function ever returns 0,
    whatever the card does and however long the polls may take: they return
    -1 on a driver that is not initialised, 1 at a refused command, or do
    not return. *)
Theorem block_loop_counter_wraps (fuel : nat) (buffer : list Z)
        (block_number count : Z) (w w' : world D) :
  2 ^ 32 <= block_number + count < 2 ^ 63 ->
  disk_write fuel buffer block_number count w <> Ok 0 w' /\
  forall buffer', disk_read fuel buffer block_number count w <> Ok (0, buffer') w'.
Proof.
  intros Hs.
  assert (Hl : s64 (block_number + count) = block_number + count)
    by (apply s64_small; lia).
  split; [|intros buffer']; intros H.
  - unfold disk_write in H. rewrite Hl in H.
    apply bind_inv in H. destruct H as (i & w0 & _ & H).
    destruct (i =? 0).
    + apply ret_inv in H. destruct H as [H _]. discriminate H.
    + exact (disk_write_loop_wraps _ _ _ (proj1 Hs) _ _ _ _
               (proj2 (u32_range block_number)) H).
  - unfold disk_read in H. rewrite Hl in H.
    apply bind_inv in H. destruct H as (i & w0 & _ & H).
    destruct (i =? 0).
    + apply ret_inv in H. destruct H as [H _]. discriminate H.
    + exact (disk_read_loop_wraps _ _ _ (proj1 Hs) _ _ _ _ _ _
               (proj2 (u32_range block_number)) H).
Qed.

End Block_loops.

Lemma disk_write_commands_witness :
  exists r w',
    disk_write 2 (repeat 0xAA 512) 7 1
               (brought_up 0xFF SDCARD_V1 512 reply_block_write) = Ok r w' /\
    (_is_initialized (brought_up 0xFF SDCARD_V1 512 reply_block_write) = 0 ->
     r = -1 /\ w' = brought_up 0xFF SDCARD_V1 512 reply_block_write) /\
    (_is_initialized (brought_up 0xFF SDCARD_V1 512 reply_block_write) <> 0 ->
     same_statics (brought_up 0xFF SDCARD_V1 512 reply_block_write) w' /\
     block_run 24 512 7 1 r (brought_up 0xFF SDCARD_V1 512 reply_block_write) w').
Proof.
  run (@disk_write (list Z) 2 (repeat 0xAA 512) 7 1)
      (brought_up 0xFF SDCARD_V1 512 reply_block_write) E.
  eexists _, _. split; [exact E|].
  assert (H1 : 0 <= 7) by lia. assert (H2 : 0 <= 1) by lia.
  assert (H3 : 7 + 1 < 2 ^ 32) by reflexivity.
  exact (disk_write_commands 2 (repeat 0xAA 512) 7 1 _ _ _ H1 H2 H3 E).
Defined.

Lemma disk_read_commands_witness :
  exists r buffer' w',
    disk_read 2 (repeat 0 512) 7 1
              (brought_up 0xFF SDCARD_V2 1 (reply_cmd 0x04)) = Ok (r, buffer') w' /\
    (_is_initialized (brought_up 0xFF SDCARD_V2 1 (reply_cmd 0x04)) = 0 ->
     r = -1 /\ buffer' = repeat 0 512 /\
     w' = brought_up 0xFF SDCARD_V2 1 (reply_cmd 0x04)) /\
    (_is_initialized (brought_up 0xFF SDCARD_V2 1 (reply_cmd 0x04)) <> 0 ->
     same_statics (brought_up 0xFF SDCARD_V2 1 (reply_cmd 0x04)) w' /\
     block_run 17 1 7 1 r (brought_up 0xFF SDCARD_V2 1 (reply_cmd 0x04)) w').
Proof.
  run (@disk_read (list Z) 2 (repeat 0 512) 7 1)
      (brought_up 0xFF SDCARD_V2 1 (reply_cmd 0x04)) E.
  eexists _, _, _. split; [exact E|].
  assert (H1 : 0 <= 7) by lia. assert (H2 : 0 <= 1) by lia.
  assert (H3 : 7 + 1 < 2 ^ 32) by reflexivity.
  exact (disk_read_commands 2 (repeat 0 512) 7 1 _ _ _ _ H1 H2 H3 E).
Defined.

Lemma block_loop_counter_wraps_witness :
  2 ^ 32 <= (2 ^ 32 - 1) + 1 < 2 ^ 63 /\
  disk_write 3 [] (2 ^ 32 - 1) 1 (brought_up 0xFF SDCARD_V2 1 [])
  <> Ok 0 (brought_up 0xFF SDCARD_V2 1 []) /\
  forall buffer',
    disk_read 3 [] (2 ^ 32 - 1) 1 (brought_up 0xFF SDCARD_V2 1 [])
    <> Ok (0, buffer') (brought_up 0xFF SDCARD_V2 1 []).
Proof.
  assert (H : 2 ^ 32 <= (2 ^ 32 - 1) + 1 < 2 ^ 63)
    by (split; vm_compute; [discriminate | reflexivity]).
  split; [exact H|].
  exact (block_loop_counter_wraps 3 [] (2 ^ 32 - 1) 1 _ _ H).
Defined.

(** ** Single blocks on a scripted card *)

Lemma sees_refl (idle : Z) (s : list Z) (w : world (list Z)) :
  on_script idle s w -> sees [] [] idle s w w.
Proof. intros H. split; [exact H|]. split; reflexivity. Qed.

Lemma sees_trans (t1 t2 c1 c2 : list Z) (idle : Z) (s1 s2 : list Z)
      (w w1 w2 : world (list Z)) :
  sees t1 c1 idle s1 w w1 -> sees t2 c2 idle s2 w1 w2 ->
  sees (t1 ++ t2) (c1 ++ c2) idle s2 w w2.
Proof.
  intros (_ & T1 & C1) (H2 & T2 & C2). split; [exact H2|]. split.
  - rewrite T2, T1, rev_app_distr, app_assoc. reflexivity.
  - rewrite C2, C1, rev_app_distr, app_assoc. reflexivity.
Qed.

Lemma read_write_sees (idle tx b : Z) (s : list Z) (w : world (list Z)) :
  on_script idle (b :: s) w ->
  exists w', _spi_read_write tx w = Ok (u8 b) w' /\ sees [u8 tx] [] idle s w w'.
Proof.
  intros [Hh Hd]. rewrite (scripted_read_write idle tx b s w Hh Hd).
  eexists. split; [reflexivity|]. repeat split. exact Hh.
Qed.

Lemma hal_cs_sees (idle cs : Z) (s : list Z) (w : world (list Z)) :
  on_script idle s w ->
  exists w', hal_cs cs w = Ok tt w' /\ sees [] [cs] idle s w w'.
Proof.
  intros [Hh Hd]. unfold hal_cs. rewrite Hh. eexists. split; [reflexivity|].
  repeat split; assumption.
Qed.

(** One step of a run on a scripted card: the next call is [L], which is
    rewritten away; its [sees] fact is kept as [S]. *)
Ltac scripted L w1 S :=
  let E := fresh "E" in
  destruct L as (w1 & E & S); rewrite (bind_Ok _ _ _ _ _ E); clear E.

Lemma read_bytes_scripted (idle : Z) (s : list Z) (data : list Z) :
  forall w : world (list Z),
    on_script idle (data ++ s) w ->
    exists w', read_bytes (length data) w = Ok (map u8 data) w' /\
               sees (repeat 0xFF (length data)) [] idle s w w'.
Proof.
  induction data as [|b data IH]; intros w Hw; cbn [length read_bytes app map repeat] in *.
  - exists w. split; [reflexivity | exact (sees_refl idle s w Hw)].
  - scripted (read_write_sees idle 0xFF b _ w Hw) w1 S1.
    scripted (IH w1 (proj1 S1)) w2 S2.
    exists w2. split; [reflexivity|].
    exact (sees_trans [u8 0xFF] _ [] [] idle _ _ _ _ _ S1 S2).
Qed.

Lemma wait_start_token_scripted (idle : Z) (s : list Z) (pre : list Z) :
  Forall (fun b => u8 b <> 0xFE) pre ->
  forall (fuel : nat) (w : world (list Z)),
    on_script idle (pre ++ 0xFE :: s) w -> (length pre < fuel)%nat ->
    exists w', wait_start_token fuel w = Ok tt w' /\
               sees (repeat 0xFF (S (length pre))) [] idle s w w'.
Proof.
  induction 1 as [|b pre Hb Hpre IH]; intros fuel w Hw Hf;
    (destruct fuel as [|fuel]; [simpl in Hf; lia|]);
    cbn [wait_start_token app length repeat] in *.
  - scripted (read_write_sees idle 0xFF 0xFE _ w Hw) w1 S1.
    exists w1. split; [reflexivity | exact S1].
  - scripted (read_write_sees idle 0xFF b _ w Hw) w1 S1.
    destruct (Z.eqb_spec (u8 b) 0xFE); [contradiction|].
    destruct (IH fuel w1 (proj1 S1) ltac:(lia)) as (w2 & E2 & S2).
    exists w2. split; [exact E2|].
    exact (sees_trans [u8 0xFF] _ [] [] idle _ _ _ _ _ S1 S2).
Qed.

Lemma read_scripted (idle : Z) (pre data : list Z) (c1 c2 f : Z)
      (rest : list Z) (fuel : nat) (w : world (list Z)) :
  Forall (fun b => u8 b <> 0xFE) pre -> (length pre < fuel)%nat ->
  on_script idle (pre ++ 0xFE :: data ++ c1 :: c2 :: f :: rest) w ->
  exists w',
    _read fuel (Z.of_nat (length data)) w = Ok (0, map u8 data) w' /\
    sees (repeat 0xFF (length pre + 1 + length data + 3)) [1; 0] idle rest w w'.
Proof.
  intros Hpre Hf Hw. unfold _read.
  scripted (hal_cs_sees idle 1 _ w Hw) w1 S1.
  scripted (wait_start_token_scripted idle _ pre Hpre fuel w1 (proj1 S1) Hf) w2 S2.
  rewrite Nat2Z.id.
  scripted (read_bytes_scripted idle (c1 :: c2 :: f :: rest) data w2 (proj1 S2)) w3 S3.
  scripted (read_write_sees idle 0xFF c1 _ w3 (proj1 S3)) w4 S4.
  scripted (read_write_sees idle 0xFF c2 _ w4 (proj1 S4)) w5 S5.
  scripted (hal_cs_sees idle 0 _ w5 (proj1 S5)) w6 S6.
  scripted (read_write_sees idle 0xFF f _ w6 (proj1 S6)) w7 S7.
  exists w7. split; [reflexivity|].
  pose proof (sees_trans _ _ _ _ _ _ _ _ _ _ S1
             (sees_trans _ _ _ _ _ _ _ _ _ _ S2
             (sees_trans _ _ _ _ _ _ _ _ _ _ S3
             (sees_trans _ _ _ _ _ _ _ _ _ _ S4
             (sees_trans _ _ _ _ _ _ _ _ _ _ S5
             (sees_trans _ _ _ _ _ _ _ _ _ _ S6 S7)))))) as St.
  cbn [app] in St. change (u8 0xFF) with 0xFF in St.
  replace (repeat 255 (length pre + 1 + length data + 3))
    with (255 :: repeat 255 (length pre) ++ repeat 255 (length data) ++ [255; 255; 255]).
  - exact St.
  - replace (length pre + 1 + length data + 3)%nat
      with (S (length pre) + (length data + 3))%nat by lia.
    rewrite !repeat_app. reflexivity.
Qed.

Lemma skipn_nth_error {A} (l : list A) :
  forall (i : nat) (b : A),
    nth_error l i = Some b -> skipn i l = b :: skipn (S i) l.
Proof.
  induction l as [|a l IH]; intros [|i] b H; try discriminate.
  - inversion H. reflexivity.
  - cbn [nth_error] in H. rewrite (skipn_cons i a l). rewrite (IH i b H).
    reflexivity.
Qed.

Lemma write_bytes_sees (idle : Z) (buffer s echo : list Z) :
  forall (i : nat) (w : world (list Z)),
    (i + length echo <= length buffer)%nat ->
    on_script idle (echo ++ s) w ->
    exists w', write_bytes (length echo) buffer i w = Ok tt w' /\
               sees (map u8 (firstn (length echo) (skipn i buffer))) [] idle s w w'.
Proof.
  induction echo as [|x echo IH]; intros i w Hlen Hw;
    cbn [write_bytes length app firstn map] in *.
  - exists w. split; [reflexivity | exact (sees_refl idle s w Hw)].
  - destruct (nth_error buffer i) as [b|] eqn:Eb.
    2:{ apply nth_error_None in Eb. lia. }
    unfold bind at 1. cbn [lift_option ret].
    scripted (read_write_sees idle b x _ w Hw) w1 S1.
    destruct (IH (S i) w1 ltac:(lia) (proj1 S1)) as (w2 & E2 & S2).
    exists w2. split; [exact E2|].
    rewrite (skipn_nth_error buffer i b Eb). cbn [firstn map].
    exact (sees_trans [u8 b] _ [] [] idle _ _ _ _ _ S1 S2).
Qed.

Lemma wait_not_busy_scripted (idle nz : Z) (s : list Z) (q : nat) :
  u8 nz <> 0 ->
  forall (fuel : nat) (w : world (list Z)),
    on_script idle (repeat 0 q ++ nz :: s) w -> (q < fuel)%nat ->
    exists w', wait_not_busy fuel w = Ok tt w' /\
               sees (repeat 0xFF (S q)) [] idle s w w'.
Proof.
  intros Hnz. induction q as [|q IH]; intros fuel w Hw Hf;
    (destruct fuel as [|fuel]; [lia|]);
    cbn [wait_not_busy app repeat] in *.
  - scripted (read_write_sees idle 0xFF nz _ w Hw) w1 S1.
    destruct (Z.eqb_spec (u8 nz) 0); [contradiction|].
    exists w1. split; [reflexivity | exact S1].
  - scripted (read_write_sees idle 0xFF 0 _ w Hw) w1 S1.
    change (u8 0 =? 0) with true. cbv iota.
    destruct (IH fuel w1 (proj1 S1) ltac:(lia)) as (w2 & E2 & S2).
    exists w2. split; [exact E2|].
    exact (sees_trans [u8 0xFF] _ [] [] idle _ _ _ _ _ S1 S2).
Qed.

(** The part of [_write] up to the data-response token: select, the start
    token 0xFE, the block, two checksum fillers, then the token is read. *)
Lemma write_head_scripted (idle : Z) (buffer echo : list Z) (n : nat) (token : Z)
      (tail : list Z) (k : Z -> M (list Z) Z) (w : world (list Z)) :
  (n <= length buffer)%nat -> length echo = (n + 3)%nat ->
  on_script idle (echo ++ token :: tail) w ->
  exists w1,
    sees (0xFE :: map u8 (firstn n buffer) ++ [0xFF; 0xFF; 0xFF]) [1] idle tail w w1 /\
    bind (hal_cs 1) (fun _ =>
    bind (_spi_read_write 0xFE) (fun _ =>
    bind (write_bytes n buffer 0) (fun _ =>
    bind (_spi_read_write 0xFF) (fun _ =>
    bind (_spi_read_write 0xFF) (fun _ =>
    bind (_spi_read_write 0xFF) k))))) w
    = k (u8 token) w1.
Proof.
  intros Hn He Hw.
  destruct echo as [|e0 echo]; [simpl in He; lia|].
  assert (Hsplit : exists mid c1 c2, echo = mid ++ [c1; c2] /\ length mid = n).
  { exists (firstn n echo). simpl in He.
    assert (Hl : length (skipn n echo) = 2%nat) by (rewrite length_skipn; lia).
    destruct (skipn n echo) as [|c1 [|c2 [|c3 l]]] eqn:Es; try discriminate.
    exists c1, c2. split.
    - rewrite <- Es. symmetry. apply firstn_skipn.
    - rewrite length_firstn. lia. }
  destruct Hsplit as (mid & c1 & c2 & -> & Hm). subst n.
  scripted (hal_cs_sees idle 1 _ w Hw) w1 S1.
  pose proof (proj1 S1) as Hw1. cbn [app] in Hw1.
  scripted (read_write_sees idle 0xFE e0 _ w1 Hw1) w2 S2.
  pose proof (proj1 S2) as Hw2. rewrite <- app_assoc in Hw2.
  scripted (write_bytes_sees idle buffer _ mid 0 w2 ltac:(simpl; lia) Hw2) w3 S3.
  cbn [app skipn] in S3.
  scripted (read_write_sees idle 0xFF c1 _ w3 (proj1 S3)) w4 S4.
  scripted (read_write_sees idle 0xFF c2 _ w4 (proj1 S4)) w5 S5.
  scripted (read_write_sees idle 0xFF token _ w5 (proj1 S5)) w6 S6.
  exists w6. split; [|reflexivity].
  pose proof (sees_trans _ _ _ _ _ _ _ _ _ _ S1
             (sees_trans _ _ _ _ _ _ _ _ _ _ S2
             (sees_trans _ _ _ _ _ _ _ _ _ _ S3
             (sees_trans _ _ _ _ _ _ _ _ _ _ S4
             (sees_trans _ _ _ _ _ _ _ _ _ _ S5 S6))))) as St.
  cbn [app] in St.
  change (u8 0xFF) with 0xFF in St. change (u8 0xFE) with 0xFE in St. exact St.
Qed.

Lemma write_rejected_scripted (idle : Z) (buffer echo : list Z) (n : nat)
      (token f : Z) (rest : list Z) (fuel : nat) (w : world (list Z)) :
  (n <= length buffer)%nat -> length echo = (n + 3)%nat ->
  Z.land (u8 token) 0x1F <> 0x05 ->
  on_script idle (echo ++ token :: f :: rest) w ->
  exists w',
    _write fuel buffer (Z.of_nat n) w = Ok 1 w' /\
    sees (0xFE :: map u8 (firstn n buffer) ++ [0xFF; 0xFF; 0xFF; 0xFF]) [1; 0]
         idle rest w w'.
Proof.
  intros Hn He Htok Hw. unfold _write. rewrite Nat2Z.id.
  destruct (write_head_scripted idle buffer echo n token (f :: rest)
              (fun token =>
                 if negb (Z.land token 0x1F =? 0x05)
                 then bind (hal_cs 0) (fun _ =>
                      bind (_spi_read_write 0xFF) (fun _ => ret 1))
                 else bind (wait_not_busy fuel) (fun _ =>
                      bind (hal_cs 0) (fun _ =>
                      bind (_spi_read_write 0xFF) (fun _ => ret 0))))
              w Hn He Hw)
    as (w1 & S1 & E).
  rewrite E. clear E.
  destruct (Z.eqb_spec (Z.land (u8 token) 0x1F) 0x05); [contradiction|].
  cbv [negb].
  scripted (hal_cs_sees idle 0 _ w1 (proj1 S1)) w2 S2.
  scripted (read_write_sees idle 0xFF f _ w2 (proj1 S2)) w3 S3.
  exists w3. split; [reflexivity|].
  pose proof (sees_trans _ _ _ _ _ _ _ _ _ _ S1
             (sees_trans _ _ _ _ _ _ _ _ _ _ S2 S3)) as St.
  cbn [app] in St. rewrite <- app_assoc in St. exact St.
Qed.

Lemma write_accepted_scripted (idle : Z) (buffer echo : list Z) (n : nat)
      (token nz f : Z) (q : nat) (rest : list Z) (fuel : nat)
      (w : world (list Z)) :
  (n <= length buffer)%nat -> length echo = (n + 3)%nat ->
  Z.land (u8 token) 0x1F = 0x05 -> u8 nz <> 0 -> (q < fuel)%nat ->
  on_script idle (echo ++ token :: repeat 0 q ++ nz :: f :: rest) w ->
  exists w',
    _write fuel buffer (Z.of_nat n) w = Ok 0 w' /\
    sees (0xFE :: map u8 (firstn n buffer) ++ repeat 0xFF (3 + (q + 1) + 1)) [1; 0]
         idle rest w w'.
Proof.
  intros Hn He Htok Hnz Hf Hw. unfold _write. rewrite Nat2Z.id.
  destruct (write_head_scripted idle buffer echo n token
              (repeat 0 q ++ nz :: f :: rest)
              (fun token =>
                 if negb (Z.land token 0x1F =? 0x05)
                 then bind (hal_cs 0) (fun _ =>
                      bind (_spi_read_write 0xFF) (fun _ => ret 1))
                 else bind (wait_not_busy fuel) (fun _ =>
                      bind (hal_cs 0) (fun _ =>
                      bind (_spi_read_write 0xFF) (fun _ => ret 0))))
              w Hn He Hw)
    as (w1 & S1 & E).
  rewrite E. clear E. rewrite Htok. cbv [negb Z.eqb Pos.eqb].
  scripted (wait_not_busy_scripted idle nz (f :: rest) q Hnz fuel w1 (proj1 S1) Hf)
           w2 S2.
  scripted (hal_cs_sees idle 0 _ w2 (proj1 S2)) w3 S3.
  scripted (read_write_sees idle 0xFF f _ w3 (proj1 S3)) w4 S4.
  exists w4. split; [reflexivity|].
  pose proof (sees_trans _ _ _ _ _ _ _ _ _ _ S1
             (sees_trans _ _ _ _ _ _ _ _ _ _ S2
             (sees_trans _ _ _ _ _ _ _ _ _ _ S3 S4))) as St.
  cbn [app] in St. rewrite <- app_assoc in St. change (u8 0xFF) with 0xFF in St.
  replace (repeat 255 (3 + (q + 1) + 1))
    with ([255; 255; 255] ++ repeat 255 (S q) ++ [255]).
  - exact St.
  - replace (3 + (q + 1) + 1)%nat with (3 + (S q + 1))%nat by lia.
    rewrite !repeat_app. reflexivity.
Qed.

(** *** The log of a single block, event by event *)

Lemma plays_refl (idle : Z) (s : list Z) (w : world (list Z)) :
  on_script idle s w -> plays [] idle s w w.
Proof. intros H. split; [exact H | reflexivity]. Qed.

Lemma plays_trans (e1 e2 : list event) (idle : Z) (s1 s2 : list Z)
      (w w1 w2 : world (list Z)) :
  plays e1 idle s1 w w1 -> plays e2 idle s2 w1 w2 ->
  plays (e1 ++ e2) idle s2 w w2.
Proof.
  intros (_ & T1) (H2 & T2). split; [exact H2|].
  rewrite T2, T1, rev_app_distr, app_assoc. reflexivity.
Qed.

Lemma read_write_plays (idle tx b : Z) (s : list Z) (w : world (list Z)) :
  on_script idle (b :: s) w ->
  exists w', _spi_read_write tx w = Ok (u8 b) w' /\
             plays [EvTransfer (u8 tx) (u8 b)] idle s w w'.
Proof.
  intros [Hh Hd]. rewrite (scripted_read_write idle tx b s w Hh Hd).
  eexists. split; [reflexivity|]. repeat split. exact Hh.
Qed.

Lemma hal_cs_plays (idle cs : Z) (s : list Z) (w : world (list Z)) :
  on_script idle s w ->
  exists w', hal_cs cs w = Ok tt w' /\ plays [EvCS cs] idle s w w'.
Proof.
  intros [Hh Hd]. unfold hal_cs. rewrite Hh. eexists. split; [reflexivity|].
  repeat split; assumption.
Qed.

Lemma read_bytes_plays (idle : Z) (s : list Z) (data : list Z) :
  forall w : world (list Z),
    on_script idle (data ++ s) w ->
    exists w', read_bytes (length data) w = Ok (map u8 data) w' /\
               plays (fillers (map u8 data)) idle s w w'.
Proof.
  induction data as [|b data IH]; intros w Hw;
    cbn [length read_bytes app map fillers] in *.
  - exists w. split; [reflexivity | exact (plays_refl idle s w Hw)].
  - scripted (read_write_plays idle 0xFF b _ w Hw) w1 S1.
    scripted (IH w1 (proj1 S1)) w2 S2.
    exists w2. split; [reflexivity|].
    exact (plays_trans [_] _ idle _ _ _ _ _ S1 S2).
Qed.

Lemma wait_start_token_plays (idle : Z) (s : list Z) (pre : list Z) :
  Forall (fun b => u8 b <> 0xFE) pre ->
  forall (fuel : nat) (w : world (list Z)),
    on_script idle (pre ++ 0xFE :: s) w -> (length pre < fuel)%nat ->
    exists w', wait_start_token fuel w = Ok tt w' /\
               plays (fillers (map u8 pre) ++ [EvTransfer 0xFF 0xFE]) idle s w w'.
Proof.
  induction 1 as [|b pre Hb Hpre IH]; intros fuel w Hw Hf;
    (destruct fuel as [|fuel]; [simpl in Hf; lia|]);
    cbn [wait_start_token app length map fillers] in *.
  - scripted (read_write_plays idle 0xFF 0xFE _ w Hw) w1 S1.
    exists w1. split; [reflexivity | exact S1].
  - scripted (read_write_plays idle 0xFF b _ w Hw) w1 S1.
    destruct (Z.eqb_spec (u8 b) 0xFE); [contradiction|].
    destruct (IH fuel w1 (proj1 S1) ltac:(simpl in Hf; lia)) as (w2 & E2 & S2).
    exists w2. split; [exact E2|].
    exact (plays_trans [_] _ idle _ _ _ _ _ S1 S2).
Qed.

Lemma write_bytes_plays (idle : Z) (buffer s echo : list Z) :
  forall (i : nat) (w : world (list Z)),
    (i + length echo <= length buffer)%nat ->
    on_script idle (echo ++ s) w ->
    exists w', write_bytes (length echo) buffer i w = Ok tt w' /\
               plays (sent_for (map u8 (firstn (length echo) (skipn i buffer)))
                               (map u8 echo)) idle s w w'.
Proof.
  induction echo as [|x echo IH]; intros i w Hlen Hw;
    cbn [write_bytes length app firstn map] in *.
  - exists w. split; [reflexivity | exact (plays_refl idle s w Hw)].
  - destruct (nth_error buffer i) as [b|] eqn:Eb.
    2:{ apply nth_error_None in Eb. lia. }
    unfold bind at 1. cbn [lift_option ret].
    scripted (read_write_plays idle b x _ w Hw) w1 S1.
    destruct (IH (S i) w1 ltac:(lia) (proj1 S1)) as (w2 & E2 & S2).
    exists w2. split; [exact E2|].
    rewrite (skipn_nth_error buffer i b Eb). cbn [firstn map].
    exact (plays_trans [_] _ idle _ _ _ _ _ S1 S2).
Qed.

Lemma wait_not_busy_plays (idle nz : Z) (s : list Z) (q : nat) :
  u8 nz <> 0 ->
  forall (fuel : nat) (w : world (list Z)),
    on_script idle (repeat 0 q ++ nz :: s) w -> (q < fuel)%nat ->
    exists w', wait_not_busy fuel w = Ok tt w' /\
               plays (fillers (repeat 0 q) ++ [EvTransfer 0xFF (u8 nz)]) idle s w w'.
Proof.
  intros Hnz. induction q as [|q IH]; intros fuel w Hw Hf;
    (destruct fuel as [|fuel]; [lia|]);
    cbn [wait_not_busy app repeat map fillers] in *.
  - scripted (read_write_plays idle 0xFF nz _ w Hw) w1 S1.
    destruct (Z.eqb_spec (u8 nz) 0); [contradiction|].
    exists w1. split; [reflexivity | exact S1].
  - scripted (read_write_plays idle 0xFF 0 _ w Hw) w1 S1.
    change (u8 0 =? 0) with true. cbv iota.
    destruct (IH fuel w1 (proj1 S1) ltac:(lia)) as (w2 & E2 & S2).
    exists w2. split; [exact E2|].
    exact (plays_trans [_] _ idle _ _ _ _ _ S1 S2).
Qed.

Lemma sent_for_app (t1 t2 r1 r2 : list Z) :
  length t1 = length r1 ->
  sent_for (t1 ++ t2) (r1 ++ r2) = sent_for t1 r1 ++ sent_for t2 r2.
Proof.
  revert r1. induction t1 as [|a t1 IH]; intros [|b r1] H; try discriminate H.
  - reflexivity.
  - cbn [app]. unfold sent_for in *. cbn [combine map app]. f_equal.
    apply IH. simpl in H. lia.
Qed.

(** [_write] up to the data-response token, event by event. *)
Lemma write_head_plays (idle : Z) (buffer echo : list Z) (n : nat) (token : Z)
      (tail : list Z) (k : Z -> M (list Z) Z) (w : world (list Z)) :
  (n <= length buffer)%nat -> length echo = (n + 3)%nat ->
  on_script idle (echo ++ token :: tail) w ->
  exists w1,
    plays (EvCS 1 ::
           sent_for (0xFE :: map u8 (firstn n buffer) ++ [0xFF; 0xFF; 0xFF])
                    (map u8 (echo ++ [token])))
          idle tail w w1 /\
    bind (hal_cs 1) (fun _ =>
    bind (_spi_read_write 0xFE) (fun _ =>
    bind (write_bytes n buffer 0) (fun _ =>
    bind (_spi_read_write 0xFF) (fun _ =>
    bind (_spi_read_write 0xFF) (fun _ =>
    bind (_spi_read_write 0xFF) k))))) w
    = k (u8 token) w1.
Proof.
  intros Hn He Hw.
  destruct echo as [|e0 echo]; [simpl in He; lia|].
  assert (Hsplit : exists mid c1 c2, echo = mid ++ [c1; c2] /\ length mid = n).
  { exists (firstn n echo). simpl in He.
    assert (Hl : length (skipn n echo) = 2%nat) by (rewrite length_skipn; lia).
    destruct (skipn n echo) as [|c1 [|c2 [|c3 l]]] eqn:Es; try discriminate.
    exists c1, c2. split.
    - rewrite <- Es. symmetry. apply firstn_skipn.
    - rewrite length_firstn. lia. }
  destruct Hsplit as (mid & c1 & c2 & -> & Hm). subst n.
  scripted (hal_cs_plays idle 1 _ w Hw) w1 S1.
  pose proof (proj1 S1) as Hw1. cbn [app] in Hw1.
  scripted (read_write_plays idle 0xFE e0 _ w1 Hw1) w2 S2.
  pose proof (proj1 S2) as Hw2. rewrite <- app_assoc in Hw2.
  scripted (write_bytes_plays idle buffer _ mid 0 w2 ltac:(simpl; lia) Hw2) w3 S3.
  cbn [app] in S3. rewrite skipn_O in S3.
  scripted (read_write_plays idle 0xFF c1 _ w3 (proj1 S3)) w4 S4.
  scripted (read_write_plays idle 0xFF c2 _ w4 (proj1 S4)) w5 S5.
  scripted (read_write_plays idle 0xFF token _ w5 (proj1 S5)) w6 S6.
  exists w6. split; [|reflexivity].
  pose proof (plays_trans _ _ _ _ _ _ _ _ S1
             (plays_trans _ _ _ _ _ _ _ _ S2
             (plays_trans _ _ _ _ _ _ _ _ S3
             (plays_trans _ _ _ _ _ _ _ _ S4
             (plays_trans _ _ _ _ _ _ _ _ S5 S6))))) as St.
  cbn [app] in St.
  change (u8 0xFF) with 0xFF in St. change (u8 0xFE) with 0xFE in St.
  replace (sent_for (0xFE :: map u8 (firstn (length mid) buffer) ++ [0xFF; 0xFF; 0xFF])
                    (map u8 ((e0 :: mid ++ [c1; c2]) ++ [token])))
    with (EvTransfer 0xFE (u8 e0) ::
          sent_for (map u8 (firstn (length mid) buffer)) (map u8 mid) ++
          [EvTransfer 0xFF (u8 c1); EvTransfer 0xFF (u8 c2);
           EvTransfer 0xFF (u8 token)]).
  - exact St.
  - cbn [app map]. rewrite <- app_assoc. cbn [app]. rewrite map_app.
    change (sent_for (?a :: ?t) (?b :: ?r)) with (EvTransfer a b :: sent_for t r).
    f_equal. rewrite sent_for_app.
    + reflexivity.
    + rewrite !length_map, length_firstn. lia.
Qed.

(** X4. On a card that sends the start token 0xFE after [pre] other bytes,
    [_read] with more poll fuel than [pre] is long returns 0 and exactly the
    [length] bytes that follow the token, in order.  The log, oldest event
    first, is: select asserted, one filler per byte of [pre], the filler
    that fetched the token, one filler per data byte, two fillers for the
    checksum, select released, and one last filler; every byte sent is
    0xFF and nothing else happens on the bus. *)
Theorem read_block_scripted (idle : Z) (pre data : list Z) (c1 c2 f : Z)
        (rest : list Z) (fuel : nat) :
  Forall (fun b => u8 b <> 0xFE) pre -> (length pre < fuel)%nat ->
  exists w',
    _read fuel (Z.of_nat (length data))
          (attached idle (pre ++ 0xFE :: data ++ c1 :: c2 :: f :: rest))
    = Ok (0, map u8 data) w' /\
    dev w' = rest /\
    rev (trace w') =
      EvCS 1 :: fillers (map u8 pre) ++ EvTransfer 0xFF 0xFE ::
      fillers (map u8 data) ++
      [EvTransfer 0xFF (u8 c1); EvTransfer 0xFF (u8 c2); EvCS 0;
       EvTransfer 0xFF (u8 f)].
Proof.
  intros Hpre Hf. unfold _read.
  pose proof (on_script_attached idle
                (pre ++ 0xFE :: data ++ c1 :: c2 :: f :: rest)) as Hw.
  scripted (hal_cs_plays idle 1 _ _ Hw) w1 S1.
  scripted (wait_start_token_plays idle _ pre Hpre fuel w1 (proj1 S1) Hf) w2 S2.
  rewrite Nat2Z.id.
  scripted (read_bytes_plays idle (c1 :: c2 :: f :: rest) data w2 (proj1 S2)) w3 S3.
  scripted (read_write_plays idle 0xFF c1 _ w3 (proj1 S3)) w4 S4.
  scripted (read_write_plays idle 0xFF c2 _ w4 (proj1 S4)) w5 S5.
  scripted (hal_cs_plays idle 0 _ w5 (proj1 S5)) w6 S6.
  scripted (read_write_plays idle 0xFF f _ w6 (proj1 S6)) w7 S7.
  exists w7. split; [reflexivity|].
  pose proof (plays_trans _ _ _ _ _ _ _ _ S1
             (plays_trans _ _ _ _ _ _ _ _ S2
             (plays_trans _ _ _ _ _ _ _ _ S3
             (plays_trans _ _ _ _ _ _ _ _ S4
             (plays_trans _ _ _ _ _ _ _ _ S5
             (plays_trans _ _ _ _ _ _ _ _ S6 S7)))))) as (Hs & T).
  split; [exact (proj2 Hs)|].
  rewrite T. cbn [attached trace]. rewrite app_nil_r, rev_involutive.
  cbn [app]. rewrite <- app_assoc. reflexivity.
Qed.

Lemma read_block_scripted_witness :
  exists w',
    _read 3 4 (attached 0xFF ([0xFF; 0xFF] ++ 0xFE :: [1; 2; 3; 4] ++
                              0xAB :: 0xCD :: 0xFF :: [0x55]))
    = Ok (0, [1; 2; 3; 4]) w' /\
    dev w' = [0x55] /\
    rev (trace w') =
      [EvCS 1; EvTransfer 0xFF 0xFF; EvTransfer 0xFF 0xFF; EvTransfer 0xFF 0xFE;
       EvTransfer 0xFF 1; EvTransfer 0xFF 2; EvTransfer 0xFF 3; EvTransfer 0xFF 4;
       EvTransfer 0xFF 0xAB; EvTransfer 0xFF 0xCD; EvCS 0; EvTransfer 0xFF 0xFF].
Proof.
  apply (read_block_scripted 0xFF [0xFF; 0xFF] [1; 2; 3; 4] 0xAB 0xCD 0xFF [0x55] 3).
  - repeat constructor; discriminate.
  - repeat constructor.
Defined.

(** X5. When the data-response token of the card is not "accepted" (its low
    five bits are not 00101), [_write] returns 1 whatever the poll fuel.
    The log, oldest event first, is: select asserted, the start token 0xFE,
    the first [length] bytes of the buffer, two checksum fillers, the filler
    that fetched the token, select released, and one last filler; there is
    no wait for the card in between. *)
Theorem write_block_rejected (idle : Z) (buffer echo : list Z) (n : nat)
        (token f : Z) (rest : list Z) (fuel : nat) :
  (n <= length buffer)%nat -> length echo = (n + 3)%nat ->
  Z.land (u8 token) 0x1F <> 0x05 ->
  exists w',
    _write fuel buffer (Z.of_nat n) (attached idle (echo ++ token :: f :: rest))
    = Ok 1 w' /\
    dev w' = rest /\
    rev (trace w') =
      EvCS 1 ::
      sent_for (0xFE :: map u8 (firstn n buffer) ++ [0xFF; 0xFF; 0xFF])
               (map u8 (echo ++ [token])) ++
      [EvCS 0; EvTransfer 0xFF (u8 f)].
Proof.
  intros Hn He Htok. unfold _write. rewrite Nat2Z.id.
  destruct (write_head_plays idle buffer echo n token (f :: rest)
              (fun token =>
                 if negb (Z.land token 0x1F =? 0x05)
                 then bind (hal_cs 0) (fun _ =>
                      bind (_spi_read_write 0xFF) (fun _ => ret 1))
                 else bind (wait_not_busy fuel) (fun _ =>
                      bind (hal_cs 0) (fun _ =>
                      bind (_spi_read_write 0xFF) (fun _ => ret 0))))
              _ Hn He (on_script_attached idle _))
    as (w1 & S1 & E).
  rewrite E. clear E.
  destruct (Z.eqb_spec (Z.land (u8 token) 0x1F) 0x05); [contradiction|].
  cbv [negb].
  scripted (hal_cs_plays idle 0 _ w1 (proj1 S1)) w2 S2.
  scripted (read_write_plays idle 0xFF f _ w2 (proj1 S2)) w3 S3.
  exists w3. split; [reflexivity|].
  pose proof (plays_trans _ _ _ _ _ _ _ _ S1
             (plays_trans _ _ _ _ _ _ _ _ S2 S3)) as (Hs & T).
  split; [exact (proj2 Hs)|].
  rewrite T. cbn [attached trace]. rewrite app_nil_r, rev_involutive.
  reflexivity.
Qed.

Lemma write_block_rejected_witness :
  exists w',
    _write 0 [0x11; 0x22; 0x33] 2
           (attached 0xFF ([0xFF; 0xFF; 0xFF; 0xFF; 0xFF] ++ 0x0B :: 0xFF :: [0x77]))
    = Ok 1 w' /\
    dev w' = [0x77] /\
    rev (trace w') =
      [EvCS 1; EvTransfer 0xFE 0xFF; EvTransfer 0x11 0xFF; EvTransfer 0x22 0xFF;
       EvTransfer 0xFF 0xFF; EvTransfer 0xFF 0xFF; EvTransfer 0xFF 0x0B;
       EvCS 0; EvTransfer 0xFF 0xFF].
Proof.
  apply (write_block_rejected 0xFF [0x11; 0x22; 0x33] [0xFF; 0xFF; 0xFF; 0xFF; 0xFF]
           2 0x0B 0xFF [0x77] 0).
  - repeat constructor.
  - reflexivity.
  - discriminate.
Defined.

(** X6. When the token says "accepted", [_write] polls while the card
    answers 0 (busy); when the first non-zero byte comes after [q] zero
    bytes and the poll fuel exceeds [q], it returns 0.  The log, oldest
    event first, is: select asserted, the start token 0xFE, the first
    [length] bytes of the buffer, two checksum fillers, the filler that
    fetched the token, [q] fillers answered 0, the filler answered with the
    non-zero byte, and only then select released and one last filler. *)
Theorem write_block_accepted (idle : Z) (buffer echo : list Z) (n : nat)
        (token nz f : Z) (q : nat) (rest : list Z) (fuel : nat) :
  (n <= length buffer)%nat -> length echo = (n + 3)%nat ->
  Z.land (u8 token) 0x1F = 0x05 -> u8 nz <> 0 -> (q < fuel)%nat ->
  exists w',
    _write fuel buffer (Z.of_nat n)
           (attached idle (echo ++ token :: repeat 0 q ++ nz :: f :: rest))
    = Ok 0 w' /\
    dev w' = rest /\
    rev (trace w') =
      EvCS 1 ::
      sent_for (0xFE :: map u8 (firstn n buffer) ++ [0xFF; 0xFF; 0xFF])
               (map u8 (echo ++ [token])) ++
      fillers (repeat 0 q) ++
      [EvTransfer 0xFF (u8 nz); EvCS 0; EvTransfer 0xFF (u8 f)].
Proof.
  intros Hn He Htok Hnz Hf. unfold _write. rewrite Nat2Z.id.
  destruct (write_head_plays idle buffer echo n token
              (repeat 0 q ++ nz :: f :: rest)
              (fun token =>
                 if negb (Z.land token 0x1F =? 0x05)
                 then bind (hal_cs 0) (fun _ =>
                      bind (_spi_read_write 0xFF) (fun _ => ret 1))
                 else bind (wait_not_busy fuel) (fun _ =>
                      bind (hal_cs 0) (fun _ =>
                      bind (_spi_read_write 0xFF) (fun _ => ret 0))))
              _ Hn He (on_script_attached idle _))
    as (w1 & S1 & E).
  rewrite E. clear E. rewrite Htok. cbv [negb Z.eqb Pos.eqb].
  scripted (wait_not_busy_plays idle nz (f :: rest) q Hnz fuel w1 (proj1 S1) Hf)
           w2 S2.
  scripted (hal_cs_plays idle 0 _ w2 (proj1 S2)) w3 S3.
  scripted (read_write_plays idle 0xFF f _ w3 (proj1 S3)) w4 S4.
  exists w4. split; [reflexivity|].
  pose proof (plays_trans _ _ _ _ _ _ _ _ S1
             (plays_trans _ _ _ _ _ _ _ _ S2
             (plays_trans _ _ _ _ _ _ _ _ S3 S4))) as (Hs & T).
  split; [exact (proj2 Hs)|].
  rewrite T. cbn [attached trace]. rewrite app_nil_r, rev_involutive.
  cbn [app]. rewrite <- !app_assoc. reflexivity.
Qed.

Lemma write_block_accepted_witness :
  exists w',
    _write 3 [0x11; 0x22; 0x33] 2
           (attached 0xFF ([0xFF; 0xFF; 0xFF; 0xFF; 0xFF] ++
                           0xE5 :: repeat 0 2 ++ 0x01 :: 0xFF :: [0x77]))
    = Ok 0 w' /\
    dev w' = [0x77] /\
    rev (trace w') =
      [EvCS 1; EvTransfer 0xFE 0xFF; EvTransfer 0x11 0xFF; EvTransfer 0x22 0xFF;
       EvTransfer 0xFF 0xFF; EvTransfer 0xFF 0xFF; EvTransfer 0xFF 0xE5;
       EvTransfer 0xFF 0; EvTransfer 0xFF 0; EvTransfer 0xFF 0x01;
       EvCS 0; EvTransfer 0xFF 0xFF].
Proof.
  apply (write_block_accepted 0xFF [0x11; 0x22; 0x33] [0xFF; 0xFF; 0xFF; 0xFF; 0xFF]
           2 0xE5 0x01 0xFF 2 [0x77] 3).
  - repeat constructor.
  - reflexivity.
  - reflexivity.
  - discriminate.
  - repeat constructor.
Defined.

(** ** Whole block accesses on a scripted card *)

Lemma log_sees (idle : Z) (s : list Z) (e : event) (w : world (list Z)) :
  bus_event e = false -> on_script idle s w -> sees [] [] idle s w (log e w).
Proof.
  intros He Hw. split; [exact Hw|].
  destruct e; try discriminate He; split; reflexivity.
Qed.

Lemma cmd_poll_scripted (idle : Z) (polls : list Z) (r f : Z) (s : list Z) :
  Forall (fun b => high_bit_set (u8 b)) polls -> 0 <= r < 128 ->
  forall (n : nat) (w : world (list Z)),
    on_script idle (polls ++ r :: f :: s) w -> (length polls < n)%nat ->
    exists w', _cmd_poll n w = Ok r w' /\
               sees (repeat 0xFF (length polls + 2)) [0] idle s w w'.
Proof.
  intros Hp Hr. induction Hp as [|b polls Hb Hp IH]; intros n w Hw Hn;
    (destruct n as [|n]; [simpl in Hn; lia|]);
    cbn [_cmd_poll app length repeat Nat.add] in *.
  - scripted (read_write_sees idle 0xFF r _ w Hw) w1 S1.
    rewrite (u8_byte r) by (unfold is_byte; lia).
    rewrite (high_bit_clear r Hr). change (0 =? 0) with true. cbv iota.
    scripted (hal_cs_sees idle 0 _ w1 (proj1 S1)) w2 S2.
    scripted (read_write_sees idle 0xFF f _ w2 (proj1 S2)) w3 S3.
    exists w3. split; [reflexivity|].
    exact (sees_trans _ _ _ _ _ _ _ _ _ _ S1
             (sees_trans _ _ _ _ _ _ _ _ _ _ S2 S3)).
  - scripted (read_write_sees idle 0xFF b _ w Hw) w1 S1.
    destruct (Z.eqb_spec (Z.land (u8 b) 0x80) 0) as [Hz|_]; [contradiction|].
    destruct (IH n w1 (proj1 S1) ltac:(lia)) as (w2 & E2 & S2).
    exists w2. split; [exact E2|].
    exact (sees_trans [u8 0xFF] _ [] _ _ _ _ _ _ _ S1 S2).
Qed.

Lemma cmd_scripted (idle cmd arg : Z) (fr polls : list Z) (r f : Z)
      (s : list Z) (w : world (list Z)) :
  length fr = 6%nat -> Forall (fun b => high_bit_set (u8 b)) polls ->
  0 <= r < 128 -> (length polls < SD_COMMAND_TIMEOUT)%nat ->
  on_script idle (fr ++ polls ++ r :: f :: s) w ->
  exists w', _cmd cmd arg w = Ok r w' /\
             sees (frame_bytes cmd arg ++ repeat 0xFF (length polls + 2)) [1; 0]
                  idle s w w'.
Proof.
  intros Hfr Hp Hr Hn Hw.
  destruct fr as [|b0 [|b1 [|b2 [|b3 [|b4 [|b5 [|]]]]]]]; try discriminate Hfr.
  cbn [app] in Hw. unfold _cmd.
  rewrite (bind_Ok (modify (log (EvCommand cmd arg))) _ w _ tt eq_refl).
  pose proof (log_sees idle _ (EvCommand cmd arg) w eq_refl Hw) as S0.
  scripted (hal_cs_sees idle 1 _ _ (proj1 S0)) w1 S1.
  scripted (read_write_sees idle (Z.lor 0x40 cmd) b0 _ w1 (proj1 S1)) w2 S2.
  scripted (read_write_sees idle (Z.shiftr arg 24) b1 _ w2 (proj1 S2)) w3 S3.
  scripted (read_write_sees idle (Z.shiftr arg 16) b2 _ w3 (proj1 S3)) w4 S4.
  scripted (read_write_sees idle (Z.shiftr arg 8) b3 _ w4 (proj1 S4)) w5 S5.
  scripted (read_write_sees idle (Z.shiftr arg 0) b4 _ w5 (proj1 S5)) w6 S6.
  scripted (read_write_sees idle 0x95 b5 _ w6 (proj1 S6)) w7 S7.
  scripted (cmd_poll_scripted idle polls r f s Hp Hr SD_COMMAND_TIMEOUT w7
              (proj1 S7) Hn) w8 S8.
  rewrite (bind_Ok (modify (log (EvResponse cmd r))) _ w8 _ tt eq_refl).
  pose proof (log_sees idle _ (EvResponse cmd r) w8 eq_refl (proj1 S8)) as S9.
  eexists. split; [reflexivity|].
  pose proof (sees_trans _ _ _ _ _ _ _ _ _ _ S0
        (sees_trans _ _ _ _ _ _ _ _ _ _ S1
        (sees_trans _ _ _ _ _ _ _ _ _ _ S2
        (sees_trans _ _ _ _ _ _ _ _ _ _ S3
        (sees_trans _ _ _ _ _ _ _ _ _ _ S4
        (sees_trans _ _ _ _ _ _ _ _ _ _ S5
        (sees_trans _ _ _ _ _ _ _ _ _ _ S6
        (sees_trans _ _ _ _ _ _ _ _ _ _ S7
        (sees_trans _ _ _ _ _ _ _ _ _ _ S8 S9))))))))) as St.
  cbn [app] in St. rewrite app_nil_r in St. exact St.
Qed.

Lemma SD_COMMAND_TIMEOUT_gt_1 : (1 < SD_COMMAND_TIMEOUT)%nat.
Proof. apply le_n_S, le_n_S, Nat.le_0_l. Qed.

(** X10. A data block the card turns down is not reported.  On an
    initialised driver, when the card answers CMD24 with 0 and then refuses
    the data (data-response token other than "accepted"), [disk_write] of
    one block returns 0, success, all the same: the value of [_write] is
    dropped.  The bytes sent are the CMD24 frame addressed to block number
    times [_cdv], the polls, and the data phase with the first 512 bytes of
    the buffer. *)
Theorem disk_write_hides_rejected_data (idle b : Z) (buffer fr polls : list Z)
        (f : Z) (echo : list Z) (token f' : Z) (rest : list Z) (fuel : nat)
        (w : world (list Z)) :
  _is_initialized w <> 0 -> 0 <= b < 2 ^ 32 - 1 -> (1 <= fuel)%nat ->
  length fr = 6%nat -> Forall (fun b => high_bit_set (u8 b)) polls ->
  (length polls < SD_COMMAND_TIMEOUT)%nat ->
  (512 <= length buffer)%nat -> length echo = 515%nat ->
  Z.land (u8 token) 0x1F <> 0x05 ->
  on_script idle (fr ++ polls ++ 0 :: f :: echo ++ token :: f' :: rest) w ->
  exists w',
    disk_write fuel buffer b 1 w = Ok 0 w' /\
    sees (frame_bytes 24 (s32 (u32 (b * _cdv w))) ++
          repeat 0xFF (length polls + 2) ++
          0xFE :: map u8 (firstn 512 buffer) ++ [0xFF; 0xFF; 0xFF; 0xFF])
         [1; 0; 1; 0] idle rest w w'.
Proof.
  intros Hi Hb Hf Hfr Hp Hn Hbuf He Htok Hw.
  unfold disk_write.
  rewrite (bind_Ok (get _is_initialized) _ w w _ eq_refl).
  destruct (Z.eqb_spec (_is_initialized w) 0) as [|_]; [contradiction|].
  rewrite (u32_small b) by lia.
  rewrite (s64_small (b + 1))
    by (split; [lia | apply Z.lt_trans with (2 ^ 32); [lia | reflexivity]]).
  destruct fuel as [|n]; [lia|]. cbn [disk_write_loop].
  destruct (Z.ltb_spec b (b + 1)) as [_|]; [|lia].
  rewrite (bind_Ok (get _cdv) _ w w _ eq_refl).
  scripted (cmd_scripted idle 24 (s32 (u32 (b * _cdv w))) fr polls 0 f _ w
              Hfr Hp ltac:(lia) Hn Hw) w1 S1.
  change (negb (0 =? 0)) with false. cbv iota.
  change BLOCK_SIZE with (Z.of_nat 512).
  scripted (write_rejected_scripted idle buffer echo 512 token f' rest (S n) w1
              Hbuf He Htok (proj1 S1)) w2 S2.
  rewrite (u32_small (b + 1)) by lia.
  assert (Hdone : disk_write_loop n (S n) (b + 1) (b + 1)
                    (skipn (Z.to_nat (Z.of_nat 512)) buffer) w2 = Ok 0 w2).
  { destruct n; cbn [disk_write_loop]; rewrite Z.ltb_irrefl; reflexivity. }
  rewrite Hdone. exists w2. split; [reflexivity|].
  pose proof (sees_trans _ _ _ _ _ _ _ _ _ _ S1 S2) as St.
  rewrite <- app_assoc in St. exact St.
Qed.

Lemma disk_write_hides_rejected_data_witness :
  exists w',
    disk_write 1 (repeat 0xAA 512) 7 1
               (brought_up 0xFF SDCARD_V2 1
                  (repeat 0xFF 6 ++ [0xFF] ++ 0 :: 0xFF ::
                   repeat 0xFF 515 ++ 0x0D :: 0xFF :: [0x77])) = Ok 0 w' /\
    sees (frame_bytes 24 7 ++ repeat 0xFF 3 ++
          0xFE :: repeat 0xAA 512 ++ [0xFF; 0xFF; 0xFF; 0xFF])
         [1; 0; 1; 0] 0xFF [0x77]
         (brought_up 0xFF SDCARD_V2 1
            (repeat 0xFF 6 ++ [0xFF] ++ 0 :: 0xFF ::
             repeat 0xFF 515 ++ 0x0D :: 0xFF :: [0x77])) w'.
Proof.
  assert (H1 : _is_initialized
                 (brought_up 0xFF SDCARD_V2 1
                    (repeat 0xFF 6 ++ [0xFF] ++ 0 :: 0xFF ::
                     repeat 0xFF 515 ++ 0x0D :: 0xFF :: [0x77])) <> 0)
    by discriminate.
  assert (H2 : 0 <= 7 < 2 ^ 32 - 1) by (split; [lia | reflexivity]).
  assert (H3 : Forall (fun b => high_bit_set (u8 b)) [0xFF])
    by (repeat constructor; discriminate).
  assert (H4 : Z.land (u8 0x0D) 0x1F <> 0x05) by discriminate.
  exact (disk_write_hides_rejected_data 0xFF 7 (repeat 0xAA 512) (repeat 0xFF 6)
           [0xFF] 0xFF (repeat 0xFF 515) 0x0D 0xFF [0x77] 1 _
           H1 H2 (le_n 1) eq_refl H3 SD_COMMAND_TIMEOUT_gt_1
           (le_n 512) eq_refl H4 (conj eq_refl eq_refl)).
Defined.

Lemma disk_read_scripted (idle b : Z) (buffer fr polls : list Z)
        (f : Z) (pre data : list Z) (c1 c2 f' : Z) (rest : list Z)
        (fuel : nat) (w : world (list Z)) :
  _is_initialized w <> 0 -> 0 <= b < 2 ^ 32 - 1 ->
  length fr = 6%nat -> Forall (fun b => high_bit_set (u8 b)) polls ->
  (length polls < SD_COMMAND_TIMEOUT)%nat ->
  Forall (fun b => u8 b <> 0xFE) pre -> (length pre < fuel)%nat ->
  length data = 512%nat ->
  on_script idle (fr ++ polls ++ 0 :: f ::
                  pre ++ 0xFE :: data ++ c1 :: c2 :: f' :: rest) w ->
  exists w',
    disk_read fuel buffer b 1 w = Ok (0, map u8 data ++ skipn 512 buffer) w' /\
    sees (frame_bytes 17 (s32 (u32 (b * _cdv w))) ++
          repeat 0xFF (length polls + 2) ++
          repeat 0xFF (length pre + 1 + 512 + 3))
         [1; 0; 1; 0] idle rest w w'.
Proof.
  intros Hi Hb Hfr Hp Hn Hpre Hf Hd Hw.
  unfold disk_read.
  rewrite (bind_Ok (get _is_initialized) _ w w _ eq_refl).
  destruct (Z.eqb_spec (_is_initialized w) 0) as [|_]; [contradiction|].
  rewrite (u32_small b) by lia.
  rewrite (s64_small (b + 1))
    by (split; [lia | apply Z.lt_trans with (2 ^ 32); [lia | reflexivity]]).
  destruct fuel as [|n]; [lia|]. cbn [disk_read_loop].
  destruct (Z.ltb_spec b (b + 1)) as [_|]; [|lia].
  rewrite (bind_Ok (get _cdv) _ w w _ eq_refl).
  scripted (cmd_scripted idle 17 (s32 (u32 (b * _cdv w))) fr polls 0 f _ w
              Hfr Hp ltac:(lia) Hn Hw) w1 S1.
  change (negb (0 =? 0)) with false. cbv iota.
  change BLOCK_SIZE with (Z.of_nat 512). rewrite <- Hd.
  scripted (read_scripted idle pre data c1 c2 f' rest (S n) w1 Hpre Hf (proj1 S1))
           w2 S2.
  rewrite (u32_small (b + 1)) by lia.
  assert (Hdone : forall buf pos,
             disk_read_loop n (S n) (b + 1) (b + 1) buf pos w2 = Ok (0, buf) w2).
  { intros buf pos. destruct n; cbn [disk_read_loop]; rewrite Z.ltb_irrefl;
      reflexivity. }
  rewrite Hdone. exists w2. split.
  - unfold splice. cbn [Z.to_nat firstn app Nat.add].
    rewrite length_map. reflexivity.
  - pose proof (sees_trans _ _ _ _ _ _ _ _ _ _ S1 S2) as St.
    rewrite <- app_assoc in St. exact St.
Qed.

(** X11. A block read delivers what the card sent.  On an initialised
    driver, when the card answers CMD17 with 0 and sends the start token
    followed by 512 bytes, [disk_read] of one block returns 0 and the buffer
    with its first 512 bytes replaced by exactly those bytes, the rest
    untouched; the two checksum bytes after the block are taken off the bus
    and not looked at. *)
Theorem disk_read_delivers_block (idle b : Z) (buffer fr polls : list Z)
        (f : Z) (pre data : list Z) (c1 c2 f' : Z) (rest : list Z)
        (fuel : nat) (w : world (list Z)) :
  _is_initialized w <> 0 -> 0 <= b < 2 ^ 32 - 1 ->
  length fr = 6%nat -> Forall (fun b => high_bit_set (u8 b)) polls ->
  (length polls < SD_COMMAND_TIMEOUT)%nat ->
  Forall (fun b => u8 b <> 0xFE) pre -> (length pre < fuel)%nat ->
  length data = 512%nat ->
  on_script idle (fr ++ polls ++ 0 :: f ::
                  pre ++ 0xFE :: data ++ c1 :: c2 :: f' :: rest) w ->
  exists w',
    disk_read fuel buffer b 1 w = Ok (0, map u8 data ++ skipn 512 buffer) w' /\
    sees (frame_bytes 17 (s32 (u32 (b * _cdv w))) ++
          repeat 0xFF (length polls + 2) ++
          repeat 0xFF (length pre + 1 + 512 + 3))
         [1; 0; 1; 0] idle rest w w'.
Proof. exact (disk_read_scripted idle b buffer fr polls f pre data c1 c2 f' rest fuel w). Qed.

Lemma disk_read_delivers_block_witness :
  exists w',
    disk_read 2 (repeat 0 600) 7 1
              (brought_up 0xFF SDCARD_V1 512
                 (repeat 0xFF 6 ++ [0xFF] ++ 0 :: 0xFF ::
                  [0xFF] ++ 0xFE :: repeat 0xA5 512 ++
                  0x12 :: 0x34 :: 0xFF :: [0x77]))
    = Ok (0, map u8 (repeat 0xA5 512) ++ skipn 512 (repeat 0 600)) w' /\
    sees (frame_bytes 17 3584 ++ repeat 0xFF 3 ++ repeat 0xFF (1 + 1 + 512 + 3))
         [1; 0; 1; 0] 0xFF [0x77]
         (brought_up 0xFF SDCARD_V1 512
            (repeat 0xFF 6 ++ [0xFF] ++ 0 :: 0xFF ::
             [0xFF] ++ 0xFE :: repeat 0xA5 512 ++
             0x12 :: 0x34 :: 0xFF :: [0x77])) w'.
Proof.
  assert (H1 : _is_initialized
                 (brought_up 0xFF SDCARD_V1 512
                    (repeat 0xFF 6 ++ [0xFF] ++ 0 :: 0xFF ::
                     [0xFF] ++ 0xFE :: repeat 0xA5 512 ++
                     0x12 :: 0x34 :: 0xFF :: [0x77])) <> 0)
    by discriminate.
  assert (H2 : 0 <= 7 < 2 ^ 32 - 1) by (split; [lia | reflexivity]).
  assert (H3 : Forall (fun b => high_bit_set (u8 b)) [0xFF])
    by (repeat constructor; discriminate).
  assert (H4 : Forall (fun b => u8 b <> 0xFE) [0xFF])
    by (repeat constructor; discriminate).
  exact (disk_read_delivers_block 0xFF 7 (repeat 0 600) (repeat 0xFF 6)
           [0xFF] 0xFF [0xFF] (repeat 0xA5 512) 0x12 0x34 0xFF [0x77] 2 _
           H1 H2 eq_refl H3 SD_COMMAND_TIMEOUT_gt_1 H4 (le_n 2) eq_refl
           (conj eq_refl eq_refl)).
Defined.

(** ** Outcomes of bring-up *)

Lemma v2_rounds_S (k : nat) :
  [(41, HCS); (55, 0); (58, 0)] ++ v2_rounds k =
  v2_rounds k ++ [(41, HCS); (55, 0); (58, 0)].
Proof.
  unfold v2_rounds. induction k as [|k IH]; [reflexivity|].
  cbn [repeat concat]. rewrite <- app_assoc, <- IH. reflexivity.
Qed.

Lemma same_but_cdv_refl {D} (w : world D) : same_but_cdv w w.
Proof. repeat split. Qed.

Lemma same_but_cdv_trans {D} (w1 w2 w3 : world D) :
  same_but_cdv w1 w2 -> same_but_cdv w2 w3 -> same_but_cdv w1 w3.
Proof.
  intros (A1 & A2 & A3 & A4 & A5) (B1 & B2 & B3 & B4 & B5).
  repeat split; congruence.
Qed.

Section Outcomes.

Context {D : Type}.

Lemma same_statics_cmd58 : stays (@same_statics D) _cmd58.
Proof.
  apply stays_cmd58.
  - exact same_statics_refl.
  - exact same_statics_trans.
  - exact same_statics_bus.
  - exact same_statics_log.
Qed.

Lemma same_statics_cmd8 : stays (@same_statics D) _cmd8.
Proof.
  apply stays_cmd8.
  - exact same_statics_refl.
  - exact same_statics_trans.
  - exact same_statics_bus.
  - exact same_statics_log.
Qed.

Lemma same_statics_hal_wait (ms : Z) : stays (@same_statics D) (hal_wait ms).
Proof. apply stays_hal_wait. exact same_statics_bus. Qed.

Lemma same_statics_hal_cs (cs : Z) : stays (@same_statics D) (hal_cs cs).
Proof. apply stays_hal_cs. exact same_statics_bus. Qed.

Lemma same_statics_clock_card (n : nat) : stays (@same_statics D) (clock_card n).
Proof.
  apply stays_clock_card.
  - exact same_statics_refl.
  - exact same_statics_trans.
  - exact same_statics_bus.
Qed.

(** A loop that gives up has left the statics alone. *)
Lemma v1_loop_gives_up (n : nat) :
  forall w w' : world D,
    initialise_card_v1_loop n w = Ok SDCARD_FAIL w' -> same_statics w w'.
Proof.
  induction n as [|n IH]; intros w w' H; cbn [initialise_card_v1_loop] in H.
  - apply ret_inv in H. destruct H as [_ ->]. apply same_statics_refl.
  - apply bind_inv in H. destruct H as (r55 & w1 & E55 & H).
    apply bind_inv in H. destruct H as (r41 & w2 & E41 & H).
    apply same_statics_cmd in E55. apply same_statics_cmd in E41.
    destruct (r41 =? 0).
    + apply bind_inv in H. destruct H as (u & w3 & _ & H).
      apply ret_inv in H. destruct H as [H _]. discriminate H.
    + apply IH in H.
      exact (same_statics_trans _ _ _ (same_statics_trans _ _ _ E55 E41) H).
Qed.

Lemma v2_loop_anatomy (n : nat) :
  forall (w w' : world D) (r : Z),
    initialise_card_v2_loop n w = Ok r w' ->
    exists k rs,
      (k <= n)%nat /\ (forall c x, In (c, x) rs -> c <> 8) /\
      (r = SDCARD_FAIL /\ k = n /\ grows (v2_rounds k) rs w w' /\
       same_statics w w' /\ ~ In (41, 0) rs \/
       r = SDCARD_V2 /\ (1 <= k)%nat /\ _cdv w' = 1 /\
       exists x rs', rs = (58, x) :: (41, 0) :: rs' /\
                     grows ((58, 0) :: v2_rounds k) rs w w' /\
                     ~ In (41, 0) rs').
Proof.
  induction n as [|n IH]; intros w w' r H; cbn [initialise_card_v2_loop] in H.
  - apply ret_inv in H. destruct H as [-> ->].
    exists 0%nat, []. split; [lia|]. split; [intros c x []|].
    left. split; [reflexivity|]. split; [reflexivity|].
    split; [apply grows_refl|]. split; [apply same_statics_refl | intros []].
  - apply bind_inv in H. destruct H as (u & w0 & Ew & H).
    apply bind_inv in H. destruct H as (r58 & w1 & E58 & H).
    apply bind_inv in H. destruct H as (r55 & w2 & E55 & H).
    apply bind_inv in H. destruct H as (r41 & w3 & E41 & H).
    pose proof (same_statics_trans _ _ _
                  (same_statics_trans _ _ _
                     (same_statics_trans _ _ _
                        (same_statics_hal_wait _ _ _ _ Ew)
                        (same_statics_cmd58 _ _ _ E58))
                     (same_statics_cmd _ _ _ _ _ E55))
                  (same_statics_cmd _ _ _ _ _ E41)) as St.
    apply quiet_hal_wait in Ew. apply grows_cmd58 in E58.
    apply grows_cmd in E55. apply grows_cmd in E41.
    pose proof (grows_trans _ _ _ _ _ _ _
                  (grows_trans _ _ _ _ _ _ _
                     (grows_trans _ _ _ _ _ _ _ Ew E58) E55) E41) as G.
    cbn [app] in G. clear Ew E58 E55 E41.
    destruct (Z.eqb_spec r41 0) as [->|Hr41].
    + apply bind_inv in H. destruct H as (r58' & w4 & E58' & H).
      apply bind_inv in H. destruct H as (u' & w5 & Em & H).
      apply ret_inv in H. destruct H as [-> ->].
      apply grows_cmd58 in E58'.
      unfold modify in Em. inversion Em; subst w5; clear Em.
      pose proof (grows_trans _ _ _ _ _ _ _ G E58') as G'. cbn [app] in G'.
      exists 1%nat, [(58, r58'); (41, 0); (55, r55); (58, r58)].
      split; [lia|]. split.
      { intros c x Hin. simpl in Hin.
        repeat (destruct Hin as [Hin|Hin]; [inversion Hin; subst; discriminate|]).
        destruct Hin. }
      right. split; [reflexivity|]. split; [lia|]. split; [reflexivity|].
      exists r58', [(55, r55); (58, r58)]. split; [reflexivity|].
      split.
      * destruct G' as (xs & Ex & Cx & Rx). exists xs. repeat split; assumption.
      * intros [Hin|[Hin|[]]]; discriminate Hin.
    + destruct (IH _ _ _ H) as (k & rs & Hk & Hrs & Hcase).
      exists (S k), (rs ++ [(41, r41); (55, r55); (58, r58)]).
      split; [lia|]. split.
      { intros c x Hin. apply in_app_or in Hin. destruct Hin as [Hin|Hin]; [eauto|].
        simpl in Hin.
        repeat (destruct Hin as [Hin|Hin]; [inversion Hin; subst; discriminate|]).
        destruct Hin. }
      assert (HS : v2_rounds (S k) = v2_rounds k ++ [(41, HCS); (55, 0); (58, 0)]).
      { rewrite <- v2_rounds_S. reflexivity. }
      assert (Hround : forall l, ~ In (41, 0) l ->
                         ~ In (41, 0) (l ++ [(41, r41); (55, r55); (58, r58)])).
      { intros l Hl Hin. apply in_app_or in Hin. destruct Hin as [Hin|Hin]; [auto|].
        destruct Hin as [Hin|[Hin|[Hin|[]]]]; try discriminate Hin.
        inversion Hin. contradiction. }
      destruct Hcase
        as [(-> & -> & Gk & Sk & Hno)|(-> & Hk1 & Hc & x & rs' & -> & Gk & Hno)].
      * left. split; [reflexivity|]. split; [reflexivity|]. split.
        -- rewrite HS. exact (grows_trans _ _ _ _ _ _ _ G Gk).
        -- split; [exact (same_statics_trans _ _ _ St Sk) | exact (Hround _ Hno)].
      * right. split; [reflexivity|]. split; [lia|]. split; [exact Hc|].
        exists x, (rs' ++ [(41, r41); (55, r55); (58, r58)]).
        split; [reflexivity|]. split; [|exact (Hround _ Hno)].
        rewrite HS. exact (grows_trans _ _ _ _ _ _ _ G Gk).
Qed.

(** The steps of [initialise_card] up to the probe, and the branch taken. *)
Lemma initialise_card_anatomy (hal : spisd_hal_t D) (w w' : world D) (r : Z) :
  initialise_card hal w = Ok r w' ->
  exists r0 r1 r2 r3 r4 r5 w5,
    grows (repeat (0, 0) 6)
          [(0, r5); (0, r4); (0, r3); (0, r2); (0, r1); (0, r0)] w w5 /\
    same_statics (set_spi_hal (Some hal) w) w5 /\
    (r5 <> R1_IDLE_STATE /\ r = SDCARD_FAIL /\ w' = w5 \/
     r5 = R1_IDLE_STATE /\
     exists r8 w8,
       _cmd8 w5 = Ok r8 w8 /\
       grows [(8, 0x1AA)] [(8, r8)] w5 w8 /\ same_statics w5 w8 /\
       (r8 = R1_IDLE_STATE /\ initialise_card_v2 w8 = Ok r w' \/
        r8 = Z.lor R1_IDLE_STATE R1_ILLEGAL_COMMAND /\
        initialise_card_v1 w8 = Ok r w' \/
        r8 <> R1_IDLE_STATE /\ r8 <> Z.lor R1_IDLE_STATE R1_ILLEGAL_COMMAND /\
        r = SDCARD_FAIL /\ w' = w8)).
Proof.
  unfold initialise_card. intros H.
  apply bind_inv in H. destruct H as (u0 & wa & Ea & H).
  unfold modify in Ea. inversion Ea; subst wa; clear Ea.
  apply bind_inv in H. destruct H as (u1 & wb & Eb & H).
  apply bind_inv in H. destruct H as (u2 & wc & Ec & H).
  apply bind_inv in H. destruct H as (r0 & w0 & E0 & H).
  apply bind_inv in H. destruct H as (r1 & w1 & E1 & H).
  apply bind_inv in H. destruct H as (r2 & w2 & E2 & H).
  apply bind_inv in H. destruct H as (r3 & w3 & E3 & H).
  apply bind_inv in H. destruct H as (r4 & w4 & E4 & H).
  apply bind_inv in H. destruct H as (r5 & w5 & E5 & H).
  assert (St : same_statics (set_spi_hal (Some hal) w) w5).
  { pose proof (same_statics_hal_cs _ _ _ _ Eb) as Sb.
    pose proof (same_statics_clock_card _ _ _ _ Ec) as Sc.
    pose proof (same_statics_cmd _ _ _ _ _ E0) as S0.
    pose proof (same_statics_cmd _ _ _ _ _ E1) as S1.
    pose proof (same_statics_cmd _ _ _ _ _ E2) as S2.
    pose proof (same_statics_cmd _ _ _ _ _ E3) as S3.
    pose proof (same_statics_cmd _ _ _ _ _ E4) as S4.
    pose proof (same_statics_cmd _ _ _ _ _ E5) as S5.
    repeat match goal with
           | G1 : same_statics ?x ?y, G2 : same_statics ?y ?z |- _ =>
               pose proof (same_statics_trans _ _ _ G1 G2); clear G1 G2
           end.
    assumption. }
  assert (G : grows (repeat (0, 0) 6)
                    [(0, r5); (0, r4); (0, r3); (0, r2); (0, r1); (0, r0)] w w5).
  { assert (Ga : grows [] [] w (set_spi_hal (Some hal) w))
      by (exists []; repeat split).
    apply quiet_hal_cs in Eb. apply quiet_clock_card in Ec.
    apply grows_cmd in E0. apply grows_cmd in E1. apply grows_cmd in E2.
    apply grows_cmd in E3. apply grows_cmd in E4. apply grows_cmd in E5.
    repeat match goal with
           | G1 : grows _ _ ?x ?y, G2 : grows _ _ ?y ?z |- _ =>
               pose proof (grows_trans _ _ _ _ _ _ _ G1 G2); clear G1 G2
           end.
    assumption. }
  clear Eb Ec E0 E1 E2 E3 E4 E5.
  exists r0, r1, r2, r3, r4, r5, w5. split; [exact G|]. split; [exact St|].
  destruct (Z.eqb_spec r5 R1_IDLE_STATE) as [Hr5|Hr5]; cbn [negb] in H.
  2:{ apply ret_inv in H. destruct H as [-> ->]. left. repeat split. exact Hr5. }
  right. split; [exact Hr5|].
  apply bind_inv in H. destruct H as (r8 & w8 & E8 & H).
  exists r8, w8. split; [exact E8|]. split; [exact (grows_cmd8 _ _ _ E8)|].
  split; [exact (same_statics_cmd8 _ _ _ E8)|].
  destruct (Z.eqb_spec r8 R1_IDLE_STATE) as [Hi|Hi]; [left; split; assumption|].
  destruct (Z.eqb_spec r8 (Z.lor R1_IDLE_STATE R1_ILLEGAL_COMMAND)) as [Hv|Hv];
    [right; left; split; assumption|].
  apply ret_inv in H. destruct H as [-> ->]. right; right. repeat split; assumption.
Qed.

Lemma same_statics_set_table (hal : spisd_hal_t D) (w w' : world D) :
  same_statics (set_spi_hal (Some hal) w) w' ->
  spi_hal w' = Some hal /\ _cdv w' = _cdv w /\
  _is_initialized w' = _is_initialized w /\ _sectors w' = _sectors w /\
  init_ok w' = init_ok w /\ port_storage w' = port_storage w.
Proof. intros (A & B & C & T & E & F). repeat split; assumption. Qed.

Lemma initialise_card_result (hal : spisd_hal_t D) (w w' : world D) (r : Z) :
  initialise_card hal w = Ok r w' ->
  (r = SDCARD_FAIL /\ _cdv w' = _cdv w \/
   r = SDCARD_V1 /\ _cdv w' = BLOCK_SIZE \/
   r = SDCARD_V2 /\ _cdv w' = 1) /\
  spi_hal w' = Some hal /\
  _is_initialized w' = _is_initialized w /\ _sectors w' = _sectors w /\
  init_ok w' = init_ok w /\ port_storage w' = port_storage w /\
  exists cs, commands (new_events (trace w) (trace w')) = cs ++ repeat (0, 0) 6.
Proof.
  intros H.
  assert (Hkept : same_but_cdv (set_spi_hal (Some hal) w) w').
  { apply (initialise_card_after_table same_but_cdv same_but_cdv_refl
             same_but_cdv_trans) with (r := r); try exact H;
      intros; repeat split. }
  destruct Hkept as (K1 & K2 & K3 & K4 & K5). cbn in K1, K2, K3, K4, K5.
  destruct (grows_initialise_card hal w w' r H)
    as (q0 & q1 & q2 & q3 & q4 & q5 & cs & rs & Gall & _).
  apply grows_new_events in Gall. destruct Gall as [Gc _].
  assert (Hcdv : r = SDCARD_FAIL /\ _cdv w' = _cdv w \/
                 r = SDCARD_V1 /\ _cdv w' = BLOCK_SIZE \/
                 r = SDCARD_V2 /\ _cdv w' = 1).
  { destruct (initialise_card_anatomy hal w w' r H)
      as (r0 & r1 & r2 & r3 & r4 & r5 & w5 & G & St & Hcase).
    apply same_statics_set_table in St. destruct St as (_ & C5 & _).
    destruct Hcase as [(_ & -> & ->)|(_ & r8 & w8 & _ & G8 & S8 & Hcase)].
    { left. split; [reflexivity | exact C5]. }
    destruct S8 as (C8 & _).
    destruct Hcase as [(_ & Hv2)|[(_ & Hv1)|(_ & _ & -> & ->)]].
    - rewrite initialise_card_v2_eq in Hv2.
      destruct (v2_loop_anatomy _ _ _ _ Hv2)
        as (k & rs' & _ & _ & [(-> & _ & _ & Sk & _)|(-> & _ & Hc & _)]).
      + left. split; [reflexivity|]. destruct Sk as (Ck & _). congruence.
      + right; right. split; [reflexivity | exact Hc].
    - destruct (grows_v1 _ _ _ Hv1) as (k & rs' & _ & _ & _ & [->|[-> Hc]]).
      + left. split; [reflexivity|]. rewrite initialise_card_v1_eq in Hv1.
        apply v1_loop_gives_up in Hv1. destruct Hv1 as (Ck & _). congruence.
      + right; left. split; [reflexivity | exact Hc].
    - left. split; [reflexivity|]. congruence. }
  split; [exact Hcdv|]. repeat (split; [assumption|]).
  exists cs. exact Gc.
Qed.

(** X12. What bring-up can come back with.  [initialise_card] returns
    [SDCARD_FAIL], [SDCARD_V1] or [SDCARD_V2], never [SDCARD_V2HC]; with
    [SDCARD_V1] the address divisor [_cdv] is 512 and with [SDCARD_V2] it
    is 1, and a failed bring-up leaves it as it was.  In every case the
    table pointer is the caller's afterwards, the other statics are
    untouched, and the first six commands were CMD0. *)
Theorem bring_up_outcome (hal : spisd_hal_t D) (w w' : world D) (r : Z) :
  initialise_card hal w = Ok r w' ->
  (r = SDCARD_FAIL /\ _cdv w' = _cdv w \/
   r = SDCARD_V1 /\ _cdv w' = BLOCK_SIZE \/
   r = SDCARD_V2 /\ _cdv w' = 1) /\
  spi_hal w' = Some hal /\
  _is_initialized w' = _is_initialized w /\ _sectors w' = _sectors w /\
  init_ok w' = init_ok w /\ port_storage w' = port_storage w /\
  exists cs, commands (new_events (trace w) (trace w')) = cs ++ repeat (0, 0) 6.
Proof. exact (initialise_card_result hal w w' r). Qed.

End Outcomes.

Lemma bring_up_outcome_witness :
  exists r w',
    initialise_card (scripted_hal 0xFF) (power_on bring_up_v2 []) = Ok r w' /\
    (r = SDCARD_FAIL /\ _cdv w' = 0 \/
     r = SDCARD_V1 /\ _cdv w' = BLOCK_SIZE \/
     r = SDCARD_V2 /\ _cdv w' = 1) /\
    spi_hal w' = Some (scripted_hal 0xFF) /\
    _is_initialized w' = 0 /\ _sectors w' = 0 /\
    init_ok w' = false /\ port_storage w' = [] /\
    exists cs, commands (new_events [] (trace w')) = cs ++ repeat (0, 0) 6.
Proof.
  run (@initialise_card (list Z) (scripted_hal 0xFF)) (power_on bring_up_v2 []) E.
  eexists _, _. split; [exact E|].
  exact (bring_up_outcome (scripted_hal 0xFF) (power_on bring_up_v2 []) _ _ E).
Defined.

(** ** The branches of bring-up *)

Lemma not_among_resets (c x r0 r1 r2 r3 r4 r5 : Z) :
  c <> 0 ->
  ~ In (c, x) [(0, r5); (0, r4); (0, r3); (0, r2); (0, r1); (0, r0)].
Proof.
  intros Hc Hin. simpl in Hin.
  repeat (destruct Hin as [Hin|Hin]; [inversion Hin; subst; apply Hc; reflexivity|]).
  exact Hin.
Qed.

Lemma no_probe_among_resets (xs : list event) (a : Z) :
  commands xs = repeat (0, 0) 6 -> ~ In (EvCommand 8 a) (rev xs).
Proof.
  intros Hc Hin. apply in_rev in Hin. apply command_logged in Hin.
  rewrite Hc in Hin. simpl in Hin.
  repeat (destruct Hin as [Hin|Hin]; [discriminate Hin|]). exact Hin.
Qed.

(** Bring-up up to the branch, with the card's answer to the probe read off
    the bus: when its status byte [b] came after one to four busy bytes,
    CMD8 was sent and [b] is the value the branch was taken on. *)
Lemma initialise_card_on_bus {D} (hal : spisd_hal_t D) (w w' : world D) (r : Z)
      (m : nat) (b : Z) :
  initialise_card hal w = Ok r w' ->
  answer_to 8 (new_events (trace w) (trace w')) = Some (m, b) ->
  (1 <= m <= 4)%nat ->
  exists r0 r1 r2 r3 r4 w8,
    grows ((8, 0x1AA) :: repeat (0, 0) 6)
          [(8, b); (0, R1_IDLE_STATE); (0, r4); (0, r3); (0, r2); (0, r1); (0, r0)]
          w w8 /\
    (b = R1_IDLE_STATE /\ initialise_card_v2 w8 = Ok r w' \/
     b = Z.lor R1_IDLE_STATE R1_ILLEGAL_COMMAND /\ initialise_card_v1 w8 = Ok r w' \/
     b <> R1_IDLE_STATE /\ b <> Z.lor R1_IDLE_STATE R1_ILLEGAL_COMMAND /\
     r = SDCARD_FAIL /\ w' = w8).
Proof.
  intros H Hans Hm.
  destruct (initialise_card_anatomy hal w w' r H)
    as (r0 & r1 & r2 & r3 & r4 & r5 & w5 & G & _ & Hcase).
  pose proof G as (xs5 & T5 & C5 & _).
  unfold answer_to, answer_bytes in Hans.
  destruct Hcase as [(_ & _ & ->)|(Hr5 & r8 & w8 & E8 & G8 & _ & Hcase)].
  { exfalso. rewrite T5, new_events_app in Hans.
    rewrite after_command_none in Hans
      by (intros a; apply no_probe_among_resets; exact C5).
    discriminate Hans. }
  destruct (cmd8_answer _ _ _ E8) as (es & T8 & Hes).
  assert (Hafter : exists xs, trace w' = xs ++ trace w8).
  { destruct Hcase as [(_ & Hrun)|[(_ & Hrun)|(_ & _ & _ & ->)]].
    - destruct (grows_v2 _ _ _ Hrun) as (cs & rs & (xs & Tx & _) & _).
      exists xs. exact Tx.
    - destruct (grows_v1 _ _ _ Hrun) as (k & rs & _ & (xs & Tx & _) & _).
      exists xs. exact Tx.
    - exists []. reflexivity. }
  destruct Hafter as (xs & Tx).
  assert (Hr8 : r8 = b).
  { apply (Hes (rev xs5) (rev xs) m b).
    - intros a. apply no_probe_among_resets. exact C5.
    - replace (rev xs5 ++ es ++ rev xs) with (rev (xs ++ rev es ++ xs5)).
      + replace (xs ++ rev es ++ xs5)
          with (new_events (trace w) (trace w')); [exact Hans|].
        rewrite Tx, T8, T5, !app_assoc, <- (app_assoc xs). apply new_events_app.
      + rewrite !rev_app_distr, rev_involutive, app_assoc. reflexivity.
    - exact Hm. }
  subst r8 r5.
  exists r0, r1, r2, r3, r4, w8. split; [|exact Hcase].
  exact (grows_trans _ _ _ _ _ _ _ G G8).
Qed.

(** The V1 path, with the probe's answer read off the bus.  When the card
    answers CMD8 with idle | illegal command after one to four busy bytes,
    bring-up issues nothing after CMD8 but rounds of CMD55 and CMD41 with
    argument zero, so no command of the whole bring-up carries the
    high-capacity bit, and if it succeeds the result is [SDCARD_V1] with the
    divisor [_cdv] set to the block size. *)
Lemma bring_up_v1_path {D} (hal : spisd_hal_t D) (w w' : world D) (r : Z)
      (m : nat) :
  initialise_card hal w = Ok r w' ->
  answer_to 8 (new_events (trace w) (trace w'))
  = Some (m, Z.lor R1_IDLE_STATE R1_ILLEGAL_COMMAND) ->
  (1 <= m <= 4)%nat ->
  (exists k, (1 <= k <= SD_COMMAND_TIMEOUT)%nat /\
             commands (new_events (trace w) (trace w')) =
             v1_rounds k ++ (8, 0x1AA) :: repeat (0, 0) 6) /\
  (forall c a, In (c, a) (commands (new_events (trace w) (trace w'))) ->
               Z.land a HCS = 0) /\
  (r = SDCARD_FAIL \/ r = SDCARD_V1 /\ _cdv w' = BLOCK_SIZE).
Proof.
  intros H Hans Hm.
  destruct (initialise_card_on_bus hal w w' r m _ H Hans Hm)
    as (r0 & r1 & r2 & r3 & r4 & w8 & G8 & Hcase).
  destruct Hcase as [(Hb & _)|[(_ & Hrun)|(_ & Hb & _)]];
    [discriminate Hb | | exfalso; apply Hb; reflexivity].
  destruct (grows_v1 _ _ _ Hrun) as (k & rs & Hk & Gv & _ & Hr).
  pose proof (grows_trans _ _ _ _ _ _ _ G8 Gv) as Gall.
  apply grows_new_events in Gall. destruct Gall as [Gc _]. rewrite Gc.
  split; [exists k; split; [exact Hk | reflexivity]|].
  split; [|exact Hr].
  intros c a Hc. apply in_app_or in Hc. destruct Hc as [Hc|Hc].
  - apply v1_rounds_args in Hc. subst a. reflexivity.
  - simpl in Hc.
    repeat (destruct Hc as [Hc|Hc]; [inversion Hc; subst; reflexivity|]).
    destruct Hc.
Qed.

(** C6 (the code at the failing inputs). A V1 card answers the probe with
    idle | illegal command and no trailing bytes.  When that answer is there
    on the very first poll, [_cmd8] hands back the 0xFF that follows it, so
    bring-up returns [SDCARD_FAIL] right after CMD8: no CMD55 or CMD41 is
    sent and the divisor is not set.  When the answer comes after five busy
    bytes the store of the first trailing byte is outside [response] and the
    run is undefined.  The same card answering after one busy byte is
    brought up as [SDCARD_V1] with divisor 512. *)
Theorem v1_card_turned_away :
  (exists w',
     initialise_card (scripted_hal 0xFF) (power_on bring_up_v1_at_once [])
     = Ok SDCARD_FAIL w' /\
     answer_to 8 (trace w')
     = Some (0%nat, Z.lor R1_IDLE_STATE R1_ILLEGAL_COMMAND) /\
     commands (trace w') = (8, 0x1AA) :: repeat (0, 0) 6 /\
     _cdv w' = 0) /\
  initialise_card (scripted_hal 0xFF) (power_on bring_up_v1_late []) = Undefined /\
  (exists w',
     initialise_card (scripted_hal 0xFF) (power_on bring_up_v1 [])
     = Ok SDCARD_V1 w' /\
     answer_to 8 (trace w')
     = Some (1%nat, Z.lor R1_IDLE_STATE R1_ILLEGAL_COMMAND) /\
     commands (trace w') = v1_rounds 2 ++ (8, 0x1AA) :: repeat (0, 0) 6 /\
     _cdv w' = BLOCK_SIZE).
Proof.
  split; [|split].
  - run (@initialise_card (list Z) (scripted_hal 0xFF))
        (power_on bring_up_v1_at_once []) E.
    eexists. split; [exact E|]. repeat split; vm_compute; reflexivity.
  - vm_compute. reflexivity.
  - run (@initialise_card (list Z) (scripted_hal 0xFF)) (power_on bring_up_v1 []) E.
    eexists. split; [exact E|]. repeat split; vm_compute; reflexivity.
Qed.

(** X13. The V2 path, with the probe's answer read off the bus.  When the
    card answers CMD8 with "idle" after one to four busy bytes, bring-up
    polls with rounds of CMD58, CMD55 and CMD41, every CMD41 carrying the
    high-capacity bit, at most [SD_COMMAND_TIMEOUT] rounds.  It stops at the
    first CMD41 answered 0: no CMD41 before that one was answered 0; it then
    reads the OCR once more with CMD58 and returns [SDCARD_V2] with divisor
    1, for standard- and high-capacity cards alike.  When none of
    [SD_COMMAND_TIMEOUT] rounds had its CMD41 answered 0 it returns
    [SDCARD_FAIL]. *)
Theorem bring_up_v2_path {D} (hal : spisd_hal_t D) (w w' : world D) (r : Z)
        (m : nat) :
  initialise_card hal w = Ok r w' ->
  answer_to 8 (new_events (trace w) (trace w')) = Some (m, R1_IDLE_STATE) ->
  (1 <= m <= 4)%nat ->
  (forall a, In (41, a) (commands (new_events (trace w) (trace w'))) -> a = HCS) /\
  exists k,
    (1 <= k <= SD_COMMAND_TIMEOUT)%nat /\
    (r = SDCARD_FAIL /\ k = SD_COMMAND_TIMEOUT /\
     commands (new_events (trace w) (trace w')) =
     v2_rounds k ++ (8, 0x1AA) :: repeat (0, 0) 6 /\
     ~ In (41, 0) (responses (new_events (trace w) (trace w'))) \/
     r = SDCARD_V2 /\ _cdv w' = 1 /\
     commands (new_events (trace w) (trace w')) =
     (58, 0) :: v2_rounds k ++ (8, 0x1AA) :: repeat (0, 0) 6 /\
     exists x rs, responses (new_events (trace w) (trace w')) =
                  (58, x) :: (41, 0) :: rs /\
                  ~ In (41, 0) rs).
Proof.
  intros H Hans Hm.
  destruct (initialise_card_on_bus hal w w' r m _ H Hans Hm)
    as (r0 & r1 & r2 & r3 & r4 & w8 & G8 & Hcase).
  destruct Hcase as [(_ & Hrun)|[(Hb & _)|(Hb & _)]];
    [ | discriminate Hb | exfalso; apply Hb; reflexivity].
  rewrite initialise_card_v2_eq in Hrun.
  destruct (v2_loop_anatomy _ _ _ _ Hrun) as (k & rs & Hk & _ & Hout).
  assert (Hargs : forall k a, In (41, a) (v2_rounds k) -> a = HCS).
  { intros j a. unfold v2_rounds. induction j as [|j IH]; cbn [repeat concat].
    - intros [].
    - intros Ha. apply in_app_or in Ha. destruct Ha as [Ha|Ha]; [|exact (IH Ha)].
      simpl in Ha.
      repeat (destruct Ha as [Ha|Ha];
              [inversion Ha; subst; try reflexivity; discriminate|]).
      destruct Ha. }
  assert (Hsix : forall a, ~ In (41, a) ((8, 0x1AA) :: repeat (0, 0) 6)).
  { intros a Ha. simpl in Ha.
    repeat (destruct Ha as [Ha|Ha]; [discriminate Ha|]). exact Ha. }
  assert (Hbefore : forall l,
             ~ In (41, 0) l ->
             ~ In (41, 0)
                  (l ++ [(8, R1_IDLE_STATE); (0, R1_IDLE_STATE); (0, r4); (0, r3);
                         (0, r2); (0, r1); (0, r0)])).
  { intros l Hl Hin. apply in_app_or in Hin. destruct Hin as [Hin|Hin]; [auto|].
    simpl in Hin.
    repeat (destruct Hin as [Hin|Hin]; [discriminate Hin|]). exact Hin. }
  destruct Hout
    as [(-> & -> & Gk & _ & Hno)|(-> & Hk1 & Hc & x & rs' & -> & Gk & Hno)].
  - pose proof (grows_trans _ _ _ _ _ _ _ G8 Gk) as Gall.
    apply grows_new_events in Gall. destruct Gall as [Gc Gr].
    split.
    + intros a Ha. rewrite Gc in Ha. apply in_app_or in Ha.
      destruct Ha as [Ha|Ha]; [exact (Hargs _ _ Ha) | destruct (Hsix _ Ha)].
    + exists SD_COMMAND_TIMEOUT.
      split; [split; [exact SD_COMMAND_TIMEOUT_pos | apply Nat.le_refl]|].
      left. split; [reflexivity|]. split; [reflexivity|]. split; [exact Gc|].
      rewrite Gr. exact (Hbefore _ Hno).
  - pose proof (grows_trans _ _ _ _ _ _ _ G8 Gk) as Gall.
    apply grows_new_events in Gall. destruct Gall as [Gc Gr].
    split.
    + intros a Ha. rewrite Gc in Ha. cbn [app] in Ha.
      destruct Ha as [Ha|Ha]; [discriminate Ha|].
      apply in_app_or in Ha.
      destruct Ha as [Ha|Ha]; [exact (Hargs _ _ Ha) | destruct (Hsix _ Ha)].
    + exists k. split; [split; assumption|].
      right. split; [reflexivity|]. split; [exact Hc|]. split; [exact Gc|].
      eexists x, _. split; [exact Gr|]. exact (Hbefore _ Hno).
Qed.

Lemma bring_up_v2_path_witness :
  exists r w',
    initialise_card (scripted_hal 0xFF) (power_on bring_up_v2 []) = Ok r w' /\
    answer_to 8 (new_events [] (trace w')) = Some (1%nat, R1_IDLE_STATE) /\
    r = SDCARD_V2 /\ _cdv w' = 1 /\
    (forall a, In (41, a) (commands (new_events [] (trace w'))) -> a = HCS) /\
    exists k x rs,
      commands (new_events [] (trace w')) =
      (58, 0) :: v2_rounds k ++ (8, 0x1AA) :: repeat (0, 0) 6 /\
      responses (new_events [] (trace w')) = (58, x) :: (41, 0) :: rs /\
      ~ In (41, 0) rs.
Proof.
  run (@initialise_card (list Z) (scripted_hal 0xFF)) (power_on bring_up_v2 []) E.
  match type of E with
  | _ = Ok ?r ?w' =>
      assert (Hans : answer_to 8 (new_events [] (trace w')) = Some (1%nat, R1_IDLE_STATE))
        by (vm_compute; reflexivity);
      assert (Hm : (1 <= 1 <= 4)%nat) by (split; repeat constructor);
      exists r, w'; split; [exact E|]; split; [exact Hans|];
      destruct (bring_up_v2_path (scripted_hal 0xFF) (power_on bring_up_v2 []) _ _ 1
                  E Hans Hm) as (Hargs & k & _ & Hout)
  end.
  destruct Hout as [(Hr & _)|(Hr & Hc & Gc & x & rs & Gr & Hno)];
    [discriminate Hr|].
  split; [exact Hr|]. split; [exact Hc|]. split; [exact Hargs|].
  exists k, x, rs. split; [exact Gc|]. split; [exact Gr | exact Hno].
Defined.

(** X14. Where bring-up gives up at once.  Six CMD0 are always sent and
    only the answer to the sixth is looked at: when it is not "idle",
    nothing else is sent and the result is [SDCARD_FAIL].  Otherwise CMD8 is
    sent, and bring-up looks at the value [_cmd8] hands back: when that is
    neither "idle" nor "idle, illegal command", nothing follows CMD8 and the
    result is [SDCARD_FAIL].  That value is the status byte the card put on
    the bus whenever the status byte came after one to four busy bytes. *)
Theorem bring_up_gives_up {D} (hal : spisd_hal_t D) (w w' : world D) (r : Z) :
  initialise_card hal w = Ok r w' ->
  exists r0 r1 r2 r3 r4 r5 cs rs,
    commands (new_events (trace w) (trace w')) = cs ++ repeat (0, 0) 6 /\
    responses (new_events (trace w) (trace w')) =
    rs ++ [(0, r5); (0, r4); (0, r3); (0, r2); (0, r1); (0, r0)] /\
    (r5 <> R1_IDLE_STATE /\ cs = [] /\ rs = [] /\ r = SDCARD_FAIL \/
     r5 = R1_IDLE_STATE /\
     exists r8 cs' rs',
       cs = cs' ++ [(8, 0x1AA)] /\ rs = rs' ++ [(8, r8)] /\
       (r8 <> R1_IDLE_STATE -> r8 <> Z.lor R1_IDLE_STATE R1_ILLEGAL_COMMAND ->
        cs' = [] /\ rs' = [] /\ r = SDCARD_FAIL) /\
       (forall (m : nat) (b : Z),
          answer_to 8 (new_events (trace w) (trace w')) = Some (m, b) ->
          (1 <= m <= 4)%nat -> r8 = b)).
Proof.
  intros H.
  assert (Hbus : forall r8 rs' (m : nat) (b : Z),
             (exists r0 r1 r2 r3 r4 r5,
                responses (new_events (trace w) (trace w')) =
                rs' ++ [(8, r8); (0, r5); (0, r4); (0, r3); (0, r2); (0, r1); (0, r0)]) ->
             (forall c x, In (c, x) rs' -> c <> 8) ->
             answer_to 8 (new_events (trace w) (trace w')) = Some (m, b) ->
             (1 <= m <= 4)%nat -> r8 = b).
  { intros r8 rs' m b (q0 & q1 & q2 & q3 & q4 & q5 & Hrs) Hno Hans Hm.
    destruct (initialise_card_on_bus hal w w' r m b H Hans Hm)
      as (p0 & p1 & p2 & p3 & p4 & w8 & G8 & Hcase).
    assert (Hin : In (8, b) (responses (new_events (trace w) (trace w')))).
    { assert (Hafter : exists cs rs, grows cs rs w8 w').
      { destruct Hcase as [(_ & Hrun)|[(_ & Hrun)|(_ & _ & _ & ->)]].
        - destruct (grows_v2 _ _ _ Hrun) as (cs & rs & Gv & _). eauto.
        - destruct (grows_v1 _ _ _ Hrun) as (k & rs & _ & Gv & _). eauto.
        - exists [], []. apply grows_refl. }
      destruct Hafter as (cs & rs & Gv).
      pose proof (grows_trans _ _ _ _ _ _ _ G8 Gv) as Gall.
      apply grows_new_events in Gall. destruct Gall as [_ Gr]. rewrite Gr.
      apply in_or_app. right. left. reflexivity. }
    rewrite Hrs in Hin. apply in_app_or in Hin. destruct Hin as [Hin|Hin].
    - exfalso. exact (Hno _ _ Hin eq_refl).
    - destruct Hin as [Hin|Hin]; [inversion Hin; reflexivity|].
      exfalso. revert Hin. apply not_among_resets. discriminate. }
  destruct (initialise_card_anatomy hal w w' r H)
    as (r0 & r1 & r2 & r3 & r4 & r5 & w5 & G & _ & Hcase).
  exists r0, r1, r2, r3, r4, r5.
  destruct Hcase as [(Hr5 & -> & ->)|(Hr5 & r8 & w8 & _ & G8 & _ & Hcase)].
  { exists [], []. apply grows_new_events in G. destruct G as [Gc Gr].
    split; [exact Gc|]. split; [exact Gr|]. left. repeat split. exact Hr5. }
  pose proof (grows_trans _ _ _ _ _ _ _ G G8) as G'.
  destruct Hcase as [(Hr8 & Hrun)|[(Hr8 & Hrun)|(Hn1 & Hn5 & -> & ->)]].
  - destruct (grows_v2 _ _ _ Hrun) as (cs & rs & Gv & Hrs).
    pose proof (grows_trans _ _ _ _ _ _ _ G' Gv) as Gall.
    apply grows_new_events in Gall. destruct Gall as [Gc Gr].
    exists (cs ++ [(8, 0x1AA)]), (rs ++ [(8, r8)]). rewrite <- !app_assoc.
    split; [exact Gc|]. split; [exact Gr|]. right. split; [exact Hr5|].
    exists r8, cs, rs. split; [reflexivity|]. split; [reflexivity|].
    split; [intros Hn; contradiction|].
    intros m b. apply (Hbus r8 rs); [|exact Hrs].
    exists r0, r1, r2, r3, r4, r5. exact Gr.
  - destruct (grows_v1 _ _ _ Hrun) as (k & rs & _ & Gv & Hrs & _).
    pose proof (grows_trans _ _ _ _ _ _ _ G' Gv) as Gall.
    apply grows_new_events in Gall. destruct Gall as [Gc Gr].
    exists (v1_rounds k ++ [(8, 0x1AA)]), (rs ++ [(8, r8)]). rewrite <- !app_assoc.
    split; [exact Gc|]. split; [exact Gr|]. right. split; [exact Hr5|].
    exists r8, (v1_rounds k), rs. split; [reflexivity|]. split; [reflexivity|].
    split; [intros _ Hn; contradiction|].
    intros m b. apply (Hbus r8 rs); [|exact Hrs].
    exists r0, r1, r2, r3, r4, r5. exact Gr.
  - apply grows_new_events in G'. destruct G' as [Gc Gr].
    exists [(8, 0x1AA)], [(8, r8)].
    split; [exact Gc|]. split; [exact Gr|]. right. split; [exact Hr5|].
    exists r8, [], []. split; [reflexivity|]. split; [reflexivity|].
    split; [repeat split|].
    intros m b. apply (Hbus r8 []); [|intros c x []].
    exists r0, r1, r2, r3, r4, r5. exact Gr.
Qed.

Lemma bring_up_gives_up_witness :
  exists w',
    initialise_card (scripted_hal 0xFF) (power_on bring_up_odd_probe []) =
    Ok SDCARD_FAIL w' /\
    answer_to 8 (new_events [] (trace w')) = Some (1%nat, R1_ILLEGAL_COMMAND) /\
    commands (new_events [] (trace w')) = (8, 0x1AA) :: repeat (0, 0) 6.
Proof.
  run (@initialise_card (list Z) (scripted_hal 0xFF)) (power_on bring_up_odd_probe []) E.
  match type of E with
  | _ = Ok ?r ?w' =>
      assert (Hans : answer_to 8 (new_events [] (trace w'))
                     = Some (1%nat, R1_ILLEGAL_COMMAND))
        by (vm_compute; reflexivity);
      destruct (bring_up_gives_up (scripted_hal 0xFF)
                  (power_on bring_up_odd_probe []) _ _ E)
        as (r0 & r1 & r2 & r3 & r4 & r5 & cs & rs & Gc & Gr & Hcase);
      exists w'
  end.
  assert (Hm : (1 <= 1 <= 4)%nat) by (split; repeat constructor).
  destruct Hcase as [(Hr5 & _)|(_ & r8 & cs' & rs' & -> & -> & Hfail & Hbus)].
  { exfalso. apply Hr5.
    apply (f_equal (@rev (Z * Z))) in Gr. rewrite rev_app_distr in Gr.
    vm_compute in Gr. inversion Gr. reflexivity. }
  pose proof (Hbus _ _ Hans Hm) as Hr8.
  destruct (Hfail ltac:(rewrite Hr8; discriminate) ltac:(rewrite Hr8; discriminate))
    as (-> & _ & Hr).
  split; [exact E|]. split; [exact Hans | exact Gc].
Defined.

(** ** The divisor after the register read, and [disk_initialize] *)

Section Initialise.

Context {D : Type}.

Lemma sd_sectors_exact (fuel : nat) (w w1 w2 : world D) (rr : Z) (csd : list Z) :
  _cmdx 9 0 w = Ok 0 w1 -> _read fuel 16 w1 = Ok (rr, csd) w2 ->
  _sd_sectors fuel w = Ok (decoded_sd_sectors csd) (divisor_from csd w2).
Proof.
  intros E1 E2. unfold _sd_sectors.
  rewrite (bind_Ok _ _ _ _ _ E1). cbn [Z.eqb negb].
  rewrite (bind_Ok _ _ _ _ _ E2).
  destruct (read_16_register _ _ _ _ _ E2) as [-> Hreg]. cbn [Z.eqb negb].
  destruct (csd_fields csd Hreg) as (F0 & F1 & F2 & F3 & F4).
  rewrite F0, F1, F2, F3, F4. cbn [lift_option].
  unfold decoded_sd_sectors, divisor_from, bind, ret, modify.
  pose proof (bit_slice_range csd 73 62 ltac:(lia)) as B1.
  pose proof (bit_slice_range csd 49 47 ltac:(lia)) as B2.
  pose proof (bit_slice_range csd 83 80 ltac:(lia)) as B3.
  pose proof (bit_slice_range csd 69 48 ltac:(lia)) as B4.
  destruct (bit_slice csd 127 126 =? 0).
  - rewrite capacity_v0 by assumption. reflexivity.
  - destruct (bit_slice csd 127 126 =? 1).
    + rewrite sectors_v1 by assumption. reflexivity.
    + reflexivity.
Qed.

Lemma sd_sectors_refused (fuel : nat) (w w1 : world D) (r : Z) :
  _cmdx 9 0 w = Ok r w1 -> r <> 0 -> _sd_sectors fuel w = Ok 0 w1.
Proof.
  intros E1 Hr. unfold _sd_sectors. rewrite (bind_Ok _ _ _ _ _ E1).
  destruct (Z.eqb_spec r 0); [contradiction | reflexivity].
Qed.

(** X15. [_sd_sectors] also settles the address divisor.  When the card
    refuses CMD9 it returns 0 sectors, in the state [_cmdx] left.  When the
    register is read, [_cdv] becomes 512 for structure version 0 and 1 for
    version 1, whatever bring-up had chosen, and stays as it was for any
    other version; nothing else changes after the read, and the result is
    the decoded sector count. *)
Theorem sd_sectors_sets_divisor (fuel : nat) (w w1 : world D) (r : Z) :
  _cmdx 9 0 w = Ok r w1 ->
  (r <> 0 -> _sd_sectors fuel w = Ok 0 w1) /\
  (r = 0 ->
   forall rr csd w2,
     _read fuel 16 w1 = Ok (rr, csd) w2 ->
     _sd_sectors fuel w = Ok (decoded_sd_sectors csd) (divisor_from csd w2) /\
     _cdv (divisor_from csd w2) =
     (if bit_slice csd 127 126 =? 0 then 512
      else if bit_slice csd 127 126 =? 1 then 1 else _cdv w)).
Proof.
  intros E1. split.
  - exact (sd_sectors_refused fuel w w1 r E1).
  - intros -> rr csd w2 E2. split; [exact (sd_sectors_exact fuel w w1 w2 rr csd E1 E2)|].
    unfold divisor_from.
    destruct (bit_slice csd 127 126 =? 0); [reflexivity|].
    destruct (bit_slice csd 127 126 =? 1); [reflexivity|].
    apply same_statics_cmdx in E1. apply same_statics_read in E2.
    destruct E1 as (C1 & _). destruct E2 as (C2 & _). congruence.
Qed.

Lemma sd_sectors_run (fuel : nat) (w w' : world D) (s : Z) :
  _sd_sectors fuel w = Ok s w' ->
  (exists r9, grows [(9, 0)] [(9, r9)] w w') /\
  same_but_cdv w w' /\
  (_cdv w' = _cdv w \/ _cdv w' = 512 \/ _cdv w' = 1).
Proof.
  intros H.
  assert (Hkept : same_but_cdv w w').
  { apply (stays_sd_sectors same_but_cdv same_but_cdv_refl same_but_cdv_trans)
      with (a := s) (fuel := fuel); try exact H; intros; repeat split. }
  pose proof H as H0. unfold _sd_sectors in H.
  apply bind_inv in H. destruct H as (r & w1 & E1 & H).
  pose proof (grows_cmdx _ _ _ _ _ E1) as G1.
  destruct (Z.eqb_spec r 0) as [->|Hr]; cbn [negb] in H.
  - apply bind_inv in H. destruct H as ([rr csd] & w2 & E2 & _).
    rewrite (sd_sectors_exact fuel w w1 w2 rr csd E1 E2) in H0.
    inversion H0; subst. clear H0.
    pose proof (same_statics_cmdx _ _ _ _ _ E1) as (C1 & _).
    pose proof (same_statics_read _ _ _ _ _ E2) as (C2 & _).
    apply quiet_read in E2.
    pose proof (grows_trans _ _ _ _ _ _ _ G1 E2) as G. cbn [app] in G.
    split; [|split; [exact Hkept|]].
    + exists 0. destruct G as (xs & Ex & Cx & Rx). exists xs.
      split; [|split; assumption].
      unfold divisor_from.
      destruct (bit_slice csd 127 126 =? 0); [exact Ex|].
      destruct (bit_slice csd 127 126 =? 1); exact Ex.
    + unfold divisor_from.
      destruct (bit_slice csd 127 126 =? 0); [right; left; reflexivity|].
      destruct (bit_slice csd 127 126 =? 1); [right; right; reflexivity|].
      left. congruence.
  - apply ret_inv in H. destruct H as [-> ->].
    split; [exists r; exact G1|]. split; [exact Hkept|].
    left. apply same_statics_cmdx in E1. exact (proj1 E1).
Qed.

(** X16. What [disk_initialize] leaves behind.  It returns 0 or 1.  When
    bring-up fails it returns 1 with [_is_initialized] 0 and divisor and
    sector count untouched.  Otherwise [_is_initialized] is [SDCARD_V1] or
    [SDCARD_V2] and stays so whatever follows, the divisor is 512 or 1, the
    last two commands are CMD9 and CMD16 with argument 512, and the result
    is 0 exactly when CMD16 was answered 0: a refused CMD16 gives 1 with the
    driver still marked initialised.  The table pointer is the caller's in
    every case. *)
Theorem disk_initialize_outcome (fuel : nat) (hal : spisd_hal_t D)
        (w w' : world D) (r : Z) :
  disk_initialize fuel hal w = Ok r w' ->
  spi_hal w' = Some hal /\ init_ok w' = init_ok w /\
  port_storage w' = port_storage w /\
  (r = 1 /\ _is_initialized w' = SDCARD_FAIL /\ _cdv w' = _cdv w /\
   _sectors w' = _sectors w \/
   (_is_initialized w' = SDCARD_V1 \/ _is_initialized w' = SDCARD_V2) /\
   (_cdv w' = 512 \/ _cdv w' = 1) /\
   exists r16 cs rs,
     commands (new_events (trace w) (trace w')) = (16, 512) :: (9, 0) :: cs /\
     responses (new_events (trace w) (trace w')) = (16, r16) :: rs /\
     r = (if r16 =? 0 then 0 else 1)).
Proof.
  intros H. unfold disk_initialize in H.
  apply bind_inv in H. destruct H as (k & w1 & Ei & H).
  apply bind_inv in H. destruct H as (u & w2 & Em & H).
  unfold modify in Em. inversion Em; subst w2; clear Em.
  destruct (initialise_card_result hal w w1 k Ei)
    as (Hk & T1 & _ & S1 & O1 & P1 & cs0 & Gc0).
  destruct (grows_initialise_card hal w w1 k Ei)
    as (q0 & q1 & q2 & q3 & q4 & q5 & csi & rsi & Gi & _).
  destruct (Z.eqb_spec k 0) as [->|Hk0].
  - apply ret_inv in H. destruct H as [-> ->]. cbn.
    repeat (split; [assumption|]). left.
    destruct Hk as [(_ & C)|[(Hx & _)|(Hx & _)]]; try discriminate Hx.
    repeat split; assumption.
  - apply bind_inv in H. destruct H as (s & w3 & Es & H).
    apply bind_inv in H. destruct H as (u' & w4 & Em & H).
    unfold modify in Em. inversion Em; subst w4; clear Em.
    apply bind_inv in H. destruct H as (r16 & w5 & E16 & H).
    destruct (sd_sectors_run fuel _ _ _ Es) as ((r9 & G9) & (I3 & _ & T3 & O3 & P3) & C3).
    cbn in I3, T3, O3, P3, C3.
    pose proof (same_statics_cmd _ _ _ _ _ E16) as (C5 & I5 & _ & T5 & O5 & P5).
    cbn in C5, I5, T5, O5, P5.
    apply grows_cmd in E16.
    assert (Gall : grows ((16, 512) :: (9, 0) :: csi ++ repeat (0, 0) 6)
                         ((16, r16) :: (9, r9) :: rsi ++
                          [(0, q5); (0, q4); (0, q3); (0, q2); (0, q1); (0, q0)])
                         w w5).
    { assert (Ga : grows [] [] w1 (set_is_initialized k w1))
        by (exists []; repeat split).
      assert (Gb : grows [] [] w3 (set_sectors s w3))
        by (exists []; repeat split).
      pose proof (grows_trans _ _ _ _ _ _ _
                   (grows_trans _ _ _ _ _ _ _
                     (grows_trans _ _ _ _ _ _ _
                       (grows_trans _ _ _ _ _ _ _ Gi Ga) G9) Gb) E16) as G.
      cbn [app] in G. exact G. }
    apply grows_new_events in Gall. destruct Gall as [Gc Gr].
    assert (Hres : r = (if r16 =? 0 then 0 else 1) /\ w' = w5).
    { destruct (r16 =? 0); cbn [negb] in H; apply ret_inv in H; exact H. }
    destruct Hres as [-> ->].
    split; [congruence|]. split; [congruence|]. split; [congruence|].
    right. split; [|split].
    + rewrite I5, I3.
      destruct Hk as [(Hx & _)|[(Hx & _)|(Hx & _)]]; subst k;
        [contradiction | left | right]; reflexivity.
    + rewrite C5.
      destruct Hk as [(Hx & _)|[(_ & Hc)|(_ & Hc)]]; [contradiction| |];
        destruct C3 as [C3|[C3|C3]]; rewrite C3; auto.
    + exists r16, (csi ++ repeat (0, 0) 6), ((9, r9) :: rsi ++
               [(0, q5); (0, q4); (0, q3); (0, q2); (0, q1); (0, q0)]).
      repeat split; assumption.
Qed.

End Initialise.

Lemma sd_sectors_sets_divisor_witness :
  exists r w1,
    _cmdx 9 0 (brought_up 0xFF SDCARD_V2 1 (reply_capacity csd_sc_2g)) = Ok r w1 /\
    (r <> 0 ->
     _sd_sectors 4 (brought_up 0xFF SDCARD_V2 1 (reply_capacity csd_sc_2g))
     = Ok 0 w1) /\
    (r = 0 ->
     forall rr csd w2,
       _read 4 16 w1 = Ok (rr, csd) w2 ->
       _sd_sectors 4 (brought_up 0xFF SDCARD_V2 1 (reply_capacity csd_sc_2g))
       = Ok (decoded_sd_sectors csd) (divisor_from csd w2) /\
       _cdv (divisor_from csd w2) =
       (if bit_slice csd 127 126 =? 0 then 512
        else if bit_slice csd 127 126 =? 1 then 1
        else _cdv (brought_up 0xFF SDCARD_V2 1 (reply_capacity csd_sc_2g)))).
Proof.
  run (@_cmdx (list Z) 9 0) (brought_up 0xFF SDCARD_V2 1 (reply_capacity csd_sc_2g)) E.
  eexists _, _. split; [exact E|].
  exact (sd_sectors_sets_divisor 4 _ _ _ E).
Defined.

Lemma disk_initialize_outcome_witness :
  exists r w',
    disk_initialize 4 (scripted_hal 0xFF) (power_on card_rejecting_cmd16 [])
    = Ok r w' /\
    spi_hal w' = Some (scripted_hal 0xFF) /\ init_ok w' = false /\
    port_storage w' = [] /\
    (r = 1 /\ _is_initialized w' = SDCARD_FAIL /\ _cdv w' = 0 /\
     _sectors w' = 0 \/
     (_is_initialized w' = SDCARD_V1 \/ _is_initialized w' = SDCARD_V2) /\
     (_cdv w' = 512 \/ _cdv w' = 1) /\
     exists r16 cs rs,
       commands (new_events [] (trace w')) = (16, 512) :: (9, 0) :: cs /\
       responses (new_events [] (trace w')) = (16, r16) :: rs /\
       r = (if r16 =? 0 then 0 else 1)).
Proof.
  run (@disk_initialize (list Z) 4 (scripted_hal 0xFF))
      (power_on card_rejecting_cmd16 []) E.
  eexists _, _. split; [exact E|].
  exact (disk_initialize_outcome 4 (scripted_hal 0xFF)
           (power_on card_rejecting_cmd16 []) _ _ E).
Defined.

(** ** Requests refused before the bus is touched *)

(** X17. Until [post_init] has set [ctx.init_ok], every one of the five
    handlers returns the invalid-state error and changes nothing: no byte is
    transferred, the byte count is 0 and the size and state out-parameters
    are left alone. *)
Theorem uninitialised_session_refuses {D} (LP64 : bool) (op : rpc_op)
        (fuel : nat) (offset size : Z) (w : world D) :
  init_ok w = false ->
  storage_rpc LP64 op fuel offset size w
  = Ok (mk_rpc OS_ERROR_INVALID_STATE 0 0) w /\
  storage_rpc_getSize fuel w = Ok (OS_ERROR_INVALID_STATE, None) w /\
  storage_rpc_getState w = Ok (OS_ERROR_INVALID_STATE, None) w.
Proof.
  intros Hok. split; [|split].
  - destruct op; cbn [storage_rpc];
      unfold storage_rpc_read, storage_rpc_write, storage_rpc_erase;
      unfold bind at 1; cbn [get]; rewrite Hok; reflexivity.
  - unfold storage_rpc_getSize. unfold bind at 1. cbn [get]. rewrite Hok.
    reflexivity.
  - unfold storage_rpc_getState. unfold bind at 1. cbn [get]. rewrite Hok.
    reflexivity.
Qed.

Lemma uninitialised_session_refuses_witness :
  storage_rpc true OpWrite 4 0 512 (power_on card_good dataport_4k)
  = Ok (mk_rpc OS_ERROR_INVALID_STATE 0 0) (power_on card_good dataport_4k) /\
  storage_rpc_getSize 4 (power_on card_good dataport_4k)
  = Ok (OS_ERROR_INVALID_STATE, None) (power_on card_good dataport_4k) /\
  storage_rpc_getState (power_on card_good dataport_4k)
  = Ok (OS_ERROR_INVALID_STATE, None) (power_on card_good dataport_4k).
Proof.
  exact (uninitialised_session_refuses true OpWrite 4 0 512
           (power_on card_good dataport_4k) eq_refl).
Defined.

(** X18. On an initialised session a request for more bytes than the
    dataport holds is refused with invalid-parameter before anything goes
    over the bus.  An erase with a negative size never reaches the bus
    either, but the error depends on the data model: where [size_t] has 64
    bits the comparison with the dataport size is unsigned and the request is
    an invalid parameter; where it has 32 bits the comparison is signed, the
    request passes it and is then turned down as out of bounds. *)
Theorem oversized_request_refused {D} (LP64 : bool) (fuel : nat)
        (offset size : Z) (w : world D) :
  init_ok w = true ->
  - 2 ^ 63 <= size < 2 ^ 63 -> Z.of_nat (length (port_storage w)) < 2 ^ 63 ->
  (Z.of_nat (length (port_storage w)) < size ->
   forall op, storage_rpc LP64 op fuel offset size w
              = Ok (mk_rpc OS_ERROR_INVALID_PARAMETER 0 0) w) /\
  (size < 0 ->
   storage_rpc LP64 OpErase fuel offset size w
   = Ok (mk_rpc (if LP64 then OS_ERROR_INVALID_PARAMETER
                 else OS_ERROR_OUT_OF_BOUNDS) 0 0) w).
Proof.
  intros Hok Hs Hp. split.
  - intros Hbig op.
    assert (Hgt : (size >? Z.of_nat (length (port_storage w))) = true).
    { rewrite Z.gtb_ltb. apply Z.ltb_lt. exact Hbig. }
    assert (Hgt' : off_t_gt_size_t LP64 size (Z.of_nat (length (port_storage w)))
                   = true).
    { unfold off_t_gt_size_t. destruct LP64; [|exact Hgt].
      rewrite Z.mod_small; [exact Hgt|].
      split; [lia|]. apply Z.lt_trans with (2 ^ 63); [lia | reflexivity]. }
    destruct op; cbn [storage_rpc];
      unfold storage_rpc_read, storage_rpc_write, storage_rpc_erase;
      unfold bind at 1; cbn [get]; rewrite Hok; cbn [negb];
      unfold bind at 1; unfold OS_Dataport_getSize at 1; cbn [get];
      rewrite ?Hgt, ?Hgt'; reflexivity.
  - intros Hneg. cbn [storage_rpc]. unfold storage_rpc_erase.
    unfold bind at 1. cbn [get]. rewrite Hok. cbn [negb].
    unfold bind at 1. unfold OS_Dataport_getSize at 1. cbn [get].
    unfold off_t_gt_size_t. destruct LP64.
    + assert (Hm : size mod 2 ^ 64 = size + 2 ^ 64).
      { symmetry. apply Z.mod_unique with (-1); [left|];
          change (2 ^ 64) with 18446744073709551616;
          change (2 ^ 63) with 9223372036854775808 in *; lia. }
      rewrite Hm.
      assert (Hgt : (size + 2 ^ 64 >? Z.of_nat (length (port_storage w))) = true).
      { rewrite Z.gtb_ltb. apply Z.ltb_lt.
        change (2 ^ 64) with 18446744073709551616;
          change (2 ^ 63) with 9223372036854775808 in *; lia. }
      rewrite Hgt. reflexivity.
    + assert (Hgt : (size >? Z.of_nat (length (port_storage w))) = false).
      { rewrite Z.gtb_ltb. apply Z.ltb_ge. lia. }
      rewrite Hgt. unfold isValidMSDArea.
      assert (Hsz : (size >=? 0) = false).
      { rewrite Z.geb_leb. apply Z.leb_gt. exact Hneg. }
      rewrite Hsz, andb_false_r. cbn [andb]. reflexivity.
Qed.

Lemma oversized_request_refused_witness :
  (Z.of_nat (length (port_storage
                       (mk_world card_good [] 1 SDCARD_V2 4195328
                                 (Some (scripted_hal 0xFF)) true dataport_4k)))
   < 4097 ->
   forall op,
     storage_rpc false op 4 0 4097
                 (mk_world card_good [] 1 SDCARD_V2 4195328
                           (Some (scripted_hal 0xFF)) true dataport_4k)
     = Ok (mk_rpc OS_ERROR_INVALID_PARAMETER 0 0)
          (mk_world card_good [] 1 SDCARD_V2 4195328
                    (Some (scripted_hal 0xFF)) true dataport_4k)) /\
  (4097 < 0 ->
   storage_rpc false OpErase 4 0 4097
               (mk_world card_good [] 1 SDCARD_V2 4195328
                         (Some (scripted_hal 0xFF)) true dataport_4k)
   = Ok (mk_rpc OS_ERROR_OUT_OF_BOUNDS 0 0)
        (mk_world card_good [] 1 SDCARD_V2 4195328
                  (Some (scripted_hal 0xFF)) true dataport_4k)).
Proof.
  assert (H1 : - 2 ^ 63 <= 4097 < 2 ^ 63) by (split; closed_numbers).
  assert (H2 : Z.of_nat (length (port_storage
                 (mk_world card_good [] 1 SDCARD_V2 4195328
                           (Some (scripted_hal 0xFF)) true dataport_4k))) < 2 ^ 63)
    by closed_numbers.
  exact (oversized_request_refused false 4 0 4097
           (mk_world card_good [] 1 SDCARD_V2 4195328
                     (Some (scripted_hal 0xFF)) true dataport_4k)
           eq_refl H1 H2).
Defined.

(** ** What a request leaves alone *)

Lemma same_driver_refl {D} (w : world D) : same_driver w w.
Proof. repeat split. Qed.

Lemma same_driver_trans {D} (w1 w2 w3 : world D) :
  same_driver w1 w2 -> same_driver w2 w3 -> same_driver w1 w3.
Proof.
  intros (A1 & A2 & A3 & A4 & A5) (B1 & B2 & B3 & B4 & B5).
  repeat split; congruence.
Qed.

Section Request_invariants.

Context {D : Type}.
Variable LP64 : bool.
Variable P : world D -> world D -> Prop.
Hypothesis P_refl : forall w, P w w.
Hypothesis P_trans : forall w1 w2 w3, P w1 w2 -> P w2 w3 -> P w1 w3.
Hypothesis P_bus :
  forall w d e, bus_event e = true -> P w (log e (set_dev d w)).
Hypothesis P_log : forall w e, P w (log e w).
Hypothesis P_port : forall w p, P w (set_port_storage p w).

(** One step through handler code, chosen by the shape of the goal. *)
Ltac request_step :=
  match goal with
  | H : stays _ ?m |- stays _ ?m => exact H
  | |- stays _ (if ?b then _ else _) => destruct b
  | |- stays _ (match ?x with _ => _ end) => destruct x
  | |- stays _ (ret _) => apply (stays_ret P P_refl)
  | |- stays _ (diverge _) => apply (stays_diverge P)
  | |- stays _ (get _) => apply (stays_get P P_refl)
  | |- stays _ OS_Dataport_getSize => apply (stays_get P P_refl)
  | |- stays _ OS_Dataport_getBuf => apply (stays_get P P_refl)
  | |- stays _ (modify (set_port_storage _)) =>
      apply stays_modify; intros ?; apply P_port
  | |- stays _ (_read _ _) => apply (stays_read P P_refl P_trans P_bus)
  | |- stays _ (_write _ _ _) => apply (stays_write P P_refl P_trans P_bus)
  | |- stays _ (_cmd _ _) => apply (stays_cmd P P_refl P_trans P_bus P_log)
  | |- stays _ (disk_capacity _) =>
      apply (stays_disk_capacity P P_refl P_trans P_bus P_log)
  | |- stays _ (bind _ _) => apply (stays_bind P P_trans); [|intros ?]
  end.

Lemma stays_disk_write_loop (n fuel : nat) :
  forall (b limit : Z) (buffer : list Z),
    stays P (disk_write_loop n fuel b limit buffer).
Proof.
  induction n as [|n IH]; intros b limit buffer; cbn [disk_write_loop];
    repeat first [request_step | apply IH].
Qed.

Lemma stays_disk_read_loop (n fuel : nat) :
  forall (b limit : Z) (buffer : list Z) (pos : Z),
    stays P (disk_read_loop n fuel b limit buffer pos).
Proof.
  induction n as [|n IH]; intros b limit buffer pos; cbn [disk_read_loop];
    repeat first [request_step | apply IH].
Qed.

Lemma stays_disk_write (fuel : nat) (buffer : list Z) (block_number count : Z) :
  stays P (disk_write fuel buffer block_number count).
Proof.
  unfold disk_write. repeat request_step. apply stays_disk_write_loop.
Qed.

Lemma stays_disk_read (fuel : nat) (buffer : list Z) (block_number count : Z) :
  stays P (disk_read fuel buffer block_number count).
Proof.
  unfold disk_read. repeat request_step. apply stays_disk_read_loop.
Qed.

Lemma stays_area (fuel : nat) (offset size : Z) :
  stays P (isValidMSDArea fuel offset size).
Proof. unfold isValidMSDArea. cbv zeta. repeat request_step. Qed.

Ltac block_step :=
  match goal with
  | |- stays _ (disk_read _ _ _ _) => apply stays_disk_read
  | |- stays _ (disk_write _ _ _ _) => apply stays_disk_write
  | |- stays _ (isValidMSDArea _ _ _) => apply stays_area
  | _ => request_step
  end.

Lemma stays_write_remaining (n fuel : nat) :
  forall (size bytesWritten sector : Z) (buffer block : list Z),
    stays P (write_remaining n fuel size bytesWritten sector buffer block).
Proof.
  induction n as [|n IH]; intros size bytesWritten sector buffer block;
    cbn [write_remaining]; cbv zeta; repeat first [block_step | apply IH].
Qed.

Lemma stays_erase_remaining (n fuel : nat) :
  forall (size bytesErased sector : Z) (block : list Z),
    stays P (erase_remaining n fuel size bytesErased sector block).
Proof.
  induction n as [|n IH]; intros size bytesErased sector block;
    cbn [erase_remaining]; cbv zeta; repeat first [block_step | apply IH].
Qed.

Lemma stays_read_remaining (n fuel : nat) :
  forall (size bytesRead sector : Z) (block : list Z),
    stays P (read_remaining n fuel size bytesRead sector block).
Proof.
  induction n as [|n IH]; intros size bytesRead sector block;
    cbn [read_remaining]; cbv zeta; repeat first [block_step | apply IH].
Qed.

Ltac loop_step :=
  match goal with
  | |- stays _ (write_remaining _ _ _ _ _ _ _) => apply stays_write_remaining
  | |- stays _ (read_remaining _ _ _ _ _ _) => apply stays_read_remaining
  | |- stays _ (erase_remaining _ _ _ _ _ _) => apply stays_erase_remaining
  | _ => block_step
  end.

Lemma stays_rpc_write (fuel : nat) (offset size : Z) :
  stays P (storage_rpc_write fuel offset size).
Proof. unfold storage_rpc_write. cbv zeta. repeat loop_step. Qed.

Lemma stays_rpc_erase (fuel : nat) (offset size : Z) :
  stays P (storage_rpc_erase LP64 fuel offset size).
Proof. unfold storage_rpc_erase. cbv zeta. repeat loop_step. Qed.

Lemma stays_rpc_read (fuel : nat) (offset size : Z) :
  stays P (storage_rpc_read fuel offset size).
Proof. unfold storage_rpc_read. cbv zeta. repeat loop_step. Qed.

End Request_invariants.

(** X19. No request touches the state of the driver.  Whatever a read,
    write or erase request does on the bus and however it
    ends, the divisor, the sector count, the initialisation mark of the
    driver, the table pointer and the session flag are afterwards what they
    were; write and erase requests leave the dataport as it was too. *)
Theorem requests_keep_driver_state {D} (LP64 : bool) (op : rpc_op) (fuel : nat)
        (offset size : Z) (w w' : world D) (res : rpc_result) :
  storage_rpc LP64 op fuel offset size w = Ok res w' ->
  same_driver w w' /\
  (op <> OpRead -> port_storage w' = port_storage w).
Proof.
  intros H. split.
  - destruct op; cbn [storage_rpc] in H; revert H;
      [ apply (stays_rpc_read same_driver)
      | apply (stays_rpc_write same_driver)
      | apply (stays_rpc_erase LP64 same_driver) ];
      try exact same_driver_refl; try exact same_driver_trans;
      intros; repeat split.
  - intros Hop. destruct op; cbn [storage_rpc] in H; [contradiction| |]; revert H;
      [ apply (stays_rpc_write (fun w w' => port_storage w' = port_storage w))
      | apply (stays_rpc_erase LP64 (fun w w' => port_storage w' = port_storage w)) ];
      try (intros; reflexivity); intros; congruence.
Qed.

Lemma requests_keep_driver_state_witness :
  exists w res w',
    post_init 4 1 (scripted_hal 0xFF)
              (power_on card_then_write_513 dataport_4k) = Ok tt w /\
    storage_rpc false OpWrite 4 0 513 w = Ok res w' /\
    same_driver w w' /\
    (OpWrite <> OpRead -> port_storage w' = port_storage w).
Proof.
  run (@post_init (list Z) 4 1 (scripted_hal 0xFF))
      (power_on card_then_write_513 dataport_4k) E1.
  match type of E1 with
  | _ = Ok _ ?w => run (@storage_rpc (list Z) false OpWrite 4 0 513) w E2
  end.
  eexists _, _, _. split; [exact E1|]. split; [exact E2|].
  exact (requests_keep_driver_state false OpWrite 4 0 513 _ _ _ E2).
Defined.

(** ** Byte counts of successful requests *)

Lemma s32_small (x : Z) : - 2 ^ 31 <= x < 2 ^ 31 -> s32 x = x.
Proof.
  intros H. unfold s32. change (2 ^ 31) with 2147483648 in *.
  change (2 ^ 32) with 4294967296. rewrite Z.mod_small; lia.
Qed.

Lemma first_sector (offset : Z) :
  0 <= offset < 2 ^ 41 ->
  u32 (Z.quot offset disk_block_size) = offset / 512 /\
  0 <= offset - offset / 512 * 512 < 512.
Proof.
  intros H. unfold disk_block_size, BLOCK_SIZE.
  rewrite Z.quot_div_nonneg by lia.
  change (2 ^ 41) with (4294967296 * 512) in H.
  assert (0 <= offset / 512 < 4294967296).
  { split; [apply Z.div_pos; lia | apply Z.div_lt_upper_bound; lia]. }
  split; [apply u32_small; change (2 ^ 32) with 4294967296; lia|].
  pose proof (Z.mod_pos_bound offset 512 ltac:(lia)).
  rewrite Z.mod_eq in * by lia. lia.
Qed.

Lemma first_chunk (offset size : Z) :
  0 <= offset < 2 ^ 41 -> 0 < size ->
  1 <= nbr_of_bytes offset (u32 (Z.quot offset disk_block_size)) size <= 512 /\
  nbr_of_bytes offset (u32 (Z.quot offset disk_block_size)) size <= size.
Proof.
  intros Ho Hs. destruct (first_sector offset Ho) as [-> Hr].
  unfold nbr_of_bytes, disk_block_size, BLOCK_SIZE.
  destruct (Z.leb_spec size (512 - (offset - offset / 512 * 512))); lia.
Qed.

Section Counts.

Context {D : Type}.
Variable LP64 : bool.

Lemma write_remaining_count (n fuel : nat) :
  forall (size bw sector : Z) (buffer block : list Z) (w w' : world D)
         (size' bw' sector' : Z) (buffer' block' : list Z),
    write_remaining n fuel size bw sector buffer block w
    = Ok (inr (size', bw', sector', buffer', block')) w' ->
    0 <= bw -> 0 <= size -> bw + size < 2 ^ 31 ->
    bw' + size' = bw + size /\ 0 <= size' <= 512 /\ 0 <= bw'.
Proof.
  induction n as [|n IH];
    intros size bw sector buffer block w w' size' bw' sector' buffer' block' H Hb Hs Ht;
    cbn [write_remaining] in H; unfold disk_block_size, BLOCK_SIZE in H;
    destruct (Z.gtb_spec size 512) as [Hgt|Hle].
  - discriminate H.
  - apply ret_inv in H. destruct H as [H _]. inversion H; subst. lia.
  - cbv zeta in H. apply bind_inv in H. destruct H as (r & w1 & _ & H).
    destruct (negb (r =? 0)).
    + apply ret_inv in H. destruct H as [H _]. discriminate H.
    + rewrite (s32_small (bw + 512)) in H
        by (change (2 ^ 31) with 2147483648 in *; lia).
      apply IH in H; lia.
  - apply ret_inv in H. destruct H as [H _]. inversion H; subst. lia.
Qed.

Lemma read_remaining_count (n fuel : nat) :
  forall (size br sector : Z) (block : list Z) (w w' : world D)
         (size' br' sector' : Z) (block' : list Z),
    read_remaining n fuel size br sector block w
    = Ok (inr (size', br', sector', block')) w' ->
    0 <= br -> 0 <= size -> br + size < 2 ^ 31 ->
    br' + size' = br + size /\ 0 <= size' <= 512 /\ 0 <= br'.
Proof.
  induction n as [|n IH];
    intros size br sector block w w' size' br' sector' block' H Hb Hs Ht;
    cbn [read_remaining] in H; unfold disk_block_size, BLOCK_SIZE in H;
    destruct (Z.gtb_spec size 512) as [Hgt|Hle].
  - discriminate H.
  - apply ret_inv in H. destruct H as [H _]. inversion H; subst. lia.
  - cbv zeta in H. apply bind_inv in H. destruct H as ([r blk] & w1 & _ & H).
    destruct (negb (r =? 0)).
    + apply ret_inv in H. destruct H as [H _]. discriminate H.
    + apply bind_inv in H. destruct H as (port & w2 & _ & H).
      apply bind_inv in H. destruct H as (u & w3 & _ & H).
      rewrite (s32_small (br + 512)) in H
        by (change (2 ^ 31) with 2147483648 in *; lia).
      apply IH in H; lia.
  - apply ret_inv in H. destruct H as [H _]. inversion H; subst. lia.
Qed.

Lemma erase_remaining_count (n fuel : nat) :
  forall (size be sector : Z) (block : list Z) (w w' : world D)
         (size' be' sector' : Z) (block' : list Z),
    erase_remaining n fuel size be sector block w
    = Ok (inr (size', be', sector', block')) w' ->
    0 <= be -> 0 <= size ->
    be' + size' = be + size /\ 0 <= size' <= 512 /\ 0 <= be'.
Proof.
  induction n as [|n IH];
    intros size be sector block w w' size' be' sector' block' H Hb Hs;
    cbn [erase_remaining] in H; unfold disk_block_size, BLOCK_SIZE in H;
    destruct (Z.gtb_spec size 512) as [Hgt|Hle].
  - discriminate H.
  - apply ret_inv in H. destruct H as [H _]. inversion H; subst. lia.
  - cbv zeta in H. apply bind_inv in H. destruct H as (r & w1 & _ & H).
    destruct (negb (r =? 0)).
    + apply ret_inv in H. destruct H as [H _]. discriminate H.
    + apply IH in H; lia.
  - apply ret_inv in H. destruct H as [H _]. inversion H; subst. lia.
Qed.

Ltac to_props :=
  repeat match goal with
         | H : (_ >? _) = true |- _ => rewrite Z.gtb_ltb in H; apply Z.ltb_lt in H
         | H : (_ >? _) = false |- _ => rewrite Z.gtb_ltb in H; apply Z.ltb_ge in H
         end.

(** Close one successful ending of a handler: the first chunk is between 1
    and 512 bytes, the loop keeps the sum of the counter and the bytes left,
    and no counter leaves the range of [int]. *)
Ltac count_done Ho loop :=
  cbn [out_bytes]; to_props; change (2 ^ 31) with 2147483648 in *;
  first
    [ lia
    | match goal with
      | E : context [nbr_of_bytes ?o ?s ?n] |- _ =>
          let F := fresh "F" in
          let Hn := fresh "Hn" in
          assert (F : 0 < n) by lia;
          apply (first_chunk o n Ho) in F;
          remember (nbr_of_bytes o s n) as nbr eqn:Hn; clear Hn
      end;
      rewrite ?Z.add_0_l in *;
      repeat match goal with
             | E : context [s32 ?x] |- _ =>
                 rewrite (s32_small x) in E
                   by (change (2 ^ 31) with 2147483648; lia)
             end;
      match goal with
      | E : _ = Ok (inr _) _ |- _ =>
          apply loop in E; [|change (2 ^ 31) with 2147483648; lia ..]
      end;
      rewrite ?s32_small by (change (2 ^ 31) with 2147483648; lia);
      lia ].

Lemma write_reports_size (fuel : nat) (offset size : Z) (w w' : world D)
      (res : rpc_result) :
  storage_rpc_write fuel offset size w = Ok res w' ->
  status res = OS_SUCCESS -> 0 <= offset < 2 ^ 41 -> 0 <= size < 2 ^ 31 ->
  out_bytes res = size.
Proof.
  unfold storage_rpc_write. intros H Hs Ho Hz. unravel H;
    try discriminate Hs; count_done Ho write_remaining_count.
Qed.

Lemma read_reports_size (fuel : nat) (offset size : Z) (w w' : world D)
      (res : rpc_result) :
  storage_rpc_read fuel offset size w = Ok res w' ->
  status res = OS_SUCCESS -> 0 <= offset < 2 ^ 41 -> 0 <= size < 2 ^ 31 ->
  out_bytes res = size.
Proof.
  unfold storage_rpc_read. intros H Hs Ho Hz. unravel H;
    try discriminate Hs; count_done Ho read_remaining_count.
Qed.

Lemma erase_reports_size (fuel : nat) (offset size : Z) (w w' : world D)
      (res : rpc_result) :
  storage_rpc_erase LP64 fuel offset size w = Ok res w' ->
  status res = OS_SUCCESS -> 0 <= offset < 2 ^ 41 -> 0 <= size < 2 ^ 31 ->
  out_bytes res = size.
Proof.
  unfold storage_rpc_erase. intros H Hs Ho Hz. unravel H;
    try discriminate Hs; count_done Ho erase_remaining_count.
Qed.

End Counts.

(** X20. A request that succeeds reports the whole size.  For offsets
    below 2^41 and sizes below 2^31, when a read, write or erase request
    returns success its bytes-transferred out-parameter is exactly the size
    asked for: the first partial block, the whole blocks and the last partial
    block add up, wherever the range starts and ends. *)
Theorem successful_request_reports_size {D} (LP64 : bool) (op : rpc_op)
        (fuel : nat) (offset size : Z) (w w' : world D) (res : rpc_result) :
  storage_rpc LP64 op fuel offset size w = Ok res w' ->
  status res = OS_SUCCESS -> 0 <= offset < 2 ^ 41 -> 0 <= size < 2 ^ 31 ->
  out_bytes res = size.
Proof.
  intros H. destruct op; cbn [storage_rpc] in H.
  - exact (read_reports_size fuel offset size w w' res H).
  - exact (write_reports_size fuel offset size w w' res H).
  - exact (erase_reports_size LP64 fuel offset size w w' res H).
Qed.

Lemma successful_request_reports_size_witness :
  exists w res w',
    post_init 4 1 (scripted_hal 0xFF)
              (power_on card_cmd16_then_write dataport_4k) = Ok tt w /\
    storage_rpc false OpWrite 4 0 1 w = Ok res w' /\
    status res = OS_SUCCESS /\ out_bytes res = 1.
Proof.
  run (@post_init (list Z) 4 1 (scripted_hal 0xFF))
      (power_on card_cmd16_then_write dataport_4k) E1.
  match type of E1 with
  | _ = Ok _ ?w => run (@storage_rpc (list Z) false OpWrite 4 0 1) w E2
  end.
  eexists _, _, _. split; [exact E1|]. split; [exact E2|].
  split; [reflexivity|].
  assert (H1 : 0 <= 0 < 2 ^ 41) by (split; closed_numbers).
  assert (H2 : 0 <= 1 < 2 ^ 31) by (split; closed_numbers).
  exact (successful_request_reports_size false OpWrite 4 0 1 _ _ _ E2 eq_refl H1 H2).
Defined.

(** ** The sectors a request touches *)

Lemma first_chunk_end (offset size : Z) :
  0 <= offset < 2 ^ 41 -> 0 < size ->
  1 <= nbr_of_bytes offset (offset / 512) size <= size /\
  (nbr_of_bytes offset (offset / 512) size < size ->
   offset + nbr_of_bytes offset (offset / 512) size = (offset / 512 + 1) * 512).
Proof.
  intros Ho Hs. destruct (first_sector offset Ho) as [_ Hr].
  unfold nbr_of_bytes, disk_block_size, BLOCK_SIZE.
  destruct (Z.leb_spec size (512 - (offset - offset / 512 * 512))); lia.
Qed.

Ltac numbers :=
  change (2 ^ 32) with 4294967296 in *;
  change (2 ^ 41) with 2199023255552 in *;
  change (2 ^ 63) with 9223372036854775808 in *;
  first [ assumption | lia | Z.div_mod_to_equations; lia ].

Ltac as_props :=
  repeat match goal with
         | H : (_ >? _) = true |- _ => rewrite Z.gtb_ltb in H; apply Z.ltb_lt in H
         | H : (_ >? _) = false |- _ => rewrite Z.gtb_ltb in H; apply Z.ltb_ge in H
         end.

Section Confined.

Context {D : Type}.
Variables (writes : bool) (lo hi : Z).

Lemma confined_refl (w : world D) : confined writes lo hi w w.
Proof.
  split; [reflexivity|]. exists [], []. split; [apply grows_refl | constructor].
Qed.

Lemma confined_trans (w1 w2 w3 : world D) :
  confined writes lo hi w1 w2 -> confined writes lo hi w2 w3 ->
  confined writes lo hi w1 w3.
Proof.
  intros (C1 & cs1 & rs1 & G1 & F1) (C2 & cs2 & rs2 & G2 & F2).
  split; [congruence|]. exists (cs2 ++ cs1), (rs2 ++ rs1).
  split; [exact (grows_trans _ _ _ _ _ _ _ G1 G2)|].
  apply Forall_app. split; [|exact F1]. rewrite <- C1. exact F2.
Qed.

Lemma confined_get {A} (f : world D -> A) (a : A) (w w' : world D) :
  get f w = Ok a w' -> confined writes lo hi w w'.
Proof. intros H. unfold get in H. inversion H; subst. apply confined_refl. Qed.

Lemma confined_set_port (p : list Z) (u : unit) (w w' : world D) :
  modify (set_port_storage p) w = Ok u w' -> confined writes lo hi w w'.
Proof.
  intros H. unfold modify in H. inversion H; subst.
  split; [reflexivity|]. exists [], [].
  split; [exists []; repeat split | constructor].
Qed.

Lemma confined_area (fuel : nat) (offset size : Z) (b : bool) (w w' : world D) :
  isValidMSDArea fuel offset size w = Ok b w' -> confined writes lo hi w w'.
Proof.
  intros H. split.
  - revert H. apply (stays_area (fun w w' : world D => _cdv w' = _cdv w));
      try (intros; reflexivity). intros; congruence.
  - unfold isValidMSDArea in H. cbv zeta in H.
    destruct ((offset >=? 0) && (size >=? 0) && (s64 (offset + size) >=? offset)).
    + apply bind_inv in H. destruct H as (cap & w1 & E & H).
      apply ret_inv in H. destruct H as [_ ->].
      destruct (disk_capacity_log _ _ _ _ E) as (r & G).
      exists [(9, 0)], [(9, r)]. split; [exact G|].
      constructor; [left; reflexivity | constructor].
    + apply ret_inv in H. destruct H as [_ ->].
      exists [], []. split; [apply grows_refl | constructor].
Qed.

Lemma confined_block_run (c s r : Z) (w w' : world D) :
  c = 17 \/ c = 24 /\ writes = true -> lo <= s <= hi ->
  same_statics w w' -> block_run c (_cdv w) s 1 r w w' ->
  confined writes lo hi w w'.
Proof.
  intros Hc Hs St R. split; [exact (proj1 St)|].
  assert (Hone : Forall (allowed writes (_cdv w) lo hi) (addressed c (_cdv w) s 1)).
  { unfold addressed. cbn [seq map rev app].
    constructor; [|constructor]. right. split; [exact Hc|].
    exists s. split; [exact Hs|]. cbn [snd].
    change (Z.of_nat 0) with 0. rewrite Z.add_0_r. reflexivity. }
  destruct R as [(_ & G)|(_ & k & x & Hk & _ & G)].
  - eexists _, _. split; [exact G | exact Hone].
  - assert (k = 0%nat) by lia. subst k.
    eexists _, _. split; [exact G | exact Hone].
Qed.

Lemma confined_disk_read (fuel : nat) (buffer : list Z) (s r : Z)
      (buffer' : list Z) (w w' : world D) :
  disk_read fuel buffer s 1 w = Ok (r, buffer') w' ->
  0 <= s -> s + 1 < 2 ^ 32 -> lo <= s <= hi ->
  confined writes lo hi w w'.
Proof.
  intros H H0 H1 Hs. unfold disk_read in H.
  apply bind_inv in H. destruct H as (i & w0 & Eg & H).
  unfold get in Eg. inversion Eg; subst i w0. clear Eg.
  destruct (_is_initialized w =? 0).
  - apply ret_inv in H. destruct H as [_ ->]. apply confined_refl.
  - rewrite (u32_small s), (s64_small (s + 1)) in H by numbers.
    apply disk_read_loop_run in H; [|exact H0|exact H1].
    destruct H as (St & R).
    replace (Z.to_nat (s + 1 - s)) with 1%nat in R by lia.
    apply (confined_block_run 17 s r); auto.
Qed.

End Confined.

Section Confined_writes.

Context {D : Type}.
Variables (LP64 : bool) (lo hi stop : Z).
Hypothesis lo_pos : 0 <= lo.
Hypothesis stop_fits : stop <= 2 ^ 41 - 512.
Hypothesis hi_last : hi = (stop - 1) / 512.

Lemma confined_disk_write (fuel : nat) (buffer : list Z) (s r : Z)
      (w w' : world D) :
  disk_write fuel buffer s 1 w = Ok r w' ->
  0 <= s -> s + 1 < 2 ^ 32 -> lo <= s <= hi ->
  confined true lo hi w w'.
Proof.
  intros H H0 H1 Hs. unfold disk_write in H.
  apply bind_inv in H. destruct H as (i & w0 & Eg & H).
  unfold get in Eg. inversion Eg; subst i w0. clear Eg.
  destruct (_is_initialized w =? 0).
  - apply ret_inv in H. destruct H as [_ ->]. apply confined_refl.
  - rewrite (u32_small s), (s64_small (s + 1)) in H by numbers.
    apply disk_write_loop_run in H; [|exact H0|exact H1].
    destruct H as (St & R).
    replace (Z.to_nat (s + 1 - s)) with 1%nat in R by lia.
    apply (confined_block_run true lo hi 24 s r); auto.
Qed.

(** A sector the loops reach lies within the request. *)
Lemma loop_sector (size sector : Z) :
  loop_state lo stop size sector -> 0 < size ->
  u32 (sector + 1) = sector + 1 /\ 0 <= sector + 1 /\
  sector + 1 + 1 < 2 ^ 32 /\ lo <= sector + 1 <= hi.
Proof.
  intros (H0 & Hl & He) Hs. specialize (He Hs).
  assert (Hr : 0 <= sector + 1 /\ sector + 1 + 1 < 2 ^ 32 /\ lo <= sector + 1 <= hi)
    by (rewrite hi_last; numbers).
  split; [apply u32_small; numbers | exact Hr].
Qed.

Lemma loop_state_next (size sector : Z) :
  loop_state lo stop size sector -> 512 < size ->
  loop_state lo stop (size - 512) (sector + 1).
Proof. intros (H0 & Hl & He) Hs. repeat split; lia. Qed.

Lemma write_remaining_confined (n fuel : nat) :
  forall (size bw sector : Z) (buffer block : list Z) (w w' : world D)
         (st : Z + Z * Z * Z * list Z * list Z),
    write_remaining n fuel size bw sector buffer block w = Ok st w' ->
    loop_state lo stop size sector ->
    confined true lo hi w w' /\
    match st with
    | inl _ => True
    | inr (size', _, sector', _, _) =>
        loop_state lo stop size' sector' /\ size' <= 512
    end.
Proof.
  induction n as [|n IH]; intros size bw sector buffer block w w' st H Hst;
    cbn [write_remaining] in H; unfold disk_block_size, BLOCK_SIZE in H;
    destruct (Z.gtb_spec size 512) as [Hgt|Hle].
  - discriminate H.
  - apply ret_inv in H. destruct H as [-> ->].
    split; [apply confined_refl | split; [exact Hst | exact Hle]].
  - cbv zeta in H.
    destruct (loop_sector size sector Hst ltac:(lia)) as (Hu & Hs0 & Hs1 & Hs).
    rewrite Hu in H.
    apply bind_inv in H. destruct H as (r & w1 & E & H).
    apply confined_disk_write in E; try assumption.
    destruct (negb (r =? 0)).
    + apply ret_inv in H. destruct H as [-> ->]. split; [exact E | exact I].
    + apply IH in H; [|exact (loop_state_next size sector Hst Hgt)].
      destruct H as [C Hpost].
      split; [exact (confined_trans true lo hi _ _ _ E C) | exact Hpost].
  - apply ret_inv in H. destruct H as [-> ->].
    split; [apply confined_refl | split; [exact Hst | exact Hle]].
Qed.

Lemma erase_remaining_confined (n fuel : nat) :
  forall (size be sector : Z) (block : list Z) (w w' : world D)
         (st : Z + Z * Z * Z * list Z),
    erase_remaining n fuel size be sector block w = Ok st w' ->
    loop_state lo stop size sector ->
    confined true lo hi w w' /\
    match st with
    | inl _ => True
    | inr (size', _, sector', _) =>
        loop_state lo stop size' sector' /\ size' <= 512
    end.
Proof.
  induction n as [|n IH]; intros size be sector block w w' st H Hst;
    cbn [erase_remaining] in H; unfold disk_block_size, BLOCK_SIZE in H;
    destruct (Z.gtb_spec size 512) as [Hgt|Hle].
  - discriminate H.
  - apply ret_inv in H. destruct H as [-> ->].
    split; [apply confined_refl | split; [exact Hst | exact Hle]].
  - cbv zeta in H.
    destruct (loop_sector size sector Hst ltac:(lia)) as (Hu & Hs0 & Hs1 & Hs).
    rewrite Hu in H.
    apply bind_inv in H. destruct H as (r & w1 & E & H).
    apply confined_disk_write in E; try assumption.
    destruct (negb (r =? 0)).
    + apply ret_inv in H. destruct H as [-> ->]. split; [exact E | exact I].
    + apply IH in H; [|exact (loop_state_next size sector Hst Hgt)].
      destruct H as [C Hpost].
      split; [exact (confined_trans true lo hi _ _ _ E C) | exact Hpost].
  - apply ret_inv in H. destruct H as [-> ->].
    split; [apply confined_refl | split; [exact Hst | exact Hle]].
Qed.

Lemma read_remaining_confined (writes : bool) (n fuel : nat) :
  forall (size br sector : Z) (block : list Z) (w w' : world D)
         (st : Z + Z * Z * Z * list Z),
    read_remaining n fuel size br sector block w = Ok st w' ->
    loop_state lo stop size sector ->
    confined writes lo hi w w' /\
    match st with
    | inl _ => True
    | inr (size', _, sector', _) =>
        loop_state lo stop size' sector' /\ size' <= 512
    end.
Proof.
  induction n as [|n IH]; intros size br sector block w w' st H Hst;
    cbn [read_remaining] in H; unfold disk_block_size, BLOCK_SIZE in H;
    destruct (Z.gtb_spec size 512) as [Hgt|Hle].
  - discriminate H.
  - apply ret_inv in H. destruct H as [-> ->].
    split; [apply confined_refl | split; [exact Hst | exact Hle]].
  - cbv zeta in H.
    destruct (loop_sector size sector Hst ltac:(lia)) as (Hu & Hs0 & Hs1 & Hs).
    rewrite Hu in H.
    apply bind_inv in H. destruct H as ([r blk] & w1 & E & H).
    apply (confined_disk_read writes lo hi) in E; try assumption.
    destruct (negb (r =? 0)).
    + apply ret_inv in H. destruct H as [-> ->]. split; [exact E | exact I].
    + apply bind_inv in H. destruct H as (port & w2 & Eg & H).
      apply bind_inv in H. destruct H as (u & w3 & Em & H).
      apply (confined_get writes lo hi) in Eg.
      apply (confined_set_port writes lo hi) in Em.
      apply IH in H; [|exact (loop_state_next size sector Hst Hgt)].
      destruct H as [C Hpost].
      split; [|exact Hpost].
      exact (confined_trans _ _ _ _ _ _ E
               (confined_trans _ _ _ _ _ _ Eg
                  (confined_trans _ _ _ _ _ _ Em C))).
  - apply ret_inv in H. destruct H as [-> ->].
    split; [apply confined_refl | split; [exact Hst | exact Hle]].
Qed.

End Confined_writes.

(** Turn what is known about each step of a finished request into
    [confined] facts, and chain them. *)
Ltac loop_confined E offset size :=
  first [ apply write_remaining_confined
            with (lo := offset / 512) (hi := (offset + size - 1) / 512)
                 (stop := offset + size) in E
        | apply erase_remaining_confined
            with (lo := offset / 512) (hi := (offset + size - 1) / 512)
                 (stop := offset + size) in E
        | apply read_remaining_confined
            with (writes := false)
                 (lo := offset / 512) (hi := (offset + size - 1) / 512)
                 (stop := offset + size) in E ].

Ltac confine wr offset size Ho :=
  as_props;
  let Hsec := fresh "Hsec" in
  let Hrem := fresh "Hrem" in
  destruct (first_sector offset Ho) as [Hsec Hrem];
  rewrite ?Hsec in *; unfold disk_block_size, BLOCK_SIZE in *;
  try match goal with
      | E : context [nbr_of_bytes ?o ?s ?n] |- _ =>
          let F := fresh "F" in
          let Hn := fresh "Hn" in
          assert (F : 0 < n) by lia;
          apply (first_chunk_end o n Ho) in F;
          remember (nbr_of_bytes o s n) as nbr eqn:Hn; clear Hn
      end;
  try match goal with
      | E : _ = Ok (inl _) _ |- _ =>
          loop_confined E offset size;
          [ destruct E as [E _]
          | first [ reflexivity
                  | unfold loop_state; repeat split; intros; numbers ] .. ]
      | E : _ = Ok (inr _) _ |- _ =>
          loop_confined E offset size;
          [ let L := fresh "L" in
            let Hle := fresh "Hle" in
            destruct E as [E [L Hle]];
            try match goal with
                | Hpos : 0 < ?sz, L' : loop_state _ _ ?sz ?sec |- _ =>
                    let Hu := fresh "Hu" in
                    destruct (loop_sector (offset / 512)
                                ((offset + size - 1) / 512) (offset + size)
                                ltac:(numbers) ltac:(numbers) eq_refl
                                sz sec L' Hpos) as (Hu & ? & ? & ?);
                    rewrite ?Hu in *
                end
          | first [ reflexivity
                  | unfold loop_state; repeat split; intros; numbers ] .. ]
      end;
  repeat match goal with
         | E : get _ _ = Ok _ _ |- _ =>
             apply (confined_get wr (offset / 512) ((offset + size - 1) / 512)) in E
         | E : OS_Dataport_getSize _ = Ok _ _ |- _ =>
             apply (confined_get wr (offset / 512) ((offset + size - 1) / 512)) in E
         | E : OS_Dataport_getBuf _ = Ok _ _ |- _ =>
             apply (confined_get wr (offset / 512) ((offset + size - 1) / 512)) in E
         | E : modify (set_port_storage _) _ = Ok _ _ |- _ =>
             apply (confined_set_port wr (offset / 512) ((offset + size - 1) / 512))
               in E
         | E : isValidMSDArea _ _ _ _ = Ok _ _ |- _ =>
             apply (confined_area wr (offset / 512) ((offset + size - 1) / 512)) in E
         | E : disk_read _ _ _ 1 _ = Ok _ _ |- _ =>
             apply (confined_disk_read wr (offset / 512) ((offset + size - 1) / 512))
               in E; [|numbers ..]
         | E : disk_write _ _ _ 1 _ = Ok _ _ |- _ =>
             apply (confined_disk_write (offset / 512) ((offset + size - 1) / 512))
               in E; [|numbers ..]
         end;
  repeat match goal with
         | G1 : confined _ _ _ ?x ?y, G2 : confined _ _ _ ?y ?z |- _ =>
             pose proof (confined_trans _ _ _ _ _ _ G1 G2); clear G1 G2
         end;
  first [ assumption | apply confined_refl ].

Section Confined_requests.

Context {D : Type}.
Variable LP64 : bool.

Lemma write_confined (fuel : nat) (offset size : Z) (w w' : world D)
      (res : rpc_result) :
  storage_rpc_write fuel offset size w = Ok res w' ->
  0 <= offset -> 0 <= size -> offset + size <= 2 ^ 41 - 512 ->
  confined true (offset / 512) ((offset + size - 1) / 512) w w'.
Proof.
  unfold storage_rpc_write. intros H Ho0 Hz He.
  assert (Ho : 0 <= offset < 2 ^ 41) by numbers.
  unravel H; confine true offset size Ho.
Qed.

Lemma erase_confined (fuel : nat) (offset size : Z) (w w' : world D)
      (res : rpc_result) :
  storage_rpc_erase LP64 fuel offset size w = Ok res w' ->
  0 <= offset -> 0 <= size -> offset + size <= 2 ^ 41 - 512 ->
  confined true (offset / 512) ((offset + size - 1) / 512) w w'.
Proof.
  unfold storage_rpc_erase. intros H Ho0 Hz He.
  assert (Ho : 0 <= offset < 2 ^ 41) by numbers.
  unravel H; confine true offset size Ho.
Qed.

Lemma read_confined (fuel : nat) (offset size : Z) (w w' : world D)
      (res : rpc_result) :
  storage_rpc_read fuel offset size w = Ok res w' ->
  0 <= offset -> 0 <= size -> offset + size <= 2 ^ 41 - 512 ->
  confined false (offset / 512) ((offset + size - 1) / 512) w w'.
Proof.
  unfold storage_rpc_read. intros H Ho0 Hz He.
  assert (Ho : 0 <= offset < 2 ^ 41) by numbers.
  unravel H; confine false offset size Ho.
Qed.

End Confined_requests.

(** X21. A request stays within its sectors.  For a byte range that ends
    at or below 2^41 - 512, whatever the card answers and however the
    request ends, the commands it issues are the capacity query CMD9 and
    single-block commands whose argument is a sector of the range, from
    offset / 512 to (offset + size - 1) / 512, times the divisor; a read
    request issues no CMD24 at all.  (Above that bound the 32-bit sector
    counter of the driver wraps.) *)
Theorem request_stays_in_range {D} (LP64 : bool) (op : rpc_op) (fuel : nat)
        (offset size : Z) (w w' : world D) (res : rpc_result) :
  storage_rpc LP64 op fuel offset size w = Ok res w' ->
  0 <= offset -> 0 <= size -> offset + size <= 2 ^ 41 - 512 ->
  forall c a,
    In (c, a) (commands (new_events (trace w) (trace w'))) ->
    c = 9 /\ a = 0 \/
    (c = 17 \/ c = 24 /\ op <> OpRead) /\
    exists s, offset / 512 <= s <= (offset + size - 1) / 512 /\
              a = s32 (u32 (s * _cdv w)).
Proof.
  intros H Ho Hz He c a Hin.
  assert (Hc : exists wr, (wr = true -> op <> OpRead) /\
                 confined wr (offset / 512) ((offset + size - 1) / 512) w w').
  { destruct op; cbn [storage_rpc] in H.
    - exists false. split; [discriminate|].
      exact (read_confined fuel offset size w w' res H Ho Hz He).
    - exists true. split; [discriminate|].
      exact (write_confined fuel offset size w w' res H Ho Hz He).
    - exists true. split; [discriminate|].
      exact (erase_confined LP64 fuel offset size w w' res H Ho Hz He). }
  destruct Hc as (wr & Hwr & _ & cs & rs & G & F).
  apply grows_new_events in G. destruct G as [Gc _]. rewrite Gc in Hin.
  rewrite Forall_forall in F. specialize (F _ Hin).
  destruct F as [F|([F|[F Hw]] & s & Hs & Ha)].
  - inversion F. left. split; reflexivity.
  - right. split; [left; exact F|]. exists s. split; assumption.
  - right. split; [right; split; [exact F | exact (Hwr Hw)]|].
    exists s. split; assumption.
Qed.

Lemma request_stays_in_range_witness :
  exists w res w',
    post_init 4 1 (scripted_hal 0xFF)
              (power_on card_then_write_513 dataport_4k) = Ok tt w /\
    storage_rpc false OpWrite 4 0 513 w = Ok res w' /\
    forall c a,
      In (c, a) (commands (new_events (trace w) (trace w'))) ->
      c = 9 /\ a = 0 \/
      (c = 17 \/ c = 24 /\ OpWrite <> OpRead) /\
      exists s, 0 / 512 <= s <= (0 + 513 - 1) / 512 /\
                a = s32 (u32 (s * _cdv w)).
Proof.
  run (@post_init (list Z) 4 1 (scripted_hal 0xFF))
      (power_on card_then_write_513 dataport_4k) E1.
  match type of E1 with
  | _ = Ok _ ?w => run (@storage_rpc (list Z) false OpWrite 4 0 513) w E2
  end.
  eexists _, _, _. split; [exact E1|]. split; [exact E2|].
  assert (H1 : 0 <= 0) by lia. assert (H2 : 0 <= 513) by lia.
  assert (H3 : 0 + 513 <= 2 ^ 41 - 512) by closed_numbers.
  exact (request_stays_in_range false OpWrite 4 0 513 _ _ _ E2 H1 H2 H3).
Defined.

(** ** What a read request does to the dataport *)

Lemma splice_kept (dst src : list Z) (pos : Z) (n : nat) :
  (Z.to_nat pos + length src <= n)%nat -> (n <= length dst)%nat ->
  length (splice dst pos src) = length dst /\
  skipn n (splice dst pos src) = skipn n dst.
Proof.
  intros H1 H2. unfold splice. split.
  - rewrite !length_app, length_firstn, length_skipn. lia.
  - rewrite skipn_app, length_firstn.
    rewrite (skipn_all2 (firstn (Z.to_nat pos) dst))
      by (rewrite length_firstn; lia).
    cbn [app]. rewrite skipn_app.
    rewrite (skipn_all2 src) by lia. cbn [app].
    rewrite skipn_skipn. f_equal. lia.
Qed.

Section Port.

Context {D : Type}.

Lemma port_kept_refl (size : Z) (w : world D) : port_kept size w w.
Proof. split; reflexivity. Qed.

Lemma kept_same (total : Z) (w0 w w' : world D) :
  port_kept total w0 w -> port_storage w' = port_storage w ->
  port_kept total w0 w'.
Proof. intros [K1 K2] E. unfold port_kept. rewrite E. split; assumption. Qed.

Lemma kept_splice (total : Z) (w0 w : world D) (pos k : Z) (data : list Z) :
  port_kept total w0 w -> 0 <= pos -> 0 <= k ->
  (length data <= Z.to_nat k)%nat -> pos + k <= total ->
  total <= Z.of_nat (length (port_storage w0)) ->
  port_kept total w0 (set_port_storage (splice (port_storage w) pos data) w).
Proof.
  intros [K1 K2] Hp Hk Hd Hs Ht. unfold port_kept. cbn [port_storage set_port_storage].
  destruct (splice_kept (port_storage w) data pos (Z.to_nat total)) as [L S];
    [lia | lia |].
  rewrite L, S. split; assumption.
Qed.

Lemma kept_area (fuel : nat) (offset size : Z) (b : bool) (w w' : world D) :
  isValidMSDArea fuel offset size w = Ok b w' -> port_storage w' = port_storage w.
Proof.
  apply (stays_area (fun w w' : world D => port_storage w' = port_storage w));
    try (intros; reflexivity). intros; congruence.
Qed.

Lemma kept_disk_read (fuel : nat) (buffer : list Z) (s c : Z) (x : Z * list Z)
      (w w' : world D) :
  disk_read fuel buffer s c w = Ok x w' -> port_storage w' = port_storage w.
Proof.
  apply (stays_disk_read (fun w w' : world D => port_storage w' = port_storage w));
    try (intros; reflexivity). intros; congruence.
Qed.

Lemma read_remaining_port (n fuel : nat) (total : Z) (w0 : world D) :
  total < 2 ^ 31 -> total <= Z.of_nat (length (port_storage w0)) ->
  forall (size br sector : Z) (block : list Z) (w w' : world D)
         (st : Z + Z * Z * Z * list Z),
    read_remaining n fuel size br sector block w = Ok st w' ->
    port_kept total w0 w -> 0 <= br -> 0 <= size -> br + size <= total ->
    port_kept total w0 w'.
Proof.
  intros Ht Hp.
  induction n as [|n IH]; intros size br sector block w w' st H K Hb Hs Hsum;
    cbn [read_remaining] in H; unfold disk_block_size, BLOCK_SIZE in H;
    destruct (Z.gtb_spec size 512) as [Hgt|Hle].
  - discriminate H.
  - apply ret_inv in H. destruct H as [_ ->]. exact K.
  - cbv zeta in H. apply bind_inv in H. destruct H as ([r blk] & w1 & E & H).
    apply kept_disk_read in E.
    destruct (negb (r =? 0)).
    + apply ret_inv in H. destruct H as [_ ->]. exact (kept_same _ _ _ _ K E).
    + apply bind_inv in H. destruct H as (port & w2 & Eg & H).
      apply get_inv in Eg. destruct Eg as [-> ->].
      apply bind_inv in H. destruct H as (u & w3 & Em & H).
      apply modify_inv in Em. subst w3.
      rewrite (s32_small (br + 512)) in H
        by (change (2 ^ 31) with 2147483648 in *; lia).
      apply IH in H; try lia; [exact H|].
      apply (kept_splice total w0 w1 br 512);
        [exact (kept_same _ _ _ _ K E) | lia | lia | apply firstn_le_length
        | lia | exact Hp].
  - apply ret_inv in H. destruct H as [_ ->]. exact K.
Qed.

End Port.

(** Prove that the dataport was kept up to some state of a finished read
    request, from what is known about the states before it. *)
Ltac kept :=
  first
    [ assumption
    | apply port_kept_refl
    | match goal with
      | |- port_kept _ _ (set_port_storage
                            (splice _ ?pos (firstn (Z.to_nat ?k) _)) _) =>
          apply (kept_splice _ _ _ pos k);
          [ kept | numbers | numbers | apply firstn_le_length
          | numbers | numbers ]
      end ].

Ltac port_steps w0 total :=
  repeat match goal with
         | E : isValidMSDArea _ _ _ ?x = Ok _ ?y |- _ =>
             assert (port_kept total w0 y)
               by (apply (kept_same total w0 x); [kept | exact (kept_area _ _ _ _ _ _ E)]);
             clear E
         | E : disk_read _ _ _ _ ?x = Ok _ ?y |- _ =>
             assert (port_kept total w0 y)
               by (apply (kept_same total w0 x);
                   [kept | exact (kept_disk_read _ _ _ _ _ _ _ E)]);
             clear E
         | E : read_remaining _ _ _ _ _ _ ?x = Ok _ ?y |- _ =>
             assert (port_kept total w0 y)
               by (apply (read_remaining_port _ _ total w0 ltac:(numbers)
                            ltac:(numbers) _ _ _ _ _ _ _ E);
                   [kept | numbers ..]);
             clear E
         end.

(** X22. A read request writes only its own bytes into the dataport.  For
    an offset below 2^41 and a size below 2^31, whatever the card sends and
    however the request ends, the dataport has afterwards the length it had
    and the bytes from position [size] on are untouched: nothing is copied
    beyond the bytes asked for. *)
Theorem read_fills_only_its_bytes {D} (fuel : nat) (offset size : Z)
        (w w' : world D) (res : rpc_result) :
  storage_rpc_read fuel offset size w = Ok res w' ->
  0 <= offset < 2 ^ 41 -> 0 <= size < 2 ^ 31 ->
  length (port_storage w') = length (port_storage w) /\
  skipn (Z.to_nat size) (port_storage w') = skipn (Z.to_nat size) (port_storage w).
Proof.
  intros H Ho Hz. change (port_kept size w w').
  unfold storage_rpc_read in H. unravel H; as_props;
    repeat match goal with
           | E : get _ _ = Ok _ _ |- _ =>
               apply get_inv in E; destruct E as [? ?]; subst
           | E : OS_Dataport_getSize _ = Ok _ _ |- _ =>
               apply get_inv in E; destruct E as [? ?]; subst
           | E : OS_Dataport_getBuf _ = Ok _ _ |- _ =>
               apply get_inv in E; destruct E as [? ?]; subst
           | E : modify _ _ = Ok _ _ |- _ =>
               apply modify_inv in E; subst
           end.
  all: destruct (first_sector offset Ho) as [Hsec Hrem];
    rewrite ?Hsec in *; unfold disk_block_size, BLOCK_SIZE in *.
  all: try match goal with
           | E : context [nbr_of_bytes ?o ?s ?n] |- _ =>
               let F := fresh "F" in
               let Hn := fresh "Hn" in
               assert (F : 0 < n) by lia;
               apply (first_chunk_end o n Ho) in F;
               remember (nbr_of_bytes o s n) as nbr eqn:Hn; clear Hn
           end.
  all: rewrite ?Z.add_0_l in *.
  all: repeat match goal with
              | E : context [s32 ?x] |- _ =>
                  rewrite (s32_small x) in E
                    by (change (2 ^ 31) with 2147483648 in *; lia)
              end.
  all: try match goal with
           | E : read_remaining _ _ _ _ _ _ _ = Ok (inr _) _ |- _ =>
               let C := fresh "C" in
               pose proof (read_remaining_count _ _ _ _ _ _ _ _ _ _ _ _ E
                             ltac:(lia) ltac:(lia)
                             ltac:(change (2 ^ 31) with 2147483648 in *; lia)) as C
           end.
  all: rewrite ?s32_small by (change (2 ^ 31) with 2147483648 in *; lia).
  all: match goal with
       | |- port_kept ?total ?w0 _ => port_steps w0 total; kept
       end.
Qed.

Lemma read_fills_only_its_bytes_witness :
  exists w res w',
    post_init 4 1 (scripted_hal 0xFF)
              (power_on (card_good ++ reply_capacity csd_hc_1000 ++ reply_block_read)
                        dataport_4k) = Ok tt w /\
    storage_rpc_read 4 5 3 w = Ok res w' /\
    length (port_storage w') = length (port_storage w) /\
    skipn (Z.to_nat 3) (port_storage w') = skipn (Z.to_nat 3) (port_storage w).
Proof.
  run (@post_init (list Z) 4 1 (scripted_hal 0xFF))
      (power_on (card_good ++ reply_capacity csd_hc_1000 ++ reply_block_read)
                dataport_4k) E1.
  match type of E1 with
  | _ = Ok _ ?w => run (@storage_rpc_read (list Z) 4 5 3) w E2
  end.
  eexists _, _, _. split; [exact E1|]. split; [exact E2|].
  assert (H1 : 0 <= 5 < 2 ^ 41) by (split; closed_numbers).
  assert (H2 : 0 <= 3 < 2 ^ 31) by (split; closed_numbers).
  exact (read_fills_only_its_bytes 4 5 3 _ _ _ E2 H1 H2).
Defined.

(** ** The SPI peripheral *)

Lemma u32_bits (x i : Z) : 0 <= i < 32 -> Z.testbit (u32 x) i = Z.testbit x i.
Proof. intros H. unfold u32. apply Z.mod_pow2_bits_low. lia. Qed.

Lemma u32_high_bits (x i : Z) : 32 <= i -> Z.testbit (u32 x) i = false.
Proof. intros H. unfold u32. apply Z.mod_pow2_bits_high. lia. Qed.

Lemma small_high_bits (x i : Z) :
  0 <= x < 2 ^ 32 -> 32 <= i -> Z.testbit x i = false.
Proof. intros Hx Hi. rewrite <- (u32_small x Hx). apply u32_high_bits. exact Hi. Qed.

Lemma set_bits_spec (m : peri) (paddr value mask : Z) :
  0 <= m paddr < 2 ^ 32 ->
  (forall a, a <> paddr -> bcm2837_peri_set_bits m paddr value mask a = m a) /\
  forall i, 0 <= i ->
    Z.testbit (bcm2837_peri_set_bits m paddr value mask paddr) i =
    if Z.testbit (u32 mask) i then Z.testbit (u32 value) i
    else Z.testbit (m paddr) i.
Proof.
  intros Hv. unfold bcm2837_peri_set_bits, bcm2837_peri_write, bcm2837_peri_read.
  cbv zeta. split.
  - intros a Ha. destruct (Z.eqb_spec a paddr); [contradiction | reflexivity].
  - intros i Hi. rewrite Z.eqb_refl.
    destruct (Z.lt_ge_cases i 32) as [Hlt|Hge].
    + rewrite u32_bits by lia.
      rewrite Z.lor_spec, !Z.land_spec, (u32_bits (Z.lnot (u32 mask))) by lia.
      rewrite Z.lnot_spec by lia.
      destruct (Z.testbit (u32 mask) i), (Z.testbit (u32 value) i),
        (Z.testbit (m paddr) i); reflexivity.
    + rewrite !u32_high_bits by lia. symmetry. apply small_high_bits; assumption.
Qed.

(** X23. [bcm2837_peri_set_bits] is a masked write: the word at [paddr]
    afterwards has, at every bit position set in [mask], the bit of
    [value], and at every other position the bit it had; no other word
    changes. *)
Theorem set_bits_masked (m : peri) (paddr value mask : Z) :
  0 <= m paddr < 2 ^ 32 ->
  (forall a, a <> paddr -> bcm2837_peri_set_bits m paddr value mask a = m a) /\
  forall i, 0 <= i ->
    Z.testbit (bcm2837_peri_set_bits m paddr value mask paddr) i =
    if Z.testbit (u32 mask) i then Z.testbit (u32 value) i
    else Z.testbit (m paddr) i.
Proof. exact (set_bits_spec m paddr value mask). Qed.

Lemma set_bits_masked_witness :
  0 <= (fun _ : Z => 0xF0F0) 7 < 2 ^ 32 /\
  (forall a, a <> 7 ->
     bcm2837_peri_set_bits (fun _ => 0xF0F0) 7 0x0A 0x0F a = 0xF0F0) /\
  forall i, 0 <= i ->
    Z.testbit (bcm2837_peri_set_bits (fun _ => 0xF0F0) 7 0x0A 0x0F 7) i =
    if Z.testbit (u32 0x0F) i then Z.testbit (u32 0x0A) i
    else Z.testbit 0xF0F0 i.
Proof.
  assert (H : 0 <= (fun _ : Z => 0xF0F0) 7 < 2 ^ 32) by (split; closed_numbers).
  split; [exact H|].
  exact (set_bits_masked (fun _ => 0xF0F0) 7 0x0A 0x0F H).
Defined.

(** X24. [bcm2837_spi_setChipSelectPolarity] for chip select 0, 1 or 2
    changes one bit of the control word, bit 21 + cs, and sets it to the
    lowest bit of [active]: an [active] of 2 clears it.  Every other bit of
    the word and every other word stay as they were. *)
Theorem chip_select_polarity_bit (m : peri) (cs_reg cs active : Z) :
  0 <= m cs_reg < 2 ^ 32 -> 0 <= cs <= 2 ->
  (forall a, a <> cs_reg ->
     bcm2837_spi_setChipSelectPolarity m cs_reg cs active a = m a) /\
  Z.testbit (bcm2837_spi_setChipSelectPolarity m cs_reg cs active cs_reg) (21 + cs)
  = Z.testbit (u8 active) 0 /\
  forall i, 0 <= i -> i <> 21 + cs ->
    Z.testbit (bcm2837_spi_setChipSelectPolarity m cs_reg cs active cs_reg) i
    = Z.testbit (m cs_reg) i.
Proof.
  intros Hv Hcs. unfold bcm2837_spi_setChipSelectPolarity. cbv zeta.
  assert (Hshift : u8 (21 + u8 cs) = 21 + cs).
  { unfold u8. rewrite (Z.mod_small cs) by lia. apply Z.mod_small. lia. }
  rewrite Hshift.
  assert (Ha : 0 <= u8 active < 256) by apply u8_is_byte.
  assert (Hmask : u32 (s32 (Z.shiftl 1 (21 + cs))) = 2 ^ (21 + cs)).
  { rewrite Z.shiftl_1_l.
    assert (2 ^ (21 + cs) < 2 ^ 31) by (apply Z.pow_lt_mono_r; lia).
    assert (0 < 2 ^ (21 + cs)) by (apply Z.pow_pos_nonneg; lia).
    rewrite s32_small by lia. apply u32_small.
    change (2 ^ 32) with (2 * 2 ^ 31). lia. }
  assert (Hval : u32 (s32 (Z.shiftl (u8 active) (21 + cs)))
                 = Z.shiftl (u8 active) (21 + cs)).
  { rewrite Z.shiftl_mul_pow2 by lia.
    assert (2 ^ (21 + cs) <= 2 ^ 23) by (apply Z.pow_le_mono_r; lia).
    assert (0 < 2 ^ (21 + cs)) by (apply Z.pow_pos_nonneg; lia).
    change (2 ^ 23) with 8388608 in *.
    assert (0 <= u8 active * 2 ^ (21 + cs) < 2147483648) by nia.
    rewrite s32_small by (change (2 ^ 31) with 2147483648; lia).
    apply u32_small. change (2 ^ 32) with 4294967296. lia. }
  destruct (set_bits_spec m cs_reg (s32 (Z.shiftl (u8 active) (21 + cs)))
              (s32 (Z.shiftl 1 (21 + cs))) Hv) as [Hother Hbits].
  split; [exact Hother|]. split.
  - rewrite Hbits by lia. rewrite Hmask, Hval.
    rewrite Z.pow2_bits_true by lia.
    rewrite Z.shiftl_spec by lia. f_equal. lia.
  - intros i Hi Hne. rewrite Hbits by lia. rewrite Hmask.
    rewrite Z.pow2_bits_false by lia. reflexivity.
Qed.

Lemma chip_select_polarity_bit_witness :
  0 <= (fun _ : Z => 0x00200000) 0 < 2 ^ 32 /\ 0 <= 0 <= 2 /\
  (forall a, a <> 0 ->
     bcm2837_spi_setChipSelectPolarity (fun _ => 0x00200000) 0 0 2 a = 0x00200000) /\
  Z.testbit (bcm2837_spi_setChipSelectPolarity (fun _ => 0x00200000) 0 0 2 0) (21 + 0)
  = Z.testbit (u8 2) 0 /\
  forall i, 0 <= i -> i <> 21 + 0 ->
    Z.testbit (bcm2837_spi_setChipSelectPolarity (fun _ => 0x00200000) 0 0 2 0) i
    = Z.testbit 0x00200000 i.
Proof.
  assert (H1 : 0 <= (fun _ : Z => 0x00200000) 0 < 2 ^ 32) by (split; closed_numbers).
  assert (H2 : 0 <= 0 <= 2) by lia.
  split; [exact H1|]. split; [exact H2|].
  exact (chip_select_polarity_bit (fun _ => 0x00200000) 0 0 2 H1 H2).
Defined.

Lemma table_checked : forallb reversed_entry (seq 0 256) = true.
Proof. vm_compute. reflexivity. Qed.

Lemma table_entry (b : Z) :
  0 <= b < 256 ->
  0 <= nth (Z.to_nat b) bcm2837_byte_reverse_table 0 < 256 /\
  nth (Z.to_nat (nth (Z.to_nat b) bcm2837_byte_reverse_table 0))
      bcm2837_byte_reverse_table 0 = b /\
  forall i, 0 <= i < 8 ->
    Z.testbit (nth (Z.to_nat b) bcm2837_byte_reverse_table 0) i
    = Z.testbit b (7 - i).
Proof.
  intros Hb. pose proof table_checked as T. rewrite forallb_forall in T.
  assert (Hin : In (Z.to_nat b) (seq 0 256)).
  { apply in_seq. change (0 + 256)%nat with (Z.to_nat 256). lia. }
  specialize (T _ Hin). unfold reversed_entry in T. cbv zeta in T.
  rewrite Z2Nat.id in T by lia.
  apply andb_prop in T. destruct T as [T Hinv].
  apply andb_prop in T. destruct T as [T Hlo].
  apply andb_prop in T. destruct T as [Hbits Hhi].
  apply Z.ltb_lt in Hhi. apply Z.leb_le in Hlo. apply Z.eqb_eq in Hinv.
  split; [lia|]. split; [exact Hinv|].
  intros i Hi. rewrite forallb_forall in Hbits.
  assert (Hi' : In (Z.to_nat i) (seq 0 8)).
  { apply in_seq. change (0 + 8)%nat with (Z.to_nat 8). lia. }
  specialize (Hbits _ Hi'). rewrite Z2Nat.id in Hbits by lia.
  apply Bool.eqb_prop in Hbits. exact Hbits.
Qed.

(** X25. The software bit order.  [bcm2837_correct_order] returns a byte;
    under [BCM2837_SPI_BIT_ORDER_LSBFIRST] it is the argument with its eight
    bits in reverse order (the table holds the bit reversal of every byte),
    under any other setting the argument itself; and in either case applying
    it twice gives the byte back, so the reordering done on the way out and
    on the way in of [bcm2837_spi_transfer] cancel. *)
Theorem correct_order_reverses (LSBFIRST bit_order b : Z) :
  is_byte (bcm2837_correct_order LSBFIRST bit_order b) /\
  bcm2837_correct_order LSBFIRST bit_order
    (bcm2837_correct_order LSBFIRST bit_order b) = u8 b /\
  (bit_order = LSBFIRST ->
   forall i, 0 <= i < 8 ->
     Z.testbit (bcm2837_correct_order LSBFIRST bit_order b) i
     = Z.testbit (u8 b) (7 - i)) /\
  (bit_order <> LSBFIRST -> bcm2837_correct_order LSBFIRST bit_order b = u8 b).
Proof.
  pose proof (u8_is_byte b) as Hb. unfold is_byte in Hb.
  destruct (table_entry (u8 b) Hb) as (Hr & Hinv & Hbits).
  unfold bcm2837_correct_order.
  destruct (Z.eqb_spec bit_order LSBFIRST) as [He|Hne].
  - split; [exact Hr|]. split.
    + rewrite (u8_byte _ Hr). exact Hinv.
    + split; [intros _; exact Hbits | intros Hc; contradiction].
  - split; [exact Hb|]. split.
    + apply u8_byte. exact Hb.
    + split; [intros Hc; contradiction | intros _; reflexivity].
Qed.

Lemma correct_order_reverses_witness :
  is_byte (bcm2837_correct_order 0 0 0x2C) /\
  bcm2837_correct_order 0 0 (bcm2837_correct_order 0 0 0x2C) = u8 0x2C /\
  (0 = 0 ->
   forall i, 0 <= i < 8 ->
     Z.testbit (bcm2837_correct_order 0 0 0x2C) i = Z.testbit (u8 0x2C) (7 - i)) /\
  (0 <> 0 -> bcm2837_correct_order 0 0 0x2C = u8 0x2C).
Proof. exact (correct_order_reverses 0 0 0x2C). Defined.

(** X26. [bcm2837_spi_begin] returns 1, or -1 when the GPIO set-up
    failed, never 0, and [post_init] tests its result with [!]: a failed
    set-up of the pins is not noticed, and a [post_init] that comes back has
    marked the session initialised with the table in place. *)
Theorem begin_failure_not_detected {D} (gpio_ret : Z) (fuel : nat)
        (hal : spisd_hal_t D) (w w' : world D) :
  post_init fuel (bcm2837_spi_begin gpio_ret) hal w = Ok tt w' ->
  bcm2837_spi_begin gpio_ret <> 0 /\
  init_ok w' = true /\ spi_hal w' = Some hal.
Proof.
  intros H.
  assert (Hb : bcm2837_spi_begin gpio_ret <> 0).
  { unfold bcm2837_spi_begin. destruct (negb (gpio_ret =? 0)); discriminate. }
  split; [exact Hb|]. split.
  - exact (post_init_marks_ok fuel _ hal w w' Hb H).
  - unfold post_init in H.
    destruct (Z.eqb_spec (bcm2837_spi_begin gpio_ret) 0); [contradiction|].
    apply bind_inv in H. destruct H as (r & w1 & E & H).
    apply disk_initialize_sets_table in E.
    apply bind_inv in H. destruct H as (h & w2 & Eg & H).
    apply get_inv in Eg. destruct Eg as [-> ->]. rewrite E in H.
    apply modify_inv in H. subst w'. exact E.
Qed.

Lemma begin_failure_not_detected_witness :
  exists w',
    post_init 4 (bcm2837_spi_begin 5) (scripted_hal 0xFF)
              (power_on card_good dataport_4k) = Ok tt w' /\
    bcm2837_spi_begin 5 <> 0 /\
    init_ok w' = true /\ spi_hal w' = Some (scripted_hal 0xFF).
Proof.
  run (@post_init (list Z) 4 (bcm2837_spi_begin 5) (scripted_hal 0xFF))
      (power_on card_good dataport_4k) E.
  eexists. split; [exact E|].
  exact (begin_failure_not_detected 5 4 (scripted_hal 0xFF)
           (power_on card_good dataport_4k) _ E).
Defined.

(** ** The OCR read *)

Lemma cmd58_poll_scripted (idle : Z) (polls : list Z) (r o3 o2 o1 o0 f : Z)
      (s : list Z) :
  Forall (fun b => high_bit_set (u8 b)) polls -> 0 <= r < 128 ->
  forall (n : nat) (w : world (list Z)),
    on_script idle (polls ++ r :: o3 :: o2 :: o1 :: o0 :: f :: s) w ->
    (length polls < n)%nat ->
    exists w', _cmd58_poll n w = Ok r w' /\
               sees (repeat 0xFF (length polls + 6)) [0] idle s w w'.
Proof.
  intros Hp Hr. induction Hp as [|b polls Hb Hp IH]; intros n w Hw Hn;
    (destruct n as [|n]; [simpl in Hn; lia|]);
    cbn [_cmd58_poll app length repeat Nat.add] in *.
  - scripted (read_write_sees idle 0xFF r _ w Hw) w1 S1.
    rewrite (u8_byte r) by (unfold is_byte; lia).
    rewrite (high_bit_clear r Hr). change (0 =? 0) with true. cbv iota.
    scripted (read_write_sees idle 0xFF o3 _ w1 (proj1 S1)) w2 S2.
    scripted (read_write_sees idle 0xFF o2 _ w2 (proj1 S2)) w3 S3.
    scripted (read_write_sees idle 0xFF o1 _ w3 (proj1 S3)) w4 S4.
    scripted (read_write_sees idle 0xFF o0 _ w4 (proj1 S4)) w5 S5.
    cbv zeta.
    scripted (hal_cs_sees idle 0 _ w5 (proj1 S5)) w6 S6.
    scripted (read_write_sees idle 0xFF f _ w6 (proj1 S6)) w7 S7.
    exists w7. split; [reflexivity|].
    exact (sees_trans _ _ _ _ _ _ _ _ _ _ S1
          (sees_trans _ _ _ _ _ _ _ _ _ _ S2
          (sees_trans _ _ _ _ _ _ _ _ _ _ S3
          (sees_trans _ _ _ _ _ _ _ _ _ _ S4
          (sees_trans _ _ _ _ _ _ _ _ _ _ S5
          (sees_trans _ _ _ _ _ _ _ _ _ _ S6 S7)))))).
  - scripted (read_write_sees idle 0xFF b _ w Hw) w1 S1.
    destruct (Z.eqb_spec (Z.land (u8 b) 0x80) 0) as [Hz|_]; [contradiction|].
    destruct (IH n w1 (proj1 S1) ltac:(lia)) as (w2 & E2 & S2).
    exists w2. split; [exact E2|].
    exact (sees_trans [u8 0xFF] _ [] _ _ _ _ _ _ _ S1 S2).
Qed.

(** X27. The operating-conditions register is read and dropped.  When
    the card answers CMD58 within the polling budget, [_cmd58] returns the
    status byte and takes the four register bytes and one filler off the
    bus; the register bytes have no part in the result and are stored
    nowhere: the statics are what they were, whatever the register said
    about the capacity of the card. *)
Theorem cmd58_drops_ocr (idle : Z) (fr polls : list Z) (r o3 o2 o1 o0 f : Z)
        (rest : list Z) (w : world (list Z)) :
  length fr = 6%nat -> Forall (fun b => high_bit_set (u8 b)) polls ->
  0 <= r < 128 -> (length polls < SD_COMMAND_TIMEOUT)%nat ->
  on_script idle (fr ++ polls ++ r :: o3 :: o2 :: o1 :: o0 :: f :: rest) w ->
  exists w',
    _cmd58 w = Ok r w' /\
    sees (frame_bytes 58 0 ++ repeat 0xFF (length polls + 6)) [1; 0]
         idle rest w w' /\
    same_statics w w'.
Proof.
  intros Hfr Hp Hr Hn Hw.
  assert (Hrun : exists w',
             _cmd58 w = Ok r w' /\
             sees (frame_bytes 58 0 ++ repeat 0xFF (length polls + 6)) [1; 0]
                  idle rest w w').
  { destruct fr as [|b0 [|b1 [|b2 [|b3 [|b4 [|b5 [|]]]]]]]; try discriminate Hfr.
    cbn [app] in Hw. unfold _cmd58. cbv zeta.
    rewrite (bind_Ok (modify (log (EvCommand 58 0))) _ w _ tt eq_refl).
    pose proof (log_sees idle _ (EvCommand 58 0) w eq_refl Hw) as S0.
    scripted (hal_cs_sees idle 1 _ _ (proj1 S0)) w1 S1.
    scripted (read_write_sees idle (Z.lor 0x40 58) b0 _ w1 (proj1 S1)) w2 S2.
    scripted (read_write_sees idle (Z.shiftr 0 24) b1 _ w2 (proj1 S2)) w3 S3.
    scripted (read_write_sees idle (Z.shiftr 0 16) b2 _ w3 (proj1 S3)) w4 S4.
    scripted (read_write_sees idle (Z.shiftr 0 8) b3 _ w4 (proj1 S4)) w5 S5.
    scripted (read_write_sees idle (Z.shiftr 0 0) b4 _ w5 (proj1 S5)) w6 S6.
    scripted (read_write_sees idle 0x95 b5 _ w6 (proj1 S6)) w7 S7.
    scripted (cmd58_poll_scripted idle polls r o3 o2 o1 o0 f rest Hp Hr
                SD_COMMAND_TIMEOUT w7 (proj1 S7) Hn) w8 S8.
    rewrite (bind_Ok (modify (log (EvResponse 58 r))) _ w8 _ tt eq_refl).
    pose proof (log_sees idle _ (EvResponse 58 r) w8 eq_refl (proj1 S8)) as S9.
    eexists. split; [reflexivity|].
    pose proof (sees_trans _ _ _ _ _ _ _ _ _ _ S0
          (sees_trans _ _ _ _ _ _ _ _ _ _ S1
          (sees_trans _ _ _ _ _ _ _ _ _ _ S2
          (sees_trans _ _ _ _ _ _ _ _ _ _ S3
          (sees_trans _ _ _ _ _ _ _ _ _ _ S4
          (sees_trans _ _ _ _ _ _ _ _ _ _ S5
          (sees_trans _ _ _ _ _ _ _ _ _ _ S6
          (sees_trans _ _ _ _ _ _ _ _ _ _ S7
          (sees_trans _ _ _ _ _ _ _ _ _ _ S8 S9))))))))) as St.
    cbn [app] in St. rewrite app_nil_r in St. exact St. }
  destruct Hrun as (w' & E & St). exists w'. split; [exact E|].
  split; [exact St|]. exact (same_statics_cmd58 _ _ _ E).
Qed.

Lemma cmd58_drops_ocr_witness :
  exists w',
    _cmd58 (brought_up 0xFF 0 0
              (repeat 0xFF 6 ++ [0xFF] ++
               1 :: 0xC0 :: 0xFF :: 0x80 :: 0x00 :: 0xFF :: [0x77])) = Ok 1 w' /\
    sees (frame_bytes 58 0 ++ repeat 0xFF (1 + 6)) [1; 0] 0xFF [0x77]
         (brought_up 0xFF 0 0
            (repeat 0xFF 6 ++ [0xFF] ++
             1 :: 0xC0 :: 0xFF :: 0x80 :: 0x00 :: 0xFF :: [0x77])) w' /\
    same_statics (brought_up 0xFF 0 0
                    (repeat 0xFF 6 ++ [0xFF] ++
                     1 :: 0xC0 :: 0xFF :: 0x80 :: 0x00 :: 0xFF :: [0x77])) w'.
Proof.
  assert (H3 : Forall (fun b => high_bit_set (u8 b)) [0xFF])
    by (repeat constructor; discriminate).
  assert (H4 : 0 <= 1 < 128) by lia.
  exact (cmd58_drops_ocr 0xFF (repeat 0xFF 6) [0xFF] 1 0xC0 0xFF 0x80 0x00 0xFF
           [0x77]
           (brought_up 0xFF 0 0
              (repeat 0xFF 6 ++ [0xFF] ++
               1 :: 0xC0 :: 0xFF :: 0x80 :: 0x00 :: 0xFF :: [0x77]))
           eq_refl H3 H4 SD_COMMAND_TIMEOUT_gt_1 (conj eq_refl eq_refl)).
Defined.

(** ** Where the register decoder is defined *)

Lemma ext_bits_loop_defined (data : list Z) (lsb : Z) (n : nat) :
  forall (i bits r : Z),
    ext_bits_loop n data lsb i bits = Some r ->
    forall k, (k < n)%nat ->
      exists b, ext_bits_body data lsb (i + Z.of_nat k) b <> None.
Proof.
  induction n as [|n IH]; intros i bits r H k Hk; [lia|].
  cbn [ext_bits_loop] in H.
  destruct (ext_bits_body data lsb i bits) as [bits'|] eqn:Eb; [|discriminate H].
  destruct k as [|k].
  - exists bits. change (Z.of_nat 0) with 0. rewrite Z.add_0_r, Eb. discriminate.
  - destruct (IH _ _ _ H k ltac:(lia)) as (b & Hb). exists b.
    replace (i + Z.of_nat (S k)) with (i + 1 + Z.of_nat k) by lia. exact Hb.
Qed.

Lemma ext_bits_body_wide (data : list Z) (lsb i b : Z) :
  32 <= i -> ext_bits_body data lsb i b = None.
Proof.
  intros Hi. unfold ext_bits_body. cbv zeta.
  destruct (nth_error data _); [|reflexivity].
  destruct (Z.leb_spec 32 i); [reflexivity | lia].
Qed.

Lemma ext_bits_body_outside (data : list Z) (lsb i b : Z) :
  length data = 16%nat -> 128 <= lsb + i < 2 ^ 31 ->
  ext_bits_body data lsb i b = None.
Proof.
  intros Hlen Hp. unfold ext_bits_body. cbv zeta.
  assert (Hpos : u32 (lsb + i) = lsb + i).
  { apply u32_small. change (2 ^ 31) with 2147483648 in Hp.
    change (2 ^ 32) with 4294967296. lia. }
  rewrite Hpos. rewrite Z.shiftr_div_pow2 by lia. change (2 ^ 3) with 8.
  assert (Hbyte : 16 <= u32 (15 - (lsb + i) / 8)).
  { unfold u32. change (2 ^ 31) with 2147483648 in Hp.
    change (2 ^ 32) with 4294967296.
    rewrite <- (Z.mod_add _ 1) by lia. rewrite Z.mod_small;
      Z.div_mod_to_equations; lia. }
  assert (Hnone : nth_error data (Z.to_nat (u32 (15 - (lsb + i) / 8))) = None).
  { apply nth_error_None. lia. }
  rewrite Hnone. reflexivity.
Qed.

(** X28. The bit ranges [ext_bits] may be asked for.  On a 16-byte
    register and for 0 <= lsb <= msb, the C function has a defined result
    exactly when the range lies within the register (msb at most 127) and is
    at most 32 bits wide; outside of that it reads beyond the register or
    shifts a 32-bit value by 32 or more. *)
Theorem ext_bits_defined_range (data : list Z) (msb lsb : Z) :
  is_register data -> 0 <= lsb -> lsb <= msb -> msb < 2 ^ 31 ->
  (ext_bits data msb lsb <> None <-> msb <= 127 /\ 1 + msb - lsb <= 32).
Proof.
  intros Hreg H0 Hle Hm. split.
  - intros Hdef.
    destruct (ext_bits data msb lsb) as [r|] eqn:E; [|contradiction].
    unfold ext_bits in E. cbv zeta in E.
    assert (Hs : u32 (1 + msb - lsb) = 1 + msb - lsb).
    { apply u32_small. change (2 ^ 31) with 2147483648 in Hm.
      change (2 ^ 32) with 4294967296. lia. }
    rewrite Hs in E.
    pose proof (ext_bits_loop_defined data lsb _ 0 0 r E) as Hall.
    split.
    + destruct (Z.le_gt_cases msb 127) as [|Hout]; [assumption|]. exfalso.
      destruct (Hall (Z.to_nat (msb - lsb)) ltac:(lia)) as (b & Hb).
      apply Hb. apply ext_bits_body_outside; [exact (proj1 Hreg)|].
      rewrite Z2Nat.id by lia. lia.
    + destruct (Z.le_gt_cases (1 + msb - lsb) 32) as [|Hwide]; [assumption|].
      exfalso.
      destruct (Hall 32%nat ltac:(lia)) as (b & Hb).
      apply Hb. apply ext_bits_body_wide. simpl. lia.
  - intros [H127 Hw]. rewrite (ext_bits_spec data msb lsb Hreg H0 Hle H127 Hw).
    discriminate.
Qed.

Lemma ext_bits_defined_range_witness :
  is_register csd_sample /\
  (ext_bits csd_sample 130 126 <> None <-> 130 <= 127 /\ 1 + 130 - 126 <= 32).
Proof.
  assert (H : is_register csd_sample).
  { split; [reflexivity|]. repeat constructor; discriminate. }
  split; [exact H|].
  assert (H1 : 0 <= 126) by lia. assert (H2 : 126 <= 130) by lia.
  assert (H3 : 130 < 2 ^ 31) by reflexivity.
  exact (ext_bits_defined_range csd_sample 130 126 H H1 H2 H3).
Defined.

(** ** Whole requests on a scripted card *)

Lemma cmdx_poll_scripted (idle : Z) (polls : list Z) (r : Z) (s : list Z) :
  Forall (fun b => high_bit_set (u8 b)) polls -> 0 <= r < 128 ->
  forall (n : nat) (w : world (list Z)),
    on_script idle (polls ++ r :: s) w -> (length polls < n)%nat ->
    exists w', _cmdx_poll n w = Ok r w' /\
               sees (repeat 0xFF (length polls + 1)) [] idle s w w'.
Proof.
  intros Hp Hr. induction Hp as [|b polls Hb Hp IH]; intros n w Hw Hn;
    (destruct n as [|n]; [simpl in Hn; lia|]);
    cbn [_cmdx_poll app length repeat Nat.add] in *.
  - scripted (read_write_sees idle 0xFF r _ w Hw) w1 S1.
    rewrite (u8_byte r) by (unfold is_byte; lia).
    rewrite (high_bit_clear r Hr). change (0 =? 0) with true. cbv iota.
    exists w1. split; [reflexivity | exact S1].
  - scripted (read_write_sees idle 0xFF b _ w Hw) w1 S1.
    destruct (Z.eqb_spec (Z.land (u8 b) 0x80) 0) as [Hz|_]; [contradiction|].
    destruct (IH n w1 (proj1 S1) ltac:(lia)) as (w2 & E2 & S2).
    exists w2. split; [exact E2|].
    exact (sees_trans [u8 0xFF] _ [] _ _ _ _ _ _ _ S1 S2).
Qed.

Lemma cmdx_scripted (idle cmd arg : Z) (fr polls : list Z) (r : Z)
      (s : list Z) (w : world (list Z)) :
  length fr = 6%nat -> Forall (fun b => high_bit_set (u8 b)) polls ->
  0 <= r < 128 -> (length polls < SD_COMMAND_TIMEOUT)%nat ->
  on_script idle (fr ++ polls ++ r :: s) w ->
  exists w', _cmdx cmd arg w = Ok r w' /\
             sees (frame_bytes cmd arg ++ repeat 0xFF (length polls + 1)) [1]
                  idle s w w'.
Proof.
  intros Hfr Hp Hr Hn Hw.
  destruct fr as [|b0 [|b1 [|b2 [|b3 [|b4 [|b5 [|]]]]]]]; try discriminate Hfr.
  cbn [app] in Hw. unfold _cmdx.
  rewrite (bind_Ok (modify (log (EvCommand cmd arg))) _ w _ tt eq_refl).
  pose proof (log_sees idle _ (EvCommand cmd arg) w eq_refl Hw) as S0.
  scripted (hal_cs_sees idle 1 _ _ (proj1 S0)) w1 S1.
  scripted (read_write_sees idle (Z.lor 0x40 cmd) b0 _ w1 (proj1 S1)) w2 S2.
  scripted (read_write_sees idle (Z.shiftr arg 24) b1 _ w2 (proj1 S2)) w3 S3.
  scripted (read_write_sees idle (Z.shiftr arg 16) b2 _ w3 (proj1 S3)) w4 S4.
  scripted (read_write_sees idle (Z.shiftr arg 8) b3 _ w4 (proj1 S4)) w5 S5.
  scripted (read_write_sees idle (Z.shiftr arg 0) b4 _ w5 (proj1 S5)) w6 S6.
  scripted (read_write_sees idle 0x95 b5 _ w6 (proj1 S6)) w7 S7.
  scripted (cmdx_poll_scripted idle polls r s Hp Hr SD_COMMAND_TIMEOUT w7
              (proj1 S7) Hn) w8 S8.
  rewrite (bind_Ok (modify (log (EvResponse cmd r))) _ w8 _ tt eq_refl).
  pose proof (log_sees idle _ (EvResponse cmd r) w8 eq_refl (proj1 S8)) as S9.
  eexists. split; [reflexivity|].
  pose proof (sees_trans _ _ _ _ _ _ _ _ _ _ S0
        (sees_trans _ _ _ _ _ _ _ _ _ _ S1
        (sees_trans _ _ _ _ _ _ _ _ _ _ S2
        (sees_trans _ _ _ _ _ _ _ _ _ _ S3
        (sees_trans _ _ _ _ _ _ _ _ _ _ S4
        (sees_trans _ _ _ _ _ _ _ _ _ _ S5
        (sees_trans _ _ _ _ _ _ _ _ _ _ S6
        (sees_trans _ _ _ _ _ _ _ _ _ _ S7
        (sees_trans _ _ _ _ _ _ _ _ _ _ S8 S9))))))))) as St.
  cbn [app] in St. rewrite app_nil_r in St. exact St.
Qed.

Lemma high_filler : Forall (fun b => high_bit_set (u8 b)) [0xFF].
Proof. repeat constructor. discriminate. Qed.

Lemma no_token_filler : Forall (fun b => u8 b <> 0xFE) [0xFF].
Proof. repeat constructor. discriminate. Qed.

(** The capacity query on a card that answers as in [reply_capacity]. *)
Lemma disk_capacity_scripted (idle : Z) (csd rest : list Z) (fuel : nat)
      (w : world (list Z)) :
  length csd = 16%nat -> (2 <= fuel)%nat ->
  on_script idle (reply_capacity csd ++ rest) w ->
  exists w',
    disk_capacity fuel w = Ok (reported_capacity (map u8 csd) (_sectors w)) w' /\
    sees (frame_bytes 9 0 ++ repeat 0xFF 2 ++ repeat 0xFF (1 + 1 + 16 + 3))
         [1; 1; 0] idle rest w w' /\
    same_statics w w'.
Proof.
  intros Hlen Hf Hw.
  assert (Hs : reply_capacity csd ++ rest =
               during_frame ++ [0xFF] ++ 0 ::
               ([0xFF] ++ 0xFE :: csd ++ 0xFF :: 0xFF :: 0xFF :: rest)).
  { unfold reply_capacity, reply_cmdx, reply_read.
    rewrite <- !app_assoc. reflexivity. }
  rewrite Hs in Hw.
  destruct (cmdx_scripted idle 9 0 during_frame [0xFF] 0 _ w eq_refl high_filler
              ltac:(lia) SD_COMMAND_TIMEOUT_gt_1 Hw) as (w1 & E1 & S1).
  destruct (read_scripted idle [0xFF] csd 0xFF 0xFF 0xFF rest fuel w1
              no_token_filler ltac:(simpl; lia) (proj1 S1)) as (w2 & E2 & S2).
  rewrite Hlen in E2, S2. change (Z.of_nat 16) with 16 in E2.
  exists w2. split; [|split].
  - exact (disk_capacity_after_capture fuel w w1 w2 0 (map u8 csd) E1 E2).
  - pose proof (sees_trans _ _ _ _ _ _ _ _ _ _ S1 S2) as St.
    rewrite <- app_assoc in St. exact St.
  - exact (same_statics_trans _ _ _ (same_statics_cmdx _ _ _ _ _ E1)
             (same_statics_read _ _ _ _ _ E2)).
Qed.

Lemma area_valid_scripted (idle : Z) (csd rest : list Z) (fuel : nat)
      (offset size : Z) (w : world (list Z)) :
  length csd = 16%nat -> (2 <= fuel)%nat ->
  0 <= offset -> 0 <= size -> offset + size < 2 ^ 63 ->
  offset + size <= reported_capacity (map u8 csd) (_sectors w) ->
  on_script idle (reply_capacity csd ++ rest) w ->
  exists w',
    isValidMSDArea fuel offset size w = Ok true w' /\
    sees (frame_bytes 9 0 ++ repeat 0xFF 2 ++ repeat 0xFF (1 + 1 + 16 + 3))
         [1; 1; 0] idle rest w w' /\
    same_statics w w'.
Proof.
  intros Hlen Hf Ho Hz Hfit Hcap Hw.
  destruct (disk_capacity_scripted idle csd rest fuel w Hlen Hf Hw)
    as (w' & E & St & Ss).
  exists w'. split; [|split; assumption].
  unfold isValidMSDArea. cbv zeta.
  rewrite (s64_small (offset + size)) by lia.
  destruct (Z.geb_spec offset 0); [|lia].
  destruct (Z.geb_spec size 0); [|lia].
  destruct (Z.geb_spec (offset + size) offset); [|lia]. cbn [andb].
  rewrite (bind_Ok _ _ _ _ _ E). unfold ret.
  destruct (Z.leb_spec (offset + size) (reported_capacity (map u8 csd) (_sectors w)));
    [reflexivity | lia].
Qed.

Lemma disk_write_accepted_scripted (idle b : Z) (buffer fr polls : list Z)
      (f : Z) (echo : list Z) (token nz f' : Z) (q : nat) (rest : list Z)
      (fuel : nat) (w : world (list Z)) :
  _is_initialized w <> 0 -> 0 <= b < 2 ^ 32 - 1 ->
  length fr = 6%nat -> Forall (fun b => high_bit_set (u8 b)) polls ->
  (length polls < SD_COMMAND_TIMEOUT)%nat ->
  (512 <= length buffer)%nat -> length echo = 515%nat ->
  Z.land (u8 token) 0x1F = 0x05 -> u8 nz <> 0 -> (q < fuel)%nat ->
  on_script idle (fr ++ polls ++ 0 :: f ::
                  echo ++ token :: repeat 0 q ++ nz :: f' :: rest) w ->
  exists w',
    disk_write fuel buffer b 1 w = Ok 0 w' /\
    sees (frame_bytes 24 (s32 (u32 (b * _cdv w))) ++
          repeat 0xFF (length polls + 2) ++
          0xFE :: map u8 (firstn 512 buffer) ++ repeat 0xFF (3 + (q + 1) + 1))
         [1; 0; 1; 0] idle rest w w'.
Proof.
  intros Hi Hb Hfr Hp Hn Hbuf He Htok Hnz Hf Hw.
  unfold disk_write.
  rewrite (bind_Ok (get _is_initialized) _ w w _ eq_refl).
  destruct (Z.eqb_spec (_is_initialized w) 0) as [|_]; [contradiction|].
  rewrite (u32_small b) by lia.
  rewrite (s64_small (b + 1))
    by (split; [lia | apply Z.lt_trans with (2 ^ 32); [lia | reflexivity]]).
  destruct fuel as [|n]; [lia|]. cbn [disk_write_loop].
  destruct (Z.ltb_spec b (b + 1)) as [_|]; [|lia].
  rewrite (bind_Ok (get _cdv) _ w w _ eq_refl).
  scripted (cmd_scripted idle 24 (s32 (u32 (b * _cdv w))) fr polls 0 f _ w
              Hfr Hp ltac:(lia) Hn Hw) w1 S1.
  change (negb (0 =? 0)) with false. cbv iota.
  change BLOCK_SIZE with (Z.of_nat 512).
  scripted (write_accepted_scripted idle buffer echo 512 token nz f' q rest (S n)
              w1 Hbuf He Htok Hnz Hf (proj1 S1)) w2 S2.
  rewrite (u32_small (b + 1)) by lia.
  assert (Hdone : disk_write_loop n (S n) (b + 1) (b + 1)
                    (skipn (Z.to_nat (Z.of_nat 512)) buffer) w2 = Ok 0 w2).
  { destruct n; cbn [disk_write_loop]; rewrite Z.ltb_irrefl; reflexivity. }
  rewrite Hdone. exists w2. split; [reflexivity|].
  pose proof (sees_trans _ _ _ _ _ _ _ _ _ _ S1 S2) as St.
  rewrite <- app_assoc in St. exact St.
Qed.

Lemma script_block_read (data tail : list Z) :
  (reply_cmd 0 ++ reply_read data) ++ tail =
  during_frame ++ [0xFF] ++ 0 :: 0xFF ::
  [0xFF] ++ 0xFE :: data ++ 0xFF :: 0xFF :: 0xFF :: tail.
Proof. unfold reply_cmd, reply_read. rewrite <- !app_assoc. reflexivity. Qed.

Lemma script_block_write (tail : list Z) :
  reply_block_write ++ tail =
  during_frame ++ [0xFF] ++ 0 :: 0xFF ::
  repeat 0xFF 515 ++ 0x05 :: repeat 0 1 ++ 0xFF :: 0xFF :: tail.
Proof.
  unfold reply_block_write, reply_cmd, reply_write.
  rewrite <- !app_assoc. reflexivity.
Qed.

Lemma aligned_sector (k : Z) :
  0 <= k < 2 ^ 32 - 1 ->
  u32 (Z.quot (k * 512) disk_block_size) = k /\
  nbr_of_bytes (k * 512) k 512 = 512 /\ k * 512 - k * disk_block_size = 0.
Proof.
  intros Hk. unfold disk_block_size, BLOCK_SIZE.
  rewrite Z.quot_mul by lia. split; [apply u32_small; lia|].
  split; [|lia]. unfold nbr_of_bytes, disk_block_size, BLOCK_SIZE.
  rewrite Z.sub_diag. reflexivity.
Qed.

Lemma splice_front (blk src : list Z) (n : nat) :
  length src = n ->
  splice blk 0 src = src ++ skipn n blk /\
  firstn n (splice blk 0 src) = src /\ (n <= length (splice blk 0 src))%nat.
Proof.
  intros Hn. unfold splice. change (Z.to_nat 0) with 0%nat.
  cbn [firstn app Nat.add]. rewrite Hn. split; [reflexivity|]. split.
  - rewrite firstn_app, Hn, Nat.sub_diag. cbn [firstn].
    rewrite app_nil_r. rewrite <- Hn. apply firstn_all.
  - rewrite length_app. lia.
Qed.

Lemma write_remaining_nothing_left {D} (fuel : nat) (bw sector : Z)
      (buffer block : list Z) (w : world D) :
  write_remaining fuel fuel 0 bw sector buffer block w
  = Ok (inr (0, bw, sector, buffer, block)) w.
Proof. destruct fuel; reflexivity. Qed.

Lemma read_remaining_nothing_left {D} (fuel : nat) (br sector : Z)
      (block : list Z) (w : world D) :
  read_remaining fuel fuel 0 br sector block w
  = Ok (inr (0, br, sector, block)) w.
Proof. destruct fuel; reflexivity. Qed.

(** X29. A write of one whole, aligned block, end to end.  On an
    initialised session, with a card that accepts everything, a write
    request for the 512 bytes of sector [k] succeeds and reports 512 bytes.
    On the bus it is: the capacity query of the bounds check (CMD9 and the
    16 register bytes), a read of sector [k] with CMD17 although every byte
    of the block is about to be replaced, and CMD24 for the same sector
    followed by a data block that carries exactly the first 512 bytes of the
    dataport. *)
Theorem aligned_block_write (idle k : Z) (csd data rest : list Z) (fuel : nat)
        (w : world (list Z)) :
  init_ok w = true -> _is_initialized w <> 0 ->
  0 <= k < 2 ^ 32 - 1 -> length csd = 16%nat -> length data = 512%nat ->
  (512 <= length (port_storage w))%nat ->
  k * 512 + 512 <= reported_capacity (map u8 csd) (_sectors w) ->
  (2 <= fuel)%nat ->
  on_script idle (reply_capacity csd ++ (reply_cmd 0 ++ reply_read data) ++
                  reply_block_write ++ rest) w ->
  exists w',
    storage_rpc_write fuel (k * 512) 512 w = Ok (mk_rpc OS_SUCCESS 512 512) w' /\
    sees ((frame_bytes 9 0 ++ repeat 0xFF 2 ++ repeat 0xFF (1 + 1 + 16 + 3)) ++
          (frame_bytes 17 (s32 (u32 (k * _cdv w))) ++ repeat 0xFF 3 ++
           repeat 0xFF (1 + 1 + 512 + 3)) ++
          frame_bytes 24 (s32 (u32 (k * _cdv w))) ++ repeat 0xFF 3 ++
          0xFE :: map u8 (firstn 512 (port_storage w)) ++ repeat 0xFF 6)
         ([1; 1; 0] ++ [1; 0; 1; 0] ++ [1; 0; 1; 0]) idle rest w w'.
Proof.
  intros Hok Hi Hk Hcsd Hdata Hport Hcap Hf Hw.
  destruct (aligned_sector k Hk) as (Hsec & Hnbr & Hoff).
  unfold storage_rpc_write.
  unfold bind at 1. cbn [get]. rewrite Hok. cbn [negb].
  unfold bind at 1. unfold OS_Dataport_getSize at 1. cbn [get].
  assert (Hgt : (512 >? Z.of_nat (length (port_storage w))) = false).
  { rewrite Z.gtb_ltb. apply Z.ltb_ge. lia. }
  rewrite Hgt. rewrite (s64_small 512) by (split; closed_numbers).
  destruct (area_valid_scripted idle csd _ fuel (k * 512) 512 w Hcsd Hf
              ltac:(lia) ltac:(lia)
              ltac:(change (2 ^ 32) with 4294967296 in Hk;
                    change (2 ^ 63) with 9223372036854775808; lia)
              Hcap Hw) as (w1 & E1 & S1 & St1).
  rewrite (bind_Ok _ _ _ _ _ E1). cbn [negb].
  unfold bind at 1. unfold OS_Dataport_getBuf at 1. cbn [get].
  change (512 >? 0) with true. cbv iota. cbv zeta.
  rewrite Hsec, Hnbr, Hoff.
  destruct St1 as (C1 & I1 & _ & _ & _ & P1). rewrite P1.
  pose proof (proj1 S1) as Hw1. rewrite script_block_read in Hw1.
  destruct (disk_read_scripted idle k (repeat 0 (Z.to_nat disk_block_size))
              during_frame [0xFF] 0xFF [0xFF] data 0xFF 0xFF 0xFF _ fuel w1
              ltac:(congruence) Hk eq_refl high_filler SD_COMMAND_TIMEOUT_gt_1
              no_token_filler ltac:(simpl; lia) Hdata Hw1) as (w2 & E2 & S2).
  rewrite (bind_Ok _ _ _ _ _ E2). cbv beta iota.
  change (negb (0 =? 0)) with false. cbv iota.
  change (Z.to_nat 512) with 512%nat.
  assert (Hsrc : length (firstn 512 (port_storage w)) = 512%nat)
    by (rewrite length_firstn; lia).
  destruct (splice_front (map u8 data ++ skipn 512 (repeat 0 (Z.to_nat disk_block_size)))
              (firstn 512 (port_storage w)) 512 Hsrc) as (_ & Hfirst & Hlen).
  assert (St2 : same_statics w1 w2).
  { revert E2. apply (stays_disk_read same_statics);
      [ exact same_statics_refl | exact same_statics_trans
      | exact same_statics_bus | exact same_statics_log ]. }
  destruct St2 as (C2 & I2 & _).
  pose proof (proj1 S2) as Hw2. rewrite script_block_write in Hw2.
  destruct (disk_write_accepted_scripted idle k
              (splice (map u8 data ++ skipn 512 (repeat 0 (Z.to_nat disk_block_size)))
                      0 (firstn 512 (port_storage w)))
              during_frame [0xFF] 0xFF (repeat 0xFF 515) 0x05 0xFF 0xFF 1 rest
              fuel w2 ltac:(congruence) Hk eq_refl high_filler
              SD_COMMAND_TIMEOUT_gt_1 Hlen eq_refl eq_refl ltac:(discriminate)
              ltac:(lia) Hw2) as (w3 & E3 & S3).
  rewrite (bind_Ok _ _ _ _ _ E3).
  change (negb (0 =? 0)) with false. cbv iota.
  change (512 - 512) with 0. change (s32 (0 + 512)) with 512.
  rewrite (bind_Ok _ _ _ _ _ (write_remaining_nothing_left fuel 512 k _ _ w3)).
  change (0 >? 0) with false. cbv iota.
  exists w3. split; [reflexivity|].
  rewrite Hfirst in S3. rewrite C2, C1 in S3. rewrite C1 in S2.
  exact (sees_trans _ _ _ _ _ _ _ _ _ _ S1
           (sees_trans _ _ _ _ _ _ _ _ _ _ S2 S3)).
Qed.

Lemma aligned_block_write_witness :
  exists w',
    storage_rpc_write 2 (3 * 512) 512
      (mk_world (reply_capacity csd_hc_1000 ++
                 (reply_cmd 0 ++ reply_read (repeat 0xA5 512)) ++
                 reply_block_write ++ [])
                [] 1 SDCARD_V2 4195328 (Some (scripted_hal 0xFF)) true dataport_4k)
    = Ok (mk_rpc OS_SUCCESS 512 512) w' /\
    sees ((frame_bytes 9 0 ++ repeat 0xFF 2 ++ repeat 0xFF (1 + 1 + 16 + 3)) ++
          (frame_bytes 17 (s32 (u32 (3 * 1))) ++ repeat 0xFF 3 ++
           repeat 0xFF (1 + 1 + 512 + 3)) ++
          frame_bytes 24 (s32 (u32 (3 * 1))) ++ repeat 0xFF 3 ++
          0xFE :: map u8 (firstn 512 dataport_4k) ++ repeat 0xFF 6)
         ([1; 1; 0] ++ [1; 0; 1; 0] ++ [1; 0; 1; 0]) 0xFF []
         (mk_world (reply_capacity csd_hc_1000 ++
                    (reply_cmd 0 ++ reply_read (repeat 0xA5 512)) ++
                    reply_block_write ++ [])
                   [] 1 SDCARD_V2 4195328 (Some (scripted_hal 0xFF)) true
                   dataport_4k) w'.
Proof.
  assert (H1 : SDCARD_V2 <> 0) by discriminate.
  assert (H2 : 0 <= 3 < 2 ^ 32 - 1) by (split; closed_numbers).
  assert (H3 : (512 <= length dataport_4k)%nat)
    by (apply Nat.leb_le; vm_compute; reflexivity).
  assert (H4 : 3 * 512 + 512 <= reported_capacity (map u8 csd_hc_1000) 4195328)
    by closed_numbers.
  exact (aligned_block_write 0xFF 3 csd_hc_1000 (repeat 0xA5 512) [] 2
           (mk_world (reply_capacity csd_hc_1000 ++
                      (reply_cmd 0 ++ reply_read (repeat 0xA5 512)) ++
                      reply_block_write ++ [])
                     [] 1 SDCARD_V2 4195328 (Some (scripted_hal 0xFF)) true
                     dataport_4k)
           eq_refl H1 H2 eq_refl (repeat_length 0xA5 512) H3 H4 (le_n 2)
           (conj eq_refl eq_refl)).
Defined.

Lemma sees_set_port (txs css : list Z) (idle : Z) (s p : list Z)
      (w w' : world (list Z)) :
  sees txs css idle s w w' -> sees txs css idle s w (set_port_storage p w').
Proof. intros (H & T & C). split; [exact H|]. split; assumption. Qed.

(** X30. A read of one whole, aligned block, end to end.  On an
    initialised session, with a card that answers the capacity query and
    CMD17 for sector [k] and sends a block, a read request for the 512 bytes
    of that sector succeeds and reports 512 bytes; afterwards the first 512
    bytes of the dataport are exactly the bytes the card sent, in order, and
    the rest of the dataport is as it was.  Nothing is written to the
    card. *)
Theorem aligned_block_read (idle k : Z) (csd data rest : list Z) (fuel : nat)
        (w : world (list Z)) :
  init_ok w = true -> _is_initialized w <> 0 ->
  0 <= k < 2 ^ 32 - 1 -> length csd = 16%nat -> length data = 512%nat ->
  (512 <= length (port_storage w))%nat ->
  k * 512 + 512 <= reported_capacity (map u8 csd) (_sectors w) ->
  (2 <= fuel)%nat ->
  on_script idle (reply_capacity csd ++ (reply_cmd 0 ++ reply_read data) ++ rest) w ->
  exists w',
    storage_rpc_read fuel (k * 512) 512 w = Ok (mk_rpc OS_SUCCESS 512 512) w' /\
    port_storage w' = map u8 data ++ skipn 512 (port_storage w) /\
    sees ((frame_bytes 9 0 ++ repeat 0xFF 2 ++ repeat 0xFF (1 + 1 + 16 + 3)) ++
          frame_bytes 17 (s32 (u32 (k * _cdv w))) ++ repeat 0xFF 3 ++
          repeat 0xFF (1 + 1 + 512 + 3))
         ([1; 1; 0] ++ [1; 0; 1; 0]) idle rest w w'.
Proof.
  intros Hok Hi Hk Hcsd Hdata Hport Hcap Hf Hw.
  destruct (aligned_sector k Hk) as (Hsec & Hnbr & Hoff).
  unfold storage_rpc_read.
  unfold bind at 1. cbn [get]. rewrite Hok. cbn [negb].
  unfold bind at 1. unfold OS_Dataport_getSize at 1. cbn [get].
  assert (Hgt : (512 >? Z.of_nat (length (port_storage w))) = false).
  { rewrite Z.gtb_ltb. apply Z.ltb_ge. lia. }
  rewrite Hgt. rewrite (s64_small 512) by (split; closed_numbers).
  destruct (area_valid_scripted idle csd _ fuel (k * 512) 512 w Hcsd Hf
              ltac:(lia) ltac:(lia)
              ltac:(change (2 ^ 32) with 4294967296 in Hk;
                    change (2 ^ 63) with 9223372036854775808; lia)
              Hcap Hw) as (w1 & E1 & S1 & St1).
  rewrite (bind_Ok _ _ _ _ _ E1). cbn [negb].
  change (512 >? 0) with true. cbv iota. cbv zeta.
  rewrite Hsec, Hnbr, Hoff.
  destruct St1 as (C1 & I1 & _ & _ & _ & P1).
  pose proof (proj1 S1) as Hw1. rewrite script_block_read in Hw1.
  destruct (disk_read_scripted idle k (repeat 0 (Z.to_nat disk_block_size))
              during_frame [0xFF] 0xFF [0xFF] data 0xFF 0xFF 0xFF _ fuel w1
              ltac:(congruence) Hk eq_refl high_filler SD_COMMAND_TIMEOUT_gt_1
              no_token_filler ltac:(simpl; lia) Hdata Hw1) as (w2 & E2 & S2).
  rewrite (bind_Ok _ _ _ _ _ E2). cbv beta iota.
  change (negb (0 =? 0)) with false. cbv iota.
  assert (P2 : port_storage w2 = port_storage w1).
  { revert E2.
    apply (stays_disk_read (fun w w' : world (list Z) =>
                              port_storage w' = port_storage w));
      try (intros; reflexivity). intros; congruence. }
  unfold bind at 1. unfold OS_Dataport_getBuf at 1. cbn [get].
  unfold bind at 1. cbn [modify].
  change (512 - 512) with 0. change (s32 (0 + 512)) with 512.
  rewrite (bind_Ok _ _ _ _ _ (read_remaining_nothing_left fuel 512 k _ _)).
  change (0 >? 0) with false. cbv iota.
  eexists. split; [reflexivity|].
  change (Z.to_nat 512) with 512%nat. change (Z.to_nat 0) with 0%nat.
  rewrite skipn_O.
  assert (Hblock : firstn 512 (map u8 data ++
                               skipn 512 (repeat 0 (Z.to_nat disk_block_size)))
                   = map u8 data).
  { assert (Hm : length (map u8 data) = 512%nat)
      by (rewrite length_map; exact Hdata).
    rewrite firstn_app, Hm, Nat.sub_diag, firstn_O, app_nil_r.
    rewrite <- Hm. apply firstn_all. }
  rewrite Hblock. split.
  - cbn [port_storage set_port_storage]. rewrite P2, P1.
    apply (splice_front (port_storage w) (map u8 data) 512).
    rewrite length_map. exact Hdata.
  - apply sees_set_port. rewrite C1 in S2.
    exact (sees_trans _ _ _ _ _ _ _ _ _ _ S1 S2).
Qed.

Lemma aligned_block_read_witness :
  exists w',
    storage_rpc_read 2 (3 * 512) 512
      (mk_world (reply_capacity csd_hc_1000 ++
                 (reply_cmd 0 ++ reply_read (repeat 0xA5 512)) ++ [])
                [] 1 SDCARD_V2 4195328 (Some (scripted_hal 0xFF)) true dataport_4k)
    = Ok (mk_rpc OS_SUCCESS 512 512) w' /\
    port_storage w' = map u8 (repeat 0xA5 512) ++ skipn 512 dataport_4k /\
    sees ((frame_bytes 9 0 ++ repeat 0xFF 2 ++ repeat 0xFF (1 + 1 + 16 + 3)) ++
          frame_bytes 17 (s32 (u32 (3 * 1))) ++ repeat 0xFF 3 ++
          repeat 0xFF (1 + 1 + 512 + 3))
         ([1; 1; 0] ++ [1; 0; 1; 0]) 0xFF []
         (mk_world (reply_capacity csd_hc_1000 ++
                    (reply_cmd 0 ++ reply_read (repeat 0xA5 512)) ++ [])
                   [] 1 SDCARD_V2 4195328 (Some (scripted_hal 0xFF)) true
                   dataport_4k) w'.
Proof.
  assert (H1 : SDCARD_V2 <> 0) by discriminate.
  assert (H2 : 0 <= 3 < 2 ^ 32 - 1) by (split; closed_numbers).
  assert (H3 : (512 <= length dataport_4k)%nat)
    by (apply Nat.leb_le; vm_compute; reflexivity).
  assert (H4 : 3 * 512 + 512 <= reported_capacity (map u8 csd_hc_1000) 4195328)
    by closed_numbers.
  exact (aligned_block_read 0xFF 3 csd_hc_1000 (repeat 0xA5 512) [] 2
           (mk_world (reply_capacity csd_hc_1000 ++
                      (reply_cmd 0 ++ reply_read (repeat 0xA5 512)) ++ [])
                     [] 1 SDCARD_V2 4195328 (Some (scripted_hal 0xFF)) true
                     dataport_4k)
           eq_refl H1 H2 eq_refl (repeat_length 0xA5 512) H3 H4 (le_n 2)
           (conj eq_refl eq_refl)).
Defined.
